(* ===== verification/_CoqProject ===== *)
-Q . S2P
Prelude.v
GoStrings.v
GoIO.v
GoJson.v
DeepCopy.v
GoSort.v
MapSet.v
NetIP.v
Constants.v
MeshService.v
ApiTypes.v
KubeAPI.v
RestClient.v
CliNamespace.v
CliEcnet.v
Spinner.v
CliInstall.v
Preinstall.v
Health.v
CliVersion.v
Bootstrap.v
Informers.v
InformerFactory.v
Kube.v
Multicluster.v
Provider.v
KubeProvider.v
FsmProvider.v
Policy.v
Catalog.v
PipyConf.v
Configurator.v
PipyGen.v
PipyNames.v
PipyRoutes.v
PipyJob.v
RepoClient.v
PipyJson.v
PipySchema.v
PipyPublish.v
PipyOrder.v
PipySystem.v
RepoServer.v
BaseCodebase.v
Broker.v
Wiring.v
InformerSetup.v
Ticker.v
Dataplane.v
BridgeIP.v
BridgeMain.v
ControllerMain.v
Signals.v
WorkerPool.v
Listener.v
ProxyInform.v
Convergence.v
Schemes.v
FakeClient.v
CliTree.v
KubeEvents.v
BridgeSystem.v
