(* ===== verification/Prelude.v ===== *)
(** * ErieCanalNet: a verification development of the ecnet control plane

    ** The program

    ErieCanalNet ([src/pkg/ecnet], [src/cmd/ecnet]) connects the services of
    several Kubernetes clusters. Informers cache the resources of the
    cluster; a catalog computes from services, endpoints, service imports
    and global traffic policies which host names and ports are routed to
    which clusters of endpoints, and with which weights; a generator turns
    that policy into the configuration of a Pipy proxy and publishes it to a
    repository server; a bridge on every node programs eBPF maps with the
    host names and DNS servers. Changes travel from the informers through a
    message broker, which batches them, to listeners that run the generator
    and the bridge job on a worker pool; a ticker resynchronises. Around it
    are the start-up of the processes, their probes, and a command line tool
    that installs, lists and uninstalls control planes and manages the
    namespaces that belong to them.

    ** Files

    Foundations. [Prelude]: machine integers, panics ([outcome]), loops,
    maps in any iteration order ([RangeOrder]), generic lemmas and tactics.
    [GoStrings], [GoIO], [GoSort], [NetIP]: the parts of Go's [strings],
    [strconv], [fmt], [bufio], [sort] and [net] that the sources use.
    [GoJson]: [encoding/json], with the round trip of its documents.
    [MapSet]: the interface of the set library, as a class with laws.
    [Constants], [ApiTypes]: constants, announcement kinds, error codes, and
    the API objects of [src/pkg/ecnet/apis] and of Kubernetes. [DeepCopy]:
    all types of [apis] over a memory of blocks, and their generated copies.

    Resources and providers. [RestClient]: the generated clients
    ([gen/client/*/clientset]) as the requests they send, over a server that
    stores objects at their paths. [Schemes], [FakeClient]: the schemes and
    the generated fakes, over an object tracker with laws. [InformerFactory]: the generated informer
    factories and listers ([gen/client/*/informers], [listers]), as a step
    relation. [InformerSetup]: making and running the informers of a process
    ([k8s/informers]); [Informers]: reading their caches. [Kube]: the Kubernetes controller and host names
    ([k8s/client.go], [k8s/util.go]). [Multicluster]: service imports and
    global traffic policies ([service/multicluster]). [MeshService]:
    [service]. [Provider]: the provider interfaces, with the class of lawful
    endpoint providers; [KubeProvider] and [FsmProvider]: the two providers
    ([service/providers]), which discharge it.

    Policy and configuration. [Policy], [Catalog]: [service/policy] and
    [catalog]. [Configurator]: [configurator]. [PipyConf], [PipyGen]: the
    configuration and its generation ([bridge/ctrlplane/server], [types.go],
    [policy.go], [util.go], [plugin.go], [jobs.go]); the traffic matches
    that two Go maps share are objects of a heap. [PipyNames], [PipyRoutes],
    [PipyJob]: theorems about names, routes and the whole job. [RepoClient],
    [RepoServer]: the repository client, publishing, and the start of the
    control plane server ([pipy/repo/client], [pipy/util],
    [bridge/ctrlplane/server/server.go]). [PipyJson], [PipySchema]: the JSON
    document of a configuration and its type. [PipyPublish], [PipyOrder],
    [PipySystem]: theorems about the job from the catalog to the published
    file, about the order in which maps and sets are visited, and about
    histories of changes and jobs. [BaseCodebase]: the files of the base
    codebase ([pipy/repo/codebase]).

    Events and concurrency. [Broker]: [messaging] with its dispatcher and
    the event handlers of [k8s]. [Wiring]: which informers a process has and
    which handlers it registers. [Ticker], [Listener], [WorkerPool]:
    [ticker], the broadcast listeners and the proxy registry, [workerpool];
    their goroutines are step relations over explicit channels and timers.
    [ProxyInform]: the goroutine of a proxy, the listener and the pub-sub
    library together ([bridge/ctrlplane/server/inform.go]). [Convergence]:
    all parts from a change of a resource to the file of the proxy, as one
    step relation. [KubeEvents]: the processor with the other subscribers of
    the broker ([k8s/announcement_handlers.go], [catalog/catalog.go]).

    Bridge. [Dataplane], [BridgeIP]: the job and the helpers of
    [bridge/dataplane], over an interface of eBPF maps with laws.
    [BridgeSystem]: histories of changes and bridge jobs.
    [BridgeMain]: loading the eBPF programs, the data plane server and the
    process [cmd/ecnet/ecnet-bridge], over a log of what the system is asked
    to do.

    Processes and commands. [Health]: [health], [httpserver], [logger],
    [version] and [k8s/events]. [ControllerMain]: the process
    [cmd/ecnet/ecnet-controller], from its checks to the jobs it serves.
    [Bootstrap], [Preinstall]:
    [cmd/ecnet/ecnet-bootstrap], [cmd/ecnet/ecnet-preinstall]. [KubeAPI]:
    the calls of the Kubernetes API and of Helm with their laws, a cluster
    in memory that satisfies them, and the monad of the commands.
    [CliNamespace], [CliEcnet], [CliInstall], [CliVersion]: the commands of
    [cmd/ecnet/cli] and the environment of [pkg/ecnet/cli]. [Spinner]: the
    progress display of an installation ([pkg/ecnet/cli/spinner.go]), with
    its loop and the job it watches as a step relation. [CliTree]: the tree
    of commands and the flags. [Signals]: [signals] and [k8s/portforward.go].

    ** How code is represented

    A Go integer is a [Z], converted to a narrower type with its wrap-around
    ([uint16(z)], [uint64(z)]); a nil pointer is [None] and dereferencing it
    is [Panic]; an error is a value of a sum or an option; a Go map is a
    [gmap] and ranging over it uses an unspecified order. Logging is not
    represented, except for the text that a command prints. Code outside the
    repository is a parameter: stores, set library, clock and timers,
    repository server, eBPF maps, Kubernetes API, REST client, informers,
    pub-sub, Helm, YAML, polling.
    What is assumed of it is a class or a record of laws, each with an
    instance that satisfies it.

    ** What the theorems show

    Routing. The mesh has the imported services and the local ones of the
    same names ([listMeshServices_spec]), made port by port from Kubernetes
    services ([ServiceToMeshServices_spec]). The catalog computes an abstract
    policy of its services ([GetOutboundMeshTrafficPolicy_spec]); the
    generator fills the tables that the proxy reads so that a host name on a
    port, looked up in the host table and then in the rules, leads to exactly
    the clusters of the service that owns the name, without panicking, also
    after balancing and sorting ([outbound_routes_correct],
    [generate_conf_routes], [balance_ready_iff]); weights follow the traffic
    policy ([rebalanced_cluster_weights], [upstream_cluster_weight]), names
    survive being printed and parsed, imported endpoints are those the
    policy admits ([fsm_endpoints_of_import]), and a locality policy hides an
    import. Services are assumed to have names, ports and protocols as
    Kubernetes admits them ([mesh_service_ok]).

    Publishing. The job of a proxy takes the catalog to a file of the repo
    server that parses to a document with exactly the routes, host names and
    endpoints of the catalog ([job_publishes_catalog]), of the type of a
    configuration, in which fields that the code omits when empty may be
    missing ([generated_document_typed]); it follows every history of changes
    ([published_follows_catalog]) and does nothing when it runs again over
    the same services, in whatever order maps are visited
    ([job_rerun_silent]), though a set visited in another order may make it
    publish again ([set_order_republishes]). A controller that starts uploads
    the base codebase and serves such files ([controller_serves]), unless the
    hash of a configuration is 0.

    Resources. The informers of a process follow the right resources, each
    started once ([collection_follows_resources]); the typed clients,
    called with ordinary options, are stores of the objects of their
    namespace, contents and selectors included ([typed_clients_store_objects])
    and the fakes keep the same contract ([fakes_keep_client_contract]);
    factories run each informer once and stop ([informers_run_once],
    [shutdown_quiesces]); copies share nothing with their originals
    ([deep_copies_independent]).

    Events. Every change that an informer reports with its object is
    announced once and changes that matter reach the dispatcher; a deletion
    that was missed is dropped for most resources
    ([resource_changes_announced]). Batching loses nothing, publishes within
    its windows and never waits for a timer in vain
    ([dispatcher_publications], [dispatcher_latency],
    [dispatcher_drains_timers]). Updates reach the proxy once it is
    subscribed ([updates_reach_proxy]), and when no more changes come, all
    parts come to rest with a file that describes the current catalog, if the
    other subscribers of Kubernetes events receive and hashes do not collide
    ([catalog_converges]); the processor waits for ever only for a ticker
    that is blocked ([kube_events_progress]), which it can be
    ([zero_interval_stops_processor]). Listeners deliver, the ticker follows
    the configuration, the pool runs each job once and drains.

    Bridge. After every history of changes, one more job leaves the bridge
    tracking the host names of the last catalog that had an HTTP service, with
    their answers and the DNS servers in the maps ([bridge_follows_catalog]);
    a job that finds no HTTP service prunes nothing
    ([syncDNSResolves_correct]).
    The server is ready exactly when every step of its start succeeded, in
    order ([bridge_start_spec]); only a process that is told to stop unloads
    the programs ([bridge_main_unloads]).

    Processes and commands. Bootstrapping keeps existing configurations
    ([ensureEcnetConfig_spec]) and installs resource definitions; the HTTP
    server can be stopped and started again; adding and removing namespaces
    touch only what they should and undo each other ([namespace_add_spec],
    [namespace_add_remove]); uninstalling removes only what was chosen,
    at a terminal by the answer yes, and asked for ([uninstall_safety],
    [prompts_terminal]); the installation checks decide by labels
    ([preinstall_iff]), which the chart does not use. Installing names the
    release by its flag whatever the options say ([install_names_release]);
    the progress display ends without an error only when the pods of the
    three applications were found ready by an answer of the API server, and
    it keeps polling
    ([spinner_return_sound], [spinner_progress]). The version table misses
    no control plane that answers ([version_reports_all]). An exit signal
    closes the stop channel once ([exit_handler_spec]). No flag or name of a
    command is ambiguous ([cli_tree_unambiguous]).

    Deviations. Some theorems state behaviour that differs from what the
    code or its comments intend, among them [chart_control_planes_unseen],
    [missed_deletions_dropped], [forced_uninstall_other_namespace],
    [prompts_pipe], [bootstrap_missing_namespace], [hostnames_resolve],
    [endpoint_key], [sort_rules_spec], [etag_recorded_without_upload],
    [server_ready_without_base], [ticker_stop_blocks],
    [zero_interval_stops_processor], [ticker_race],
    [listener_can_starve], [spinner_hangs], [spinner_trusts_unscheduled],
    [upgrade_resets_values], [install_name_injects],
    [port_forward_stops_once], [set_order_republishes],
    [inform_can_deadlock].

    ** Bounds and fuel

    Recursion is structural, on lists, strings and the number of tries of a
    prompt. The counter of the loop over the fields of an IPv6 address in
    [NetIP] is the bound of Go's own loop: eight fields of two bytes each.
    Polling for the bridge address consumes the list of reports of the
    kernel. Concurrent parts have no
    bound on their length; theorems about them are invariants of all
    reachable states, or say which steps lead to a goal and that they are
    finitely many. [sort.Sort] is modelled by what it promises for strict
    weak orders and, for at most twelve elements, by the insertion sort that
    Go 1.19 runs.

    ** Not modelled

    The second copy of what is generated twice
    from one template (the client set, the factory and the listers of the
    other group) is the same definition. What [make] does when it loads the
    eBPF programs, and the programs themselves. The text of the embedded
    scripts: data. Drawing the progress display on a terminal.
    Parsing the command line, dialling a pod, and
    metrics. *)

From stdpp Require Export base tactics decidable option list gmap sets strings pretty.
From Stdlib Require Export ZArith Lia.
From Stdlib Require Import Ascii.

#[global] Open Scope Z_scope.

(** ** Machine integers

    A Go integer is a [Z]; a conversion to a narrower unsigned type is
    the remainder modulo the width. *)

Declare Scope go_scope.
Delimit Scope go_scope with go.

Definition uint (w z : Z) : Z := z mod 2 ^ w.

Notation "'uint8' ( z )" := (uint 8 z) (at level 0, z at level 200) : go_scope.
Notation "'uint16' ( z )" := (uint 16 z) (at level 0, z at level 200) : go_scope.
Notation "'uint32' ( z )" := (uint 32 z) (at level 0, z at level 200) : go_scope.
Notation "'uint64' ( z )" := (uint 64 z) (at level 0, z at level 200) : go_scope.
#[global] Open Scope go_scope.

(** Wrap-around of a signed type. *)
Definition sint (w z : Z) : Z := (z + 2 ^ (w - 1)) mod 2 ^ w - 2 ^ (w - 1).

Definition fits (w z : Z) : Prop := 0 <= z < 2 ^ w.

#[global] Instance fits_dec w z : Decision (fits w z).
Proof. unfold fits. apply _. Defined.

Create HintDb ecnet discriminated.

Lemma uint_bound w z : 0 <= w -> fits w (uint w z).
Proof. intros Hw. apply Z.mod_pos_bound. by apply Z.pow_pos_nonneg. Qed.

Lemma uint_id w z : fits w z -> uint w z = z.
Proof. intros H. by apply Z.mod_small. Qed.

Lemma uint_idemp w z : 0 <= w -> uint w (uint w z) = uint w z.
Proof. intros Hw. by apply uint_id, uint_bound. Qed.

Lemma uint_add_l w a b : uint w (uint w a + b) = uint w (a + b).
Proof. unfold uint. by rewrite Zplus_mod_idemp_l. Qed.

Lemma sint_id w z : 0 < w -> - 2 ^ (w - 1) <= z < 2 ^ (w - 1) -> sint w z = z.
Proof.
  intros Hw Hz. unfold sint. rewrite Z.mod_small; [lia|].
  replace (2 ^ w) with (2 * 2 ^ (w - 1)); [lia|].
  rewrite <- Z.pow_succ_r by lia. f_equal. lia.
Qed.

Lemma sint_add_l w a b : 0 < w -> sint w (sint w a + b) = sint w (a + b).
Proof.
  intros Hw. unfold sint. f_equal.
  replace ((a + 2 ^ (w - 1)) mod 2 ^ w - 2 ^ (w - 1) + b + 2 ^ (w - 1))
    with ((a + 2 ^ (w - 1)) mod 2 ^ w + b) by lia.
  rewrite Zplus_mod_idemp_l. f_equal. lia.
Qed.

#[export] Hint Resolve uint_bound uint_id : ecnet.

(** ** Panics

    A Go expression that dereferences a nil pointer panics. [outcome]
    keeps that apart from every value the code returns. *)

Inductive outcome (A : Type) : Type :=
| Ret (a : A)
| Panic.
Arguments Ret {A} a.
Arguments Panic {A}.

#[global] Instance outcome_ret : MRet outcome := @Ret.

#[global] Instance outcome_bind : MBind outcome :=
  fun A B f m => match m with Ret a => f a | Panic => Panic end.

Definition returns {A} (m : outcome A) : Prop := exists a, m = Ret a.

(** Dereferencing a Go pointer. *)
Definition deref {A} (p : option A) : outcome A :=
  match p with Some a => Ret a | None => Panic end.

(** A [for range] loop over a slice whose body updates [s] and may
    panic. *)
Fixpoint for_range {A S : Type} (f : S -> A -> outcome S) (s : S) (l : list A)
  : outcome S :=
  match l with
  | [] => Ret s
  | a :: l' => match f s a with Ret s' => for_range f s' l' | Panic => Panic end
  end.

Lemma for_range_app {A S} (f : S -> A -> outcome S) s l1 l2 :
  for_range f s (l1 ++ l2) = (s' ← for_range f s l1; for_range f s' l2).
Proof.
  revert s. induction l1 as [|a l1 IH]; intros s; [done|].
  simpl. by destruct (f s a).
Qed.

(** The loop rule: an invariant over the elements already visited. *)
Lemma for_range_inv {A S} (f : S -> A -> outcome S) (I : list A -> S -> Prop) s l :
  I [] s ->
  (forall pre a post st, l = pre ++ a :: post -> I pre st ->
     exists st', f st a = Ret st' /\ I (pre ++ [a]) st') ->
  exists s', for_range f s l = Ret s' /\ I l s'.
Proof.
  intros H0 Hstep.
  assert (forall pre post st, l = pre ++ post -> I pre st ->
            exists s', for_range f st post = Ret s' /\ I l s') as Hgen.
  { intros pre post. revert pre. induction post as [|a post IH]; intros pre st Hl Hi.
    - exists st. rewrite app_nil_r in Hl. by subst.
    - destruct (Hstep pre a post st Hl Hi) as (st' & Hf & Hi').
      simpl. rewrite Hf. apply (IH (pre ++ [a])); [|done].
      by rewrite <- app_assoc. }
  by apply (Hgen [] l s).
Qed.

(** The same rule for loops that cannot panic. *)
Lemma foldl_inv {A S} (f : S -> A -> S) (I : list A -> S -> Prop) s l :
  I [] s ->
  (forall pre a post st, l = pre ++ a :: post -> I pre st -> I (pre ++ [a]) (f st a)) ->
  I l (foldl f s l).
Proof.
  intros H0 Hstep.
  destruct (for_range_inv (fun st a => Ret (f st a)) I s l H0) as (s' & Hf & Hi).
  { intros pre a post st Hl Hi. eauto. }
  replace (foldl f s l) with s'; [done|].
  revert Hf. clear. revert s. induction l as [|a l IH]; intros s; simpl.
  - by intros [= ->].
  - apply IH.
Qed.

(** What every step keeps, a loop keeps. *)
Lemma for_range_keeps {A S} (P : S -> Prop) (f : S -> A -> outcome S) s l s' :
  (forall st a st', P st -> f st a = Ret st' -> P st') ->
  P s -> for_range f s l = Ret s' -> P s'.
Proof.
  intros Hstep. revert s. induction l as [|a l IH]; intros s Hs; simpl; [by intros [= <-]|].
  destruct (f s a) as [s1|] eqn:E; [|done]. apply IH. by eapply Hstep.
Qed.

Lemma foldl_keeps {A S} (P : S -> Prop) (f : S -> A -> S) s l :
  (forall st a, P st -> P (f st a)) -> P s -> P (foldl f s l).
Proof. intros Hstep Hs. apply (foldl_inv f (fun _ => P)); [done|]. auto. Qed.

(** ** Iterating over a Go map

    [range] over a map visits every entry once in an unspecified order.
    The order is a parameter of the definitions that range over a map, so
    the theorems hold for every order. *)

Class RangeOrder : Type := {
  range : forall {K V : Type} `{Countable K}, gmap K V -> list (K * V);
  range_perm : forall {K V : Type} `{Countable K} (m : gmap K V),
    range m ≡ₚ map_to_list m
}.

(** One order, used where a concrete run is evaluated. *)
Definition any_order : RangeOrder := {|
  range := fun K V _ _ m => map_to_list m;
  range_perm := fun K V _ _ m => Permutation_refl (map_to_list m)
|}.

Section RangeFacts.
Context `{!RangeOrder} {K V : Type} `{Countable K}.

Lemma elem_of_range (m : gmap K V) k v : (k, v) ∈ range m <-> m !! k = Some v.
Proof. rewrite range_perm. apply elem_of_map_to_list. Qed.

Lemma NoDup_range_fst (m : gmap K V) : NoDup (range m).*1.
Proof. rewrite range_perm. apply NoDup_fst_map_to_list. Qed.

Lemma elem_of_range_keys (m : gmap K V) k : k ∈ (range m).*1 <-> k ∈ dom m.
Proof.
  rewrite elem_of_dom, list_elem_of_fmap. split.
  - intros ([k' v] & -> & Hin). rewrite elem_of_range in Hin. by eexists.
  - intros [v Hv]. exists (k, v). split; [done|]. by rewrite elem_of_range.
Qed.

Lemma range_empty : range (∅ : gmap K V) = [].
Proof.
  apply Permutation_nil. rewrite <- (map_to_list_empty (K:=K) (A:=V)).
  symmetry. apply range_perm.
Qed.

(** A loop that builds a map from the entries of another, keeping those
    that pass a test. *)
Lemma range_build {B} (m : gmap K V) (keep : V -> bool) (g : V -> B) k :
  foldl (fun acc '(k, v) => if keep v then <[k := g v]> acc else acc) (∅ : gmap K B) (range m) !! k =
  match m !! k with
  | Some v => if keep v then Some (g v) else None
  | None => None
  end.
Proof.
  pose proof (NoDup_range_fst m) as Hnd.
  assert (forall x, foldl (fun acc '(k, v) => if keep v then <[k := g v]> acc else acc) (∅ : gmap K B) (range m) !! k
            = Some x <-> exists v, (k, v) ∈ range m /\ keep v = true /\ x = g v) as Hx.
  { apply (foldl_inv _ (fun pre (acc : gmap K B) => forall x, acc !! k = Some x <->
      exists v, (k, v) ∈ pre /\ keep v = true /\ x = g v)).
    - intros x. rewrite lookup_empty. split; [done|]. by intros (v & []%not_elem_of_nil & _).
    - intros pre [k' v'] post acc Hl IH x. rewrite Hl, fmap_app in Hnd.
      apply NoDup_app in Hnd as (_ & Hd & _).
      assert (forall v, (k, v) ∈ pre -> k <> k') as Hne.
      { intros v Hv ->. apply (Hd k'); [by apply (list_elem_of_fmap_2 fst) in Hv|].
        rewrite fmap_cons. apply list_elem_of_here. }
      setoid_rewrite elem_of_app. setoid_rewrite list_elem_of_singleton.
      destruct (keep v') eqn:Ek.
      + rewrite lookup_insert_Some, IH. split.
        * intros [[-> <-]|[_ (v & ? & ?)]]; eauto.
        * intros (v & [Hv|[= -> ->]] & Hk & ->); [right|by left]. split; [by intros ->; eapply Hne|eauto].
      + rewrite IH. split; [naive_solver|]. intros (v & [Hv|[= -> ->]] & Hk & ->); [eauto|congruence]. }
  destruct (m !! k) as [v|] eqn:E.
  - destruct (keep v) eqn:Ek.
    + apply Hx. exists v. by rewrite elem_of_range.
    + apply eq_None_not_Some. intros [x (v' & Hv' & Hk & _)%Hx].
      apply elem_of_range in Hv'. congruence.
  - apply eq_None_not_Some. intros [x (v' & Hv' & _)%Hx]. apply elem_of_range in Hv'. congruence.
Qed.

End RangeFacts.

(** ** Lists and options the components share *)

(** [len(x) > 0] on a Go slice. *)
Definition nonempty {A} (l : list A) : bool :=
  match l with [] => false | _ => true end.

Lemma nonempty_true {A} (l : list A) : nonempty l = true <-> l <> [].
Proof. by destruct l. Qed.

(** First element on which [f] answers. *)
Fixpoint first_some {A B} (f : A -> option B) (l : list A) : option B :=
  match l with
  | [] => None
  | a :: l' => match f a with Some b => Some b | None => first_some f l' end
  end.

Lemma first_some_Some {A B} (f : A -> option B) l b :
  first_some f l = Some b <->
  exists pre a post, l = pre ++ a :: post /\ f a = Some b /\
    Forall (fun x => f x = None) pre.
Proof.
  split.
  - induction l as [|a l IH]; [done|]. simpl. destruct (f a) as [b'|] eqn:E.
    + intros [= ->]. exists [], a, l. by rewrite Forall_nil.
    + intros H. destruct (IH H) as (pre & x & post & -> & Hx & Hpre).
      exists (a :: pre), x, post. by rewrite Forall_cons.
  - intros (pre & a & post & -> & Hf & Hpre). induction Hpre as [|x pre Hx _ IH]; simpl.
    + by rewrite Hf.
    + by rewrite Hx.
Qed.

Lemma first_some_None {A B} (f : A -> option B) l :
  first_some f l = None <-> Forall (fun x => f x = None) l.
Proof.
  induction l as [|a l IH]; simpl; [by rewrite Forall_nil|].
  rewrite Forall_cons. destruct (f a); [naive_solver|]. rewrite IH. naive_solver.
Qed.

Lemma elem_of_omap_first {A B} (f : A -> option B) (l : list A) b :
  b ∈ omap f l <-> exists a, a ∈ l /\ f a = Some b.
Proof. apply list_elem_of_omap. Qed.

Lemma elem_of_lfilter {A} (f : A -> bool) (l : list A) x :
  x ∈ List.filter f l <-> x ∈ l /\ f x = true.
Proof. rewrite !list_elem_of_In. apply filter_In. Qed.

Lemma existsb_elem {A} (f : A -> bool) (l : list A) :
  existsb f l = true <-> exists x, x ∈ l /\ f x = true.
Proof.
  rewrite existsb_exists. split; intros (x & Hx & Hf); exists x; by rewrite list_elem_of_In in *.
Qed.

(** ** Tactics *)

(** Split a conjunction of boolean tests into propositions. *)
Ltac bool_props :=
  repeat match goal with
  | H : andb _ _ = true |- _ => apply andb_true_iff in H as [? ?]
  | H : negb _ = true |- _ => apply negb_true_iff in H
  | H : negb _ = false |- _ => apply negb_false_iff in H
  | H : orb _ _ = false |- _ => apply orb_false_iff in H as [? ?]
  | H : bool_decide _ = true |- _ => apply bool_decide_eq_true in H
  | H : bool_decide _ = false |- _ => apply bool_decide_eq_false in H
  | H : String.eqb _ _ = true |- _ => apply String.eqb_eq in H
  | H : String.eqb _ _ = false |- _ => apply String.eqb_neq in H
  | H : Z.eqb _ _ = true |- _ => apply Z.eqb_eq in H
  | H : Z.eqb _ _ = false |- _ => apply Z.eqb_neq in H
  end.

(** Case on every [match] of the goal, keeping the equations. *)
Ltac split_matches := repeat (case_match; simplify_eq/=; try done).

(** A loop over a mapped slice. *)
Lemma for_range_map {A B S} (f : S -> B -> outcome S) (g : A -> B) s l :
  for_range f s (map g l) = for_range (fun s a => f s (g a)) s l.
Proof.
  revert s. induction l as [|a l IH]; intros s; [done|]. simpl. by destruct (f s (g a)).
Qed.
