(* ===== verification/GoStrings.v ===== *)
(** * Go's [strings], [strconv] and [fmt] as the sources use them

    A Go string is a sequence of bytes, here Stdlib's [string]. Every
    separator the sources split on is an ASCII byte, so splitting by byte
    and by rune agree. [ToLower] and [EqualFold] are the ASCII part of
    Go's functions: Kubernetes object names, protocol names and log levels
    are ASCII. *)

From Stdlib Require Import Ascii String.
From S2P Require Import Prelude.

#[global] Open Scope string_scope.
#[global] Open Scope list_scope.
#[global] Open Scope Z_scope.

#[global] Arguments String.append !_ _ / : simpl nomatch.

(** ** Characters *)

Definition is_digit (c : ascii) : bool :=
  (N.leb 48 (N_of_ascii c) && N.leb (N_of_ascii c) 57)%N.

Definition digit_value (c : ascii) : Z := Z.of_N (N_of_ascii c) - 48.

Definition lower_ascii (c : ascii) : ascii :=
  if (N.leb 65 (N_of_ascii c) && N.leb (N_of_ascii c) 90)%N
  then ascii_of_N (N_of_ascii c + 32) else c.

Fixpoint string_forall (p : ascii -> bool) (s : string) : bool :=
  match s with
  | EmptyString => true
  | String c s' => p c && string_forall p s'
  end.

(** No byte of [s] is a separator of [p]. *)
Definition free_of (p : ascii -> bool) (s : string) : Prop :=
  string_forall (fun c => negb (p c)) s = true.

#[global] Instance free_of_dec p s : Decision (free_of p s).
Proof. unfold free_of. apply _. Defined.

(** ** [strings] *)

Fixpoint ToLower (s : string) : string :=
  match s with
  | EmptyString => EmptyString
  | String c s' => String (lower_ascii c) (ToLower s')
  end.

Definition EqualFold (a b : string) : bool := String.eqb (ToLower a) (ToLower b).

Definition HasPrefix (s p : string) : bool := String.prefix p s.

Definition HasSuffix (s suf : string) : bool :=
  (Nat.leb (String.length suf) (String.length s)
   && String.eqb
        (String.substring (String.length s - String.length suf) (String.length suf) s)
        suf).

Definition TrimPrefix (s p : string) : string :=
  if HasPrefix s p
  then String.substring (String.length p) (String.length s - String.length p) s
  else s.

Definition TrimSuffix (s suf : string) : string :=
  if HasSuffix s suf
  then String.substring 0 (String.length s - String.length suf) s
  else s.

(** [strings.Contains] with a one byte needle. *)
Definition ContainsByte (s : string) (c : ascii) : bool :=
  negb (string_forall (fun x => negb (Ascii.eqb x c)) s).

(** The fields between separators, empty ones included. *)
Fixpoint split_by (p : ascii -> bool) (s : string) : list string :=
  match s with
  | EmptyString => [EmptyString]
  | String c s' =>
      if p c then EmptyString :: split_by p s'
      else match split_by p s' with
           | [] => [String c EmptyString]
           | h :: t => String c h :: t
           end
  end.

(** [strings.Split] with a one byte separator. *)
Definition Split (s : string) (sep : ascii) : list string :=
  split_by (fun c => Ascii.eqb c sep) s.

(** [strings.FieldsFunc]: runs of separators count once and no field is
    empty. *)
Definition FieldsFunc (s : string) (p : ascii -> bool) : list string :=
  List.filter (fun f => negb (String.eqb f EmptyString)) (split_by p s).

Definition Compare (a b : string) : Z :=
  match String.compare a b with Lt => -1 | Eq => 0 | Gt => 1 end.

(** ** [fmt]'s [%d] and [strconv] *)

Definition fmt_d (z : Z) : string := pretty z.

(** [%q] of a string with nothing to escape. *)
Definition fmt_q (s : string) : string :=
  String (ascii_of_nat 34) (s +:+ String (ascii_of_nat 34) EmptyString).

Inductive parse_error := ErrSyntax | ErrRange.

(** [strconv.ParseUint(s, 10, bitSize)]: the value and the error. A value
    out of range is the largest one of the width. *)
Fixpoint parse_uint_go (maxVal n : Z) (s : string) : Z * option parse_error :=
  match s with
  | EmptyString => (n, None)
  | String c s' =>
      if is_digit c then
        let n1 := n * 10 + digit_value c in
        if maxVal <? n1 then (maxVal, Some ErrRange)
        else parse_uint_go maxVal n1 s'
      else (0, Some ErrSyntax)
  end.

Definition ParseUint (s : string) (bitSize : Z) : Z * option parse_error :=
  if String.eqb s EmptyString then (0, Some ErrSyntax)
  else parse_uint_go (2 ^ bitSize - 1) 0 s.

(** ** Splitting and joining *)

Lemma split_by_nonnil p s : split_by p s <> [].
Proof.
  destruct s as [|c s]; simpl; [done|]. destruct (p c); [done|].
  by destruct (split_by p s).
Qed.

Lemma split_by_free p s : free_of p s -> split_by p s = [s].
Proof.
  unfold free_of. induction s as [|c s IH]; simpl; [done|]. intros H. bool_props.
  rewrite H. by rewrite IH.
Qed.

Lemma split_by_sep p s c t :
  free_of p s -> p c = true -> split_by p (s +:+ String c t) = s :: split_by p t.
Proof.
  unfold free_of. induction s as [|a s IH]; simpl; intros H Hc.
  - by rewrite Hc.
  - bool_props. rewrite H. by rewrite IH.
Qed.

(** The last field does not depend on what stands before a separator. *)
Lemma split_by_last p s c t :
  p c = true -> last (split_by p (s +:+ String c t)) = last (split_by p t).
Proof.
  intros Hc. pose proof (split_by_nonnil p t) as Ht.
  induction s as [|a s IH]; simpl.
  - rewrite Hc. by destruct (split_by p t).
  - pose proof (split_by_nonnil p (s +:+ String c t)) as Hn.
    destruct (p a); [by destruct (split_by p (s +:+ String c t))|].
    destruct (split_by p (s +:+ String c t)) as [|f fs] eqn:E; [done|].
    rewrite <- IH. destruct fs as [|g fs]; [|done].
    exfalso. clear -E Hc Ht. revert f E. induction s as [|b s IH]; simpl; intros f.
    + rewrite Hc. by destruct (split_by p t).
    + destruct (p b); [by pose proof (split_by_nonnil p (s +:+ String c t));
                         destruct (split_by p (s +:+ String c t))|].
      destruct (split_by p (s +:+ String c t)) as [|g gs] eqn:E'; [by apply split_by_nonnil in E'|].
      intros [= <- ->]. by eapply IH.
Qed.

Lemma free_of_app p s t : free_of p (s +:+ t) <-> free_of p s /\ free_of p t.
Proof.
  unfold free_of. induction s as [|c s IH]; simpl; [naive_solver|].
  rewrite !andb_true_iff, IH. naive_solver.
Qed.

Lemma free_of_weaken (p q : ascii -> bool) s :
  (forall c, q c = true -> p c = true) -> free_of p s -> free_of q s.
Proof.
  unfold free_of. intros Hpq. induction s as [|c s IH]; simpl; [done|]. intros H.
  bool_props. rewrite IH by done. destruct (q c) eqn:Hq; [|done].
  apply Hpq in Hq. congruence.
Qed.

Lemma string_app_assoc (a b c : string) : (a +:+ b) +:+ c = a +:+ (b +:+ c).
Proof. induction a as [|x a IH]; simpl; congruence. Qed.

Lemma string_app_nil_r (a : string) : a +:+ EmptyString = a.
Proof. induction a as [|c a IH]; simpl; congruence. Qed.

Lemma string_app_nonempty_l (a b : string) : a <> EmptyString -> a +:+ b <> EmptyString.
Proof. by destruct a. Qed.

(** ** Decimal numerals *)

Lemma digit_of_pretty (x : N) :
  (x < 10)%N -> is_digit (pretty_N_char x) = true /\ digit_value (pretty_N_char x) = Z.of_N x.
Proof.
  intros H.
  assert (x = 0 \/ x = 1 \/ x = 2 \/ x = 3 \/ x = 4 \/ x = 5 \/ x = 6 \/ x = 7 \/ x = 8 \/ x = 9)%N
    as Hx by lia.
  destruct_or? Hx; subst; done.
Qed.

Lemma parse_pretty_go (max : Z) (x : N) s :
  (Z.of_N x <= max)%Z ->
  parse_uint_go max 0 (pretty_N_go x s) = parse_uint_go max (Z.of_N x) s.
Proof.
  revert s. induction (N.lt_wf_0 x) as [x _ IH]. intros s Hmax.
  assert (x = 0 \/ 0 < x)%N as [->|Hx] by lia; [done|].
  rewrite pretty_N_go_step by done.
  rewrite IH; [|by apply N.div_lt|].
  2: { assert (x / 10 <= x)%N by (apply N.Div0.div_le_upper_bound; lia). lia. }
  destruct (digit_of_pretty (x mod 10)) as [Hd Hv]; [by apply N.mod_lt|].
  cbn [parse_uint_go]. rewrite Hd, Hv.
  assert (Z.of_N (x / 10) * 10 + Z.of_N (x mod 10) = Z.of_N x) as ->.
  { rewrite (N.div_mod x 10) at 3 by done. lia. }
  destruct (Z.ltb_spec max (Z.of_N x)); [lia|done].
Qed.

Lemma digits_pretty_go (x : N) s :
  string_forall is_digit s = true -> string_forall is_digit (pretty_N_go x s) = true.
Proof.
  revert s. induction (N.lt_wf_0 x) as [x _ IH]. intros s Hs.
  assert (x = 0 \/ 0 < x)%N as [->|Hx] by lia; [done|].
  rewrite pretty_N_go_step by done. apply IH; [by apply N.div_lt|].
  simpl. rewrite Hs. destruct (digit_of_pretty (x mod 10)) as [-> _]; [by apply N.mod_lt|done].
Qed.

Lemma pretty_go_nonempty (x : N) s : s <> EmptyString -> pretty_N_go x s <> EmptyString.
Proof.
  revert s. induction (N.lt_wf_0 x) as [x _ IH]. intros s Hs.
  assert (x = 0 \/ 0 < x)%N as [->|Hx] by lia; [done|].
  rewrite pretty_N_go_step by done. apply IH; [by apply N.div_lt|done].
Qed.

Lemma fmt_d_unfold z :
  0 <= z -> fmt_d z = if decide (z = 0) then "0" else pretty_N_go (Z.to_N z) "".
Proof.
  intros Hz. unfold fmt_d, pretty, pretty_Z.
  by destruct z as [|p|p].
Qed.

Lemma fmt_d_digits z : 0 <= z -> string_forall is_digit (fmt_d z) = true.
Proof.
  intros Hz. rewrite fmt_d_unfold by done. case_decide; [done|]. by apply digits_pretty_go.
Qed.

Lemma fmt_d_nonempty z : 0 <= z -> fmt_d z <> EmptyString.
Proof.
  intros Hz. rewrite fmt_d_unfold by done. case_decide; [done|].
  rewrite pretty_N_go_step by lia. by apply pretty_go_nonempty.
Qed.

(** Printing a number of the width and parsing it back. *)
Lemma ParseUint_fmt_d w z : fits w z -> ParseUint (fmt_d z) w = (z, None).
Proof.
  intros [H0 Hw]. unfold ParseUint.
  destruct (String.eqb_spec (fmt_d z) EmptyString) as [E|_].
  { by apply fmt_d_nonempty in E. }
  rewrite fmt_d_unfold by done. case_decide as Hz.
  - subst. cbn [parse_uint_go is_digit]. change (is_digit "0") with true.
    change (0 * 10 + digit_value "0") with 0.
    destruct (Z.ltb_spec (2 ^ w - 1) 0); [lia|done].
  - rewrite parse_pretty_go by lia. simpl. by rewrite Z2N.id by done.
Qed.

Lemma digits_free_of p z :
  (forall c, p c = true -> is_digit c = false) -> 0 <= z -> free_of p (fmt_d z).
Proof.
  intros Hp Hz. pose proof (fmt_d_digits z Hz) as Hd. revert Hd. generalize (fmt_d z).
  clear Hz. unfold free_of. intros s. induction s as [|c s IH]; simpl; [done|]. intros H.
  bool_props. rewrite IH by done. destruct (p c) eqn:E; [|done].
  apply Hp in E. congruence.
Qed.

(** ** Case folding *)

Lemma lower_ascii_idemp c : lower_ascii (lower_ascii c) = lower_ascii c.
Proof. destruct c as [[] [] [] [] [] [] [] []]; reflexivity. Qed.

Lemma ToLower_idemp s : ToLower (ToLower s) = ToLower s.
Proof. induction s as [|c s IH]; simpl; [done|]. by rewrite lower_ascii_idemp, IH. Qed.

Lemma EqualFold_refl s : EqualFold s s = true.
Proof. apply String.eqb_refl. Qed.

Lemma EqualFold_sym a b : EqualFold a b = EqualFold b a.
Proof. apply String.eqb_sym. Qed.

Lemma HasPrefix_app p s : HasPrefix (p +:+ s) p = true.
Proof.
  unfold HasPrefix. induction p as [|c p IH]; simpl; [by destruct s|].
  destruct (ascii_dec c c); [done|congruence].
Qed.

Lemma substring_all s : String.substring 0 (String.length s) s = s.
Proof. induction s as [|c s IH]; simpl; [done|]. by rewrite IH. Qed.

Lemma HasSuffix_app s suf : HasSuffix (s +:+ suf) suf = true.
Proof.
  unfold HasSuffix.
  assert (String.length (s +:+ suf) = (String.length s + String.length suf)%nat) as ->.
  { induction s; simpl; congruence. }
  rewrite andb_true_intro; [done|]. split; [apply Nat.leb_le; lia|].
  rewrite Nat.add_sub. apply String.eqb_eq. induction s as [|c s IH]; simpl; [apply substring_all|done].
Qed.

Lemma EqualFold_lower s t : ToLower s = t -> EqualFold s t = true.
Proof. intros <-. unfold EqualFold. rewrite ToLower_idemp. apply String.eqb_refl. Qed.

#[export] Hint Resolve fmt_d_digits fmt_d_nonempty EqualFold_refl : ecnet.
