(* ===== verification/GoIO.v ===== *)
(** * Go's [bufio] and the rest of [strings] the commands use

    Standard input is the list of what its successive reads return; after
    the last one every read reports the end of the input. A terminal
    returns a line per read, a pipe as much as it holds. A read of standard
    input that succeeds returns at least one byte. *)

From Stdlib Require Import Ascii String.
From S2P Require Import Prelude GoStrings.

Definition newline : ascii := ascii_of_nat 10.
Definition tab : string := String (ascii_of_nat 9) EmptyString.
Definition eol : string := String newline EmptyString.

(** ** [strings] *)

Definition is_space (c : ascii) : bool :=
  let n := nat_of_ascii c in
  (Nat.leb 9 n && Nat.leb n 13) || Nat.eqb n 32.

Fixpoint TrimLeftSpace (s : string) : string :=
  match s with
  | EmptyString => EmptyString
  | String c s' => if is_space c then TrimLeftSpace s' else s
  end.

(** Only spaces follow. *)
Definition all_space (s : string) : bool := string_forall is_space s.

Fixpoint TrimRightSpace (s : string) : string :=
  match s with
  | EmptyString => EmptyString
  | String c s' => if all_space s then EmptyString else String c (TrimRightSpace s')
  end.

Definition TrimSpace (s : string) : string := TrimRightSpace (TrimLeftSpace s).

Fixpoint Join (l : list string) (sep : string) : string :=
  match l with
  | [] => ""
  | [s] => s
  | s :: l' => s +:+ sep +:+ Join l' sep
  end.

(** ** [bufio.Reader]

    The reader's buffer, and what is left to read from below. *)

(** A text up to and including its first newline, and the rest. *)
Fixpoint cut_line (s : string) : option (string * string) :=
  match s with
  | EmptyString => None
  | String c s' =>
      if Ascii.eqb c newline then Some (String c EmptyString, s')
      else match cut_line s' with
           | Some (l, rest) => Some (String c l, rest)
           | None => None
           end
  end.

(** [ReadString('\n')]: the line, the buffer after it and the reads that
    are left; [None] is the end of the input before a newline. *)
Fixpoint ReadString (buf : string) (reads : list string)
  : option (string * string * list string) :=
  match cut_line buf with
  | Some (l, rest) => Some (l, rest, reads)
  | None =>
      match reads with
      | [] => None
      | r :: reads' => ReadString (buf +:+ r) reads'
      end
  end.

(** ** Facts *)

(** A text with no newline in it. *)
Definition one_line (s : string) : Prop := free_of (fun c => Ascii.eqb c newline) s.

Lemma cut_line_app s rest :
  one_line s -> cut_line (s +:+ String newline rest) = Some (s +:+ eol, rest).
Proof.
  unfold one_line, free_of. induction s as [|c s IH]; [done|]. simpl. intros H. bool_props.
  rewrite H. by rewrite IH.
Qed.

(** A terminal answers with the line that was typed. *)
Lemma ReadString_terminal s reads :
  one_line s -> ReadString "" ((s +:+ eol) :: reads) = Some (s +:+ eol, "", reads).
Proof.
  intros H. simpl. pose proof (cut_line_app s "" H) as E. unfold eol in *.
  by destruct reads; simpl; rewrite E.
Qed.

(** The newline that ends a line does not matter once it is trimmed. *)
Lemma all_space_eol s : all_space (s +:+ eol) = all_space s.
Proof. unfold all_space. induction s as [|c s IH]; [done|]. simpl. by rewrite IH. Qed.

Lemma TrimRightSpace_eol s : TrimRightSpace (s +:+ eol) = TrimRightSpace s.
Proof.
  induction s as [|c s IH]; [done|]. simpl.
  change (all_space (String c (s +:+ eol))) with (is_space c && all_space (s +:+ eol)).
  rewrite all_space_eol, IH. done.
Qed.

Lemma TrimSpace_eol s : TrimSpace (s +:+ eol) = TrimSpace s.
Proof.
  unfold TrimSpace. induction s as [|c s IH]; [done|]. simpl.
  destruct (is_space c); [done|]. apply (TrimRightSpace_eol (String c s)).
Qed.
