(* ===== verification/GoJson.v ===== *)
(** * Go's [encoding/json]

    The values the configuration of a proxy consists of, the text that
    [json.Marshal] and [json.MarshalIndent] write for them, and a reader of
    that text: a lexer that passes over the text once and a parser of its
    tokens. Reading what was written yields the value, in either layout.
    Strings are written as Go writes them: quotes, backslashes, control
    characters and the characters that mean something in HTML are escaped,
    other bytes are copied. (Go also replaces bytes that are not valid UTF-8;
    the names in a configuration are ASCII.) *)

From Stdlib Require Import Ascii String.
From S2P Require Import Prelude GoStrings GoIO.

#[local] Unset Elimination Schemes.

Inductive json :=
| JNull
| JBool (b : bool)
| JNum (n : N)
| JStr (s : string)
| JArr (l : list json)
| JObj (l : list (string * json)).

#[local] Set Elimination Schemes.

Section JsonInd.
Context (P : json -> Prop).
Context (Hnull : P JNull) (Hbool : forall b, P (JBool b)) (Hnum : forall n, P (JNum n)).
Context (Hstr : forall s, P (JStr s)) (Harr : forall l, Forall P l -> P (JArr l)).
Context (Hobj : forall l, Forall (fun kv => P kv.2) l -> P (JObj l)).

Fixpoint json_ind (j : json) : P j :=
  match j with
  | JNull => Hnull
  | JBool b => Hbool b
  | JNum n => Hnum n
  | JStr s => Hstr s
  | JArr l =>
      Harr l ((fix go (l : list json) : Forall P l :=
                 match l with
                 | [] => Forall_nil_2 _
                 | x :: l' => Forall_cons_2 _ _ _ (json_ind x) (go l')
                 end) l)
  | JObj l =>
      Hobj l ((fix go (l : list (string * json)) : Forall (fun kv => P kv.2) l :=
                 match l with
                 | [] => Forall_nil_2 _
                 | x :: l' => Forall_cons_2 (fun kv => P kv.2) _ _ (json_ind x.2) (go l')
                 end) l)
  end.
End JsonInd.

(** ** Writing *)

Definition quote : ascii := ascii_of_nat 34.
Definition backslash : ascii := ascii_of_nat 92.
Definition sq (c : ascii) : string := String c EmptyString.

Definition hex_digit (n : nat) : ascii :=
  ascii_of_nat (if Nat.ltb n 10 then 48 + n else 87 + n).

(** [\u00xy] *)
Definition unicode_escape (c : ascii) : string :=
  let n := nat_of_ascii c in
  String backslash ("u00" +:+ String (hex_digit (n / 16)) (sq (hex_digit (n mod 16)))).

(** The characters that are not copied. *)
Definition html_char (c : ascii) : bool := ContainsByte "<>&" c.

Definition escape_char (c : ascii) : string :=
  if Ascii.eqb c quote || Ascii.eqb c backslash then String backslash (sq c)
  else if Ascii.eqb c newline then String backslash "n"
  else if Ascii.eqb c (ascii_of_nat 13) then String backslash "r"
  else if Ascii.eqb c (ascii_of_nat 9) then String backslash "t"
  else if Nat.ltb (nat_of_ascii c) 32 || html_char c then unicode_escape c
  else sq c.

Fixpoint escape (s : string) : string :=
  match s with
  | EmptyString => EmptyString
  | String c s' => escape_char c +:+ escape s'
  end.

Definition quoted (s : string) : string := String quote (escape s +:+ sq quote).

(** A layout: what stands before an element at a depth, and after a
    colon. *)
Record Layout := mkLayout { lay_line : nat -> string; lay_colon : string }.

Definition compact : Layout := mkLayout (fun _ => "") "".

Fixpoint spaces (n : nat) : string :=
  match n with O => "" | S n' => String " " (spaces n') end.

(** [MarshalIndent(v, "", " ")] *)
Definition indented : Layout := mkLayout (fun d => eol +:+ spaces d) " ".

Section Text.
Context (lay : Layout).

(** The elements of an array or object at a depth, between brackets. *)
Definition bracketed (d : nat) (left right : string) (elems : list string) : string :=
  match elems with
  | [] => left +:+ right
  | _ => left +:+ lay_line lay (S d)
         +:+ Join elems ("," +:+ lay_line lay (S d)) +:+ lay_line lay d +:+ right
  end.

Fixpoint json_text (d : nat) (j : json) : string :=
  match j with
  | JNull => "null"
  | JBool true => "true"
  | JBool false => "false"
  | JNum n => pretty n
  | JStr s => quoted s
  | JArr l => bracketed d "[" "]" (map (json_text (S d)) l)
  | JObj l => bracketed d "{" "}"
      (map (fun kv => quoted kv.1 +:+ ":" +:+ lay_colon lay +:+ json_text (S d) kv.2) l)
  end.

End Text.

Definition json_Marshal (j : json) : string := json_text compact 0 j.
Definition json_MarshalIndent (j : json) : string := json_text indented 0 j.

(** ** Reading *)

Inductive token :=
| TLBrace | TRBrace | TLBrack | TRBrack | TColon | TComma
| TNull | TBool (b : bool) | TNum (n : N) | TStr (s : string).

(** Where the lexer is: between tokens, in a word or number that the next
    delimiter ends, in a string, after a backslash, in the digits of [\u]. *)
Inductive lex_mode :=
| LNormal
| LWord (w : string)
| LNum (n : N)
| LString (s : string)
| LEscape (s : string)
| LUnicode (s : string) (digits : nat) (code : nat).

Definition json_space (c : ascii) : bool :=
  Ascii.eqb c " " || Ascii.eqb c newline || Ascii.eqb c (ascii_of_nat 13)
  || Ascii.eqb c (ascii_of_nat 9).

Definition punctuation (c : ascii) : option token :=
  if Ascii.eqb c "{" then Some TLBrace
  else if Ascii.eqb c "}" then Some TRBrace
  else if Ascii.eqb c "[" then Some TLBrack
  else if Ascii.eqb c "]" then Some TRBrack
  else if Ascii.eqb c ":" then Some TColon
  else if Ascii.eqb c "," then Some TComma
  else None.

Definition digit_N (c : ascii) : N := (N_of_ascii c - 48)%N.

Definition lower_letter (c : ascii) : bool :=
  Nat.leb 97 (nat_of_ascii c) && Nat.leb (nat_of_ascii c) 122.

(** A character between tokens. *)
Definition lex_normal (c : ascii) : option (list token * lex_mode) :=
  if json_space c then Some ([], LNormal)
  else match punctuation c with
       | Some t => Some ([t], LNormal)
       | None =>
           if Ascii.eqb c quote then Some ([], LString "")
           else if is_digit c then Some ([], LNum (digit_N c))
           else if lower_letter c then Some ([], LWord (sq c))
           else None
       end.

(** The token that a delimiter completes. *)
Definition pending (m : lex_mode) : option (list token) :=
  match m with
  | LNormal => Some []
  | LNum n => Some [TNum n]
  | LWord w =>
      if String.eqb w "null" then Some [TNull]
      else if String.eqb w "true" then Some [TBool true]
      else if String.eqb w "false" then Some [TBool false]
      else None
  | _ => None
  end.

Definition delimit (m : lex_mode) (c : ascii) : option (list token * lex_mode) :=
  ts ← pending m; '(ts', m') ← lex_normal c; Some (ts ++ ts', m').

Definition hex_value (c : ascii) : option nat :=
  let n := nat_of_ascii c in
  if Nat.leb 48 n && Nat.leb n 57 then Some (n - 48)%nat
  else if Nat.leb 97 n && Nat.leb n 102 then Some (n - 87)%nat
  else if Nat.leb 65 n && Nat.leb n 70 then Some (n - 55)%nat
  else None.

Definition unescape (c : ascii) : option ascii :=
  if Ascii.eqb c quote || Ascii.eqb c backslash || Ascii.eqb c "/" then Some c
  else if Ascii.eqb c "n" then Some newline
  else if Ascii.eqb c "r" then Some (ascii_of_nat 13)
  else if Ascii.eqb c "t" then Some (ascii_of_nat 9)
  else if Ascii.eqb c "b" then Some (ascii_of_nat 8)
  else if Ascii.eqb c "f" then Some (ascii_of_nat 12)
  else None.

Definition lex_step (m : lex_mode) (c : ascii) : option (list token * lex_mode) :=
  match m with
  | LNormal => lex_normal c
  | LNum n => if is_digit c then Some ([], LNum (n * 10 + digit_N c)%N) else delimit m c
  | LWord w => if lower_letter c then Some ([], LWord (w +:+ sq c)) else delimit m c
  | LString s =>
      if Ascii.eqb c quote then Some ([TStr s], LNormal)
      else if Ascii.eqb c backslash then Some ([], LEscape s)
      else if Nat.ltb (nat_of_ascii c) 32 then None
      else Some ([], LString (s +:+ sq c))
  | LEscape s =>
      if Ascii.eqb c "u" then Some ([], LUnicode s 4 0)
      else match unescape c with
           | Some c' => Some ([], LString (s +:+ sq c'))
           | None => None
           end
  | LUnicode s digits code =>
      match hex_value c, digits with
      | Some h, S (S d) => Some ([], LUnicode s (S d) (code * 16 + h))
      | Some h, S O =>
          (* only characters of one byte are written with [\u] *)
          let code := (code * 16 + h)%nat in
          if Nat.ltb code 128 then Some ([], LString (s +:+ sq (ascii_of_nat code))) else None
      | _, _ => None
      end
  end.

Fixpoint lex (m : lex_mode) (s : string) : option (list token * lex_mode) :=
  match s with
  | EmptyString => Some ([], m)
  | String c s' => '(ts, m') ← lex_step m c; '(ts', m'') ← lex m' s'; Some (ts ++ ts', m'')
  end.

(** Values, elements up to a closing bracket and members up to a closing
    brace; each call consumes at least one token. *)
Fixpoint parse_value (fuel : nat) (ts : list token) : option (json * list token) :=
  match fuel with
  | O => None
  | S fuel =>
      match ts with
      | TNull :: ts => Some (JNull, ts)
      | TBool b :: ts => Some (JBool b, ts)
      | TNum n :: ts => Some (JNum n, ts)
      | TStr s :: ts => Some (JStr s, ts)
      | TLBrack :: TRBrack :: ts => Some (JArr [], ts)
      | TLBrack :: ts => '(l, ts) ← parse_elems fuel ts; Some (JArr l, ts)
      | TLBrace :: TRBrace :: ts => Some (JObj [], ts)
      | TLBrace :: ts => '(l, ts) ← parse_members fuel ts; Some (JObj l, ts)
      | _ => None
      end
  end
with parse_elems (fuel : nat) (ts : list token) : option (list json * list token) :=
  match fuel with
  | O => None
  | S fuel =>
      '(v, ts) ← parse_value fuel ts;
      match ts with
      | TComma :: ts => '(l, ts) ← parse_elems fuel ts; Some (v :: l, ts)
      | TRBrack :: ts => Some ([v], ts)
      | _ => None
      end
  end
with parse_members (fuel : nat) (ts : list token) : option (list (string * json) * list token) :=
  match fuel with
  | O => None
  | S fuel =>
      match ts with
      | TStr k :: TColon :: ts =>
          '(v, ts) ← parse_value fuel ts;
          match ts with
          | TComma :: ts => '(l, ts) ← parse_members fuel ts; Some ((k, v) :: l, ts)
          | TRBrace :: ts => Some ([(k, v)], ts)
          | _ => None
          end
      | _ => None
      end
  end.

Definition json_Unmarshal (text : string) : option json :=
  '(ts, m) ← lex LNormal text;
  ts' ← pending m;
  '(j, rest) ← parse_value (length (ts ++ ts')) (ts ++ ts');
  match rest with [] => Some j | _ => None end.

(** ** The tokens of a value *)

Fixpoint separated (l : list (list token)) : list token :=
  match l with
  | [] => []
  | [x] => x
  | x :: l' => x ++ TComma :: separated l'
  end.

Fixpoint json_tokens (j : json) : list token :=
  match j with
  | JNull => [TNull]
  | JBool b => [TBool b]
  | JNum n => [TNum n]
  | JStr s => [TStr s]
  | JArr l => TLBrack :: separated (map json_tokens l) ++ [TRBrack]
  | JObj l => TLBrace :: separated (map (fun kv => TStr kv.1 :: TColon :: json_tokens kv.2) l)
                ++ [TRBrace]
  end.

(** *** The lexer finds them *)

Lemma lex_app m a b :
  lex m (a +:+ b) = ('(ts, m') ← lex m a; '(ts', m'') ← lex m' b; Some (ts ++ ts', m'')).
Proof.
  revert m. induction a as [|c a IH]; intros m; simpl.
  - by destruct (lex m b) as [[ts m']|].
  - destruct (lex_step m c) as [[ts m1]|]; simpl; [|done]. rewrite IH.
    destruct (lex m1 a) as [[ts1 m2]|]; simpl; [|done].
    destruct (lex m2 b) as [[ts2 m3]|]; simpl; [|done]. by rewrite app_assoc.
Qed.

(** A text that ends between tokens, and one that may end in a word or
    number. *)
Definition closed_text (s : string) (ts : list token) : Prop := lex LNormal s = Some (ts, LNormal).

Definition open_text (s : string) (ts : list token) : Prop :=
  exists ts1 m p, lex LNormal s = Some (ts1, m) /\ pending m = Some p /\ ts = ts1 ++ p.

Lemma closed_open s ts : closed_text s ts -> open_text s ts.
Proof. intros H. exists ts, LNormal, []. by rewrite app_nil_r. Qed.

Lemma closed_app a b t1 t2 : closed_text a t1 -> closed_text b t2 -> closed_text (a +:+ b) (t1 ++ t2).
Proof. unfold closed_text. intros Ha Hb. by rewrite lex_app, Ha; simpl; rewrite Hb. Qed.

Lemma closed_open_app a b t1 t2 : closed_text a t1 -> open_text b t2 -> open_text (a +:+ b) (t1 ++ t2).
Proof.
  intros Ha (ts1 & m & p & Hb & Hp & ->). exists (t1 ++ ts1), m, p. rewrite app_assoc.
  split; [|done]. by rewrite lex_app, Ha; simpl; rewrite Hb.
Qed.

Lemma closed_nil : closed_text "" [].
Proof. done. Qed.

Definition delimiter (c : ascii) : bool :=
  json_space c || match punctuation c with Some _ => true | None => false end.

Lemma delimiter_not_word c : delimiter c = true -> is_digit c = false /\ lower_letter c = false.
Proof. destruct c as [[] [] [] [] [] [] [] []]; intros H; (by split) || done. Qed.

Lemma lex_delimiter m c p :
  pending m = Some p -> delimiter c = true ->
  lex_step m c = ('(ts, m') ← lex_normal c; Some (p ++ ts, m')).
Proof.
  intros Hp [Hd Hl]%delimiter_not_word. unfold lex_step, delimit.
  destruct m; simplify_eq/=; rewrite ?Hd, ?Hl, ?Hp; simpl; try done.
  by destruct (lex_normal c) as [[]|].
Qed.

(** A text that a word or number may stand before. *)
Definition delimited (s : string) (ts : list token) : Prop :=
  closed_text s ts /\ exists c b, s = String c b /\ delimiter c = true.

Lemma open_closed_app a b t1 t2 : open_text a t1 -> delimited b t2 -> closed_text (a +:+ b) (t1 ++ t2).
Proof.
  intros (ts1 & m & p & Ha & Hp & ->) [Hb (c & b' & -> & Hc)]. unfold closed_text in *.
  rewrite lex_app, Ha. simpl in Hb |- *.
  rewrite (lex_delimiter m c p Hp Hc). destruct (lex_normal c) as [[ts m']|]; simpl in *; [|done].
  destruct (lex m' b') as [[ts' m'']|]; simplify_eq/=. by rewrite !app_assoc.
Qed.

Lemma closed_space s : string_forall json_space s = true -> closed_text s [].
Proof.
  unfold closed_text. induction s as [|c s IH]; simpl; [done|]. intros H. bool_props.
  unfold lex_normal. destruct (json_space c); [|done]. simpl. by rewrite IH.
Qed.

(** *** Strings *)

Lemma nat_of_ascii_lt c : (nat_of_ascii c < 256)%nat.
Proof. apply nat_ascii_bounded. Qed.

(** Every character is written so that the lexer reads it back. *)
Lemma lex_escape_char acc c : lex (LString acc) (escape_char c) = Some ([], LString (acc +:+ sq c)).
Proof.
  destruct c as [b0 b1 b2 b3 b4 b5 b6 b7].
  destruct b0, b1, b2, b3, b4, b5, b6, b7; reflexivity.
Qed.

Lemma lex_escape acc s : lex (LString acc) (escape s) = Some ([], LString (acc +:+ s)).
Proof.
  revert acc. induction s as [|c s IH]; intros acc; simpl; [by rewrite string_app_nil_r|].
  rewrite lex_app, lex_escape_char. simpl. rewrite IH. by rewrite string_app_assoc.
Qed.

Lemma closed_quoted s : closed_text (quoted s) [TStr s].
Proof.
  unfold closed_text, quoted. cbn -[lex_step escape].
  change (lex_step LNormal quote) with (Some (@nil token, LString "")). simpl.
  rewrite lex_app, lex_escape. reflexivity.
Qed.

(** *** Numbers *)

Lemma digit_of_pretty_N (x : N) :
  (x < 10)%N -> is_digit (pretty_N_char x) = true /\ digit_N (pretty_N_char x) = x /\
    lex_normal (pretty_N_char x) = Some ([], LNum x).
Proof.
  intros H.
  assert (x = 0 \/ x = 1 \/ x = 2 \/ x = 3 \/ x = 4 \/ x = 5 \/ x = 6 \/ x = 7 \/ x = 8 \/ x = 9)%N
    as Hx by lia.
  destruct_or? Hx; subst; done.
Qed.

Lemma lex_pretty_go (x : N) s : (0 < x)%N -> lex LNormal (pretty_N_go x s) = lex (LNum x) s.
Proof.
  revert s. induction (N.lt_wf_0 x) as [x _ IH]. intros s Hx. rewrite pretty_N_go_step by done.
  destruct (digit_of_pretty_N (x mod 10)) as (Hd & Hv & Hn); [by apply N.mod_lt|].
  pose proof (N.div_mod x 10 ltac:(done)) as Hdm.
  destruct (N.eq_0_gt_0_cases (x / 10)) as [E|Hpos].
  - rewrite E. change (pretty_N_go 0 ?t) with t. cbn [lex lex_step]. rewrite Hn. cbn.
    rewrite E in Hdm. replace (x mod 10)%N with x by lia. by destruct (lex (LNum x) s) as [[]|].
  - rewrite IH by (done || by apply N.div_lt). cbn [lex lex_step]. rewrite Hd, Hv. cbn.
    replace (x / 10 * 10 + x mod 10)%N with x by lia. by destruct (lex (LNum x) s) as [[]|].
Qed.

Lemma open_number n : open_text (pretty n) [TNum n].
Proof.
  exists [], (LNum n), [TNum n]. split; [|done]. unfold pretty, pretty_N.
  case_decide as Hn; [by subst|]. rewrite lex_pretty_go by lia. done.
Qed.

(** *** Values *)

Lemma delimited_space l s ts :
  string_forall json_space l = true -> delimited s ts -> delimited (l +:+ s) ts.
Proof.
  intros Hl [Hs (c & b & -> & Hc)]. split.
  - change ts with ([] ++ ts). apply closed_app; [by apply closed_space|done].
  - destruct l as [|c' l]; [by exists c, b|]. simpl in Hl. bool_props. eexists _, _.
    split; [done|]. unfold delimiter. by destruct (json_space c').
Qed.

Section Lex.
Context (lay : Layout).
Context (Hline : forall d, string_forall json_space (lay_line lay d) = true).
Context (Hcolon : string_forall json_space (lay_colon lay) = true).

Lemma closed_join d es tss b t2 :
  Forall2 open_text es tss -> es <> [] -> delimited b t2 ->
  closed_text (Join es ("," +:+ lay_line lay d) +:+ b) (separated tss ++ t2).
Proof.
  intros Hes Hne Hb. induction Hes as [|e ts es tss He Hes IH]; [done|].
  destruct Hes as [|e' ts' es tss He' Hes]; [by apply open_closed_app|].
  change (Join (e :: e' :: es) ?sep) with (e +:+ sep +:+ Join (e' :: es) sep).
  change (separated (ts :: ts' :: tss)) with (ts ++ TComma :: separated (ts' :: tss)).
  rewrite string_app_assoc, <- app_assoc. apply open_closed_app; [done|]. cbn [app].
  split; [|by eexists _, _]. rewrite !string_app_assoc.
  change (TComma :: ?l) with ([TComma] ++ [] ++ l).
  apply closed_app; [done|]. apply closed_app; [by apply closed_space|]. by apply IH.
Qed.

Lemma closed_bracketed d l r tl tr es tss :
  closed_text l [tl] -> delimited r [tr] -> Forall2 open_text es tss ->
  closed_text (bracketed lay d l r es) (tl :: separated tss ++ [tr]).
Proof.
  intros Hl Hr Hes. change (tl :: ?t) with ([tl] ++ t). unfold bracketed.
  destruct Hes as [|e ts es tss He Hes]; [by apply closed_app, (proj1 Hr)|].
  apply closed_app; [done|]. change (separated ?t ++ ?u) with ([] ++ separated t ++ u).
  apply closed_app; [by apply closed_space|].
  apply closed_join; [by constructor|done|by apply delimited_space].
Qed.

(** The text of a value lexes to its tokens. *)
Lemma open_json_text j : forall d, open_text (json_text lay d j) (json_tokens j).
Proof.
  induction j as [|b|n|s|l IH|l IH] using json_ind; intros d; cbn [json_text json_tokens].
  - by exists [], (LWord "null"), [TNull].
  - destruct b; [by exists [], (LWord "true"), [TBool true]|by exists [], (LWord "false"), [TBool false]].
  - apply open_number.
  - apply closed_open, closed_quoted.
  - apply closed_open, closed_bracketed; [done|by split; [|eexists _, _]|].
    induction IH; constructor; auto.
  - apply closed_open, closed_bracketed; [done|by split; [|eexists _, _]|].
    induction IH as [|[k v] l Hv IH IH']; constructor; [|done].
    change (TStr ?k :: TColon :: ?t) with ([TStr k] ++ [TColon] ++ [] ++ t).
    apply closed_open_app; [apply closed_quoted|]. apply closed_open_app; [done|].
    apply closed_open_app; [by apply closed_space|]. apply Hv.
Qed.
End Lex.

(** *** The parser finds the value *)

(** The tokens of a value do not start with a closing bracket. *)
Definition starts_value (ts : list token) : Prop :=
  head ts <> Some TRBrack /\ head ts <> Some TRBrace.

Lemma json_tokens_starts j : starts_value (json_tokens j) /\ json_tokens j <> [].
Proof. by destruct j. Qed.

Lemma parse_array fuel ts :
  head ts <> Some TRBrack ->
  parse_value (S fuel) (TLBrack :: ts) = ('(l, ts) ← parse_elems fuel ts; Some (JArr l, ts)).
Proof. by destruct ts as [|[] ts]. Qed.

Lemma parse_object fuel ts :
  head ts <> Some TRBrace ->
  parse_value (S fuel) (TLBrace :: ts) = ('(l, ts) ← parse_members fuel ts; Some (JObj l, ts)).
Proof. by destruct ts as [|[] ts]. Qed.

Definition parses (j : json) : Prop :=
  forall fuel rest, (length (json_tokens j) <= fuel)%nat ->
    parse_value fuel (json_tokens j ++ rest) = Some (j, rest).

Lemma separated_cons x y (l : list (list token)) :
  separated (x :: y :: l) = x ++ TComma :: separated (y :: l).
Proof. done. Qed.

Lemma parse_elems_tokens l :
  Forall parses l -> l <> [] -> forall fuel rest,
  (length (separated (map json_tokens l)) < fuel)%nat ->
  parse_elems fuel (separated (map json_tokens l) ++ TRBrack :: rest) = Some (l, rest).
Proof.
  induction 1 as [|j l Hj Hl IH]; [done|]. intros _ [|fuel] rest Hf; [lia|].
  destruct l as [|j' l].
  - cbn [map separated parse_elems] in *. by rewrite Hj by lia.
  - cbn [map] in *. rewrite separated_cons, length_app in Hf. simpl in Hf.
    rewrite separated_cons, <- app_assoc. cbn [app parse_elems]. rewrite Hj by lia.
    cbn. rewrite IH; [done|done|]. simpl. lia.
Qed.

Definition member_tokens (kv : string * json) : list token :=
  TStr kv.1 :: TColon :: json_tokens kv.2.

Lemma parse_members_tokens l :
  Forall (fun kv => parses kv.2) l -> l <> [] -> forall fuel rest,
  (length (separated (map member_tokens l)) < fuel)%nat ->
  parse_members fuel (separated (map member_tokens l) ++ TRBrace :: rest) = Some (l, rest).
Proof.
  induction 1 as [|[k j] l Hj Hl IH]; [done|]. intros _ [|fuel] rest Hf; [lia|]. simpl in Hj.
  destruct l as [|kv l].
  - cbn [map separated member_tokens fst snd app parse_members length] in *. by rewrite Hj by lia.
  - cbn [map] in *. rewrite separated_cons, length_app in Hf. simpl in Hf.
    rewrite separated_cons, <- app_assoc. cbn [member_tokens fst snd app parse_members].
    rewrite Hj by lia. cbn. rewrite IH; [done|done|]. simpl. lia.
Qed.

Lemma parse_tokens j : parses j.
Proof.
  induction j as [|b|n|s|l IH|l IH] using json_ind; intros [|fuel] rest Hf; simpl in Hf; try lia;
    try done; rewrite length_app in Hf; simpl in Hf; cbn [json_tokens app]; rewrite <- app_assoc.
  - destruct l as [|j l]; [done|]. rewrite parse_array.
    + cbn [app]. by rewrite parse_elems_tokens by (done || lia).
    + destruct (json_tokens_starts j) as [[Hh _] Hne]. simpl.
      destruct (json_tokens j), l; done.
  - destruct l as [|[k j] l]; [done|]. rewrite parse_object; [|by destruct l].
    cbn [app]. fold member_tokens. by rewrite parse_members_tokens by (done || (fold member_tokens in Hf; lia)).
Qed.

(** Reading a text in any layout of white space. *)
Lemma json_Unmarshal_text lay d j :
  (forall d, string_forall json_space (lay_line lay d) = true) ->
  string_forall json_space (lay_colon lay) = true ->
  json_Unmarshal (json_text lay d j) = Some j.
Proof.
  intros Hline Hcolon. destruct (open_json_text lay Hline Hcolon j d) as (ts & m & p & El & Ep & Et).
  unfold json_Unmarshal. rewrite El. cbn. rewrite Ep. cbn. rewrite <- Et.
  rewrite <- (app_nil_r (json_tokens j)) at 2. by rewrite parse_tokens.
Qed.

Lemma indented_line d : string_forall json_space (lay_line indented d) = true.
Proof. cbn. induction d; simpl; auto. Qed.

(** What [json.Marshal] and [json.MarshalIndent] write is read back. *)
Lemma json_Unmarshal_Marshal j : json_Unmarshal (json_Marshal j) = Some j.
Proof. by apply json_Unmarshal_text. Qed.

Lemma json_Unmarshal_MarshalIndent j : json_Unmarshal (json_MarshalIndent j) = Some j.
Proof. apply json_Unmarshal_text; [apply indented_line|done]. Qed.

(** Different values have different texts. *)
#[global] Instance json_Marshal_inj : Inj (=) (=) json_Marshal.
Proof.
  intros a b E. apply (f_equal json_Unmarshal) in E. rewrite !json_Unmarshal_Marshal in E. congruence.
Qed.
