(* ===== verification/DeepCopy.v ===== *)
(** * Deep copies ([apis/*/v1alpha1/zz_generated.deepcopy.go])

    The generated functions copy objects that are made of structs, pointers
    and slices. Here those are values over a memory of blocks: [new] and
    [make] allocate a block, a pointer refers to a block of one value, a
    slice to a part of a block. The copies of the types of apimachinery and
    of the core API are parameters.

    [rep] relates a value in a memory to the tree it stands for. A function
    that is a [copier] makes a value for the same tree, of blocks that did
    not exist before: neither of the two values sees a change of the other. *)

From Stdlib Require Import String.
From S2P Require Import Prelude GoStrings.

(** ** Values and memory *)

Inductive val :=
| VStr (s : string)
| VNum (z : Z)
| VBool (b : bool)
| VStruct (fields : list (string * val))
| VPtr (p : option nat)
| VSlice (s : option (nat * nat * nat)).  (* block, offset, length *)

Notation mem := (list (list val)).

Definition Mem (A : Type) : Type := mem -> outcome (A * mem).

#[global] Instance Mem_ret : MRet Mem := fun A a m => Ret (a, m).
#[global] Instance Mem_bind : MBind Mem := fun A B f c m =>
  match c m with Ret (a, m') => f a m' | Panic => Panic end.

Definition panics {A} : Mem A := fun _ => Panic.

(** [new] and [make]. *)
Definition alloc (block : list val) : Mem nat := fun m => Ret (length m, m ++ [block]).

Definition load (b i : nat) : Mem val := fun m =>
  match m !! b ≫= fun block => block !! i with Some v => Ret (v, m) | None => Panic end.

Definition store (b i : nat) (v : val) : Mem unit := fun m =>
  match m !! b with
  | Some block => if decide (i < length block)%nat then Ret (tt, <[b := <[i := v]> block]> m) else Panic
  | None => Panic
  end.

(** ** The patterns of the generated code *)

(** A pointer that is not nil: [*out = new(T)] and [DeepCopyInto], and
    [DeepCopy]: the new block is overwritten as a whole. *)
Definition copy_ptr (into : val -> Mem val) (in_ : val) : Mem val :=
  match in_ with
  | VPtr None => mret (VPtr None)
  | VPtr (Some p) =>
      out ← alloc [VStruct []];
      v ← load p 0;
      v' ← into v;
      store out 0 v' ≫= fun _ =>
      mret (VPtr (Some out))
  | _ => panics
  end.

(** The loop over the elements of a slice. *)
Fixpoint copy_elements (into : val -> Mem val) (b out : nat) (off i n : nat) : Mem unit :=
  match n with
  | O => mret tt
  | S n' =>
      v ← load b (off + i);
      v' ← into v;
      store out i v' ≫= fun _ =>
      copy_elements into b out off (S i) n'
  end.

(** A slice that is not nil: [make] and the loop, or [copy] when elements are
    copied as they are; [zero] is the zero value of the elements. *)
Definition copy_slice (zero : val) (into : val -> Mem val) (in_ : val) : Mem val :=
  match in_ with
  | VSlice None => mret (VSlice None)
  | VSlice (Some (b, off, n)) =>
      out ← alloc (replicate n zero);
      copy_elements into b out off 0 n ≫= fun _ =>
      mret (VSlice (Some (out, 0%nat, n)))
  | _ => panics
  end.

(** The fields of a struct. *)
Fixpoint get_field (name : string) (fields : list (string * val)) : option val :=
  match fields with
  | [] => None
  | (n, v) :: fields' => if String.eqb n name then Some v else get_field name fields'
  end.

Fixpoint put_field (name : string) (w : val) (fields : list (string * val)) : list (string * val) :=
  match fields with
  | [] => []
  | (n, v) :: fields' => if String.eqb n name then (n, w) :: fields' else (n, v) :: put_field name w fields'
  end.

(** [out.X = ...in.X...], one after the other. *)
Fixpoint set_fields (ops : list (string * (val -> Mem val))) (in_ out : list (string * val)) : Mem val :=
  match ops with
  | [] => mret (VStruct out)
  | (name, into) :: ops' =>
      match get_field name in_ with
      | Some v => v' ← into v; set_fields ops' in_ (put_field name v' out)
      | None => panics
      end
  end.

(** [*out = *in], and then fields that are copied again. *)
Definition copy_struct (ops : list (string * (val -> Mem val))) (in_ : val) : Mem val :=
  match in_ with
  | VStruct fields => set_fields ops fields fields
  | _ => panics
  end.

(** [out.X = in.X]. *)
Definition assign : val -> Mem val := fun v => mret v.

(** ** Types and the values they have *)

Inductive ty := TStr | TNum | TBool | TStruct (fields : list (string * ty)) | TPtr (t : ty) | TSlice (t : ty).

Inductive tree :=
| LStr (s : string)
| LNum (z : Z)
| LBool (b : bool)
| LStruct (ts : list tree)
| LPtr (t : option tree)
| LSlice (ts : option (list tree)).

Section Rep.
Context (P : nat -> Prop) (m : mem).

(** The value stands for the tree, through blocks in [P]. *)
Inductive rep : ty -> tree -> val -> Prop :=
| rep_str s : rep TStr (LStr s) (VStr s)
| rep_num z : rep TNum (LNum z) (VNum z)
| rep_bool b : rep TBool (LBool b) (VBool b)
| rep_struct fs ts vs : reps fs ts vs -> rep (TStruct fs) (LStruct ts) (VStruct vs)
| rep_nil_ptr T : rep (TPtr T) (LPtr None) (VPtr None)
| rep_ptr T t b v : P b -> m !! b = Some [v] -> rep T t v -> rep (TPtr T) (LPtr (Some t)) (VPtr (Some b))
| rep_nil_slice T : rep (TSlice T) (LSlice None) (VSlice None)
| rep_slice T ts b off block :
    P b -> m !! b = Some block -> repl T ts (take (length ts) (drop off block)) ->
    rep (TSlice T) (LSlice (Some ts)) (VSlice (Some (b, off, length ts)))
with reps : list (string * ty) -> list tree -> list (string * val) -> Prop :=
| reps_nil : reps [] [] []
| reps_cons n T fs t ts v vs : rep T t v -> reps fs ts vs -> reps ((n, T) :: fs) (t :: ts) ((n, v) :: vs)
with repl : ty -> list tree -> list val -> Prop :=
| repl_nil T : repl T [] []
| repl_cons T t ts v vs : rep T t v -> repl T ts vs -> repl T (t :: ts) (v :: vs).

End Rep.

Scheme rep_mut := Induction for rep Sort Prop
with reps_mut := Induction for reps Sort Prop
with repl_mut := Induction for repl Sort Prop.
Combined Scheme rep_all from rep_mut, reps_mut, repl_mut.

(** A value without pointers. *)
Inductive flat : ty -> Prop :=
| flat_str : flat TStr
| flat_num : flat TNum
| flat_bool : flat TBool
| flat_struct fs : Forall (fun f => flat f.2) fs -> flat (TStruct fs).

Definition anywhere : nat -> Prop := fun _ => True.

(** A function that copies the values of a type to new blocks. *)
Definition copier (T : ty) (f : val -> Mem val) : Prop :=
  forall m t v, rep anywhere m T t v ->
  exists v' m', f v m = Ret (v', m') /\ m `prefix_of` m' /\ rep (fun b => (length m <= b)%nat) m' T t v'.

(** ** What is kept *)

(** A value only depends on the blocks it is made of. *)
Lemma rep_frame_all (P Q : nat -> Prop) (m m' : mem) :
  (forall b block, P b -> m !! b = Some block -> Q b /\ m' !! b = Some block) ->
  (forall T t v, rep P m T t v -> rep Q m' T t v) /\
  (forall fs ts vs, reps P m fs ts vs -> reps Q m' fs ts vs) /\
  (forall T ts vs, repl P m T ts vs -> repl Q m' T ts vs).
Proof.
  intros Hk. apply rep_all; intros; try (constructor; done).
  - destruct (Hk b [v]); [done..|]. by econstructor.
  - destruct (Hk b block); [done..|]. by econstructor.
Qed.

Lemma rep_frame (P Q : nat -> Prop) (m m' : mem) T t v :
  rep P m T t v -> (forall b block, P b -> m !! b = Some block -> Q b /\ m' !! b = Some block) ->
  rep Q m' T t v.
Proof. intros Hr Hk. by apply (rep_frame_all P Q m m' Hk). Qed.

(** A value made of new blocks, in a memory that grew further. *)
Lemma rep_grow n k (m m' : mem) T t v :
  rep (fun b => (n <= b)%nat) m T t v -> m `prefix_of` m' -> (k <= n)%nat ->
  rep (fun b => (k <= b)%nat) m' T t v.
Proof.
  intros Hr Hp Hk. eapply rep_frame; [exact Hr|]. intros b block Hb Hm. cbv beta in *. split; [lia|].
  by eapply prefix_lookup_Some.
Qed.

Lemma rep_any P m T t v : rep P m T t v -> rep anywhere m T t v.
Proof. intros Hr. by eapply rep_frame. Qed.

Lemma rep_anywhere_grow m m' T t v :
  rep anywhere m T t v -> m `prefix_of` m' -> rep anywhere m' T t v.
Proof. intros Hr Hp. eapply rep_frame; [exact Hr|]. intros. split; [done|]. by eapply prefix_lookup_Some. Qed.

(** A flat value is made of no blocks. *)
Lemma rep_flat_all P Q m m' :
  (forall T t v, rep P m T t v -> flat T -> rep Q m' T t v) /\
  (forall fs ts vs, reps P m fs ts vs -> Forall (fun f => flat f.2) fs -> reps Q m' fs ts vs) /\
  (forall T ts vs, repl P m T ts vs -> flat T -> repl Q m' T ts vs).
Proof.
  apply rep_all; try (intros; constructor; done).
  - intros fs ts vs _ IH Hf. inversion Hf; subst. constructor. auto.
  - intros T t b v _ _ _ _ Hf. inversion Hf.
  - intros T ts b off block _ _ _ _ Hf. inversion Hf.
  - intros n T fs t ts v vs _ IH _ IHs Hf. inversion Hf; subst. constructor; auto.
  - intros T t ts v vs _ IH _ IHs Hf. constructor; auto.
Qed.

Lemma rep_flat P Q m m' T t v : flat T -> rep P m T t v -> rep Q m' T t v.
Proof. intros Hf Hr. by apply (rep_flat_all P Q m m'). Qed.

Lemma copier_flat T : flat T -> copier T assign.
Proof. intros Hf m t v Hr. exists v, m. split_and!; [done|done|]. by eapply rep_flat. Qed.

(** ** The patterns are copiers *)

Lemma load_spec (m : mem) b i block v : m !! b = Some block -> block !! i = Some v -> load b i m = Ret (v, m).
Proof. intros Hb Hi. unfold load. rewrite Hb. simpl. by rewrite Hi. Qed.

Lemma store_spec (m : mem) b i block v :
  m !! b = Some block -> (i < length block)%nat -> store b i v m = Ret (tt, <[b := <[i := v]> block]> m).
Proof. intros Hb Hi. unfold store. rewrite Hb. by rewrite decide_True. Qed.

(** Writing to a block that was allocated keeps what was there before. *)
Lemma prefix_insert (m0 m : mem) b block :
  m0 `prefix_of` m -> (length m0 <= b)%nat -> m0 `prefix_of` <[b := block]> m.
Proof.
  intros [k ->] Hb. exists (<[(b - length m0)%nat := block]> k). by apply insert_app_r_alt.
Qed.

Lemma copier_ptr T f : copier T f -> copier (TPtr T) (copy_ptr f).
Proof.
  intros Hf m t v Hr. inversion Hr as [| | | |T'|T' t' b w _ Hb Hw| |]; subst.
  { exists (VPtr None), m. split_and!; [done|done|constructor]. }
  set (m1 := m ++ [[VStruct []]]).
  assert (Hp : m `prefix_of` m1) by (by eexists).
  destruct (Hf m1 t' w) as (w' & m2 & Hrun & Hp2 & Hw'); [by eapply rep_anywhere_grow|].
  assert (Hout : m2 !! length m = Some [VStruct []]).
  { eapply prefix_lookup_Some; [|exact Hp2]. unfold m1. by rewrite lookup_app_r, Nat.sub_diag. }
  exists (VPtr (Some (length m))), (<[length m := [w']]> m2). split_and!.
  - unfold copy_ptr, alloc, mbind, Mem_bind. fold m1.
    rewrite (load_spec m1 b 0 [w] w); [|by eapply prefix_lookup_Some|done]. rewrite Hrun.
    rewrite (store_spec m2 (length m) 0 [VStruct []]); [done|done|simpl; lia].
  - apply prefix_insert; [|done]. by transitivity m1.
  - apply rep_ptr with w'; [done| |].
    + apply list_lookup_insert_eq. by eapply lookup_lt_Some.
    + eapply rep_frame; [exact Hw'|]. intros b' block Hb' Hm. unfold m1 in Hb'. rewrite length_app in Hb'.
      simpl in Hb'. split; [lia|]. rewrite list_lookup_insert_ne; [done|lia].
Qed.

(** The values of a list of trees, by position. *)
Lemma repl_lookup P m T ts vs :
  repl P m T ts vs <-> length vs = length ts /\
    forall i t v, ts !! i = Some t -> vs !! i = Some v -> rep P m T t v.
Proof.
  split.
  - induction 1 as [|T t ts v vs Hr Hrs [IHl IH]]; simpl; [done|]. split; [lia|].
    intros [|i] t' v' ??; simplify_eq/=; eauto.
  - revert vs. induction ts as [|t ts IH]; intros [|v vs] [Hl Hi]; simplify_eq/=; constructor.
    + by apply (Hi 0%nat).
    + apply IH. split; [done|]. intros i. apply (Hi (S i)).
Qed.

(** The loop, from element [i] on: the elements before are copied. *)
Lemma copy_elements_spec T f (m0 : mem) b out off block ts :
  copier T f -> (length m0 <= out)%nat -> m0 !! b = Some block ->
  repl anywhere m0 T ts (take (length ts) (drop off block)) ->
  forall n i m cur, (i + n = length ts)%nat ->
  m0 `prefix_of` m -> m !! out = Some cur -> length cur = length ts ->
  (forall j t v, (j < i)%nat -> ts !! j = Some t -> cur !! j = Some v ->
     rep (fun b => (out < b)%nat) m T t v) ->
  exists m' cur', copy_elements f b out off i n m = Ret (tt, m') /\ m0 `prefix_of` m' /\
    m' !! out = Some cur' /\ repl (fun b => (out < b)%nat) m' T ts cur'.
Proof.
  intros Hf Hout Hb Hts. induction n as [|n IH]; intros i m cur Hn Hp Hcur Hl Hdone; simpl.
  { exists m, cur. split_and!; [done..|]. apply repl_lookup. split; [done|]. intros j t v Ht Hv.
    apply (Hdone j); [|done..]. apply lookup_lt_Some in Ht. lia. }
  pose proof (proj1 (repl_lookup _ _ _ _ _) Hts) as [Hlt Hi].
  destruct (lookup_lt_is_Some_2 ts i) as [t Ht]; [lia|].
  destruct (lookup_lt_is_Some_2 (take (length ts) (drop off block)) i) as [v Hv]; [lia|].
  pose proof (Hi i t v Ht Hv) as Hr. apply lookup_take_Some in Hv as [Hv _]. rewrite lookup_drop in Hv.
  destruct (Hf m t v) as (v' & m1 & Hrun & Hp1 & Hr'); [by eapply rep_anywhere_grow|].
  assert (Hcur1 : m1 !! out = Some cur) by (by eapply prefix_lookup_Some).
  assert (Hlen : (out < length m)%nat) by (by eapply lookup_lt_Some).
  unfold mbind, Mem_bind.
  rewrite (load_spec m b (off + i) block v); [|by eapply prefix_lookup_Some|done]. rewrite Hrun.
  rewrite (store_spec m1 out i cur) by (done || lia).
  apply (IH (S i) _ (<[i := v']> cur)); [lia| | |by rewrite length_insert|].
  - apply prefix_insert; [|done]. by transitivity m.
  - apply list_lookup_insert_eq. by eapply lookup_lt_Some.
  - intros j t' w Hj Ht' Hw.
    assert (Hj' : rep (fun b => (out < b)%nat) m1 T t' w).
    { destruct (decide (j = i)) as [->|Hji].
      - rewrite list_lookup_insert_eq in Hw by lia. simplify_eq. eapply rep_frame; [exact Hr'|].
        intros b' block' Hb' Hm'. cbv beta in *. split; [lia|done].
      - rewrite list_lookup_insert_ne in Hw by done. eapply rep_grow; [|exact Hp1|apply le_n].
        apply (Hdone j); [lia|done..]. }
    eapply rep_frame; [exact Hj'|]. intros b' block' Hb' Hm'. cbv beta in *. split; [done|].
    rewrite list_lookup_insert_ne; [done|lia].
Qed.

Lemma copier_slice T zero f : copier T f -> copier (TSlice T) (copy_slice zero f).
Proof.
  intros Hf m t v Hr. inversion Hr as [| | | | | |T'|T' ts b off block _ Hb Hts]; subst.
  { exists (VSlice None), m. split_and!; [done|done|constructor]. }
  set (m1 := m ++ [replicate (length ts) zero]).
  destruct (copy_elements_spec T f m b (length m) off block ts Hf (le_n _) Hb Hts (length ts) 0 m1
    (replicate (length ts) zero)) as (m' & cur & Hrun & Hp & Hcur & Hrl).
  - done.
  - by eexists.
  - unfold m1. by rewrite lookup_app_r, Nat.sub_diag.
  - by rewrite length_replicate.
  - lia.
  - exists (VSlice (Some (length m, 0%nat, length ts))), m'. split_and!; [|done|].
    + unfold copy_slice, alloc, mbind, Mem_bind. fold m1. by rewrite Hrun.
    + apply rep_slice with cur; [done|done|]. apply repl_lookup in Hrl as Hl. destruct Hl as [Hl _].
      rewrite drop_0, take_ge by lia.
      eapply (rep_frame_all (fun b => (length m < b)%nat)); [|exact Hrl].
      intros b' block' Hb' Hm'. cbv beta in *. split; [lia|done].
Qed.

(** ** Structs *)

(** Some fields of [out] are copies already; the others are those of
    [in]. *)
Inductive mixed (n : nat) (m : mem) (D : gset string)
  : list (string * ty) -> list tree -> list (string * val) -> list (string * val) -> Prop :=
| mixed_nil : mixed n m D [] [] [] []
| mixed_cons x T fs t ts v vs w ws :
    (x ∈ D /\ rep (fun b => (n <= b)%nat) m T t w \/ x ∉ D /\ w = v) ->
    mixed n m D fs ts vs ws ->
    mixed n m D ((x, T) :: fs) (t :: ts) ((x, v) :: vs) ((x, w) :: ws).

Lemma mixed_start P n m m' fs ts vs : reps P m fs ts vs -> mixed n m' ∅ fs ts vs vs.
Proof. induction 1; constructor; [|done]. right. split; [set_solver|done]. Qed.

Lemma mixed_grow n m m' D fs ts vs ws : m `prefix_of` m' -> mixed n m D fs ts vs ws -> mixed n m' D fs ts vs ws.
Proof.
  intros Hp. induction 1 as [|x T fs t ts v vs w ws Hx _ IH]; constructor; [|done].
  destruct Hx as [[? Hr]|?]; [left|by right]. split; [done|]. by eapply rep_grow.
Qed.

(** Copying one more field. *)
Lemma mixed_field P n m0 m D x T fs ts vs ws :
  reps P m0 fs ts vs -> mixed n m D fs ts vs ws -> NoDup fs.*1 -> (x, T) ∈ fs ->
  exists t v, get_field x vs = Some v /\ rep P m0 T t v /\
    forall m' w, m `prefix_of` m' -> rep (fun b => (n <= b)%nat) m' T t w ->
    mixed n m' ({[x]} ∪ D) fs ts vs (put_field x w ws).
Proof.
  intros Hr. revert ws. induction Hr as [|y U fs t ts v vs Hv Hr IH]; intros ws Hm Hnd Hin; [by apply not_elem_of_nil in Hin|].
  inversion Hm as [|? ? ? ? ? ? ? w ws' Hw Hm']; subst. simpl in Hnd. apply NoDup_cons in Hnd as [Hy Hnd].
  simpl. destruct (String.eqb_spec y x) as [->|Hyx].
  - assert (T = U) as ->.
    { apply elem_of_cons in Hin as [Hin|Hin]; [by simplify_eq|]. destruct Hy. apply list_elem_of_fmap.
      by exists (x, T). }
    exists t, v. split_and!; [done|done|]. intros m' w' Hp Hw'. constructor; [left; split; [set_solver|done]|].
    apply (mixed_grow _ _ m') in Hm'; [|done]. clear -Hm' Hy. induction Hm' as [|z V fs t ts v vs w ws Hz _ IH]; constructor.
    + destruct Hz as [[? ?]|[? ?]]; [left|right]; split; try done; set_solver.
    + apply IH. set_solver.
  - apply elem_of_cons in Hin as [Hin|Hin]; [by simplify_eq|].
    destruct (IH ws' Hm' Hnd Hin) as (t' & v' & Hg & Hr' & Hput). exists t', v'. split_and!; [done..|].
    intros m' w' Hp Hw'. constructor; [|by apply Hput].
    destruct Hw as [[? Hrw]|[? ?]]; [left|right]; (split; [set_solver|]); [by eapply rep_grow|done].
Qed.

(** When the fields with pointers were copied, the struct is a copy. *)
Lemma mixed_done P n m0 m D fs ts vs ws :
  reps P m0 fs ts vs -> mixed n m D fs ts vs ws -> (forall x T, (x, T) ∈ fs -> x ∈ D \/ flat T) ->
  reps (fun b => (n <= b)%nat) m fs ts ws.
Proof.
  intros Hr. revert ws. induction Hr as [|y U fs t ts v vs Hv Hr IH]; intros ws Hm Hall; inversion Hm; subst.
  - constructor.
  - constructor; [|apply IH; [done|]; intros; apply Hall; by right].
    match goal with H : _ \/ _ |- _ => destruct H as [[_ ?]|[Hn ->]] end; [done|].
    destruct (Hall y U) as [?|Hfl]; [by left|done|]. by eapply rep_flat.
Qed.

Lemma set_fields_spec fs ts vs m0 ops :
  reps anywhere m0 fs ts vs -> NoDup fs.*1 ->
  Forall (fun op => exists T, (op.1, T) ∈ fs /\ copier T op.2) ops ->
  forall m D ws, m0 `prefix_of` m -> mixed (length m0) m D fs ts vs ws ->
  exists ws' m', set_fields ops vs ws m = Ret (VStruct ws', m') /\ m0 `prefix_of` m' /\
    mixed (length m0) m' (D ∪ list_to_set ops.*1) fs ts vs ws'.
Proof.
  intros Hr Hnd Hops. induction Hops as [|[x f] ops (T & Hin & Hf) _ IH]; intros m D ws Hp Hm; simpl in *.
  { exists ws, m. split_and!; [done|done|]. by rewrite union_empty_r_L. }
  destruct (mixed_field _ _ _ _ _ x T _ _ _ _ Hr Hm Hnd Hin) as (t & v & Hg & Hv & Hput).
  rewrite Hg. destruct (Hf m t v) as (w & m1 & Hrun & Hp1 & Hw); [by eapply rep_anywhere_grow|].
  unfold mbind, Mem_bind. rewrite Hrun.
  destruct (IH m1 ({[x]} ∪ D) (put_field x w ws)) as (ws' & m' & Hrun' & Hp' & Hm').
  - by transitivity m.
  - apply Hput; [done|]. eapply rep_grow; [exact Hw|done|]. by apply prefix_length.
  - exists ws', m'. split_and!; [done|done|].
    assert (D ∪ ({[x]} ∪ list_to_set ops.*1) = {[x]} ∪ D ∪ list_to_set ops.*1) as E by set_solver.
    unfold fmap in *. by rewrite E.
Qed.

(** [DeepCopyInto] of a struct: every field with a pointer is copied. *)
Lemma copier_struct fs ops :
  NoDup fs.*1 -> Forall (fun op => exists T, (op.1, T) ∈ fs /\ copier T op.2) ops ->
  (forall x T, (x, T) ∈ fs -> x ∈ ops.*1 \/ flat T) -> copier (TStruct fs) (copy_struct ops).
Proof.
  intros Hnd Hops Hall m t v Hr. inversion Hr as [| | |fs' ts vs Hrs| | | |]; subst.
  destruct (set_fields_spec fs ts vs m ops Hrs Hnd Hops m ∅ vs) as (ws & m' & Hrun & Hp & Hm).
  - done.
  - by eapply mixed_start.
  - exists (VStruct ws), m'. split_and!; [done|done|]. constructor. eapply mixed_done; [done|done|].
    intros x T Hin. destruct (Hall x T Hin); [left; set_solver|by right].
Qed.

Create HintDb copy.
#[export] Hint Resolve copier_flat copier_ptr copier_slice : copy.
#[export] Hint Extern 5 (flat _) => solve [repeat constructor] : copy.

(** A struct type: its fields are listed, and those with pointers are
    copied by copiers. *)
Ltac copier_struct :=
  apply copier_struct;
    [apply (bool_decide_unpack _); vm_compute; reflexivity
    |repeat (apply Forall_cons; split; [eexists; split; [repeat (apply list_elem_of_here || apply list_elem_of_further)|];
       eauto 6 with copy|]); try apply Forall_nil_2
    |let Hin := fresh in intros ? ? Hin;
     repeat (apply elem_of_cons in Hin as [Hin|Hin];
       [simplify_eq/=; first [right; solve [repeat constructor]
                             |left; repeat (apply list_elem_of_here || apply list_elem_of_further)]|]);
     by apply not_elem_of_nil in Hin].

(** ** The types of the API *)

Definition TypeMeta_ty : ty := TStruct [("Kind", TStr); ("APIVersion", TStr)].
Definition SecretReference_ty : ty := TStruct [("Name", TStr); ("Namespace", TStr)].

(** *** [config.flomesh.io/v1alpha1] *)

Definition DNSSpec_ty : ty :=
  TStruct [("Namespace", TStr); ("Name", TStr); ("Port", TNum); ("Protocol", TStr)].
Definition SidecarSpec_ty : ty :=
  TStruct [("LogLevel", TStr); ("ProxyServerPort", TNum); ("ConfigResyncInterval", TStr)].
Definition TracingSpec_ty : ty :=
  TStruct [("Enable", TBool); ("Port", TNum); ("Address", TStr); ("Endpoint", TStr);
           ("SampledFraction", TPtr TStr)].
Definition RemoteLoggingSpec_ty : ty :=
  TStruct [("Enable", TBool); ("Port", TNum); ("Address", TStr); ("Endpoint", TStr);
           ("Authorization", TStr); ("SampledFraction", TPtr TStr)].
Definition IngressGatewayCertSpec_ty : ty :=
  TStruct [("SubjectAltNames", TSlice TStr); ("ValidityDuration", TStr); ("Secret", SecretReference_ty)].
Definition RepoServerSpec_ty : ty := TStruct [("IPAddr", TStr); ("Codebase", TStr)].
Definition PluginChainSpec_ty : ty := TStruct [("Plugin", TStr); ("Priority", TNum); ("Disable", TBool)].
Definition PluginChainsSpec_ty : ty :=
  TStruct [("InboundTCPChains", TSlice (TPtr PluginChainSpec_ty));
           ("InboundHTTPChains", TSlice (TPtr PluginChainSpec_ty));
           ("OutboundTCPChains", TSlice (TPtr PluginChainSpec_ty));
           ("OutboundHTTPChains", TSlice (TPtr PluginChainSpec_ty))].
Definition EcnetConfigSpec_ty : ty :=
  TStruct [("DNS", DNSSpec_ty); ("Sidecar", SidecarSpec_ty); ("RepoServer", RepoServerSpec_ty);
           ("PluginChains", PluginChainsSpec_ty)].

Definition DNSSpec_DeepCopyInto : val -> Mem val := copy_struct [].
Definition DNSSpec_DeepCopy : val -> Mem val := copy_ptr DNSSpec_DeepCopyInto.

Definition SidecarSpec_DeepCopyInto : val -> Mem val := copy_struct [].
Definition SidecarSpec_DeepCopy : val -> Mem val := copy_ptr SidecarSpec_DeepCopyInto.

Definition TracingSpec_DeepCopyInto : val -> Mem val := copy_struct [("SampledFraction", copy_ptr assign)].
Definition TracingSpec_DeepCopy : val -> Mem val := copy_ptr TracingSpec_DeepCopyInto.

Definition RemoteLoggingSpec_DeepCopyInto : val -> Mem val :=
  copy_struct [("SampledFraction", copy_ptr assign)].
Definition RemoteLoggingSpec_DeepCopy : val -> Mem val := copy_ptr RemoteLoggingSpec_DeepCopyInto.

Definition IngressGatewayCertSpec_DeepCopyInto : val -> Mem val :=
  copy_struct [("SubjectAltNames", copy_slice (VStr "") assign); ("Secret", assign)].
Definition IngressGatewayCertSpec_DeepCopy : val -> Mem val := copy_ptr IngressGatewayCertSpec_DeepCopyInto.

Definition RepoServerSpec_DeepCopyInto : val -> Mem val := copy_struct [].
Definition RepoServerSpec_DeepCopy : val -> Mem val := copy_ptr RepoServerSpec_DeepCopyInto.

Definition PluginChainSpec_DeepCopyInto : val -> Mem val := copy_struct [].
Definition PluginChainSpec_DeepCopy : val -> Mem val := copy_ptr PluginChainSpec_DeepCopyInto.

(** Elements that are nil stay nil. *)
Definition PluginChainsSpec_DeepCopyInto : val -> Mem val :=
  copy_struct [("InboundTCPChains", copy_slice (VPtr None) (copy_ptr assign));
               ("InboundHTTPChains", copy_slice (VPtr None) (copy_ptr assign));
               ("OutboundTCPChains", copy_slice (VPtr None) (copy_ptr assign));
               ("OutboundHTTPChains", copy_slice (VPtr None) (copy_ptr assign))].
Definition PluginChainsSpec_DeepCopy : val -> Mem val := copy_ptr PluginChainsSpec_DeepCopyInto.

Definition EcnetConfigSpec_DeepCopyInto : val -> Mem val :=
  copy_struct [("DNS", assign); ("Sidecar", assign); ("RepoServer", assign);
               ("PluginChains", PluginChainsSpec_DeepCopyInto)].
Definition EcnetConfigSpec_DeepCopy : val -> Mem val := copy_ptr EcnetConfigSpec_DeepCopyInto.

(** *** [flomesh.io/v1alpha1] *)

Definition Target_ty : ty := TStruct [("Host", TStr); ("IP", TStr); ("Port", TNum); ("Path", TStr)].
Definition Endpoint_ty : ty := TStruct [("Target", Target_ty); ("ClusterKey", TStr)].
Definition ServicePort_ty : ty :=
  TStruct [("Name", TStr); ("Protocol", TStr); ("AppProtocol", TPtr TStr); ("Port", TNum);
           ("Endpoints", TSlice Endpoint_ty)].
Definition ClusterStatus_ty : ty := TStruct [("Cluster", TStr); ("Addresses", TSlice TStr)].
Definition ServiceImportStatus_ty : ty := TStruct [("Clusters", TSlice ClusterStatus_ty)].
Definition TrafficTarget_ty : ty := TStruct [("ClusterKey", TStr); ("Weight", TPtr TNum)].
Definition GlobalTrafficPolicySpec_ty : ty :=
  TStruct [("LbType", TStr); ("LoadBalanceTarget", TSlice TrafficTarget_ty)].
Definition GlobalTrafficPolicyStatus_ty : ty := TStruct [].

Definition Target_DeepCopyInto : val -> Mem val := copy_struct [].
Definition Target_DeepCopy : val -> Mem val := copy_ptr Target_DeepCopyInto.

Definition Endpoint_DeepCopyInto : val -> Mem val := copy_struct [("Target", assign)].
Definition Endpoint_DeepCopy : val -> Mem val := copy_ptr Endpoint_DeepCopyInto.

Definition ServicePort_DeepCopyInto : val -> Mem val :=
  copy_struct [("AppProtocol", copy_ptr assign); ("Endpoints", copy_slice (VStruct []) assign)].
Definition ServicePort_DeepCopy : val -> Mem val := copy_ptr ServicePort_DeepCopyInto.

Definition ClusterStatus_DeepCopyInto : val -> Mem val :=
  copy_struct [("Addresses", copy_slice (VStr "") assign)].
Definition ClusterStatus_DeepCopy : val -> Mem val := copy_ptr ClusterStatus_DeepCopyInto.

Definition ServiceImportStatus_DeepCopyInto : val -> Mem val :=
  copy_struct [("Clusters", copy_slice (VStruct []) ClusterStatus_DeepCopyInto)].
Definition ServiceImportStatus_DeepCopy : val -> Mem val := copy_ptr ServiceImportStatus_DeepCopyInto.

Definition TrafficTarget_DeepCopyInto : val -> Mem val := copy_struct [("Weight", copy_ptr assign)].
Definition TrafficTarget_DeepCopy : val -> Mem val := copy_ptr TrafficTarget_DeepCopyInto.

Definition GlobalTrafficPolicySpec_DeepCopyInto : val -> Mem val :=
  copy_struct [("LoadBalanceTarget", copy_slice (VStruct []) TrafficTarget_DeepCopyInto)].
Definition GlobalTrafficPolicySpec_DeepCopy : val -> Mem val := copy_ptr GlobalTrafficPolicySpec_DeepCopyInto.

Definition GlobalTrafficPolicyStatus_DeepCopyInto : val -> Mem val := copy_struct [].
Definition GlobalTrafficPolicyStatus_DeepCopy : val -> Mem val := copy_ptr GlobalTrafficPolicyStatus_DeepCopyInto.

Lemma DNSSpec_copier : copier DNSSpec_ty DNSSpec_DeepCopyInto.
Proof. copier_struct. Qed.
#[export] Hint Resolve DNSSpec_copier : copy.
Lemma SidecarSpec_copier : copier SidecarSpec_ty SidecarSpec_DeepCopyInto.
Proof. copier_struct. Qed.
#[export] Hint Resolve SidecarSpec_copier : copy.
Lemma TracingSpec_copier : copier TracingSpec_ty TracingSpec_DeepCopyInto.
Proof. copier_struct. Qed.
#[export] Hint Resolve TracingSpec_copier : copy.
Lemma RemoteLoggingSpec_copier : copier RemoteLoggingSpec_ty RemoteLoggingSpec_DeepCopyInto.
Proof. copier_struct. Qed.
#[export] Hint Resolve RemoteLoggingSpec_copier : copy.
Lemma IngressGatewayCertSpec_copier : copier IngressGatewayCertSpec_ty IngressGatewayCertSpec_DeepCopyInto.
Proof. copier_struct. Qed.
#[export] Hint Resolve IngressGatewayCertSpec_copier : copy.
Lemma RepoServerSpec_copier : copier RepoServerSpec_ty RepoServerSpec_DeepCopyInto.
Proof. copier_struct. Qed.
#[export] Hint Resolve RepoServerSpec_copier : copy.
Lemma PluginChainSpec_copier : copier PluginChainSpec_ty PluginChainSpec_DeepCopyInto.
Proof. copier_struct. Qed.
#[export] Hint Resolve PluginChainSpec_copier : copy.
Lemma PluginChainsSpec_copier : copier PluginChainsSpec_ty PluginChainsSpec_DeepCopyInto.
Proof. copier_struct. Qed.
#[export] Hint Resolve PluginChainsSpec_copier : copy.
Lemma EcnetConfigSpec_copier : copier EcnetConfigSpec_ty EcnetConfigSpec_DeepCopyInto.
Proof. copier_struct. Qed.
#[export] Hint Resolve EcnetConfigSpec_copier : copy.
Lemma Target_copier : copier Target_ty Target_DeepCopyInto.
Proof. copier_struct. Qed.
#[export] Hint Resolve Target_copier : copy.
Lemma Endpoint_copier : copier Endpoint_ty Endpoint_DeepCopyInto.
Proof. copier_struct. Qed.
#[export] Hint Resolve Endpoint_copier : copy.
Lemma ServicePort_copier : copier ServicePort_ty ServicePort_DeepCopyInto.
Proof. copier_struct. Qed.
#[export] Hint Resolve ServicePort_copier : copy.
Lemma ClusterStatus_copier : copier ClusterStatus_ty ClusterStatus_DeepCopyInto.
Proof. copier_struct. Qed.
#[export] Hint Resolve ClusterStatus_copier : copy.
Lemma ServiceImportStatus_copier : copier ServiceImportStatus_ty ServiceImportStatus_DeepCopyInto.
Proof. copier_struct. Qed.
#[export] Hint Resolve ServiceImportStatus_copier : copy.
Lemma TrafficTarget_copier : copier TrafficTarget_ty TrafficTarget_DeepCopyInto.
Proof. copier_struct. Qed.
#[export] Hint Resolve TrafficTarget_copier : copy.
Lemma GlobalTrafficPolicySpec_copier : copier GlobalTrafficPolicySpec_ty GlobalTrafficPolicySpec_DeepCopyInto.
Proof. copier_struct. Qed.
#[export] Hint Resolve GlobalTrafficPolicySpec_copier : copy.
Lemma GlobalTrafficPolicyStatus_copier : copier GlobalTrafficPolicyStatus_ty GlobalTrafficPolicyStatus_DeepCopyInto.
Proof. copier_struct. Qed.
#[export] Hint Resolve GlobalTrafficPolicyStatus_copier : copy.

(** *** Objects and lists *)

Section Objects.
Context (ObjectMeta_ty ListMeta_ty SessionAffinityConfig_ty : ty)
  (ObjectMeta_DeepCopyInto ListMeta_DeepCopyInto SessionAffinityConfig_DeepCopyInto : val -> Mem val).

Definition EcnetConfig_ty : ty :=
  TStruct [("TypeMeta", TypeMeta_ty); ("ObjectMeta", ObjectMeta_ty); ("Spec", EcnetConfigSpec_ty)].
Definition EcnetConfigList_ty : ty :=
  TStruct [("TypeMeta", TypeMeta_ty); ("ListMeta", ListMeta_ty); ("Items", TSlice EcnetConfig_ty)].
Definition ServiceImportSpec_ty : ty :=
  TStruct [("Ports", TSlice ServicePort_ty); ("IPs", TSlice TStr); ("Type", TStr); ("SessionAffinity", TStr);
           ("SessionAffinityConfig", TPtr SessionAffinityConfig_ty); ("ServiceAccountName", TStr)].
Definition ServiceImport_ty : ty :=
  TStruct [("TypeMeta", TypeMeta_ty); ("ObjectMeta", ObjectMeta_ty); ("Spec", ServiceImportSpec_ty);
           ("Status", ServiceImportStatus_ty)].
Definition ServiceImportList_ty : ty :=
  TStruct [("TypeMeta", TypeMeta_ty); ("ListMeta", ListMeta_ty); ("Items", TSlice ServiceImport_ty)].
Definition GlobalTrafficPolicy_ty : ty :=
  TStruct [("TypeMeta", TypeMeta_ty); ("ObjectMeta", ObjectMeta_ty); ("Spec", GlobalTrafficPolicySpec_ty);
           ("Status", GlobalTrafficPolicyStatus_ty)].
Definition GlobalTrafficPolicyList_ty : ty :=
  TStruct [("TypeMeta", TypeMeta_ty); ("ListMeta", ListMeta_ty); ("Items", TSlice GlobalTrafficPolicy_ty)].

Definition EcnetConfig_DeepCopyInto : val -> Mem val :=
  copy_struct [("TypeMeta", assign); ("ObjectMeta", ObjectMeta_DeepCopyInto);
               ("Spec", EcnetConfigSpec_DeepCopyInto)].
Definition EcnetConfig_DeepCopy : val -> Mem val := copy_ptr EcnetConfig_DeepCopyInto.

Definition EcnetConfigList_DeepCopyInto : val -> Mem val :=
  copy_struct [("TypeMeta", assign); ("ListMeta", ListMeta_DeepCopyInto);
               ("Items", copy_slice (VStruct []) EcnetConfig_DeepCopyInto)].
Definition EcnetConfigList_DeepCopy : val -> Mem val := copy_ptr EcnetConfigList_DeepCopyInto.

Definition ServiceImportSpec_DeepCopyInto : val -> Mem val :=
  copy_struct [("Ports", copy_slice (VStruct []) ServicePort_DeepCopyInto);
               ("IPs", copy_slice (VStr "") assign);
               ("SessionAffinityConfig", copy_ptr SessionAffinityConfig_DeepCopyInto)].
Definition ServiceImportSpec_DeepCopy : val -> Mem val := copy_ptr ServiceImportSpec_DeepCopyInto.

Definition ServiceImport_DeepCopyInto : val -> Mem val :=
  copy_struct [("TypeMeta", assign); ("ObjectMeta", ObjectMeta_DeepCopyInto);
               ("Spec", ServiceImportSpec_DeepCopyInto); ("Status", ServiceImportStatus_DeepCopyInto)].
Definition ServiceImport_DeepCopy : val -> Mem val := copy_ptr ServiceImport_DeepCopyInto.

Definition ServiceImportList_DeepCopyInto : val -> Mem val :=
  copy_struct [("TypeMeta", assign); ("ListMeta", ListMeta_DeepCopyInto);
               ("Items", copy_slice (VStruct []) ServiceImport_DeepCopyInto)].
Definition ServiceImportList_DeepCopy : val -> Mem val := copy_ptr ServiceImportList_DeepCopyInto.

Definition GlobalTrafficPolicy_DeepCopyInto : val -> Mem val :=
  copy_struct [("TypeMeta", assign); ("ObjectMeta", ObjectMeta_DeepCopyInto);
               ("Spec", GlobalTrafficPolicySpec_DeepCopyInto); ("Status", assign)].
Definition GlobalTrafficPolicy_DeepCopy : val -> Mem val := copy_ptr GlobalTrafficPolicy_DeepCopyInto.

Definition GlobalTrafficPolicyList_DeepCopyInto : val -> Mem val :=
  copy_struct [("TypeMeta", assign); ("ListMeta", ListMeta_DeepCopyInto);
               ("Items", copy_slice (VStruct []) GlobalTrafficPolicy_DeepCopyInto)].
Definition GlobalTrafficPolicyList_DeepCopy : val -> Mem val := copy_ptr GlobalTrafficPolicyList_DeepCopyInto.

(** [DeepCopyObject]: a nil pointer gives a nil interface. *)
Definition DeepCopyObject (DeepCopy : val -> Mem val) (in_ : val) : Mem (option val) :=
  c ← DeepCopy in_;
  match c with VPtr None => mret None | _ => mret (Some c) end.

(** Every type of the two packages with its [DeepCopy]. *)
Definition deep_copies : list (ty * (val -> Mem val)) :=
  [(DNSSpec_ty, DNSSpec_DeepCopy); (SidecarSpec_ty, SidecarSpec_DeepCopy);
   (TracingSpec_ty, TracingSpec_DeepCopy); (RemoteLoggingSpec_ty, RemoteLoggingSpec_DeepCopy);
   (IngressGatewayCertSpec_ty, IngressGatewayCertSpec_DeepCopy); (RepoServerSpec_ty, RepoServerSpec_DeepCopy);
   (PluginChainSpec_ty, PluginChainSpec_DeepCopy); (PluginChainsSpec_ty, PluginChainsSpec_DeepCopy);
   (EcnetConfigSpec_ty, EcnetConfigSpec_DeepCopy); (EcnetConfig_ty, EcnetConfig_DeepCopy);
   (EcnetConfigList_ty, EcnetConfigList_DeepCopy); (Target_ty, Target_DeepCopy);
   (Endpoint_ty, Endpoint_DeepCopy); (ServicePort_ty, ServicePort_DeepCopy);
   (ClusterStatus_ty, ClusterStatus_DeepCopy); (ServiceImportStatus_ty, ServiceImportStatus_DeepCopy);
   (ServiceImportSpec_ty, ServiceImportSpec_DeepCopy); (ServiceImport_ty, ServiceImport_DeepCopy);
   (ServiceImportList_ty, ServiceImportList_DeepCopy); (TrafficTarget_ty, TrafficTarget_DeepCopy);
   (GlobalTrafficPolicySpec_ty, GlobalTrafficPolicySpec_DeepCopy);
   (GlobalTrafficPolicyStatus_ty, GlobalTrafficPolicyStatus_DeepCopy);
   (GlobalTrafficPolicy_ty, GlobalTrafficPolicy_DeepCopy);
   (GlobalTrafficPolicyList_ty, GlobalTrafficPolicyList_DeepCopy)].

(** The library's functions copy. *)
Context (ObjectMeta_copier : copier ObjectMeta_ty ObjectMeta_DeepCopyInto)
  (ListMeta_copier : copier ListMeta_ty ListMeta_DeepCopyInto)
  (SessionAffinityConfig_copier : copier SessionAffinityConfig_ty SessionAffinityConfig_DeepCopyInto).

#[local] Hint Resolve ObjectMeta_copier ListMeta_copier SessionAffinityConfig_copier : copy.

Lemma EcnetConfig_copier : copier EcnetConfig_ty EcnetConfig_DeepCopyInto.
Proof using ObjectMeta_copier ListMeta_copier SessionAffinityConfig_copier. copier_struct. Qed.
#[local] Hint Resolve EcnetConfig_copier : copy.
Lemma EcnetConfigList_copier : copier EcnetConfigList_ty EcnetConfigList_DeepCopyInto.
Proof using ObjectMeta_copier ListMeta_copier SessionAffinityConfig_copier. copier_struct. Qed.
#[local] Hint Resolve EcnetConfigList_copier : copy.
Lemma ServiceImportSpec_copier : copier ServiceImportSpec_ty ServiceImportSpec_DeepCopyInto.
Proof using ObjectMeta_copier ListMeta_copier SessionAffinityConfig_copier. copier_struct. Qed.
#[local] Hint Resolve ServiceImportSpec_copier : copy.
Lemma ServiceImport_copier : copier ServiceImport_ty ServiceImport_DeepCopyInto.
Proof using ObjectMeta_copier ListMeta_copier SessionAffinityConfig_copier. copier_struct. Qed.
#[local] Hint Resolve ServiceImport_copier : copy.
Lemma ServiceImportList_copier : copier ServiceImportList_ty ServiceImportList_DeepCopyInto.
Proof using ObjectMeta_copier ListMeta_copier SessionAffinityConfig_copier. copier_struct. Qed.
#[local] Hint Resolve ServiceImportList_copier : copy.
Lemma GlobalTrafficPolicy_copier : copier GlobalTrafficPolicy_ty GlobalTrafficPolicy_DeepCopyInto.
Proof using ObjectMeta_copier ListMeta_copier SessionAffinityConfig_copier. copier_struct. Qed.
#[local] Hint Resolve GlobalTrafficPolicy_copier : copy.
Lemma GlobalTrafficPolicyList_copier : copier GlobalTrafficPolicyList_ty GlobalTrafficPolicyList_DeepCopyInto.
Proof using ObjectMeta_copier ListMeta_copier SessionAffinityConfig_copier. copier_struct. Qed.
#[local] Hint Resolve GlobalTrafficPolicyList_copier : copy.

Lemma deep_copies_copiers : Forall (fun '(T, f) => copier (TPtr T) f) deep_copies.
Proof using ObjectMeta_copier ListMeta_copier SessionAffinityConfig_copier.
  repeat (apply Forall_cons; split; [apply copier_ptr; eauto with copy|]). apply Forall_nil_2.
Qed.

(** C23: Each [DeepCopy] of the two API packages returns; its result stands
    for the same object and shares no memory with the original: whatever is
    written later to the memory of the one, the other stands for the object
    it stood for. *)
Theorem deep_copies_independent T f m t v :
  (T, f) ∈ deep_copies -> rep anywhere m (TPtr T) t v ->
  exists v' m', f v m = Ret (v', m') /\
    rep anywhere m' (TPtr T) t v' /\ rep anywhere m' (TPtr T) t v /\
    (forall m2, (forall b, (length m <= b)%nat -> m2 !! b = m' !! b) -> rep anywhere m2 (TPtr T) t v') /\
    (forall m2, (forall b, (b < length m)%nat -> m2 !! b = m' !! b) -> rep anywhere m2 (TPtr T) t v).
Proof using ObjectMeta_copier ListMeta_copier SessionAffinityConfig_copier.
  intros Hin Hr. pose proof deep_copies_copiers as Hall. rewrite Forall_forall in Hall.
  destruct (Hall (T, f) Hin m t v Hr) as (v' & m' & Hrun & Hp & Hr').
  exists v', m'. split_and!; [done|by eapply rep_any|by eapply rep_anywhere_grow| |].
  - intros m2 Hm2. eapply rep_frame; [exact Hr'|]. intros b block Hb Hm. split; [done|]. by rewrite Hm2.
  - intros m2 Hm2. eapply rep_frame; [exact Hr|]. intros b block _ Hm. split; [done|].
    rewrite Hm2 by (by eapply lookup_lt_Some). by eapply prefix_lookup_Some.
Qed.

End Objects.

(** ** A port with its protocol and an endpoint *)

Definition sample_meta_ty : ty := TStruct [("Name", TStr); ("Namespace", TStr)].

Lemma sample_meta_copier : copier sample_meta_ty (copy_struct []).
Proof. copier_struct. Qed.

Definition sample_endpoint : val :=
  VStruct [("Target", VStruct [("Host", VStr ""); ("IP", VStr "10.0.0.9"); ("Port", VNum 80); ("Path", VStr "/")]);
           ("ClusterKey", VStr "east")].
Definition sample_mem : mem :=
  [[VStr "http"]; [sample_endpoint];
   [VStruct [("Name", VStr "web"); ("Protocol", VStr "TCP"); ("AppProtocol", VPtr (Some 0%nat));
             ("Port", VNum 80); ("Endpoints", VSlice (Some (1%nat, 0%nat, 1%nat)))]]].
Definition sample_tree : tree :=
  LPtr (Some (LStruct [LStr "web"; LStr "TCP"; LPtr (Some (LStr "http")); LNum 80;
    LSlice (Some [LStruct [LStruct [LStr ""; LStr "10.0.0.9"; LNum 80; LStr "/"]; LStr "east"]])])).

Lemma sample_rep : rep anywhere sample_mem (TPtr ServicePort_ty) sample_tree (VPtr (Some 2%nat)).
Proof. repeat (econstructor; try reflexivity; try exact I). Qed.

Lemma deep_copies_independent_witness :
  exists v' m', ServicePort_DeepCopy (VPtr (Some 2%nat)) sample_mem = Ret (v', m') /\
    rep anywhere (<[0%nat := [VStr "changed"]]> m') (TPtr ServicePort_ty) sample_tree v'.
Proof.
  destruct (deep_copies_independent sample_meta_ty sample_meta_ty sample_meta_ty (copy_struct []) (copy_struct [])
    (copy_struct []) sample_meta_copier sample_meta_copier sample_meta_copier ServicePort_ty ServicePort_DeepCopy
    sample_mem sample_tree (VPtr (Some 2%nat))) as (v' & m' & Hrun & _ & _ & Hkeep & _).
  - repeat (apply list_elem_of_here || apply list_elem_of_further).
  - exact sample_rep.
  - exists v', m'. split; [exact Hrun|]. apply Hkeep. intros b Hb. apply list_lookup_insert_ne.
    simpl in Hb. lia.
Defined.
