(* ===== verification/GoSort.v ===== *)
(** * Go's [sort.Sort]

    [sort.Sort] is not stable and, for a [Less] that is not a strict weak
    order, its result depends on the algorithm. [SortSort] states what
    every version of the library promises, and what Go 1.19 (the version
    [go.mod] asks for) does on the short slices of this program: a slice of
    at most 12 elements is insertion sorted. *)

From Stdlib Require Import Sorting.Sorted.
From S2P Require Import Prelude.

Section InsertionSort.
Context {A : Type} (less : A -> A -> bool).

(** One round of the inner loop: [x] moves left past every element it is
    less than. The prefix is kept in reverse. *)
Fixpoint insert_left (x : A) (rprefix : list A) : list A :=
  match rprefix with
  | [] => [x]
  | y :: r => if less x y then y :: insert_left x r else x :: y :: r
  end.

Definition insertionSort (l : list A) : list A :=
  reverse (foldl (fun rprefix x => insert_left x rprefix) [] l).

(** [Less] is a strict weak order. *)
Definition strict_weak_order : Prop :=
  (forall a b, less a b = true -> less b a = false) /\
  (forall a b c, less a c = true -> less a b = true \/ less b c = true).

(** No element is less than one before it. *)
Definition sorted_by (l : list A) : Prop :=
  StronglySorted (fun a b => less b a = false) l.

Lemma insert_left_perm x r : insert_left x r ≡ₚ x :: r.
Proof.
  induction r as [|y r IH]; simpl; [done|].
  destruct (less x y); [|done]. rewrite IH. apply Permutation_swap.
Qed.

Lemma insertionSort_perm l : insertionSort l ≡ₚ l.
Proof.
  unfold insertionSort. rewrite reverse_Permutation.
  apply (foldl_inv (fun r x => insert_left x r) (fun pre r => r ≡ₚ pre)); [done|].
  intros pre a post st _ IH. rewrite insert_left_perm, IH.
  apply Permutation_cons_append.
Qed.

Lemma insert_left_sorted x r :
  strict_weak_order ->
  StronglySorted (fun a b => less a b = false) r ->
  StronglySorted (fun a b => less a b = false) (insert_left x r).
Proof.
  intros [Hasym Hneg]. induction 1 as [|y r Hr IH Hy]; simpl.
  - by repeat constructor.
  - destruct (less x y) eqn:E.
    + constructor; [done|]. rewrite insert_left_perm. by constructor; auto.
    + constructor; [by constructor|]. constructor; [done|].
      eapply Forall_impl; [exact Hy|]. intros z Hz. simpl in Hz.
      destruct (less x z) eqn:E'; [|done]. destruct (Hneg x y z E'); congruence.
Qed.

Lemma StronglySorted_snoc {B} (R : B -> B -> Prop) l x :
  StronglySorted R l -> Forall (fun y => R y x) l -> StronglySorted R (l ++ [x]).
Proof.
  induction 1 as [|y l Hl IH Hy]; simpl; intros Hx.
  - by repeat constructor.
  - apply Forall_cons in Hx as [Hyx Hx]. constructor; [by apply IH|].
    apply Forall_app. by repeat constructor.
Qed.

Lemma StronglySorted_reverse {B} (R : B -> B -> Prop) l :
  StronglySorted R l -> StronglySorted (fun a b => R b a) (reverse l).
Proof.
  induction 1 as [|x l Hl IH Hx]; [by constructor|].
  rewrite reverse_cons. apply StronglySorted_snoc; [done|].
  by rewrite reverse_Permutation.
Qed.

Lemma insertionSort_sorted l : strict_weak_order -> sorted_by (insertionSort l).
Proof.
  intros Hswo. unfold sorted_by, insertionSort.
  apply (StronglySorted_reverse (fun a b => less a b = false)).
  apply (foldl_inv _ (fun _ r => StronglySorted (fun a b => less a b = false) r)).
  - constructor.
  - intros. by apply insert_left_sorted.
Qed.

(** A slice no element of which is less than the one before it is left
    alone. *)
Lemma insertionSort_id l :
  (forall a b, a ∈ l -> b ∈ l -> less a b = false) -> insertionSort l = l.
Proof.
  intros H. unfold insertionSort.
  cut (foldl (fun r x => insert_left x r) [] l = reverse l).
  { intros ->. apply reverse_involutive. }
  apply (foldl_inv _ (fun pre r => r = reverse pre)); [done|].
  intros pre a post st Hl ->. rewrite reverse_snoc.
  destruct (reverse pre) as [|y r] eqn:E; [done|]. simpl.
  rewrite (H a y); [done|subst; set_solver|].
  assert (y ∈ pre) as Hy by (rewrite <- (reverse_involutive pre), E; set_solver).
  subst. set_solver.
Qed.

End InsertionSort.

Lemma StronglySorted_weaken {A} (R S : A -> A -> Prop) l :
  (forall a b, R a b -> S a b) -> StronglySorted R l -> StronglySorted S l.
Proof.
  intros H. induction 1 as [|x l Hl IH Hx]; constructor; [done|].
  eapply Forall_impl; [exact Hx|]. auto.
Qed.

Class SortSort : Type := {
  sort_Sort : forall {A : Type}, (A -> A -> bool) -> list A -> list A;
  sort_perm : forall {A} (less : A -> A -> bool) l, sort_Sort less l ≡ₚ l;
  sort_sorted : forall {A} (less : A -> A -> bool) l,
    strict_weak_order less -> sorted_by less (sort_Sort less l);
  sort_small : forall {A} (less : A -> A -> bool) l,
    (length l <= 12)%nat -> sort_Sort less l = insertionSort less l
}.

(** Insertion sort at every length keeps the promises. *)
Definition insertion_sort_Sort : SortSort := {|
  sort_Sort := fun A => insertionSort (A:=A);
  sort_perm := fun A less l => insertionSort_perm less l;
  sort_sorted := fun A less l H => insertionSort_sorted less l H;
  sort_small := fun A less l _ => eq_refl
|}.
