(* ===== verification/MapSet.v ===== *)
(** * The set library [github.com/deckarep/golang-set]

    A third-party package: its operations are the fields of a class, with
    what its documentation promises as laws. The order of [Iter] and
    [ToSlice] is not specified. *)

From S2P Require Import Prelude.

Class MapSet (A : Type) : Type := {
  mset : Type;
  NewSet : mset;
  Add : A -> mset -> mset;
  Iter : mset -> list A;
  ToSlice : mset -> list A;
  Equal : mset -> mset -> bool;
  Cardinality : mset -> Z;
  iter_new : Iter NewSet = [];
  iter_add : forall x y s, y ∈ Iter (Add x s) <-> y = x \/ y ∈ Iter s;
  iter_nodup : forall s, NoDup (Iter s);
  toslice_perm : forall s, ToSlice s ≡ₚ Iter s;
  equal_spec : forall s t, Equal s t = true <-> (forall x, x ∈ Iter s <-> x ∈ Iter t);
  cardinality_spec : forall s, Cardinality s = Z.of_nat (length (Iter s))
}.
Arguments mset A {_}.

Section Laws.
Context {A : Type} `{!MapSet A}.

(** The set of the elements of a slice, as the sources build it. *)
Definition set_of (l : list A) : mset A := foldl (fun s x => Add x s) NewSet l.

Lemma elem_of_set_of l y : y ∈ Iter (set_of l) <-> y ∈ l.
Proof.
  unfold set_of.
  apply (foldl_inv _ (fun pre s => y ∈ Iter s <-> y ∈ pre)).
  - by rewrite iter_new.
  - intros pre a post s _ IH. rewrite iter_add, IH. set_solver.
Qed.

Lemma NoDup_singleton_eq (l : list A) x :
  NoDup l -> (forall y, y ∈ l <-> y = x) -> l = [x].
Proof.
  intros Hnd H. apply Permutation_singleton_r.
  apply NoDup_Permutation; [done|apply NoDup_singleton|].
  intros y. rewrite H. set_solver.
Qed.

Lemma iter_singleton x : Iter (set_of [x]) = [x].
Proof.
  apply NoDup_singleton_eq; [apply iter_nodup|].
  intros y. rewrite elem_of_set_of. set_solver.
Qed.

Lemma elem_of_toslice s x : x ∈ ToSlice s <-> x ∈ Iter s.
Proof. by rewrite toslice_perm. Qed.

End Laws.

(** The laws can be met: finite sets, iterated in the order of
    [elements]. *)
Section Gset.
Context {A : Type} `{Countable A}.

Lemma gset_iter_add (x y : A) (s : gset A) :
  y ∈ elements ({[x]} ∪ s) <-> y = x \/ y ∈ elements s.
Proof. set_solver. Qed.

Lemma gset_equal_spec (s t : gset A) :
  bool_decide (s = t) = true <-> (forall x, x ∈ elements s <-> x ∈ elements t).
Proof.
  rewrite bool_decide_eq_true. split; [by intros ->|].
  intros Hst. apply set_eq. intros x. specialize (Hst x). by rewrite !elem_of_elements in Hst.
Qed.

Definition gset_MapSet : MapSet A := {|
  mset := gset A;
  NewSet := ∅;
  Add := fun x s => {[x]} ∪ s;
  Iter := elements;
  ToSlice := elements;
  Equal := fun s t => bool_decide (s = t);
  Cardinality := fun s => Z.of_nat (length (elements s));
  iter_new := elements_empty;
  iter_add := gset_iter_add;
  iter_nodup := fun s => NoDup_elements s;
  toslice_perm := fun s => Permutation_refl (elements s);
  equal_spec := gset_equal_spec;
  cardinality_spec := fun s => eq_refl
|}.

End Gset.
