(* ===== verification/NetIP.v ===== *)
(** * Go's [net.ParseIP] and [net.IP]

    An address is its bytes. [ParseIP] returns sixteen of them, an IPv4
    address in its [::ffff:a.b.c.d] form, as Go does. *)

From Stdlib Require Import Ascii String.
From S2P Require Import Prelude GoStrings.

Definition IP : Type := list Z.

Definition v4InV6Prefix : list Z := [0; 0; 0; 0; 0; 0; 0; 0; 0; 0; 255; 255].

Definition IPv4 (a b c d : Z) : IP := v4InV6Prefix ++ [a; b; c; d].

(** [ip.To4()]: the four bytes of an IPv4 address, [nil] otherwise. *)
Definition To4 (ip : IP) : option (list Z) :=
  if Nat.eqb (length ip) 4 then Some ip
  else if Nat.eqb (length ip) 16 && bool_decide (take 12 ip = v4InV6Prefix)
  then Some (drop 12 ip) else None.

(** [ip.IsLoopback()]. *)
Definition IsLoopback (ip : IP) : bool :=
  match To4 ip with
  | Some (b :: _) => Z.eqb b 127
  | Some [] => false
  | None => bool_decide (ip = replicate 15 0 ++ [1])
  end.

(** ** Parsing *)

(** One decimal field: digits, at most 255, no leading zero. *)
Definition octet (f : string) : option Z :=
  if Nat.ltb 1 (String.length f) && HasPrefix f "0" then None
  else match ParseUint f 8 with (n, None) => Some n | _ => None end.

Definition parseIPv4 (s : string) : option IP :=
  match Split s "." with
  | [a; b; c; d] =>
      match octet a, octet b, octet c, octet d with
      | Some a, Some b, Some c, Some d => Some (IPv4 a b c d)
      | _, _, _, _ => None
      end
  | _ => None
  end.

Definition hex_value (c : ascii) : option Z :=
  let n := Z.of_N (N_of_ascii c) in
  if is_digit c then Some (n - 48)
  else if (97 <=? n) && (n <=? 102) then Some (n - 87)
  else if (65 <=? n) && (n <=? 70) then Some (n - 55)
  else None.

(** [xtoi]: the hexadecimal prefix, its value and what follows. *)
Fixpoint xtoi_go (n : Z) (seen : bool) (s : string) : option (Z * string) :=
  match s with
  | String c s' =>
      match hex_value c with
      | Some d =>
          if 16777215 <=? n * 16 + d then None else xtoi_go (n * 16 + d) true s'
      | None => if seen then Some (n, s) else None
      end
  | EmptyString => if seen then Some (n, EmptyString) else None
  end.

(** The loop of [parseIPv6]. [bytes] are those stored so far, [ell] the
    position of the ellipsis. At most eight rounds store two bytes each. *)
Fixpoint parseIPv6_loop (fuel : nat) (bytes : list Z) (ell : option nat) (s : string)
  : option (list Z * option nat * string) :=
  match fuel with
  | O => Some (bytes, ell, s)
  | S fuel' =>
      match xtoi_go 0 false s with
      | None => None
      | Some (n, rest) =>
          if 65535 <? n then None
          else match rest with
          | String "." _ =>
              if negb (bool_decide (is_Some ell)) && negb (Nat.eqb (length bytes) 12) then None
              else if Nat.ltb 12 (length bytes) then None
              else match parseIPv4 s with
                   | Some ip4 => Some (bytes ++ drop 12 ip4, ell, EmptyString)
                   | None => None
                   end
          | _ =>
              let bytes' := (bytes ++ [n / 256; n mod 256])%list in
              match rest with
              | EmptyString => Some (bytes', ell, EmptyString)
              | String ":" EmptyString => None
              | String ":" (String ":" rest'') =>
                  if bool_decide (is_Some ell) then None
                  else if String.eqb rest'' EmptyString
                  then Some (bytes', Some (length bytes'), EmptyString)
                  else parseIPv6_loop fuel' bytes' (Some (length bytes')) rest''
              | String ":" rest' => parseIPv6_loop fuel' bytes' ell rest'
              | _ => None
              end
          end
      end
  end.

Definition parseIPv6_finish (r : list Z * option nat * string) : option IP :=
  let '(bytes, ell, s) := r in
  if negb (String.eqb s EmptyString) then None
  else if Nat.ltb (length bytes) 16 then
    match ell with
    | None => None
    | Some e => Some (take e bytes ++ replicate (16 - length bytes) 0 ++ drop e bytes)%list
    end
  else match ell with Some _ => None | None => Some bytes end.

Definition parseIPv6 (s : string) : option IP :=
  match s with
  | String ":" (String ":" EmptyString) => Some (replicate 16 0)
  | String ":" (String ":" rest) =>
      parseIPv6_loop 8 [] (Some 0%nat) rest ≫= parseIPv6_finish
  | _ => parseIPv6_loop 8 [] None s ≫= parseIPv6_finish
  end.

(** The first [.] or [:] decides the family. *)
Fixpoint ip_family (s : string) : option ascii :=
  match s with
  | EmptyString => None
  | String c s' =>
      if Ascii.eqb c "." then Some c else if Ascii.eqb c ":" then Some c else ip_family s'
  end.

Definition ParseIP (s : string) : option IP :=
  match ip_family s with
  | Some "."%char => parseIPv4 s
  | Some _ => parseIPv6 s
  | None => None
  end.

(** ** Printing *)

Definition hex_char (n : Z) : ascii :=
  ascii_of_N (Z.to_N (if n <? 10 then n + 48 else n + 87)).

(** [appendHex]: no leading zeros. *)
Definition hex_group (n : Z) : string :=
  let d3 := n / 4096 in let d2 := (n / 256) mod 16 in
  let d1 := (n / 16) mod 16 in let d0 := n mod 16 in
  let tail0 := String (hex_char d0) EmptyString in
  let tail1 := if n <? 16 then tail0 else String (hex_char d1) tail0 in
  let tail2 := if n <? 256 then tail1 else String (hex_char d2) tail1 in
  if n <? 4096 then tail2 else String (hex_char d3) tail2.

Fixpoint groups (ip : list Z) : list Z :=
  match ip with
  | a :: b :: r => a * 256 + b :: groups r
  | _ => []
  end.

Fixpoint zero_run (g : list Z) : nat :=
  match g with 0 :: r => S (zero_run r) | _ => 0 end.

(** The first longest run of zero groups: its start and length. *)
Fixpoint longest_run (i : nat) (g : list Z) (best : nat * nat) : nat * nat :=
  match g with
  | [] => best
  | _ :: r =>
      let n := zero_run g in
      longest_run (S i) r (if Nat.ltb best.2 n then (i, n) else best)
  end.

Definition IPv6_String (ip : IP) : string :=
  let g := groups ip in
  let '(e0, n) := longest_run 0 g (0%nat, 0%nat) in
  if Nat.leb n 1 then String.concat ":" (map hex_group g)
  else String.concat ":" (map hex_group (take e0 g)) +:+ "::"
       +:+ String.concat ":" (map hex_group (drop (e0 + n) g)).

Definition IP_String (ip : IP) : string :=
  match To4 ip with
  | Some [a; b; c; d] =>
      fmt_d a +:+ "." +:+ fmt_d b +:+ "." +:+ fmt_d c +:+ "." +:+ fmt_d d
  | _ => IPv6_String ip
  end.

Example parse_v4 : ParseIP "10.42.0.7" = Some (IPv4 10 42 0 7).
Proof. reflexivity. Qed.
Example parse_v4_leading_zero : ParseIP "10.042.0.7" = None.
Proof. reflexivity. Qed.
Example parse_v6 : option_map IP_String (ParseIP "2001:DB8:0:0:1::1") = Some "2001:db8::1:0:0:1".
Proof. reflexivity. Qed.
Example parse_v6_embedded : option_map IP_String (ParseIP "::ffff:10.1.2.3") = Some "10.1.2.3".
Proof. reflexivity. Qed.
Example parse_v6_bad : ParseIP "1:2:3" = None /\ ParseIP "1::2::3" = None /\ ParseIP "" = None.
Proof. repeat split. Qed.

(** ** The IPv4 round trip *)

Lemma octet_fmt_d n : fits 8 n -> octet (fmt_d n) = Some n.
Proof.
  intros [H0 H1].
  assert (Forall (fun n => octet (fmt_d n) = Some n) (seqZ 0 256)) as H.
  { apply (bool_decide_unpack _). vm_compute. exact I. }
  rewrite Forall_forall in H. apply H. apply elem_of_seqZ. lia.
Qed.

Definition is_dot (c : ascii) : bool := Ascii.eqb c ".".

Lemma dot_not_digit c : is_dot c = true -> is_digit c = false.
Proof. unfold is_dot. intros ->%Ascii.eqb_eq. done. Qed.

Lemma ip_family_digits s t :
  string_forall is_digit s = true -> ip_family (s +:+ t) = ip_family t.
Proof.
  induction s as [|c s IH]; simpl; [done|]. intros H. bool_props.
  destruct (Ascii.eqb_spec c "."); [by subst|].
  destruct (Ascii.eqb_spec c ":"); [by subst|]. by apply IH.
Qed.

Lemma ParseIP_String_v4 a b c d :
  fits 8 a -> fits 8 b -> fits 8 c -> fits 8 d ->
  ParseIP (IP_String (IPv4 a b c d)) = Some (IPv4 a b c d).
Proof.
  intros Ha Hb Hc Hd.
  assert (IP_String (IPv4 a b c d)
          = fmt_d a +:+ "." +:+ fmt_d b +:+ "." +:+ fmt_d c +:+ "." +:+ fmt_d d) as ->.
  { reflexivity. }
  unfold ParseIP. rewrite ip_family_digits by (apply fmt_d_digits, Ha). simpl.
  unfold parseIPv4, Split. fold is_dot.
  assert (forall z, fits 8 z -> free_of is_dot (fmt_d z)) as Hfree.
  { intros z [Hz _]. by apply digits_free_of; [apply dot_not_digit|]. }
  rewrite !split_by_sep, split_by_free by auto. by rewrite !octet_fmt_d.
Qed.

#[export] Hint Resolve ParseIP_String_v4 : ecnet.
