(* ===== verification/Constants.v ===== *)
(** * Constants ([pkg/ecnet/constants], [pkg/ecnet/announcements],
    [pkg/ecnet/errcode]) *)

From Stdlib Require Import String.
From S2P Require Import Prelude GoStrings.

(** ** Weights, wildcards and protocols *)

Definition RegexMatchAll : string := ".*".
Definition WildcardHTTPMethod : string := "*".
Definition DefaultSidecarLogLevel : string := "error".
Definition PrometheusScrapeAnnotation : string := "prometheus.io/scrape".
Definition ECNETKubeResourceMonitorAnnotation : string := "flomesh.io/monitored-by".
Definition IgnoreLabel : string := "flomesh.io/ignore".
Definition SidecarInjectionAnnotation : string := "flomesh.io/sidecar-injection".
Definition MetricsAnnotation : string := "flomesh.io/metrics".

Definition AppLabel : string := "app".
Definition ECNETControllerName : string := "ecnet-ctrlplane".
Definition ECNETAppInstanceLabelKey : string := "app.kubernetes.io/instance".
Definition ECNETAppVersionLabelKey : string := "app.kubernetes.io/version".
Definition ECNETHTTPServerPort : Z := 9091.
Definition DefaultECNETLogLevel : string := "info".

Definition ClusterWeightAcceptAll : Z := 100.
Definition ClusterWeightFailOver : Z := 0.

Definition ProtocolHTTP : string := "http".
Definition ProtocolHTTPS : string := "https".
Definition ProtocolTCP : string := "tcp".
Definition ProtocolGRPC : string := "grpc".
Definition ProtocolTCPServerFirst : string := "tcp-server-first".

Definition SupportedProtocolsInMesh : list string :=
  [ProtocolTCPServerFirst; ProtocolHTTP; ProtocolTCP; ProtocolGRPC].

Definition ServiceReadyResponse : string := "Service is ready".
Definition ServiceAliveResponse : string := "Service is alive".

(** ** Announcement kinds *)

Inductive Kind :=
| ProxyUpdate
| PodAdded | PodDeleted | PodUpdated
| EndpointAdded | EndpointDeleted | EndpointUpdated
| NamespaceAdded | NamespaceDeleted | NamespaceUpdated
| ServiceAdded | ServiceDeleted | ServiceUpdated
| ServiceAccountAdded | ServiceAccountDeleted | ServiceAccountUpdated
| EcnetConfigAdded | EcnetConfigDeleted | EcnetConfigUpdated
| ServiceImportAdded | ServiceImportDeleted | ServiceImportUpdated
| GlobalTrafficPolicyAdded | GlobalTrafficPolicyDeleted | GlobalTrafficPolicyUpdated.

#[global] Instance Kind_eq_dec : EqDecision Kind.
Proof. solve_decision. Defined.

Definition Kind_String (k : Kind) : string :=
  match k with
  | ProxyUpdate => "proxy-update"
  | PodAdded => "pod-added"
  | PodDeleted => "pod-deleted"
  | PodUpdated => "pod-updated"
  | EndpointAdded => "endpoint-added"
  | EndpointDeleted => "endpoint-deleted"
  | EndpointUpdated => "endpoint-updated"
  | NamespaceAdded => "namespace-added"
  | NamespaceDeleted => "namespace-deleted"
  | NamespaceUpdated => "namespace-updated"
  | ServiceAdded => "service-added"
  | ServiceDeleted => "service-deleted"
  | ServiceUpdated => "service-updated"
  | ServiceAccountAdded => "serviceaccount-added"
  | ServiceAccountDeleted => "serviceaccount-deleted"
  | ServiceAccountUpdated => "serviceaccount-updated"
  | EcnetConfigAdded => "ecnetconfig-added"
  | EcnetConfigDeleted => "ecnetconfig-deleted"
  | EcnetConfigUpdated => "ecnetconfig-updated"
  | ServiceImportAdded => "serviceimport-added"
  | ServiceImportDeleted => "serviceimport-deleted"
  | ServiceImportUpdated => "serviceimport-updated"
  | GlobalTrafficPolicyAdded => "globaltrafficpolicy-added"
  | GlobalTrafficPolicyDeleted => "globaltrafficpolicy-deleted"
  | GlobalTrafficPolicyUpdated => "globaltrafficpolicy-updated"
  end.

(** Distinct kinds are distinct strings, so a topic names one kind. *)
Lemma Kind_String_inj k1 k2 : Kind_String k1 = Kind_String k2 -> k1 = k2.
Proof. destruct k1, k2; intros H; (reflexivity || discriminate H). Qed.

(** ** Error codes *)

Inductive ErrCode :=
| ErrInvalidCLIArgument
| ErrFetchingControllerPod
| ErrFetchingBridgePod
| ErrAddingRouteToOutboundTrafficPolicy
| ErrEcnetConfigFetchFromCache
| ErrEcnetConfigMarshaling.

Definition ErrCode_value (e : ErrCode) : Z :=
  match e with
  | ErrInvalidCLIArgument => 1000
  | ErrFetchingControllerPod => 1001
  | ErrFetchingBridgePod => 1002
  | ErrAddingRouteToOutboundTrafficPolicy => 2000
  | ErrEcnetConfigFetchFromCache => 4150
  | ErrEcnetConfigMarshaling => 4151
  end.

Definition ErrCode_String (e : ErrCode) : string := "E" +:+ fmt_d (ErrCode_value e).

Definition GetErrCodeWithMetric (e : ErrCode) : string := ErrCode_String e.
