(* ===== verification/MeshService.v ===== *)
(** * Service names ([pkg/ecnet/service])

    [MeshService], its derived names and the endpoint tuple. Ports are
    [Z]; [mesh_service_ok] states their widths. *)

From Stdlib Require Import Ascii String.
From S2P Require Import Prelude GoStrings.

Record MeshService := mkMeshService {
  ms_Namespace : string;
  ms_Name : string;
  ms_Port : Z;
  ms_TargetPort : Z;
  ms_Protocol : string;
  ms_ServiceImportUID : string
}.

#[global] Instance MeshService_eq_dec : EqDecision MeshService.
Proof. solve_decision. Defined.

Definition zero_MeshService : MeshService := mkMeshService "" "" 0 0 "" "".

(** [nameComponents[0]] or the empty string when there is no dot. *)
Definition Subdomain (ms : MeshService) : string :=
  let nameComponents := Split (ms_Name ms) "." in
  if Nat.eqb (length nameComponents) 1 then ""
  else default "" (head nameComponents).

Definition ProviderKey (ms : MeshService) : string :=
  default "" (last (Split (ms_Name ms) ".")).

Definition NamespacedKey (ms : MeshService) : string :=
  ms_Namespace ms +:+ "/" +:+ ProviderKey ms.

Definition IsMultiClusterService (ms : MeshService) : bool :=
  negb (String.eqb (ms_ServiceImportUID ms) "").

Definition SiblingTo (ms svc : MeshService) : bool :=
  String.eqb (NamespacedKey ms) (NamespacedKey svc).

Definition MeshService_String (ms : MeshService) : string :=
  ms_Namespace ms +:+ "/" +:+ ms_Name ms.

Definition ClusterName (ms : MeshService) : string :=
  ms_Namespace ms +:+ "/" +:+ ms_Name ms +:+ "|" +:+ fmt_d (ms_TargetPort ms).

Definition FQDN (ms : MeshService) : string :=
  ms_Name ms +:+ "." +:+ ms_Namespace ms +:+ ".svc.cluster.local".

Definition ServerName (ms : MeshService) : string := FQDN ms.

Definition OutboundTrafficMatchName (ms : MeshService) : string :=
  "outbound_" +:+ MeshService_String ms +:+ "_" +:+ fmt_d (ms_Port ms) +:+ "_"
  +:+ ms_Protocol ms.

Record K8sServiceAccount := mkK8sServiceAccount {
  sa_Namespace : string;
  sa_Name : string
}.

#[global] Instance K8sServiceAccount_eq_dec : EqDecision K8sServiceAccount.
Proof. solve_decision. Defined.

Definition K8sServiceAccount_String (sa : K8sServiceAccount) : string :=
  sa_Namespace sa +:+ "/" +:+ sa_Name sa.

(** A cluster and its weight; [Weight] is a Go [int]. *)
Record WeightedCluster := mkWeightedCluster {
  wc_ClusterName : string;
  wc_Weight : Z
}.

#[global] Instance WeightedCluster_eq_dec : EqDecision WeightedCluster.
Proof. solve_decision. Defined.

#[global] Instance WeightedCluster_countable : Countable WeightedCluster.
Proof.
  refine (inj_countable' (fun wc => (wc_ClusterName wc, wc_Weight wc))
            (fun p => mkWeightedCluster p.1 p.2) _).
  by intros [].
Defined.

(** ** Names Kubernetes admits

    Object names are DNS subdomains: lower case letters, digits, ['-'] and
    ['.'], not empty. A protocol (the port's [appProtocol]) may not hold
    the separator of traffic match names. *)

Definition dns_char (c : ascii) : bool :=
  is_digit c
  || (N.leb 97 (N_of_ascii c) && N.leb (N_of_ascii c) 122)%N
  || Ascii.eqb c "-" || Ascii.eqb c ".".

Definition dns_name (s : string) : Prop :=
  s <> "" /\ string_forall dns_char s = true.

#[global] Instance dns_name_dec s : Decision (dns_name s).
Proof. unfold dns_name. apply _. Defined.

Definition is_underscore (c : ascii) : bool := Ascii.eqb c "_".
Definition is_slash (c : ascii) : bool := Ascii.eqb c "/".

Definition mesh_service_ok (ms : MeshService) : Prop :=
  dns_name (ms_Namespace ms) /\ dns_name (ms_Name ms) /\
  fits 16 (ms_Port ms) /\ fits 16 (ms_TargetPort ms) /\
  ms_Protocol ms <> "" /\ free_of is_underscore (ms_Protocol ms).

#[global] Instance mesh_service_ok_dec ms : Decision (mesh_service_ok ms).
Proof. unfold mesh_service_ok. apply _. Defined.

Lemma dns_name_free p s :
  (forall c, p c = true -> dns_char c = false) -> dns_name s -> free_of p s.
Proof.
  unfold dns_name, free_of. intros Hp [_ H]. induction s as [|c s IH]; simpl in *; [done|].
  bool_props. rewrite IH by done. destruct (p c) eqn:E; [|done].
  apply Hp in E. congruence.
Qed.

Lemma underscore_not_dns c : is_underscore c = true -> dns_char c = false.
Proof. unfold is_underscore. intros ->%Ascii.eqb_eq. done. Qed.

Lemma slash_not_dns c : is_slash c = true -> dns_char c = false.
Proof. unfold is_slash. intros ->%Ascii.eqb_eq. done. Qed.

Lemma underscore_not_digit c : is_underscore c = true -> is_digit c = false.
Proof. unfold is_underscore. intros ->%Ascii.eqb_eq. done. Qed.

Lemma dns_name_no_underscore s : dns_name s -> free_of is_underscore s.
Proof. apply dns_name_free, underscore_not_dns. Qed.

Lemma dns_name_no_slash s : dns_name s -> free_of is_slash s.
Proof. apply dns_name_free, slash_not_dns. Qed.

#[export] Hint Resolve dns_name_no_underscore dns_name_no_slash : ecnet.

(** A name without a dot is its own provider key and has no subdomain. *)
Lemma ProviderKey_nodot ms :
  free_of (fun c => Ascii.eqb c ".") (ms_Name ms) -> ProviderKey ms = ms_Name ms.
Proof. intros H. unfold ProviderKey, Split. by rewrite split_by_free. Qed.

Lemma Subdomain_nodot ms :
  free_of (fun c => Ascii.eqb c ".") (ms_Name ms) -> Subdomain ms = "".
Proof. intros H. unfold Subdomain, Split. by rewrite split_by_free. Qed.

(** ** The endpoint tuple ([pkg/ecnet/service/endpoint]) *)

Section Endpoint.
Context {IP : Type}.

Record Endpoint := mkEndpoint {
  ep_IP : IP;
  ep_Port : Z;
  ep_Weight : Z;
  ep_Priority : Z;
  ep_Zone : string;
  ep_ClusterKey : string;
  ep_LBType : string;
  ep_Path : string
}.

End Endpoint.
Arguments Endpoint : clear implicits.
