(* ===== verification/ApiTypes.v ===== *)
(** * API objects

    The fields of the Kubernetes [core/v1] objects the sources read, and
    the custom resources of [pkg/ecnet/apis]. A pointer field is an
    [option]. *)

From Stdlib Require Import String.
From S2P Require Import Prelude GoStrings.

(** ** [core/v1] *)

Definition ClusterIPNone : string := "None".
Definition ServiceTypeClusterIP : string := "ClusterIP".

Record KServicePort := mkKServicePort {
  sp_Name : string;
  sp_Protocol : string;
  sp_AppProtocol : option string;
  sp_Port : Z;
  sp_TargetPort : Z
}.

Record KService := mkKService {
  svc_Namespace : string;
  svc_Name : string;
  svc_UID : string;
  svc_Type : string;
  svc_ClusterIP : string;
  svc_ClusterIPs : list string;
  svc_Selector : gmap string string;
  svc_Ports : list KServicePort
}.

Record EndpointAddress := mkEndpointAddress {
  ea_IP : string;
  ea_Hostname : string
}.

Record EndpointPort := mkEndpointPort {
  eport_Name : string;
  eport_Protocol : string;
  eport_AppProtocol : option string;
  eport_Port : Z
}.

Record EndpointSubset := mkEndpointSubset {
  sub_Addresses : list EndpointAddress;
  sub_Ports : list EndpointPort
}.

Record KEndpoints := mkKEndpoints {
  eps_Namespace : string;
  eps_Name : string;
  eps_Annotations : gmap string string;
  eps_Subsets : list EndpointSubset
}.

Record KPod := mkKPod {
  pod_Namespace : string;
  pod_Name : string;
  pod_UID : string;
  pod_Labels : gmap string string;
  pod_Annotations : gmap string string;
  pod_ServiceAccountName : string;
  pod_IP : string;
  pod_IPs : list string
}.

Record KNamespace := mkKNamespace {
  kns_Name : string;
  kns_Labels : gmap string string;
  kns_Annotations : gmap string string;
  kns_Finalizers : list string
}.

Record KServiceAccount := mkKServiceAccount {
  ksa_Namespace : string;
  ksa_Name : string
}.

(** Reading a Go map of strings: the empty string when absent. *)
Definition map_get (m : gmap string string) (k : string) : string := default "" (m !! k).

(** ** [flomesh.io/v1alpha1] *)

Record Target := mkTarget {
  tgt_Host : string;
  tgt_IP : string;
  tgt_Port : Z;
  tgt_Path : string
}.

Record SIEndpoint := mkSIEndpoint {
  sie_Target : Target;
  sie_ClusterKey : string
}.

Record SIServicePort := mkSIServicePort {
  sip_Name : string;
  sip_Protocol : string;
  sip_AppProtocol : option string;
  sip_Port : Z;
  sip_Endpoints : list SIEndpoint
}.

Record ServiceImport := mkServiceImport {
  si_Namespace : string;
  si_Name : string;
  si_UID : string;
  si_Ports : list SIServicePort;
  si_ServiceAccountName : string
}.

Definition SIServicePort_String (p : option SIServicePort) : string :=
  match p with
  | None => "nil"
  | Some p =>
      "&ServicePort{" +:+ "Name:" +:+ sip_Name p +:+ "," +:+ "Protocol:" +:+ sip_Protocol p
      +:+ "," +:+ "Port:" +:+ fmt_d (sip_Port p) +:+ "," +:+ "}"
  end.

Definition ActiveActiveLbType : string := "ActiveActive".
Definition LocalityLbType : string := "Locality".
Definition FailOverLbType : string := "FailOver".

Record TrafficTarget := mkTrafficTarget {
  tt_ClusterKey : string;
  tt_Weight : option Z
}.

Record GlobalTrafficPolicy := mkGlobalTrafficPolicy {
  gtp_Namespace : string;
  gtp_Name : string;
  gtp_LbType : string;
  gtp_LoadBalanceTarget : list TrafficTarget
}.

(** ** [config.flomesh.io/v1alpha1]

    A plugin's [float32] priority is kept exactly, in units of [2^-149]:
    every finite [float32] is a whole number of them, and comparing two
    priorities is comparing the integers. *)

Record PluginChainSpec := mkPluginChainSpec {
  pcs_Plugin : string;
  pcs_Priority : Z;
  pcs_Disable : bool
}.

#[global] Instance PluginChainSpec_eq_dec : EqDecision PluginChainSpec.
Proof. solve_decision. Defined.

(** The chains are compared by [reflect.DeepEqual], which tells a nil slice
    ([None]) from an empty one. *)
Record PluginChainsSpec := mkPluginChainsSpec {
  InboundTCPChains : option (list PluginChainSpec);
  InboundHTTPChains : option (list PluginChainSpec);
  OutboundTCPChains : option (list PluginChainSpec);
  OutboundHTTPChains : option (list PluginChainSpec)
}.

#[global] Instance PluginChainsSpec_eq_dec : EqDecision PluginChainsSpec.
Proof. solve_decision. Defined.

Record DNSSpec := mkDNSSpec {
  dns_Namespace : string;
  dns_Name : string;
  dns_Port : Z;
  dns_Protocol : string
}.

Record SidecarSpec := mkSidecarSpec {
  sc_LogLevel : string;
  sc_ProxyServerPort : Z;
  sc_ConfigResyncInterval : string
}.

Record RepoServerSpec := mkRepoServerSpec {
  rs_IPAddr : string;
  rs_Codebase : string
}.

Record EcnetConfigSpec := mkEcnetConfigSpec {
  cfg_DNS : DNSSpec;
  cfg_Sidecar : SidecarSpec;
  cfg_RepoServer : RepoServerSpec;
  cfg_PluginChains : PluginChainsSpec
}.

Record EcnetConfig := mkEcnetConfig {
  ec_Namespace : string;
  ec_Name : string;
  ec_Spec : EcnetConfigSpec
}.

(** [var ecnetConfig configv1alpha1.EcnetConfig] *)
Definition zero_EcnetConfig : EcnetConfig :=
  mkEcnetConfig "" ""
    (mkEcnetConfigSpec (mkDNSSpec "" "" 0 "") (mkSidecarSpec "" 0 "") (mkRepoServerSpec "" "")
       (mkPluginChainsSpec None None None None)).
