(* ===== verification/KubeAPI.v ===== *)
(** * The Kubernetes API and Helm, as the command line tool uses them

    Neither is part of the sources. [KubeAPI] holds the calls the commands
    make, each a function of a state of the outside world that answers with
    a value or an error; [KubeLaws] is what their documentation promises
    about the resources of the cluster, for the calls that succeed and, as
    far as anything is promised, for those that fail. [mem_api] is a cluster
    in memory that keeps the promises. *)

From Stdlib Require Import Ascii String.
From S2P Require Import Prelude GoStrings GoIO Constants ApiTypes.

(** ** Errors *)

Inductive Reason := NotFound | AlreadyExists | ReleaseNotFound | OtherReason.

Record ApiError := mkApiError { err_Reason : Reason; err_Error : string }.

Definition IsNotFound (e : ApiError) : bool :=
  match err_Reason e with NotFound => true | _ => false end.
Definition IsAlreadyExists (e : ApiError) : bool :=
  match err_Reason e with AlreadyExists => true | _ => false end.
Definition IsReleaseNotFound (e : ApiError) : bool :=
  match err_Reason e with ReleaseNotFound => true | _ => false end.

(** ** Objects *)

Record Deployment := mkDeployment {
  dep_Namespace : string;
  dep_Name : string;
  dep_Labels : gmap string string
}.

(** The content of a strategic merge patch of an object's metadata: a value
    sets a key, null ([None]) removes it. *)
Record MetaPatch := mkMetaPatch {
  mp_labels : list (string * option string);
  mp_annotations : list (string * option string)
}.

Definition merge_key (m : gmap string string) (kv : string * option string)
  : gmap string string :=
  match kv.2 with Some v => <[kv.1 := v]> m | None => delete kv.1 m end.

Definition merge_keys (m : gmap string string) (l : list (string * option string))
  : gmap string string := foldl merge_key m l.

Definition merge_patch (p : MetaPatch) (ns : KNamespace) : KNamespace :=
  mkKNamespace (kns_Name ns) (merge_keys (kns_Labels ns) (mp_labels p))
    (merge_keys (kns_Annotations ns) (mp_annotations p)) (kns_Finalizers ns).

(** ** Calls *)

Record KubeAPI (W : Type) := mkKubeAPI {
  Namespaces_Get : string -> W -> (ApiError + KNamespace) * W;
  Namespaces_List : string -> W -> (ApiError + list KNamespace) * W;
  Namespaces_Patch : string -> MetaPatch -> W -> (ApiError + unit) * W;
  Namespaces_Delete : string -> W -> (ApiError + unit) * W;
  Deployments_List : string -> string -> W -> (ApiError + list Deployment) * W;
  CRDs_Delete : string -> W -> (ApiError + unit) * W;
  Secrets_Delete : string -> string -> W -> (ApiError + unit) * W;
  Helm_Init : string -> W -> (ApiError + unit) * W;
  Helm_Uninstall : string -> string -> W -> (ApiError + unit) * W
}.
Arguments Namespaces_Get {W}.
Arguments Namespaces_List {W}.
Arguments Namespaces_Patch {W}.
Arguments Namespaces_Delete {W}.
Arguments Deployments_List {W}.
Arguments CRDs_Delete {W}.
Arguments Secrets_Delete {W}.
Arguments Helm_Init {W}.
Arguments Helm_Uninstall {W}.

(** ** What the calls promise *)

(** The resources of the cluster. A release is a namespace and a name. *)
Record Cluster := mkCluster {
  cl_namespaces : gmap string KNamespace;
  cl_deployments : list Deployment;
  cl_crds : gset string;
  cl_releases : gset (string * string)
}.

Definition set_namespaces (m : gmap string KNamespace) (c : Cluster) : Cluster :=
  mkCluster m (cl_deployments c) (cl_crds c) (cl_releases c).

(** A patch that was applied. *)
Definition patched (n : string) (p : MetaPatch) (c c' : Cluster) : Prop :=
  exists ns, cl_namespaces c !! n = Some ns /\
    c' = set_namespaces (<[n := merge_patch p ns]> (cl_namespaces c)) c.

(** Deleting a namespace deletes what is in it, and nothing else. *)
Definition agree_outside (n : string) (c c' : Cluster) : Prop :=
  (forall m, m <> n -> cl_namespaces c' !! m = cl_namespaces c !! m) /\
  (forall r, r.1 <> n -> r ∈ cl_releases c <-> r ∈ cl_releases c') /\
  cl_crds c' = cl_crds c.

(** The characters of a label's key or value. *)
Definition selector_syntax (c : ascii) : bool :=
  ContainsByte ",=!()<> " c.

Definition label_text (s : string) : Prop := free_of selector_syntax s.

Class KubeLaws {W : Type} (api : KubeAPI W) : Type := {
  cluster : W -> Cluster;
  (** the label selector of a list *)
  selects : string -> gmap string string -> bool;
  selects_equal : forall k v m, label_text k -> label_text v -> k <> EmptyString ->
    selects (k +:+ "=" +:+ v) m = bool_decide (m !! k = Some v);
  selects_exists : forall k m, label_text k -> k <> EmptyString ->
    selects k m = bool_decide (is_Some (m !! k));
  get_reads : forall n w, cluster (Namespaces_Get api n w).2 = cluster w;
  get_answer : forall n w, match (Namespaces_Get api n w).1 with
    | inr ns => cl_namespaces (cluster w) !! n = Some ns
    | inl e => IsNotFound e = true -> cl_namespaces (cluster w) !! n = None
    end;
  nslist_reads : forall sel w, cluster (Namespaces_List api sel w).2 = cluster w;
  nslist_answer : forall sel w l, (Namespaces_List api sel w).1 = inr l ->
    forall ns, ns ∈ l <-> exists n, cl_namespaces (cluster w) !! n = Some ns /\
      selects sel (kns_Labels ns) = true;
  deplist_reads : forall n sel w, cluster (Deployments_List api n sel w).2 = cluster w;
  deplist_answer : forall n sel w l, (Deployments_List api n sel w).1 = inr l ->
    forall d, d ∈ l <-> d ∈ cl_deployments (cluster w) /\
      (n = EmptyString \/ dep_Namespace d = n) /\ selects sel (dep_Labels d) = true;
  patch_applies : forall n p w, match Namespaces_Patch api n p w with
    | (inr _, w') => patched n p (cluster w) (cluster w')
    | (inl _, w') => cluster w' = cluster w \/ patched n p (cluster w) (cluster w')
    end;
  delete_confined : forall n w, agree_outside n (cluster w) (cluster (Namespaces_Delete api n w).2);
  crds_confined : forall n w, let c' := cluster (CRDs_Delete api n w).2 in
    cl_namespaces c' = cl_namespaces (cluster w) /\ cl_releases c' = cl_releases (cluster w);
  secrets_confined : forall n s w, let c' := cluster (Secrets_Delete api n s w).2 in
    cl_namespaces c' = cl_namespaces (cluster w) /\ cl_crds c' = cl_crds (cluster w);
  helm_init_reads : forall n w, cluster (Helm_Init api n w).2 = cluster w;
  (** the release's own resources go; the chart of ecnet has no namespace
      in it and its hooks delete no resource definition *)
  helm_confined : forall n r w, let c' := cluster (Helm_Uninstall api n r w).2 in
    cl_namespaces c' = cl_namespaces (cluster w) /\ cl_crds c' = cl_crds (cluster w) /\
    (forall x, x <> (n, r) -> x ∈ cl_releases (cluster w) <-> x ∈ cl_releases c')
}.

(** An API server that answers every request about an object that
    exists. *)
Class ReliableAPI {W : Type} (api : KubeAPI W) `{!KubeLaws api} : Prop := {
  reliable_get : forall n w, is_Some (cl_namespaces (cluster w) !! n) ->
    exists ns, (Namespaces_Get api n w).1 = inr ns;
  reliable_patch : forall n p w, is_Some (cl_namespaces (cluster w) !! n) ->
    (Namespaces_Patch api n p w).1 = inr tt;
  reliable_deplist : forall n sel w, exists l, (Deployments_List api n sel w).1 = inr l
}.

(** ** A cluster in memory *)

Definition sel_matches (sel : string) (m : gmap string string) : bool :=
  match Split sel "=" with
  | [k; v] => bool_decide (m !! k = Some v)
  | _ => bool_decide (is_Some (m !! sel))
  end.

Definition not_found : ApiError := mkApiError NotFound "not found".

Definition mem_api : KubeAPI Cluster := {|
  Namespaces_Get n c :=
    (match cl_namespaces c !! n with Some ns => inr ns | None => inl not_found end, c);
  Namespaces_List sel c :=
    (inr (List.filter (fun ns => sel_matches sel (kns_Labels ns))
            (map_to_list (cl_namespaces c)).*2), c);
  Namespaces_Patch n p c :=
    match cl_namespaces c !! n with
    | Some ns => (inr tt, set_namespaces (<[n := merge_patch p ns]> (cl_namespaces c)) c)
    | None => (inl not_found, c)
    end;
  Namespaces_Delete n c :=
    match cl_namespaces c !! n with
    | Some _ =>
        (inr tt, mkCluster (delete n (cl_namespaces c))
                   (List.filter (fun d => negb (String.eqb (dep_Namespace d) n)) (cl_deployments c))
                   (cl_crds c) (filter (fun r => r.1 <> n) (cl_releases c)))
    | None => (inl not_found, c)
    end;
  Deployments_List n sel c :=
    (inr (List.filter (fun d => (String.eqb n "" || String.eqb (dep_Namespace d) n)
                                && sel_matches sel (dep_Labels d)) (cl_deployments c)), c);
  CRDs_Delete n c :=
    if bool_decide (n ∈ cl_crds c)
    then (inr tt, mkCluster (cl_namespaces c) (cl_deployments c) (cl_crds c ∖ {[n]}) (cl_releases c))
    else (inl not_found, c);
  Secrets_Delete n s c := (inl not_found, c);
  Helm_Init n c := (inr tt, c);
  Helm_Uninstall n r c :=
    if bool_decide ((n, r) ∈ cl_releases c)
    then (inr tt, mkCluster (cl_namespaces c)
                    (List.filter (fun d => negb (String.eqb (dep_Namespace d) n)) (cl_deployments c))
                    (cl_crds c) (cl_releases c ∖ {[(n, r)]}))
    else (inl (mkApiError ReleaseNotFound "release: not found"), c)
|}.

(** ** Commands

    A command runs against the outside world, prints and reads from
    standard input; it returns a value or the text of an error. A table is
    text that goes through a tab writer and is flushed. *)

Inductive Output := Text (s : string) | Table (s : string).

Record CmdState (W : Type) := mkCmdState {
  cs_world : W;
  cs_out : list Output;
  cs_in : list string
}.
Arguments mkCmdState {W}.
Arguments cs_world {W}.
Arguments cs_out {W}.
Arguments cs_in {W}.

Definition Cmd (W A : Type) : Type := CmdState W -> (string + A) * CmdState W.

#[global] Instance Cmd_ret {W} : MRet (Cmd W) := fun A a s => (inr a, s).
#[global] Instance Cmd_bind {W} : MBind (Cmd W) :=
  fun A B f m s => match m s with (inr a, s') => f a s' | (inl e, s') => (inl e, s') end.

Section Commands.
Context {W : Type}.

(** [return fmt.Errorf(..)] *)
Definition cmd_fail {A} (e : string) : Cmd W A := fun s => (inl e, s).

(** A call of the API, whose error is a value. *)
Definition cmd_call {A} (f : W -> (ApiError + A) * W) : Cmd W (ApiError + A) :=
  fun s => let '(r, w) := f (cs_world s) in (inr r, mkCmdState w (cs_out s) (cs_in s)).

Definition cmd_output (o : Output) : Cmd W () :=
  fun s => (inr tt, mkCmdState (cs_world s) (cs_out s ++ [o]) (cs_in s)).

Definition Fprintf (text : string) : Cmd W () := cmd_output (Text text).

(** The errors of a command as a value, for the callers that handle them. *)
Definition cmd_try {A} (m : Cmd W A) : Cmd W (string + A) :=
  fun s => let '(r, s') := m s in (inr r, s').

(** A [for] loop whose body may return. *)
Fixpoint cmd_for {A} (f : A -> Cmd W ()) (l : list A) : Cmd W () :=
  match l with
  | [] => mret tt
  | a :: l' => f a ≫= fun _ => cmd_for f l'
  end.

(** ** Reasoning about commands

    [cmd_wp m Q s]: running [m] from [s] ends in a result and a state in
    [Q]. *)

Definition cmd_wp {A} (m : Cmd W A) (Q : string + A -> CmdState W -> Prop) (s : CmdState W)
  : Prop := Q (m s).1 (m s).2.

Lemma wp_ret {A} (a : A) Q s : Q (inr a) s -> cmd_wp (mret a) Q s.
Proof. done. Qed.

Lemma wp_fail {A} e (Q : string + A -> _) s : Q (inl e) s -> cmd_wp (cmd_fail e) Q s.
Proof. done. Qed.

Lemma wp_bind {A B} (m : Cmd W A) (f : A -> Cmd W B) Q s :
  cmd_wp m (fun r s' => match r with inr a => cmd_wp (f a) Q s' | inl e => Q (inl e) s' end) s ->
  cmd_wp (m ≫= f) Q s.
Proof. unfold cmd_wp, mbind, Cmd_bind. by destruct (m s) as [[e|a] s']. Qed.

Lemma wp_call {A} (f : W -> (ApiError + A) * W) Q s :
  Q (inr (f (cs_world s)).1) (mkCmdState (f (cs_world s)).2 (cs_out s) (cs_in s)) ->
  cmd_wp (cmd_call f) Q s.
Proof. unfold cmd_wp, cmd_call. by destruct (f (cs_world s)). Qed.

Lemma wp_output o Q s :
  Q (inr tt) (mkCmdState (cs_world s) (cs_out s ++ [o]) (cs_in s)) -> cmd_wp (cmd_output o) Q s.
Proof. done. Qed.

Lemma wp_try {A} (m : Cmd W A) Q s :
  cmd_wp m (fun r s' => Q (inr r) s') s -> cmd_wp (cmd_try m) Q s.
Proof. unfold cmd_wp, cmd_try. by destruct (m s). Qed.

Lemma wp_mono {A} (m : Cmd W A) (Q Q' : string + A -> CmdState W -> Prop) s :
  cmd_wp m Q s -> (forall r s', Q r s' -> Q' r s') -> cmd_wp m Q' s.
Proof. unfold cmd_wp. auto. Qed.

(** The loop rule: [I] holds of the elements that were dealt with, [E] of
    the state in which the loop is left early. *)
Lemma wp_for {A} (f : A -> Cmd W ()) (I : list A -> CmdState W -> Prop)
  (E : string -> CmdState W -> Prop) l s :
  I [] s ->
  (forall pre a post s', l = pre ++ a :: post -> I pre s' ->
     cmd_wp (f a) (fun r s'' => match r with inr _ => I (pre ++ [a]) s'' | inl e => E e s'' end) s') ->
  cmd_wp (cmd_for f l) (fun r s' => match r with inr _ => I l s' | inl e => E e s' end) s.
Proof.
  intros H0 Hstep.
  assert (forall pre post s', l = pre ++ post -> I pre s' ->
    cmd_wp (cmd_for f post)
      (fun r s'' => match r with inr _ => I l s'' | inl e => E e s'' end) s') as Hgen.
  { intros pre post. revert pre. induction post as [|a post IH]; intros pre s' Hl Hi.
    - rewrite app_nil_r in Hl. subst. by apply wp_ret.
    - simpl. apply wp_bind. eapply wp_mono; [by eapply Hstep|].
      intros [e|[]] s'' HQ; [done|]. apply (IH (pre ++ [a])); [|done]. by rewrite <- app_assoc. }
  by apply (Hgen [] l s).
Qed.

End Commands.

(** One step of a command: a bind, and the primitive at its head. *)
Ltac cmd_step :=
  lazymatch goal with
  | |- cmd_wp (_ ≫= _) _ _ => apply wp_bind
  | |- cmd_wp (mret _) _ _ => apply wp_ret
  | |- cmd_wp (cmd_fail _) _ _ => apply wp_fail
  | |- cmd_wp (cmd_output _) _ _ => apply wp_output
  | |- cmd_wp (Fprintf _) _ _ => apply wp_output
  | |- cmd_wp (cmd_try _) _ _ => apply wp_try
  | |- cmd_wp (cmd_call _) _ _ => apply wp_call
  end; simpl.

(** ** The cluster in memory keeps the promises *)

Lemma sel_matches_equal k v m :
  label_text k -> label_text v -> sel_matches (k +:+ "=" +:+ v) m = bool_decide (m !! k = Some v).
Proof.
  intros Hk Hv. unfold sel_matches, Split.
  assert (forall s, label_text s -> free_of (fun c => Ascii.eqb c "=") s) as Hf.
  { intros s. apply free_of_weaken. intros c Hc. apply Ascii.eqb_eq in Hc. by subst. }
  change (k +:+ "=" +:+ v) with (k +:+ String "=" v).
  by rewrite split_by_sep, split_by_free by auto.
Qed.

Lemma sel_matches_exists k m : label_text k -> sel_matches k m = bool_decide (is_Some (m !! k)).
Proof.
  intros Hk. unfold sel_matches, Split. rewrite split_by_free; [done|].
  revert Hk. apply free_of_weaken. intros c Hc. apply Ascii.eqb_eq in Hc. by subst.
Qed.

#[global] Instance mem_laws : KubeLaws mem_api.
Proof.
  refine {| cluster := fun c => c; selects := sel_matches |}; simpl.
  - intros. by apply sel_matches_equal.
  - intros. by apply sel_matches_exists.
  - done.
  - intros n w. by destruct (cl_namespaces w !! n).
  - done.
  - intros sel w l [= <-] ns. rewrite elem_of_lfilter, list_elem_of_fmap. split.
    + intros [([n x] & -> & Hx) Hs]. exists n. by rewrite <- elem_of_map_to_list.
    + intros (n & Hn & Hs). split; [|done]. exists (n, ns). by rewrite elem_of_map_to_list.
  - done.
  - intros n sel w l [= <-] d. rewrite elem_of_lfilter.
    rewrite andb_true_iff, orb_true_iff, !String.eqb_eq. naive_solver.
  - intros n p w. destruct (cl_namespaces w !! n) as [ns|] eqn:E; [by exists ns|by left].
  - intros n w. destruct (cl_namespaces w !! n) as [ns|] eqn:E; [|done]. split_and!; simpl.
    + intros m Hm. by rewrite lookup_delete_ne.
    + intros r Hr. by rewrite elem_of_filter; naive_solver.
    + done.
  - intros n w. by case_bool_decide.
  - done.
  - done.
  - intros n r w. case_bool_decide; simpl; [|done]. split_and!; [done..|]. set_solver.
Defined.

#[global] Instance mem_reliable : ReliableAPI mem_api.
Proof.
  split; simpl; [| |by eauto].
  - intros n w [ns ->]. by exists ns.
  - intros n p w [ns ->]. done.
Qed.

(** ** Calls in commands, through the laws *)

Section CallRules.
Context {W : Type} (api : KubeAPI W) `{!KubeLaws api}.

Lemma wp_ns_get n Q (s : CmdState W) :
  (forall r w', cluster w' = cluster (cs_world s) ->
     match r with
     | inr ns => cl_namespaces (cluster (cs_world s)) !! n = Some ns
     | inl e => IsNotFound e = true -> cl_namespaces (cluster (cs_world s)) !! n = None
     end -> Q (inr r) (mkCmdState w' (cs_out s) (cs_in s))) ->
  cmd_wp (cmd_call (Namespaces_Get api n)) Q s.
Proof. intros H. apply wp_call, H; [apply get_reads|apply get_answer]. Qed.

Lemma wp_ns_list sel Q (s : CmdState W) :
  (forall r w', cluster w' = cluster (cs_world s) ->
     (forall l, r = inr l -> forall ns, ns ∈ l <-> exists n,
        cl_namespaces (cluster (cs_world s)) !! n = Some ns /\
        selects sel (kns_Labels ns) = true) ->
     Q (inr r) (mkCmdState w' (cs_out s) (cs_in s))) ->
  cmd_wp (cmd_call (Namespaces_List api sel)) Q s.
Proof.
  intros H. apply wp_call, H; [apply nslist_reads|]. intros l Hl. by apply nslist_answer.
Qed.

Lemma wp_dep_list n sel Q (s : CmdState W) :
  (forall r w', cluster w' = cluster (cs_world s) ->
     (forall l, r = inr l -> forall d, d ∈ l <-> d ∈ cl_deployments (cluster (cs_world s)) /\
        (n = EmptyString \/ dep_Namespace d = n) /\ selects sel (dep_Labels d) = true) ->
     Q (inr r) (mkCmdState w' (cs_out s) (cs_in s))) ->
  cmd_wp (cmd_call (Deployments_List api n sel)) Q s.
Proof.
  intros H. apply wp_call, H; [apply deplist_reads|]. intros l Hl. by apply deplist_answer.
Qed.

Lemma wp_ns_patch n p Q (s : CmdState W) :
  (forall w', patched n p (cluster (cs_world s)) (cluster w') ->
     Q (inr (inr tt)) (mkCmdState w' (cs_out s) (cs_in s))) ->
  (forall e w', cluster w' = cluster (cs_world s) \/ patched n p (cluster (cs_world s)) (cluster w') ->
     Q (inr (inl e)) (mkCmdState w' (cs_out s) (cs_in s))) ->
  cmd_wp (cmd_call (Namespaces_Patch api n p)) Q s.
Proof.
  intros H1 H2. apply wp_call. pose proof (patch_applies n p (cs_world s)) as Hp.
  destruct (Namespaces_Patch api n p (cs_world s)) as [[e|[]] w']; simpl in *; auto.
Qed.

End CallRules.

Section ReliableRules.
Context {W : Type} (api : KubeAPI W) `{!KubeLaws api, !ReliableAPI api}.

Lemma wp_rel_get n ns Q (s : CmdState W) :
  cl_namespaces (cluster (cs_world s)) !! n = Some ns ->
  (forall w', cluster w' = cluster (cs_world s) ->
     Q (inr (inr ns)) (mkCmdState w' (cs_out s) (cs_in s))) ->
  cmd_wp (cmd_call (Namespaces_Get api n)) Q s.
Proof.
  intros Hns H. apply wp_call. destruct (reliable_get n (cs_world s)) as [x Hx]; [by eexists|].
  pose proof (get_answer n (cs_world s)) as Ha. rewrite Hx in *.
  assert (x = ns) as -> by congruence. apply H, get_reads.
Qed.

Lemma wp_rel_patch n p ns Q (s : CmdState W) :
  cl_namespaces (cluster (cs_world s)) !! n = Some ns ->
  (forall w', cluster w' = set_namespaces
       (<[n := merge_patch p ns]> (cl_namespaces (cluster (cs_world s)))) (cluster (cs_world s)) ->
     Q (inr (inr tt)) (mkCmdState w' (cs_out s) (cs_in s))) ->
  cmd_wp (cmd_call (Namespaces_Patch api n p)) Q s.
Proof.
  intros Hns H. apply wp_call. pose proof (patch_applies n p (cs_world s)) as Hp.
  pose proof (reliable_patch n p (cs_world s) (mk_is_Some _ _ Hns)) as Hr.
  destruct (Namespaces_Patch api n p (cs_world s)) as [r w']. simpl in *. subst.
  destruct Hp as (ns' & Hns' & Hw). apply H. by simplify_eq.
Qed.

Lemma wp_rel_dep_list n sel Q (s : CmdState W) :
  (forall l w', cluster w' = cluster (cs_world s) ->
     (forall d, d ∈ l <-> d ∈ cl_deployments (cluster (cs_world s)) /\
        (n = EmptyString \/ dep_Namespace d = n) /\ selects sel (dep_Labels d) = true) ->
     Q (inr (inr l)) (mkCmdState w' (cs_out s) (cs_in s))) ->
  cmd_wp (cmd_call (Deployments_List api n sel)) Q s.
Proof.
  intros H. destruct (reliable_deplist n sel (cs_world s)) as [l Hl]. apply wp_call. rewrite Hl.
  apply H; [apply deplist_reads|]. by apply deplist_answer.
Qed.

End ReliableRules.

(** ** Commands that keep a relation between the clusters before and after *)

Section Keeps.
Context {W : Type} (api : KubeAPI W) `{!KubeLaws api}.

Definition cmd_keeps {A} (R : relation Cluster) (m : Cmd W A) : Prop :=
  forall s, cmd_wp m (fun _ s' => R (cluster (cs_world s)) (cluster (cs_world s'))) s.

Context (R : relation Cluster) `{!PreOrder R}.

Lemma keeps_ret {A} (a : A) : cmd_keeps R (mret a).
Proof. intros s. apply wp_ret. reflexivity. Qed.

Lemma keeps_fail {A} e : cmd_keeps R (cmd_fail (A:=A) e).
Proof. intros s. apply wp_fail. reflexivity. Qed.

Lemma keeps_output o : cmd_keeps R (cmd_output o).
Proof. intros s. apply wp_output. simpl. reflexivity. Qed.

Lemma keeps_bind {A B} (m : Cmd W A) (f : A -> Cmd W B) :
  cmd_keeps R m -> (forall a, cmd_keeps R (f a)) -> cmd_keeps R (m ≫= f).
Proof.
  intros Hm Hf s. apply wp_bind. eapply wp_mono; [apply Hm|]. intros [e|a] s' Hs; [done|].
  eapply wp_mono; [apply Hf|]. intros r s'' Hs'. by etransitivity.
Qed.

Lemma keeps_try {A} (m : Cmd W A) : cmd_keeps R m -> cmd_keeps R (cmd_try m).
Proof. intros Hm s. apply wp_try, Hm. Qed.

Lemma keeps_for {A} (f : A -> Cmd W ()) l :
  (forall a, a ∈ l -> cmd_keeps R (f a)) -> cmd_keeps R (cmd_for f l).
Proof.
  induction l as [|a l IH]; intros Hf; simpl; [apply keeps_ret|].
  apply keeps_bind; [apply Hf; set_solver|]. intros _. apply IH. set_solver.
Qed.

Lemma keeps_call {A} (f : W -> (ApiError + A) * W) :
  (forall w, R (cluster w) (cluster (f w).2)) -> cmd_keeps R (cmd_call f).
Proof. intros H s. apply wp_call. apply H. Qed.

Lemma keeps_read {A} (f : W -> (ApiError + A) * W) :
  (forall w, cluster (f w).2 = cluster w) -> cmd_keeps R (cmd_call f).
Proof. intros H. apply keeps_call. intros w. rewrite H. reflexivity. Qed.

Lemma keeps_nslist sel : cmd_keeps R (cmd_call (Namespaces_List api sel)).
Proof. apply keeps_read, nslist_reads. Qed.

Lemma keeps_deplist n sel : cmd_keeps R (cmd_call (Deployments_List api n sel)).
Proof. apply keeps_read, deplist_reads. Qed.

End Keeps.

Create HintDb cmd_keeps discriminated.
#[export] Hint Resolve keeps_ret keeps_fail keeps_output keeps_bind keeps_try keeps_nslist
  keeps_deplist : cmd_keeps.

(** Follow the structure of a command. *)
Ltac keeps_step :=
  match goal with
  | |- PreOrder _ => apply _
  | |- forall _, _ => intro
  | |- cmd_keeps _ _ (_ ≫= _) => apply keeps_bind
  | |- cmd_keeps _ _ (cmd_try _) => apply keeps_try
  | |- cmd_keeps _ _ (Fprintf _) => apply keeps_output
  | |- cmd_keeps _ _ (match ?x with _ => _ end) => destruct x
  | |- cmd_keeps _ _ _ => solve [auto with cmd_keeps typeclass_instances]
  end.
Ltac keeps := repeat keeps_step.
