(* ===== verification/RestClient.v ===== *)
(** * The generated clients ([pkg/ecnet/gen/client/*/clientset],
      [pkg/ecnet/apis/*/v1alpha1/register.go])

    The clients of the program's three resources build requests; client-go
    sends them. [RestLib] is what the clients use of client-go: it checks
    names, makes REST clients from a configuration and carries requests
    out. [RestLaws] is what the Kubernetes API documentation says of a server
    that stores objects at their URL paths, for requests with ordinary
    options: no dry run, no deletion in the foreground, no chunks of a list.
    What selectors select and how patches and the status change an object is
    the server's, [Contents].

    The two client sets are generated from one template. They differ in the
    group, the resources and the names of the accessors. *)

From Stdlib Require Import Ascii String.
From S2P Require Import Prelude GoStrings GoIO Constants MeshService KubeAPI.

(** ** Groups and configurations *)

Record GroupVersion := mkGroupVersion { gv_Group : string; gv_Version : string }.

#[global] Instance GroupVersion_eq_dec : EqDecision GroupVersion.
Proof. solve_decision. Defined.

Definition config_SchemeGroupVersion : GroupVersion := mkGroupVersion "config.flomesh.io" "v1alpha1".
Definition flomesh_SchemeGroupVersion : GroupVersion := mkGroupVersion "flomesh.io" "v1alpha1".

(** [Resource]: a resource qualified with its group. *)
Record GroupResource := mkGroupResource { gr_Group : string; gr_Resource : string }.
Definition config_Resource (resource : string) : GroupResource :=
  mkGroupResource (gv_Group config_SchemeGroupVersion) resource.
Definition flomesh_Resource (resource : string) : GroupResource :=
  mkGroupResource (gv_Group flomesh_SchemeGroupVersion) resource.

(** [rest.Config], as far as the clients set it. *)
Record RestConfig := mkRestConfig {
  rc_Host : string;
  rc_GroupVersion : option GroupVersion;
  rc_APIPath : string;
  rc_UserAgent : string;
  rc_QPS : Z;
  rc_Burst : Z;
  rc_RateLimiter : option (Z * Z)
}.

Record RestLib := mkRestLib {
  DefaultKubernetesUserAgent : string;
  HTTPClientFor : RestConfig -> option string;                 (* its error *)
  RESTClientForConfigAndClient : RestConfig -> option string;  (* its error *)
  NewDiscoveryClient : RestConfig -> option string             (* its error *)
}.

(** A client of a group: the configuration its REST client was made
    from. *)
Definition GroupClient : Type := RestConfig.

Record Clientset := mkClientset { cs_group : GroupClient; cs_discovery : RestConfig }.

Section Construct.
Context (lib : RestLib) (SchemeGroupVersion : GroupVersion).

Definition set_UserAgent (config : RestConfig) : RestConfig :=
  if String.eqb (rc_UserAgent config) ""
  then mkRestConfig (rc_Host config) (rc_GroupVersion config) (rc_APIPath config)
         (DefaultKubernetesUserAgent lib) (rc_QPS config) (rc_Burst config) (rc_RateLimiter config)
  else config.

Definition setConfigDefaults (config : RestConfig) : RestConfig :=
  set_UserAgent (mkRestConfig (rc_Host config) (Some SchemeGroupVersion) "/apis" (rc_UserAgent config)
                   (rc_QPS config) (rc_Burst config) (rc_RateLimiter config)).

(** The group's client; the configuration of the caller is copied. *)
Definition group_NewForConfigAndClient (c : RestConfig) : string + GroupClient :=
  let config := setConfigDefaults c in
  match RESTClientForConfigAndClient lib config with
  | Some err => inl err
  | None => inr config
  end.

Definition group_NewForConfig (c : RestConfig) : string + GroupClient :=
  let config := setConfigDefaults c in
  match HTTPClientFor lib config with
  | Some err => inl err
  | None => group_NewForConfigAndClient config
  end.

Definition burst_required : string :=
  "burst is required to be greater than 0 when RateLimiter is not set and QPS is set to greater than 0".

(** The configuration with a rate limiter, if one is asked for. *)
Definition with_rate_limiter (c : RestConfig) : string + RestConfig :=
  if bool_decide (rc_RateLimiter c = None) && Z.ltb 0 (rc_QPS c) then
    if Z.leb (rc_Burst c) 0 then inl burst_required
    else inr (mkRestConfig (rc_Host c) (rc_GroupVersion c) (rc_APIPath c) (rc_UserAgent c)
                (rc_QPS c) (rc_Burst c) (Some (rc_QPS c, rc_Burst c)))
  else inr c.

Definition NewForConfigAndClient (c : RestConfig) : string + Clientset :=
  match with_rate_limiter c with
  | inl err => inl err
  | inr configShallowCopy =>
      match group_NewForConfigAndClient configShallowCopy with
      | inl err => inl err
      | inr group =>
          match NewDiscoveryClient lib configShallowCopy with
          | Some err => inl err
          | None => inr (mkClientset group configShallowCopy)
          end
      end
  end.

Definition NewForConfig (c : RestConfig) : string + Clientset :=
  let configShallowCopy := set_UserAgent c in
  match HTTPClientFor lib configShallowCopy with
  | Some err => inl err
  | None => NewForConfigAndClient configShallowCopy
  end.

Definition NewForConfigOrDie (c : RestConfig) : outcome Clientset :=
  match NewForConfig c with inl _ => Panic | inr cs => Ret cs end.

(** The user agent that is used. *)
Definition agent (ua : string) : string :=
  if String.eqb ua "" then DefaultKubernetesUserAgent lib else ua.

Lemma agent_idem ua : agent (agent ua) = agent ua.
Proof.
  unfold agent. destruct (String.eqb ua "") eqn:E; [by case_match|by rewrite E].
Qed.

Lemma set_UserAgent_eq c :
  set_UserAgent c = mkRestConfig (rc_Host c) (rc_GroupVersion c) (rc_APIPath c) (agent (rc_UserAgent c))
                      (rc_QPS c) (rc_Burst c) (rc_RateLimiter c).
Proof. unfold set_UserAgent, agent. destruct c; simpl. by case_match. Qed.

Lemma with_rate_limiter_spec c c' :
  with_rate_limiter c = inr c' ->
  rc_Host c' = rc_Host c /\ rc_UserAgent c' = rc_UserAgent c /\
  (0 < rc_QPS c -> is_Some (rc_RateLimiter c')).
Proof.
  unfold with_rate_limiter. case_bool_decide as Hl; simpl.
  - destruct (Z.ltb_spec 0 (rc_QPS c)); [|intros [= <-]; split_and!; [done..|lia]].
    case_match; [done|]. intros [= <-]. split_and!; [done..|by eexists].
  - intros [= <-]. split_and!; [done..|]. intros _. by destruct (rc_RateLimiter c).
Qed.

(** A client set that was made talks to its group, with the user agent and
    the rate limiter of the configuration. *)
Lemma NewForConfig_group c cs :
  NewForConfig c = inr cs ->
  rc_GroupVersion (cs_group cs) = Some SchemeGroupVersion /\ rc_APIPath (cs_group cs) = "/apis" /\
  rc_Host (cs_group cs) = rc_Host c /\ rc_UserAgent (cs_group cs) = agent (rc_UserAgent c) /\
  rc_RateLimiter (cs_group cs) = rc_RateLimiter (cs_discovery cs) /\
  (0 < rc_QPS c -> is_Some (rc_RateLimiter (cs_group cs))).
Proof.
  unfold NewForConfig, NewForConfigAndClient, group_NewForConfigAndClient, setConfigDefaults.
  rewrite set_UserAgent_eq. destruct (HTTPClientFor _ _); [done|].
  destruct (with_rate_limiter _) as [|c'] eqn:Hw; [done|].
  apply with_rate_limiter_spec in Hw as (Hh & Hu & Hq). rewrite set_UserAgent_eq. simpl in *.
  repeat (case_match; try done). intros [= <-]. simplify_eq/=. split_and!; try done.
  by rewrite Hu, agent_idem.
Qed.

End Construct.

(** ** Requests *)

Record ListOptions := mkListOptions {
  lo_LabelSelector : string;
  lo_FieldSelector : string;
  lo_Watch : bool;
  lo_TimeoutSeconds : option Z
}.

Inductive Verb := VGet | VPost | VPut | VDelete | VPatch (pt : string).

(** The options of a request; those that are not list options are opaque. *)
Inductive Params := NoParams | Options (opts : string) | ListParams (opts : ListOptions).

Inductive Body (Obj : Type) := NoBody | ObjBody (o : Obj) | OptionsBody (opts : string) | DataBody (data : string).
Arguments NoBody {Obj}.
Arguments ObjBody {Obj}.
Arguments OptionsBody {Obj}.
Arguments DataBody {Obj}.

Record RestRequest (Obj : Type) := mkRestRequest {
  rq_client : GroupClient;
  rq_verb : Verb;
  rq_namespace : string;
  rq_resource : string;
  rq_name : option string;
  rq_subresources : list string;
  rq_params : Params;
  rq_timeout : Z;
  rq_body : Body Obj
}.
Arguments mkRestRequest {Obj}.
Arguments rq_client {Obj}.
Arguments rq_verb {Obj}.
Arguments rq_namespace {Obj}.
Arguments rq_resource {Obj}.
Arguments rq_name {Obj}.
Arguments rq_subresources {Obj}.
Arguments rq_params {Obj}.
Arguments rq_timeout {Obj}.
Arguments rq_body {Obj}.

(** The timeout in nanoseconds, 0 without one; the product may wrap
    around. *)
Definition list_timeout (opts : ListOptions) : Z :=
  match lo_TimeoutSeconds opts with Some t => sint 64 (t * 1000000000) | None => 0 end.

Definition set_Watch (opts : ListOptions) : ListOptions :=
  mkListOptions (lo_LabelSelector opts) (lo_FieldSelector opts) true (lo_TimeoutSeconds opts).

(** ** The typed clients *)

Record TypedClient (Obj : Type) := mkTypedClient {
  tc_Get : string -> string -> RestRequest Obj;
  tc_List : ListOptions -> RestRequest Obj;
  tc_Watch : ListOptions -> RestRequest Obj;
  tc_Create : Obj -> string -> RestRequest Obj;
  tc_Update : Obj -> string -> RestRequest Obj;
  tc_UpdateStatus : option (Obj -> string -> RestRequest Obj);
  tc_Delete : string -> string -> RestRequest Obj;
  tc_DeleteCollection : string -> ListOptions -> RestRequest Obj;
  tc_Patch : string -> string -> string -> string -> list string -> RestRequest Obj
}.
Arguments mkTypedClient {Obj}.
Arguments tc_Get {Obj}.
Arguments tc_List {Obj}.
Arguments tc_Watch {Obj}.
Arguments tc_Create {Obj}.
Arguments tc_Update {Obj}.
Arguments tc_UpdateStatus {Obj}.
Arguments tc_Delete {Obj}.
Arguments tc_DeleteCollection {Obj}.
Arguments tc_Patch {Obj}.

Section Typed.
Context {Obj : Type} (Name : Obj -> string).

(** The configuration client, which has no status. *)
Definition ecnetConfigs (c : GroupClient) (ns : string) : TypedClient Obj :=
  let resource := "ecnetconfigs" in {|
  tc_Get name options :=
    mkRestRequest c VGet ns resource (Some name) [] (Options options) 0 NoBody;
  tc_List opts :=
    mkRestRequest c VGet ns resource None [] (ListParams opts) (list_timeout opts) NoBody;
  tc_Watch opts :=
    mkRestRequest c VGet ns resource None [] (ListParams (set_Watch opts)) (list_timeout opts) NoBody;
  tc_Create ecnetConfig opts :=
    mkRestRequest c VPost ns resource None [] (Options opts) 0 (ObjBody ecnetConfig);
  tc_Update ecnetConfig opts :=
    mkRestRequest c VPut ns resource (Some (Name ecnetConfig)) [] (Options opts) 0 (ObjBody ecnetConfig);
  tc_UpdateStatus := None;
  tc_Delete name opts :=
    mkRestRequest c VDelete ns resource (Some name) [] NoParams 0 (OptionsBody opts);
  tc_DeleteCollection opts listOpts :=
    mkRestRequest c VDelete ns resource None [] (ListParams listOpts) (list_timeout listOpts)
      (OptionsBody opts);
  tc_Patch name pt data opts subresources :=
    mkRestRequest c (VPatch pt) ns resource (Some name) subresources (Options opts) 0 (DataBody data)
|}.

(** The clients of the two multi-cluster resources, which have one. *)
Definition serviceImports (c : GroupClient) (ns : string) : TypedClient Obj :=
  let resource := "serviceimports" in {|
  tc_Get name options :=
    mkRestRequest c VGet ns resource (Some name) [] (Options options) 0 NoBody;
  tc_List opts :=
    mkRestRequest c VGet ns resource None [] (ListParams opts) (list_timeout opts) NoBody;
  tc_Watch opts :=
    mkRestRequest c VGet ns resource None [] (ListParams (set_Watch opts)) (list_timeout opts) NoBody;
  tc_Create serviceImport opts :=
    mkRestRequest c VPost ns resource None [] (Options opts) 0 (ObjBody serviceImport);
  tc_Update serviceImport opts :=
    mkRestRequest c VPut ns resource (Some (Name serviceImport)) [] (Options opts) 0
      (ObjBody serviceImport);
  tc_UpdateStatus := Some (fun serviceImport opts =>
    mkRestRequest c VPut ns resource (Some (Name serviceImport)) ["status"] (Options opts) 0
      (ObjBody serviceImport));
  tc_Delete name opts :=
    mkRestRequest c VDelete ns resource (Some name) [] NoParams 0 (OptionsBody opts);
  tc_DeleteCollection opts listOpts :=
    mkRestRequest c VDelete ns resource None [] (ListParams listOpts) (list_timeout listOpts)
      (OptionsBody opts);
  tc_Patch name pt data opts subresources :=
    mkRestRequest c (VPatch pt) ns resource (Some name) subresources (Options opts) 0 (DataBody data)
|}.

Definition globalTrafficPolicies (c : GroupClient) (ns : string) : TypedClient Obj :=
  let resource := "globaltrafficpolicies" in {|
  tc_Get name options :=
    mkRestRequest c VGet ns resource (Some name) [] (Options options) 0 NoBody;
  tc_List opts :=
    mkRestRequest c VGet ns resource None [] (ListParams opts) (list_timeout opts) NoBody;
  tc_Watch opts :=
    mkRestRequest c VGet ns resource None [] (ListParams (set_Watch opts)) (list_timeout opts) NoBody;
  tc_Create globalTrafficPolicy opts :=
    mkRestRequest c VPost ns resource None [] (Options opts) 0 (ObjBody globalTrafficPolicy);
  tc_Update globalTrafficPolicy opts :=
    mkRestRequest c VPut ns resource (Some (Name globalTrafficPolicy)) [] (Options opts) 0
      (ObjBody globalTrafficPolicy);
  tc_UpdateStatus := Some (fun globalTrafficPolicy opts =>
    mkRestRequest c VPut ns resource (Some (Name globalTrafficPolicy)) ["status"] (Options opts) 0
      (ObjBody globalTrafficPolicy));
  tc_Delete name opts :=
    mkRestRequest c VDelete ns resource (Some name) [] NoParams 0 (OptionsBody opts);
  tc_DeleteCollection opts listOpts :=
    mkRestRequest c VDelete ns resource None [] (ListParams listOpts) (list_timeout listOpts)
      (OptionsBody opts);
  tc_Patch name pt data opts subresources :=
    mkRestRequest c (VPatch pt) ns resource (Some name) subresources (Options opts) 0 (DataBody data)
|}.

End Typed.

(** ** Paths *)

(** The segments of the URL of a resource, or of an object in it. *)
Definition base_segments (c : GroupClient) : list string :=
  "apis" :: match rc_GroupVersion c with
            | Some gv => [gv_Group gv; gv_Version gv]
            | None => []
            end.

Definition collection_segments (c : GroupClient) (ns resource : string) : list string :=
  base_segments c ++ (if String.eqb ns "" then [] else ["namespaces"; ns]) ++ [resource].

Definition object_path (c : GroupClient) (ns resource name : string) : string :=
  Join (collection_segments c ns resource ++ [name]) "/".

(** A segment of a path: not empty, and without a slash. *)
Definition segment (s : string) : Prop := s <> "" /\ free_of is_slash s.

Lemma split_join_slash l : l <> [] -> Forall (free_of is_slash) l -> split_by is_slash (Join l "/") = l.
Proof.
  intros Hl. induction 1 as [|s l Hs Hf IH]; [done|]. destruct l as [|t l].
  - by apply split_by_free.
  - change (Join (s :: t :: l) "/") with (s +:+ String "/" (Join (t :: l) "/")).
    by rewrite split_by_sep, IH.
Qed.

(** The client of a group whose names are segments. *)
Definition client_ok (c : GroupClient) : Prop :=
  exists gv, rc_GroupVersion c = Some gv /\ free_of is_slash (gv_Group gv) /\ free_of is_slash (gv_Version gv).

Lemma object_path_inj c1 c2 ns1 ns2 r1 r2 n1 n2 :
  client_ok c1 -> client_ok c2 -> segment ns1 -> segment ns2 -> segment r1 -> segment r2 ->
  segment n1 -> segment n2 -> object_path c1 ns1 r1 n1 = object_path c2 ns2 r2 n2 ->
  rc_GroupVersion c1 = rc_GroupVersion c2 /\ ns1 = ns2 /\ r1 = r2 /\ n1 = n2.
Proof.
  intros (gv1 & Hg1 & Hga1 & Hgb1) (gv2 & Hg2 & Hga2 & Hgb2) [Hn1 Hn1'] [Hn2 Hn2'] [_ Hr1] [_ Hr2]
    [_ Hm1] [_ Hm2].
  unfold object_path, collection_segments, base_segments. rewrite Hg1, Hg2.
  rewrite (proj2 (String.eqb_neq _ _) Hn1), (proj2 (String.eqb_neq _ _) Hn2). cbn [app].
  intros E. apply (f_equal (split_by is_slash)) in E.
  rewrite !split_join_slash in E by (done || by repeat constructor).
  destruct gv1, gv2. by simplify_eq/=.
Qed.

(** ** A server that stores objects at their paths *)

(** The methods of a typed client, with their arguments. *)
Inductive TypedOp (Obj : Type) :=
| OpGet (name options : string)
| OpList (opts : ListOptions)
| OpWatch (opts : ListOptions)
| OpCreate (o : Obj) (opts : string)
| OpUpdate (o : Obj) (opts : string)
| OpUpdateStatus (o : Obj) (opts : string)
| OpDelete (name opts : string)
| OpDeleteCollection (opts : string) (listOpts : ListOptions)
| OpPatch (name pt data opts : string) (subresources : list string).
Arguments OpGet {Obj}.
Arguments OpList {Obj}.
Arguments OpWatch {Obj}.
Arguments OpCreate {Obj}.
Arguments OpUpdate {Obj}.
Arguments OpUpdateStatus {Obj}.
Arguments OpDelete {Obj}.
Arguments OpDeleteCollection {Obj}.
Arguments OpPatch {Obj}.

(** The request of a method; the configuration client has no
    [UpdateStatus]. *)
Definition client_request {Obj} (t : TypedClient Obj) (op : TypedOp Obj) : option (RestRequest Obj) :=
  match op with
  | OpGet name options => Some (tc_Get t name options)
  | OpList opts => Some (tc_List t opts)
  | OpWatch opts => Some (tc_Watch t opts)
  | OpCreate o opts => Some (tc_Create t o opts)
  | OpUpdate o opts => Some (tc_Update t o opts)
  | OpUpdateStatus o opts => UpdateStatus ← tc_UpdateStatus t; Some (UpdateStatus o opts)
  | OpDelete name opts => Some (tc_Delete t name opts)
  | OpDeleteCollection opts listOpts => Some (tc_DeleteCollection t opts listOpts)
  | OpPatch name pt data opts subresources => Some (tc_Patch t name pt data opts subresources)
  end.

(** What a server does with the contents of objects and with options. *)
Class Contents (Obj : Type) := {
  plain_options : string -> Prop;               (* nothing but ordinary options *)
  plain_list : ListOptions -> Prop;
  selects : ListOptions -> Obj -> bool;         (* label and field selectors *)
  completes : Obj -> Obj -> Prop;               (* fills in what the server sets *)
  keep_status : Obj -> Obj -> Obj;              (* the new object with the old status *)
  take_status : Obj -> Obj -> Obj;              (* the old object with the new status *)
  apply_patch : string -> string -> list string -> option Obj -> option Obj
}.

(** The answer to a request: an object, the objects of a list, a stream of
    changes, or only a status. *)
Inductive RestResult (Obj : Type) := Single (o : Obj) | Items (l : list Obj) | Stream (opts : ListOptions) | Done.
Arguments Single {Obj}.
Arguments Items {Obj}.
Arguments Stream {Obj}.
Arguments Done {Obj}.

(** The object of an answer, if it is one. *)
Definition answer_object {Obj} (res : ApiError + RestResult Obj) : ApiError + option Obj :=
  match res with
  | inl e => inl e
  | inr (Single o) => inr (Some o)
  | inr _ => inr None
  end.

Section Server.
Context {Obj W : Type} (Name : Obj -> string) `{!Contents Obj}.

Definition target (r : RestRequest Obj) (name : string) : string :=
  object_path (rq_client r) (rq_namespace r) (rq_resource r) name.

(** What a request may do to the stored objects, for resources without
    finalizers. The server may complete an object it stores, and answers
    with what it stored. An error status changes nothing. *)
Inductive rest_effect (r : RestRequest Obj) (objs : gmap string Obj)
  : ApiError + RestResult Obj -> gmap string Obj -> Prop :=
| eff_error e : err_Reason e = OtherReason -> rest_effect r objs (inl e) objs
| eff_missing n e :
    rq_name r = Some n -> err_Reason e = NotFound -> objs !! target r n = None ->
    rest_effect r objs (inl e) objs
| eff_exists o e :
    rq_verb r = VPost -> rq_body r = ObjBody o -> err_Reason e = AlreadyExists ->
    is_Some (objs !! target r (Name o)) ->
    rest_effect r objs (inl e) objs
| eff_get n o :
    rq_verb r = VGet -> rq_name r = Some n -> objs !! target r n = Some o ->
    rest_effect r objs (inr (Single o)) objs
| eff_list l os :
    rq_verb r = VGet -> rq_name r = None -> rq_params r = ListParams l -> lo_Watch l = false ->
    (forall o, o ∈ os <-> exists n, segment n /\ objs !! target r n = Some o /\ selects l o = true) ->
    rest_effect r objs (inr (Items os)) objs
| eff_watch l :
    rq_verb r = VGet -> rq_name r = None -> rq_params r = ListParams l -> lo_Watch l = true ->
    rest_effect r objs (inr (Stream l)) objs
| eff_post o o' :
    rq_verb r = VPost -> rq_subresources r = [] -> rq_body r = ObjBody o -> segment (Name o') ->
    (Name o <> "" -> Name o' = Name o) -> completes o o' ->
    objs !! target r (Name o') = None ->
    rest_effect r objs (inr (Single o')) (<[target r (Name o') := o']> objs)
| eff_put n o o' old :
    rq_verb r = VPut -> rq_subresources r = [] -> rq_name r = Some n -> segment n -> rq_body r = ObjBody o ->
    Name o' = n -> completes (keep_status old o) o' ->
    objs !! target r n = Some old ->
    rest_effect r objs (inr (Single o')) (<[target r n := o']> objs)
| eff_put_status n o o' old :
    rq_verb r = VPut -> rq_subresources r = ["status"] -> rq_name r = Some n -> segment n ->
    rq_body r = ObjBody o -> Name o' = n -> completes (take_status old o) o' ->
    objs !! target r n = Some old ->
    rest_effect r objs (inr (Single o')) (<[target r n := o']> objs)
| eff_patch n pt data o o' :
    rq_verb r = VPatch pt -> rq_name r = Some n -> segment n -> rq_body r = DataBody data -> Name o' = n ->
    apply_patch pt data (rq_subresources r) (objs !! target r n) = Some o -> completes o o' ->
    rest_effect r objs (inr (Single o')) (<[target r n := o']> objs)
| eff_delete n old :
    rq_verb r = VDelete -> rq_name r = Some n -> segment n -> objs !! target r n = Some old ->
    rest_effect r objs (inr Done) (delete (target r n) objs)
| eff_delete_collection l objs' :
    rq_verb r = VDelete -> rq_name r = None -> rq_params r = ListParams l ->
    (forall p o, objs' !! p = Some o <->
       objs !! p = Some o /\ ~ ((exists n, segment n /\ p = target r n) /\ selects l o = true)) ->
    rest_effect r objs (inr Done) objs'.

(** A request with ordinary options only. *)
Definition plain_request (r : RestRequest Obj) : Prop :=
  match rq_params r with Options o => plain_options o | ListParams l => plain_list l | NoParams => True end /\
  match rq_body r with OptionsBody o => plain_options o | _ => True end.

Class RestLaws (Do : RestRequest Obj -> W -> (ApiError + RestResult Obj) * W) : Type := {
  rest_objects : W -> gmap string Obj;
  rest_does : forall r w, plain_request r ->
    rest_effect r (rest_objects w) (Do r w).1 (rest_objects (Do r w).2)
}.

(** What a method promises of the objects of its namespace, by name:
    [b] before and [a] after it. *)
Definition upd (f : string -> option Obj) (n : string) (v : option Obj) : string -> option Obj :=
  fun m => if bool_decide (m = n) then v else f m.

Definition same_objects (a b : string -> option Obj) : Prop := forall n, segment n -> a n = b n.

Definition client_spec (op : TypedOp Obj) (res : ApiError + option Obj) (b a : string -> option Obj) : Prop :=
  match res with
  | inl e =>
      same_objects a b /\
      match op with
      | OpGet n _ | OpDelete n _ | OpPatch n _ _ _ _ => IsNotFound e = true -> b n = None
      | OpUpdate o _ | OpUpdateStatus o _ => IsNotFound e = true -> b (Name o) = None
      | OpCreate o _ => IsAlreadyExists e = true -> is_Some (b (Name o))
      | _ => True
      end
  | inr v =>
      match op with
      | OpGet n _ => same_objects a b /\ v = b n /\ is_Some v
      | OpList _ | OpWatch _ => same_objects a b
      | OpCreate o _ => exists o', v = Some o' /\ b (Name o') = None /\
          (Name o <> "" -> Name o' = Name o) /\ same_objects a (upd b (Name o') v)
      | OpUpdate o _ | OpUpdateStatus o _ => exists o', v = Some o' /\ is_Some (b (Name o)) /\
          Name o' = Name o /\ same_objects a (upd b (Name o) v)
      | OpPatch n _ _ _ _ => exists o', v = Some o' /\ Name o' = n /\ same_objects a (upd b n v)
      | OpDelete n _ => is_Some (b n) /\ same_objects a (upd b n None)
      | OpDeleteCollection _ _ => forall n, segment n -> a n = b n \/ a n = None
      end
  end.

(** What a method promises of contents: what the answer holds, what is
    stored, and which objects a list or a deletion of many is about. *)
Definition content_spec (op : TypedOp Obj) (res : ApiError + RestResult Obj) (b a : string -> option Obj) : Prop :=
  match res with
  | inl _ => True
  | inr v =>
      match op with
      | OpGet n _ => exists o, v = Single o /\ b n = Some o
      | OpList l => exists os, v = Items os /\
          forall o, o ∈ os <-> exists n, segment n /\ b n = Some o /\ selects l o = true
      | OpWatch l => v = Stream (set_Watch l)
      | OpCreate o _ => exists o', v = Single o' /\ completes o o'
      | OpUpdate o _ => exists old o', b (Name o) = Some old /\ v = Single o' /\ completes (keep_status old o) o'
      | OpUpdateStatus o _ =>
          exists old o', b (Name o) = Some old /\ v = Single o' /\ completes (take_status old o) o'
      | OpPatch n pt data _ subresources =>
          exists o o', apply_patch pt data subresources (b n) = Some o /\ v = Single o' /\ completes o o'
      | OpDelete _ _ => v = Done
      | OpDeleteCollection _ l => v = Done /\
          forall n o, segment n -> a n = Some o <-> b n = Some o /\ selects l o = false
      end
  end.

(** A call with ordinary options; [List] is not asked to watch. *)
Definition plain_op (op : TypedOp Obj) : Prop :=
  match op with
  | OpGet _ o | OpCreate _ o | OpUpdate _ o | OpUpdateStatus _ o | OpDelete _ o | OpPatch _ _ _ o _ =>
      plain_options o
  | OpList l => plain_list l /\ lo_Watch l = false
  | OpWatch l => plain_list (set_Watch l)
  | OpDeleteCollection o l => plain_options o /\ plain_list l
  end.

(** The three resources of the program, with their groups. *)
Inductive kind_of_client (gv : GroupVersion) (resource : string)
    (t : GroupClient -> string -> TypedClient Obj) : Prop :=
| kind_config : gv = config_SchemeGroupVersion -> resource = "ecnetconfigs" -> t = ecnetConfigs Name ->
    kind_of_client gv resource t
| kind_import : gv = flomesh_SchemeGroupVersion -> resource = "serviceimports" -> t = serviceImports Name ->
    kind_of_client gv resource t
| kind_policy : gv = flomesh_SchemeGroupVersion -> resource = "globaltrafficpolicies" ->
    t = globalTrafficPolicies Name -> kind_of_client gv resource t.

Lemma kind_segment gv resource t : kind_of_client gv resource t -> segment resource.
Proof. by intros [_ -> _|_ -> _|_ -> _]. Qed.

(** A client set that was made is one of its group. *)
Lemma clientset_ok lib gv resource t conf cs :
  kind_of_client gv resource t -> NewForConfig lib gv conf = inr cs -> client_ok (cs_group cs).
Proof. intros Hk (Hg & _)%NewForConfig_group. exists gv. split; [done|]. by destruct Hk as [-> _ _| -> _ _| -> _ _]. Qed.

Context (Do : RestRequest Obj -> W -> (ApiError + RestResult Obj) * W) `{!RestLaws Do}.

(** The object of a resource, by namespace and name. *)
Definition object_at (w : W) (c : GroupClient) (resource ns name : string) : option Obj :=
  rest_objects w !! object_path c ns resource name.

Section Kind.
Context (gv : GroupVersion) (resource : string) (t : GroupClient -> string -> TypedClient Obj)
  (Ht : kind_of_client gv resource t) (c : GroupClient) (ns : string)
  (Hc : client_ok c) (Hns : segment ns).

(** Every method works on its resource in its namespace; the clients are
    instances of one template. *)
Definition op_request (op : TypedOp Obj) : RestRequest Obj :=
  match op with
  | OpGet n o => mkRestRequest c VGet ns resource (Some n) [] (Options o) 0 NoBody
  | OpList o => mkRestRequest c VGet ns resource None [] (ListParams o) (list_timeout o) NoBody
  | OpWatch o => mkRestRequest c VGet ns resource None [] (ListParams (set_Watch o)) (list_timeout o) NoBody
  | OpCreate x o => mkRestRequest c VPost ns resource None [] (Options o) 0 (ObjBody x)
  | OpUpdate x o => mkRestRequest c VPut ns resource (Some (Name x)) [] (Options o) 0 (ObjBody x)
  | OpUpdateStatus x o => mkRestRequest c VPut ns resource (Some (Name x)) ["status"] (Options o) 0 (ObjBody x)
  | OpDelete n o => mkRestRequest c VDelete ns resource (Some n) [] NoParams 0 (OptionsBody o)
  | OpDeleteCollection o l =>
      mkRestRequest c VDelete ns resource None [] (ListParams l) (list_timeout l) (OptionsBody o)
  | OpPatch n pt d o s => mkRestRequest c (VPatch pt) ns resource (Some n) s (Options o) 0 (DataBody d)
  end.

Lemma client_request_eq op r : client_request (t c ns) op = Some r -> r = op_request op.
Proof using Ht. by destruct Ht as [_ -> ->|_ -> ->|_ -> ->]; destruct op; intros; simplify_eq/=. Qed.

Lemma client_plain op r : client_request (t c ns) op = Some r -> plain_op op -> plain_request r.
Proof using Ht. intros ->%client_request_eq. destruct op; unfold plain_request; simpl; tauto. Qed.

Lemma target_op_request op n : target (op_request op) n = object_path c ns resource n.
Proof. by destruct op. Qed.

Lemma object_path_name n m :
  segment n -> segment m -> object_path c ns resource n = object_path c ns resource m -> n = m.
Proof using Ht Hc Hns. intros ?? E. apply object_path_inj in E as (_ & _ & _ & ?); eauto using kind_segment. Qed.

(** The objects by name, after one path was written. *)
Lemma lookup_write (objs : gmap string Obj) n v m :
  segment n -> segment m ->
  (partial_alter (fun _ => v) (object_path c ns resource n) objs : gmap string Obj) !! object_path c ns resource m =
  upd (fun m => objs !! object_path c ns resource m) n v m.
Proof using Ht Hc Hns.
  intros Hn Hm. unfold upd. case_bool_decide as E.
  - subst m. apply lookup_partial_alter_eq.
  - apply lookup_partial_alter_ne. intros E'. apply E. symmetry. by apply object_path_name.
Qed.

(** The promise of a method, from the effect of its request. *)
Lemma client_effect op r objs res objs' :
  client_request (t c ns) op = Some r -> rest_effect r objs res objs' ->
  client_spec op (answer_object res) (fun n => objs !! object_path c ns resource n)
    (fun n => objs' !! object_path c ns resource n).
Proof using Ht Hc Hns.
  intros ->%client_request_eq He. pose proof (lookup_write objs) as Hw.
  inversion He; subst; rewrite ?target_op_request in *; destruct op; simplify_eq/=;
  unfold IsNotFound, IsAlreadyExists, same_objects in *;
  repeat match goal with H : err_Reason _ = _ |- _ => rewrite H in *; clear H end; simpl; eauto 6.
  all: try by split.
  1, 2: match goal with H : Name _ = Name _ |- _ => rewrite <-H in * end; eauto 6.
  intros n Hn. match goal with H : forall p o, _ <-> _ |- _ => specialize (H (object_path c ns resource n)) end.
  destruct (objs' !! object_path c ns resource n) as [o|]; [left|by right]. symmetry. naive_solver.
Qed.

Lemma client_contents op r objs res objs' :
  client_request (t c ns) op = Some r -> plain_op op -> rest_effect r objs res objs' ->
  content_spec op res (fun n => objs !! object_path c ns resource n)
    (fun n => objs' !! object_path c ns resource n).
Proof using Ht Hc Hns.
  intros ->%client_request_eq Hplain He. unfold content_spec.
  inversion He; subst; try done; rewrite ?target_op_request in *; destruct op; simplify_eq/=; eauto 8.
  - destruct Hplain as [_ ?]. congruence.
  - match goal with H : Name _ = Name _ |- _ => rewrite H in * end; eauto 6.
  - match goal with H : Name _ = Name _ |- _ => rewrite H in * end; eauto 6.
  - split; [done|]. intros n o Hn.
    match goal with H : forall p o, _ <-> _ |- _ => rewrite (H (object_path c ns resource n) o) end.
    destruct (selects l o); [|naive_solver]. split; [|naive_solver].
    intros [_ Hno]. destruct Hno. split; [by exists n|done].
Qed.

(** Objects that are not of the collection are kept. *)
Lemma client_frame op r objs res objs' p :
  client_request (t c ns) op = Some r -> rest_effect r objs res objs' ->
  (forall n, segment n -> object_path c ns resource n <> p) -> objs' !! p = objs !! p.
Proof using Ht.
  intros ->%client_request_eq He Hp.
  inversion He; subst; rewrite ?target_op_request in *; try done;
    rewrite ?lookup_insert_ne, ?lookup_delete_ne by auto; try done.
  match goal with H : forall p o, _ <-> _ |- _ => apply option_eq; intros o; rewrite (H p o) end.
  split; [naive_solver|]. intros E. split; [done|]. intros [(n & Hn & Ep) _].
  rewrite target_op_request in Ep. by destruct (Hp n Hn).
Qed.

End Kind.


End Server.

(** ** A server in memory *)

#[global] Instance segment_dec s : Decision (segment s).
Proof. unfold segment. apply _. Defined.

Section Memory.
Context {Obj : Type} (Name : Obj -> string).

(** Every option is ordinary, selectors select everything, and there is no
    status. *)
Definition mem_Contents : Contents Obj := {|
  plain_options _ := True;
  plain_list _ := True;
  selects _ _ := true;
  completes o o' := o' = o;
  keep_status _ o := o;
  take_status _ o := o;
  apply_patch _ _ _ o := o
|}.
#[local] Existing Instance mem_Contents.

Definition refused (rs : Reason) : ApiError + RestResult Obj := inl (mkApiError rs "").

(** Objects are stored as they are sent; lists, patches and the deletion of
    collections are refused. *)
Definition mem_Do (r : RestRequest Obj) (objs : gmap string Obj)
  : (ApiError + RestResult Obj) * gmap string Obj :=
  match rq_verb r, rq_name r, rq_body r with
  | VGet, Some n, _ =>
      (match objs !! target r n with Some o => inr (Single o) | None => refused NotFound end, objs)
  | VPost, _, ObjBody o =>
      if bool_decide (segment (Name o) /\ rq_subresources r = []) then
        match objs !! target r (Name o) with
        | Some _ => (refused AlreadyExists, objs)
        | None => (inr (Single o), <[target r (Name o) := o]> objs)
        end
      else (refused OtherReason, objs)
  | VPut, Some n, ObjBody o =>
      if bool_decide (segment n /\ Name o = n /\ rq_subresources r = []) then
        match objs !! target r n with
        | Some _ => (inr (Single o), <[target r n := o]> objs)
        | None => (refused NotFound, objs)
        end
      else (refused OtherReason, objs)
  | VDelete, Some n, _ =>
      if bool_decide (segment n) then
        match objs !! target r n with
        | Some _ => (inr Done, delete (target r n) objs)
        | None => (refused NotFound, objs)
        end
      else (refused OtherReason, objs)
  | _, _, _ => (refused OtherReason, objs)
  end.

#[global] Instance mem_RestLaws : RestLaws Name mem_Do.
Proof.
  refine {| rest_objects := fun w => w |}. intros r w _. unfold mem_Do.
  destruct (rq_verb r) eqn:?, (rq_name r) eqn:?, (rq_body r) eqn:?; repeat case_match; simpl; bool_props;
    repeat match goal with H : bool_decide _ = true |- _ => apply bool_decide_eq_true in H end;
    destruct_and?; subst;
    first [ by apply eff_error | by eapply eff_missing | by eapply eff_exists; eauto | by eapply eff_get
          | by eapply eff_post; eauto | by eapply eff_put; eauto | by eapply eff_delete ].
Defined.

End Memory.

#[local] Existing Instance mem_Contents.

Definition sample_lib : RestLib :=
  mkRestLib "go-client" (fun _ => None) (fun _ => None) (fun _ => None).

Definition sample_conf : RestConfig := mkRestConfig "https://api" None "" "" 0 0 None.

