(* ===== verification/CliNamespace.v ===== *)
(** * The [namespace] commands ([cmd/ecnet/cli/namespace_*.go])

    Adding namespaces to an ecnet, removing, ignoring and listing them.
    The JSON text of a merge patch is represented by its content. *)

From Stdlib Require Import Ascii String.
From S2P Require Import Prelude GoStrings GoIO Constants ApiTypes KubeAPI.

(** [labels.Set{k: v}.String()] *)
Definition set_String (k v : string) : string := k +:+ "=" +:+ v.

Definition trueValue : string := "true".

Section NamespaceCommands.
Context {W : Type} (api : KubeAPI W).

(** ** Connecting to the cluster

    Fetching the configuration and building the client set may each fail;
    [None] is no error. *)

Definition with_clientset {A} (restConfigErr clientsetErr : option string) (run : Cmd W A)
  : Cmd W A :=
  match restConfigErr with
  | Some e => cmd_fail ("Error fetching kubeconfig: " +:+ e)
  | None =>
      match clientsetErr with
      | Some e => cmd_fail ("Could not access Kubernetes cluster, check kubeconfig: " +:+ e)
      | None => run
      end
  end.

(** ** [namespace_add.go] *)

Record namespaceAddCmd := mkNamespaceAddCmd {
  add_namespaces : list string;
  add_ecnetName : string;
  add_disableSidecarInjection : bool
}.

Definition meshExists (ecnetName : string) : Cmd W bool :=
  r ← cmd_call (Deployments_List api "" (set_String "ecnetName" ecnetName));
  match r with
  | inl err =>
      cmd_fail ("Cannot obtain information about the mesh [" +:+ ecnetName +:+ "]: ["
                  +:+ err_Error err +:+ "]")
  | inr ds => mret (nonempty ds)
  end.

Definition add_patch (a : namespaceAddCmd) : MetaPatch :=
  mkMetaPatch [(ECNETKubeResourceMonitorAnnotation, Some (add_ecnetName a))]
    [(SidecarInjectionAnnotation,
      Some (if add_disableSidecarInjection a then "disabled" else "enabled"))].

(** The body of the loop. The error of listing the deployments is dropped;
    the typed client returns an empty list with it. *)
Definition add_namespace (a : namespaceAddCmd) (ns : string) : Cmd W () :=
  exists_ ← meshExists (add_ecnetName a);
  if negb exists_ then
    cmd_fail ("ecnet [" +:+ add_ecnetName a +:+ "] does not exist, please specify another ecnet using --ecnet-name or create a new ecnet")
  else
  r ← cmd_call (Deployments_List api ns (set_String AppLabel ECNETControllerName));
  let items := match r with inr ds => ds | inl _ => [] end in
  if nonempty items then
    Fprintf ("Namespace [" +:+ ns +:+ "] already has [" +:+ ECNETControllerName
             +:+ "] installed and cannot be added to ecnet [" +:+ add_ecnetName a +:+ "]" +:+ eol)
  else
  g ← cmd_call (Namespaces_Get api ns);
  match g with
  | inl err =>
      cmd_fail ("Could not add namespace [" +:+ ns +:+ "] to ecnet [" +:+ add_ecnetName a
                +:+ "]: " +:+ err_Error err)
  | inr namespace =>
      let ecnetName := map_get (kns_Labels namespace) ECNETKubeResourceMonitorAnnotation in
      if String.eqb (add_ecnetName a) ecnetName then
        Fprintf ("Namespace [" +:+ ns +:+ "] has already been added to ecnet ["
                 +:+ add_ecnetName a +:+ "]" +:+ eol)
      else if bool_decide (kns_Labels namespace !! IgnoreLabel = Some trueValue) then
        cmd_fail "Cannot add ignored namespace"
      else
      p ← cmd_call (Namespaces_Patch api ns (add_patch a));
      match p with
      | inl err =>
          cmd_fail ("Could not add namespace [" +:+ ns +:+ "] to ecnet [" +:+ add_ecnetName a
                    +:+ "]: " +:+ err_Error err)
      | inr _ =>
          Fprintf ("Namespace [" +:+ ns +:+ "] successfully added to ecnet ["
                   +:+ add_ecnetName a +:+ "]" +:+ eol)
      end
  end.

Definition namespaceAdd_run (a : namespaceAddCmd) : Cmd W () :=
  cmd_for (add_namespace a) (add_namespaces a).

(** The [RunE] of the command. *)
Definition newNamespaceAdd (restConfigErr clientsetErr : option string)
  (ecnetName : string) (disableSidecarInjection : bool) (args : list string) : Cmd W () :=
  with_clientset restConfigErr clientsetErr
    (namespaceAdd_run (mkNamespaceAddCmd args ecnetName disableSidecarInjection)).

(** ** [namespace_remove.go] *)

Record namespaceRemoveCmd := mkNamespaceRemoveCmd {
  rm_namespace : string;
  rm_ecnetName : string
}.

Definition remove_patch : MetaPatch :=
  mkMetaPatch [(ECNETKubeResourceMonitorAnnotation, None); (IgnoreLabel, None)]
    [(SidecarInjectionAnnotation, None); (MetricsAnnotation, None)].

Definition namespaceRemove_run (r : namespaceRemoveCmd) : Cmd W () :=
  g ← cmd_call (Namespaces_Get api (rm_namespace r));
  match g with
  | inl err =>
      cmd_fail ("Could not get namespace [" +:+ rm_namespace r +:+ "]: " +:+ err_Error err)
  | inr namespace =>
      match kns_Labels namespace !! ECNETKubeResourceMonitorAnnotation with
      | Some val =>
          if String.eqb val (rm_ecnetName r) then
            p ← cmd_call (Namespaces_Patch api (rm_namespace r) remove_patch);
            match p with
            | inl err =>
                cmd_fail ("Could not remove namespace [" +:+ rm_namespace r +:+ "] from ecnet ["
                          +:+ rm_ecnetName r +:+ "]: " +:+ err_Error err)
            | inr _ =>
                Fprintf ("Namespace [" +:+ rm_namespace r +:+ "] successfully removed from ecnet ["
                         +:+ rm_ecnetName r +:+ "]" +:+ eol)
            end
          else
            cmd_fail ("Namespace belongs to ecnet [" +:+ val +:+ "], not ecnet ["
                      +:+ rm_ecnetName r +:+ "]. Please specify the correct ecnet")
      | None =>
          Fprintf ("Namespace [" +:+ rm_namespace r +:+ "] already does not belong to any ecnet"
                   +:+ eol)
      end
  end.

Definition newNamespaceRemove (restConfigErr clientsetErr : option string) (ecnetName arg : string)
  : Cmd W () :=
  with_clientset restConfigErr clientsetErr
    (namespaceRemove_run (mkNamespaceRemoveCmd arg ecnetName)).

(** ** [namespace_ignore.go] *)

Definition ignore_patch : MetaPatch := mkMetaPatch [(IgnoreLabel, Some trueValue)] [].

Definition ignore_namespace (arg : string) : Cmd W () :=
  let ns := TrimSpace arg in
  g ← cmd_call (Namespaces_Get api ns);
  match g with
  | inl err => cmd_fail ("Failed to retrieve namespace [" +:+ ns +:+ "]: " +:+ err_Error err)
  | inr _ =>
      p ← cmd_call (Namespaces_Patch api ns ignore_patch);
      match p with
      | inl err =>
          cmd_fail ("Failed to configure namespace [" +:+ ns +:+ "] to be ignored: "
                    +:+ err_Error err)
      | inr _ =>
          Fprintf ("Successfully configured namespace [" +:+ ns +:+ "] to be ignored" +:+ eol)
      end
  end.

Definition namespaceIgnore_run (namespaces : list string) : Cmd W () :=
  cmd_for ignore_namespace namespaces.

Definition newNamespaceIgnore (restConfigErr clientsetErr : option string) (args : list string)
  : Cmd W () := with_clientset restConfigErr clientsetErr (namespaceIgnore_run args).

(** ** [namespace_list.go] *)

Definition selectNamespacesMonitoredByEcnet (ecnetName : string)
  : Cmd W (ApiError + list KNamespace) :=
  let selector := ECNETKubeResourceMonitorAnnotation in
  let selector := if negb (String.eqb ecnetName "") then set_String selector ecnetName
                  else selector in
  cmd_call (Namespaces_List api selector).

(** A row of the table. *)
Definition namespace_row (ns : KNamespace) : string :=
  let ecnetName := map_get (kns_Labels ns) ECNETKubeResourceMonitorAnnotation in
  let sidecarInjectionEnabled :=
    match kns_Annotations ns !! SidecarInjectionAnnotation with Some v => v | None => "-" end in
  let sidecarInjectionEnabled :=
    match kns_Labels ns !! IgnoreLabel with
    | Some _ => "disabled (ignored)"
    | None => sidecarInjectionEnabled
    end in
  kns_Name ns +:+ tab +:+ ecnetName +:+ tab +:+ sidecarInjectionEnabled +:+ eol.

Definition namespaceList_run (ecnetName : string) : Cmd W () :=
  r ← selectNamespacesMonitoredByEcnet ecnetName;
  match r with
  | inl err =>
      cmd_fail ("Could not list namespaces related to ecnet [" +:+ ecnetName +:+ "]: "
                +:+ err_Error err)
  | inr items =>
      if negb (nonempty items) then
        if negb (String.eqb ecnetName "") then
          Fprintf ("No namespaces in ecnet [" +:+ ecnetName +:+ "]" +:+ eol)
        else Fprintf ("No namespaces in any ecnet" +:+ eol)
      else
        cmd_output (Table (String.concat ""
          (("NAMESPACE" +:+ tab +:+ "ECNET" +:+ tab +:+ "SIDECAR-INJECTION" +:+ eol)
             :: map namespace_row items)))
  end.

(** [args] holds at most one name, which replaces that of the flag. *)
Definition newNamespaceList (restConfigErr clientsetErr : option string) (ecnetName : string)
  (args : list string) : Cmd W () :=
  let ecnetName := match args with [n] => n | _ => ecnetName end in
  with_clientset restConfigErr clientsetErr (namespaceList_run ecnetName).

End NamespaceCommands.

(** ** Adding namespaces *)

Section Laws.
Context {W : Type} (api : KubeAPI W) `{!KubeLaws api}.

(** A deployment of an ecnet controller, as the commands recognise it. *)
Definition is_controller (d : Deployment) : Prop :=
  dep_Labels d !! AppLabel = Some ECNETControllerName.

(** The namespace a controller runs in; the empty name stands for all. *)
Definition hosts_controller (c : Cluster) (n : string) : Prop :=
  exists d, d ∈ cl_deployments c /\ (n = EmptyString \/ dep_Namespace d = n) /\ is_controller d.

Definition mesh_exists (c : Cluster) (ecnetName : string) : Prop :=
  exists d, d ∈ cl_deployments c /\ dep_Labels d !! "ecnetName" = Some ecnetName.

Definition in_ecnet (ecnetName : string) (ns : KNamespace) : Prop :=
  map_get (kns_Labels ns) ECNETKubeResourceMonitorAnnotation = ecnetName.

Definition ignored (ns : KNamespace) : Prop := kns_Labels ns !! IgnoreLabel = Some trueValue.

(** Everything of a cluster but its namespaces. *)
Definition same_rest (c c' : Cluster) : Prop :=
  cl_deployments c' = cl_deployments c /\ cl_crds c' = cl_crds c /\
  cl_releases c' = cl_releases c.

Lemma selects_set k v m :
  label_text k -> label_text v -> k <> EmptyString ->
  selects (set_String k v) m = bool_decide (m !! k = Some v).
Proof. apply selects_equal. Qed.

Lemma selects_controller m :
  selects (set_String AppLabel ECNETControllerName) m
  = bool_decide (m !! AppLabel = Some ECNETControllerName).
Proof. by apply selects_set; vm_compute. Qed.

Lemma wp_meshExists ecnetName Q (s : CmdState W) :
  label_text ecnetName ->
  (forall b w', cluster w' = cluster (cs_world s) ->
     (b = true <-> mesh_exists (cluster (cs_world s)) ecnetName) ->
     Q (inr b) (mkCmdState w' (cs_out s) (cs_in s))) ->
  (forall e w', cluster w' = cluster (cs_world s) -> Q (inl e) (mkCmdState w' (cs_out s) (cs_in s))) ->
  cmd_wp (meshExists api ecnetName) Q s.
Proof.
  intros Hn H1 H2. unfold meshExists. cmd_step. apply (wp_dep_list api). intros [e|l] w' Hw Hl.
  { cmd_step. by apply H2. }
  cmd_step. apply H1; [done|]. rewrite nonempty_true. unfold mesh_exists.
  assert (forall d, d ∈ l <-> d ∈ cl_deployments (cluster (cs_world s)) /\
            dep_Labels d !! "ecnetName" = Some ecnetName) as Hl'.
  { intros d. rewrite (Hl l eq_refl), selects_set, bool_decide_eq_true by (by vm_compute || done).
    naive_solver. }
  setoid_rewrite <- Hl'. destruct l as [|d l]; [|naive_solver set_solver].
  split; [done|]. by intros (d & []%not_elem_of_nil).
Qed.

(** A namespace that was added: the monitoring label holds the name of the
    ecnet, the injection annotation tells whether injection is on, and every
    other label and annotation, the name and the finalizers are as before. *)
Definition added (a : namespaceAddCmd) (ns ns' : KNamespace) : Prop :=
  kns_Name ns' = kns_Name ns /\ kns_Finalizers ns' = kns_Finalizers ns /\
  kns_Labels ns' = <["flomesh.io/monitored-by" := add_ecnetName a]> (kns_Labels ns) /\
  (add_disableSidecarInjection a = false ->
     kns_Annotations ns' = <["flomesh.io/sidecar-injection" := "enabled"]> (kns_Annotations ns)) /\
  (add_disableSidecarInjection a = true ->
     kns_Annotations ns' = <["flomesh.io/sidecar-injection" := "disabled"]> (kns_Annotations ns)).

Lemma add_patch_adds a ns : added a ns (merge_patch (add_patch a) ns).
Proof. unfold added, add_patch. by destruct (add_disableSidecarInjection a). Qed.

(** What adding may have done to the cluster so far. *)
Definition add_effect (a : namespaceAddCmd) (c c' : Cluster) : Prop :=
  same_rest c c' /\
  forall n, cl_namespaces c' !! n = cl_namespaces c !! n \/
    exists ns, cl_namespaces c !! n = Some ns /\ n ∈ add_namespaces a /\ ~ ignored ns /\
      exists ns', cl_namespaces c' !! n = Some ns' /\ added a ns ns'.

Lemma added_in_ecnet a ns ns' : added a ns ns' -> in_ecnet (add_ecnetName a) ns'.
Proof.
  intros (_ & _ & H & _). unfold in_ecnet, map_get. rewrite H.
  change ECNETKubeResourceMonitorAnnotation with "flomesh.io/monitored-by". by rewrite lookup_insert_eq.
Qed.

Lemma add_patch_in_ecnet a ns : in_ecnet (add_ecnetName a) (merge_patch (add_patch a) ns).
Proof. eapply added_in_ecnet, add_patch_adds. Qed.

Lemma add_effect_patched a n ns c c' c'' :
  add_effect a c c' -> n ∈ add_namespaces a -> cl_namespaces c' !! n = Some ns ->
  ~ in_ecnet (add_ecnetName a) ns -> ~ ignored ns -> patched n (add_patch a) c' c'' ->
  add_effect a c c''.
Proof.
  intros [Hr Hns] Hn Hc' Hin Hig (ns' & Hns' & ->). simplify_eq. split; [done|].
  intros m. simpl. destruct (decide (m = n)) as [->|Hm].
  - rewrite lookup_insert_eq. destruct (Hns n) as [E|(ns0 & _ & _ & _ & ns1 & E & Had)].
    + right. exists ns. split_and!; [congruence|done..|]. eexists. split; [done|]. apply add_patch_adds.
    + exfalso. apply Hin. rewrite Hc' in E. injection E as ->. by eapply added_in_ecnet.
  - rewrite lookup_insert_ne by done. apply Hns.
Qed.

(** A namespace is dealt with: it belongs to the ecnet or hosts a
    controller. *)
Definition add_settled (a : namespaceAddCmd) (c : Cluster) (n : string) : Prop :=
  hosts_controller c n \/
  exists ns, cl_namespaces c !! n = Some ns /\ in_ecnet (add_ecnetName a) ns.

Lemma add_settled_mono a c c' n m :
  add_settled a c m -> patched n (add_patch a) c c' -> add_settled a c' m.
Proof.
  intros [H|(ns & Hns & Hin)] (ns' & Hns' & ->); [by left|]. right. simpl.
  destruct (decide (m = n)) as [->|Hm].
  - rewrite lookup_insert_eq. eexists. split; [done|]. apply add_patch_in_ecnet.
  - rewrite lookup_insert_ne by done. eauto.
Qed.

Lemma add_namespace_ok a n c (s : CmdState W) :
  label_text (add_ecnetName a) -> n ∈ add_namespaces a ->
  add_effect a c (cluster (cs_world s)) ->
  cmd_wp (add_namespace api a n) (fun r s' =>
    add_effect a c (cluster (cs_world s')) /\
    (forall m, add_settled a (cluster (cs_world s)) m -> add_settled a (cluster (cs_world s')) m) /\
    (r = inr tt -> mesh_exists c (add_ecnetName a) /\ add_settled a (cluster (cs_world s')) n)) s.
Proof.
  intros Hname Hn Heff. unfold add_namespace. cmd_step.
  apply wp_meshExists; [done| |]; simpl.
  2:{ intros e w' ->. by split_and!. }
  intros [] w1 Hw1 Hb; simpl; [|cmd_step; by rewrite Hw1].
  assert (mesh_exists c (add_ecnetName a)) as Hmesh.
  { destruct Heff as [(Hd & _) _]. unfold mesh_exists in *. rewrite <- Hd. by apply Hb. }
  cmd_step. apply (wp_dep_list api). simpl. rewrite Hw1. intros r w2 Hw2 Hl.
  destruct (nonempty _) eqn:Ene.
  { unfold Fprintf. cmd_step. rewrite Hw2. split_and!; [done..|]. intros _. split; [done|]. left.
    destruct r as [e|[|d ds]]; [done..|]. destruct (Hl _ eq_refl d) as [H _].
    specialize (H ltac:(set_solver)) as (Hd & Hn' & Hsel). exists d. split_and!; [done..|].
    by rewrite selects_controller, bool_decide_eq_true in Hsel. }
  cmd_step. apply (wp_ns_get api). simpl. rewrite Hw2. intros [e|ns] w3 Hw3 Hget.
  { cmd_step. by rewrite Hw3. }
  destruct (String.eqb _ _) eqn:Ein.
  { unfold Fprintf. cmd_step. rewrite Hw3. split_and!; [done..|]. intros _. split; [done|]. right.
    exists ns. split; [done|]. bool_props. done. }
  case_bool_decide as Hig. { cmd_step. by rewrite Hw3. }
  assert (~ in_ecnet (add_ecnetName a) ns) as Hnin. { bool_props. unfold in_ecnet. congruence. }
  cmd_step. apply (wp_ns_patch api); simpl; rewrite Hw3.
  - intros w4 Hp. unfold Fprintf. cmd_step. split_and!.
    + by eapply add_effect_patched.
    + intros m Hm. by eapply add_settled_mono.
    + intros _. split; [done|]. right. destruct Hp as (ns' & Hns' & ->). simpl.
      rewrite lookup_insert_eq. eexists. split; [done|]. apply add_patch_in_ecnet.
  - intros e w4 [Hw4|Hp]; cmd_step; [by rewrite Hw4; split_and!|]. split_and!; [|intros m Hm|done].
    + by eapply add_effect_patched.
    + by eapply add_settled_mono.
Qed.

(** C33: Adding namespaces to an ecnet whose name is label text changes only
    namespaces it is given that exist and are not ignored, and of these only
    two entries: the monitoring label is set to the name of the ecnet and the
    injection annotation to enabled, or to disabled with the flag; every
    other label and annotation and the rest of the cluster stay, also when
    the command fails half way. When it succeeds the ecnet exists (given any
    namespace), and each of the namespaces belongs to the ecnet or hosts a
    controller. *)
Theorem namespace_add_spec a (s : CmdState W) :
  label_text (add_ecnetName a) ->
  let c := cluster (cs_world s) in
  cmd_wp (namespaceAdd_run api a) (fun r s' =>
    let c' := cluster (cs_world s') in
    add_effect a c c' /\
    (r = inr tt ->
       (add_namespaces a <> [] -> mesh_exists c (add_ecnetName a)) /\
       forall n, n ∈ add_namespaces a -> add_settled a c' n)) s.
Proof.
  intros Hname c. unfold namespaceAdd_run. eapply wp_mono.
  - apply (wp_for _ (fun pre s' => add_effect a c (cluster (cs_world s')) /\
      (pre <> [] -> mesh_exists c (add_ecnetName a)) /\
      forall n, n ∈ pre -> add_settled a (cluster (cs_world s')) n)
      (fun _ s' => add_effect a c (cluster (cs_world s')))).
    + split_and!; [split; [done|by left]|done|by intros n []%not_elem_of_nil].
    + intros pre n post s' Hl (Heff & Hmesh & Hset). eapply wp_mono.
      * apply (add_namespace_ok a n c); [done| |done]. rewrite Hl. set_solver.
      * intros [e|[]] s'' (Heff' & Hmono & Hok); [done|]. specialize (Hok eq_refl) as [? ?].
        split_and!; [done..|]. intros m. rewrite elem_of_app, list_elem_of_singleton.
        intros [Hm| ->]; eauto.
  - intros [e|[]] s'; [by intros|]. by intros (? & ? & ?).
Qed.

(** Removing a namespace from an ecnet touches nothing unless the namespace
    is labelled with that very ecnet; then exactly the labels and
    annotations of ecnet go. When it succeeds the namespace belongs to no
    ecnet. *)
Theorem namespace_remove_spec r (s : CmdState W) :
  let c := cluster (cs_world s) in
  cmd_wp (namespaceRemove_run api r) (fun res s' =>
    let c' := cluster (cs_world s') in
    (c' = c \/ exists ns, cl_namespaces c !! rm_namespace r = Some ns /\
       kns_Labels ns !! ECNETKubeResourceMonitorAnnotation = Some (rm_ecnetName r) /\
       c' = set_namespaces (<[rm_namespace r := mkKNamespace (kns_Name ns)
              (delete IgnoreLabel (delete ECNETKubeResourceMonitorAnnotation (kns_Labels ns)))
              (delete MetricsAnnotation (delete SidecarInjectionAnnotation (kns_Annotations ns)))
              (kns_Finalizers ns)]> (cl_namespaces c)) c) /\
    (res = inr tt -> exists ns', cl_namespaces c' !! rm_namespace r = Some ns' /\
       kns_Labels ns' !! ECNETKubeResourceMonitorAnnotation = None)) s.
Proof.
  intros c. unfold namespaceRemove_run. cmd_step. apply (wp_ns_get api).
  intros [e|ns] w1 Hw1 Hget. { cmd_step. split; [by left|done]. }
  destruct (kns_Labels ns !! _) as [v|] eqn:El.
  2:{ unfold Fprintf. cmd_step. rewrite Hw1. split; [by left|]. eauto. }
  destruct (String.eqb v (rm_ecnetName r)) eqn:Ev; bool_props.
  2:{ cmd_step. split; [by left|done]. }
  subst v. cmd_step. apply (wp_ns_patch api); simpl; rewrite Hw1.
  - intros w2 (ns' & Hns' & Hw2). unfold Fprintf. cmd_step. rewrite Hw2. simplify_eq.
    split; [right; by exists ns|]. intros _. simpl. rewrite lookup_insert_eq.
    eexists. split; [done|]. unfold merge_patch, merge_keys, merge_key. simpl.
    rewrite lookup_delete_ne by done. apply lookup_delete_eq.
  - intros e w2 Hw2. cmd_step. split; [|done].
    destruct Hw2 as [->|(ns' & Hns' & ->)]; [by left|right]. simplify_eq. by exists ns.
Qed.

(** What ignoring may have done to the cluster so far. *)
Definition set_ignored (ns : KNamespace) : KNamespace :=
  mkKNamespace (kns_Name ns) (<[IgnoreLabel := trueValue]> (kns_Labels ns))
    (kns_Annotations ns) (kns_Finalizers ns).

Definition ignore_effect (args : list string) (c c' : Cluster) : Prop :=
  same_rest c c' /\
  forall n, cl_namespaces c' !! n = cl_namespaces c !! n \/
    exists ns, cl_namespaces c !! n = Some ns /\ n ∈ map TrimSpace args /\
      cl_namespaces c' !! n = Some (set_ignored ns).

Lemma set_ignored_idemp ns : set_ignored (set_ignored ns) = set_ignored ns.
Proof. unfold set_ignored. simpl. by rewrite insert_insert_eq. Qed.

Lemma ignore_effect_patched args n c c' c'' :
  ignore_effect args c c' -> n ∈ map TrimSpace args -> patched n ignore_patch c' c'' ->
  ignore_effect args c c''.
Proof.
  intros [Hr Hns] Hn (ns & Hc & ->). split; [done|]. intros m. simpl.
  destruct (decide (m = n)) as [->|Hm]; [|by rewrite lookup_insert_ne].
  right. rewrite lookup_insert_eq. change (merge_patch ignore_patch ns) with (set_ignored ns).
  destruct (Hns n) as [E|(ns0 & Hns0 & _ & E)].
  - exists ns. by rewrite <- E.
  - exists ns0. split_and!; [done..|]. rewrite E in Hc. injection Hc as <-.
    by rewrite set_ignored_idemp.
Qed.

Lemma ignored_patched n m c c' ns :
  patched n ignore_patch c c' -> cl_namespaces c !! m = Some ns -> ignored ns \/ m = n ->
  exists ns', cl_namespaces c' !! m = Some ns' /\ ignored ns'.
Proof.
  intros (ns0 & Hc & ->) Hm Hig. simpl. destruct (decide (m = n)) as [->|Hne].
  - rewrite lookup_insert_eq. eexists. split; [done|]. apply lookup_insert_eq.
  - rewrite lookup_insert_ne by done. exists ns. naive_solver.
Qed.

(** Ignoring succeeds only when every namespace exists, and then every one
    of them carries the ignore label; nothing else changes. *)
Theorem namespace_ignore_spec args (s : CmdState W) :
  let c := cluster (cs_world s) in
  cmd_wp (namespaceIgnore_run api args) (fun res s' =>
    let c' := cluster (cs_world s') in
    ignore_effect args c c' /\
    (res = inr tt -> forall n, n ∈ map TrimSpace args ->
       exists ns', cl_namespaces c' !! n = Some ns' /\ ignored ns')) s.
Proof.
  intros c. unfold namespaceIgnore_run. eapply wp_mono.
  - apply (wp_for _ (fun pre s' => ignore_effect args c (cluster (cs_world s')) /\
      forall n, n ∈ map TrimSpace pre ->
        exists ns', cl_namespaces (cluster (cs_world s')) !! n = Some ns' /\ ignored ns')
      (fun _ s' => ignore_effect args c (cluster (cs_world s')))).
    + split; [split; [done|by left]|by intros n []%not_elem_of_nil].
    + intros pre a post s' Hl [Heff Hig]. unfold ignore_namespace. cmd_step.
      apply (wp_ns_get api). intros [e|ns] w1 Hw1 Hget; [by cmd_step; rewrite Hw1|].
      assert (TrimSpace a ∈ map TrimSpace args) as Ha.
      { rewrite Hl, map_app. set_solver. }
      cmd_step. apply (wp_ns_patch api); simpl; rewrite Hw1.
      * intros w2 Hp. unfold Fprintf. cmd_step. split; [by eapply ignore_effect_patched|].
        intros n. rewrite map_app, elem_of_app. simpl. rewrite list_elem_of_singleton.
        intros [(ns' & Hns' & Hi)%Hig| ->]; eapply ignored_patched; eauto.
      * intros e w2 [Hw2|Hp]; cmd_step; [by rewrite Hw2|by eapply ignore_effect_patched].
  - intros [e|[]] s'; [by intros|]. by intros [? ?].
Qed.

End Laws.

(** ** Adding and removing again *)

Section Reliable.
Context {W : Type} (api : KubeAPI W) `{!KubeLaws api, !ReliableAPI api}.

Lemma wp_rel_meshExists ecnetName Q (s : CmdState W) :
  label_text ecnetName -> mesh_exists (cluster (cs_world s)) ecnetName ->
  (forall w', cluster w' = cluster (cs_world s) ->
     Q (inr true) (mkCmdState w' (cs_out s) (cs_in s))) ->
  cmd_wp (meshExists api ecnetName) Q s.
Proof.
  intros Hn (d & Hd & Hl) H. unfold meshExists. cmd_step. apply (wp_rel_dep_list api).
  intros l w' Hw Hin. cmd_step. assert (nonempty l = true) as ->; [|by apply H].
  apply nonempty_true. intros ->. apply (not_elem_of_nil d), Hin. split_and!; [done|by left|].
  rewrite selects_set by (by vm_compute || done). by apply bool_decide_eq_true.
Qed.

(** A namespace untouched by ecnet. *)
Definition fresh (ns : KNamespace) : Prop :=
  kns_Labels ns !! ECNETKubeResourceMonitorAnnotation = None /\
  kns_Labels ns !! IgnoreLabel = None /\
  kns_Annotations ns !! SidecarInjectionAnnotation = None /\
  kns_Annotations ns !! MetricsAnnotation = None.

Lemma remove_add_patch a ns :
  fresh ns -> merge_patch remove_patch (merge_patch (add_patch a) ns) = ns.
Proof.
  intros (H1 & H2 & H3 & H4). destruct ns as [n ls ans fin].
  unfold merge_patch, merge_keys, merge_key. simpl in *. f_equal.
  - rewrite delete_insert_id, delete_id by done. done.
  - rewrite delete_insert_id, delete_id by done. done.
Qed.

(** After a run that adds one namespace, it is patched or as before. *)
Lemma add_one a n ns (s : CmdState W) :
  label_text (add_ecnetName a) -> mesh_exists (cluster (cs_world s)) (add_ecnetName a) ->
  cl_namespaces (cluster (cs_world s)) !! n = Some ns -> fresh ns ->
  cmd_wp (add_namespace api a n) (fun r s' => r = inr tt /\
    (cluster (cs_world s') = cluster (cs_world s) \/
     (add_ecnetName a <> EmptyString /\
      cluster (cs_world s') = set_namespaces
       (<[n := merge_patch (add_patch a) ns]> (cl_namespaces (cluster (cs_world s))))
       (cluster (cs_world s))))) s.
Proof.
  intros Hname Hmesh Hns (Hm & Hi & _). unfold add_namespace. cmd_step.
  apply wp_rel_meshExists; [done..|]. intros w1 Hw1. simpl. cmd_step.
  apply (wp_rel_dep_list api). intros l w2 Hw2 _. simpl in *.
  destruct (nonempty l). { unfold Fprintf. cmd_step. split; [done|]. left. congruence. }
  cmd_step. apply (wp_rel_get api _ ns); simpl; [congruence|]. intros w3 Hw3.
  unfold map_get. rewrite Hm. simpl. destruct (String.eqb _ _) eqn:E.
  { unfold Fprintf. cmd_step. split; [done|]. left. congruence. }
  rewrite bool_decide_eq_false_2 by (rewrite Hi; done).
  cmd_step. apply (wp_rel_patch api _ _ ns); simpl; [congruence|]. intros w4 Hw4.
  unfold Fprintf. cmd_step. split; [done|]. right. bool_props. split; [done|]. congruence.
Qed.

(** C34: Adding a namespace that ecnet has not touched to an existing ecnet and
    removing it again succeeds and leaves the cluster as it was. *)
Theorem namespace_add_remove ecnetName disable n ns (s : CmdState W) :
  label_text ecnetName ->
  mesh_exists (cluster (cs_world s)) ecnetName ->
  cl_namespaces (cluster (cs_world s)) !! n = Some ns -> fresh ns ->
  cmd_wp (namespaceAdd_run api (mkNamespaceAddCmd [n] ecnetName disable) ≫= fun _ =>
          namespaceRemove_run api (mkNamespaceRemoveCmd n ecnetName))
    (fun r s' => r = inr tt /\ cluster (cs_world s') = cluster (cs_world s)) s.
Proof.
  intros Hname Hmesh Hns Hf. set (a := mkNamespaceAddCmd [n] ecnetName disable).
  cmd_step. unfold namespaceAdd_run. simpl. cmd_step.
  eapply wp_mono; [by apply (add_one a n ns)|]. intros r s' [-> Hs']. apply wp_ret.
  unfold namespaceRemove_run. cmd_step. destruct Hs' as [Hs'|[Hne Hs']].
  - apply (wp_rel_get api _ ns); [by rewrite Hs'|]. intros w1 Hw1. destruct Hf as [-> _].
    unfold Fprintf. cmd_step. split; [done|]. congruence.
  - apply (wp_rel_get api _ (merge_patch (add_patch a) ns)).
    { rewrite Hs'. apply lookup_insert_eq. }
    intros w1 Hw1. unfold add_patch, merge_patch, merge_keys, merge_key. simpl.
    rewrite lookup_insert_eq, String.eqb_refl.
    cmd_step. apply (wp_rel_patch api _ _ (merge_patch (add_patch a) ns)); simpl.
    { rewrite Hw1, Hs'. apply lookup_insert_eq. }
    intros w2 Hw2. unfold Fprintf. cmd_step. split; [done|].
    rewrite Hw2, Hw1, Hs', (remove_add_patch a) by done. unfold set_namespaces. simpl.
    rewrite insert_insert_eq, insert_id by done. by destruct (cluster (cs_world s)).
Qed.

End Reliable.

(** ** Witnesses: a cluster with one ecnet and a namespace outside it *)

Definition example_namespace : KNamespace :=
  mkKNamespace "apps" {[ "team" := "blue" ]} ∅ [].

Definition example_cluster : Cluster :=
  mkCluster {[ "apps" := example_namespace ]}
    [mkDeployment "ecnet-system" "ecnet-controller"
       {[ AppLabel := ECNETControllerName; "ecnetName" := "ecnet" ]}]
    {["ecnetconfigs.config.flomesh.io"]} {[("ecnet-system", "ecnet")]}.

Definition example_state (input : list string) : CmdState Cluster :=
  mkCmdState example_cluster [] input.

Definition example_add : namespaceAddCmd := mkNamespaceAddCmd ["apps"] "ecnet" false.

Definition example_added : KNamespace :=
  mkKNamespace "apps"
    {[ "team" := "blue"; ECNETKubeResourceMonitorAnnotation := "ecnet" ]}
    {[ SidecarInjectionAnnotation := "enabled" ]} [].

Example example_add_runs :
  (namespaceAdd_run mem_api example_add (example_state [])).1 = inr tt /\
  cl_namespaces (cs_world (namespaceAdd_run mem_api example_add (example_state [])).2) !! "apps"
    = Some example_added.
Proof. by vm_compute. Qed.

Lemma example_mesh_exists : mesh_exists example_cluster "ecnet".
Proof. eexists. split; [by left|done]. Qed.

Lemma namespace_add_spec_witness :
  label_text (add_ecnetName example_add) /\
  cmd_wp (namespaceAdd_run mem_api example_add) (fun r s' =>
    add_effect example_add example_cluster (cs_world s') /\
    (r = inr tt ->
       (add_namespaces example_add <> [] -> mesh_exists example_cluster "ecnet") /\
       forall n, n ∈ add_namespaces example_add -> add_settled example_add (cs_world s') n))
    (example_state []).
Proof.
  split; [by vm_compute|].
  exact (namespace_add_spec mem_api example_add (example_state []) ltac:(by vm_compute)).
Defined.

Lemma namespace_remove_spec_witness :
  cmd_wp (namespaceRemove_run mem_api (mkNamespaceRemoveCmd "apps" "ecnet")) (fun res s' =>
    res = inr tt -> exists ns', cl_namespaces (cs_world s') !! "apps" = Some ns' /\
       kns_Labels ns' !! ECNETKubeResourceMonitorAnnotation = None) (example_state []).
Proof.
  exact (proj2 (namespace_remove_spec mem_api (mkNamespaceRemoveCmd "apps" "ecnet")
                  (example_state []))).
Defined.

Lemma namespace_ignore_spec_witness :
  cmd_wp (namespaceIgnore_run mem_api [" apps"]) (fun res s' =>
    res = inr tt -> forall n, n ∈ map TrimSpace [" apps"] ->
       exists ns', cl_namespaces (cs_world s') !! n = Some ns' /\ ignored ns') (example_state []).
Proof. exact (proj2 (namespace_ignore_spec mem_api [" apps"] (example_state []))). Defined.

Lemma namespace_add_remove_witness :
  cmd_wp (namespaceAdd_run mem_api example_add ≫= fun _ =>
          namespaceRemove_run mem_api (mkNamespaceRemoveCmd "apps" "ecnet"))
    (fun r s' => r = inr tt /\ cs_world s' = example_cluster) (example_state []).
Proof.
  exact (namespace_add_remove mem_api "ecnet" false "apps" example_namespace (example_state [])
           ltac:(by vm_compute) example_mesh_exists eq_refl ltac:(by vm_compute)).
Defined.
