(* ===== verification/CliEcnet.v ===== *)
(** * The [list] and [uninstall] commands ([cmd/ecnet/cli/ecnet_list.go],
    [uninstall_ecnet.go], [util.go] and [pkg/ecnet/cli/environment.go])

    Finding the control planes of a cluster, prompting for confirmation
    and uninstalling releases, namespaces and cluster-wide resources. *)

From Stdlib Require Import Ascii String.
From S2P Require Import Prelude GoStrings GoIO Constants ApiTypes KubeAPI CliNamespace.

(** ** [environment.go] *)

Definition installKindManaged : string := "managed".
Definition installKindSelfHosted : string := "self-hosted".
Definition defaultECNETNamespace : string := "ecnet-system".

Record EnvConfigInstall := mkEnvConfigInstall {
  install_Kind : string;
  install_Distribution : string;
  install_Namespace : string
}.

Record EnvConfig := mkEnvConfig { env_Install : EnvConfigInstall }.

Record EnvSettings := mkEnvSettings { set_envConfig : EnvConfig; set_verbose : bool }.

Definition Config (s : EnvSettings) : EnvConfig := set_envConfig s.
Definition Namespace (s : EnvSettings) : string := install_Namespace (env_Install (set_envConfig s)).
Definition Verbose (s : EnvSettings) : bool := set_verbose s.
Definition IsManaged (s : EnvSettings) : bool :=
  String.eqb (install_Kind (env_Install (set_envConfig s))) installKindManaged.

(** The environment and the file system: the variable [ECNET_CONFIG], the
    home directory or the error of finding it, and for a path whether it
    exists and what opening and decoding it yields. *)
Record HostEnv := mkHostEnv {
  host_config : option string;
  host_home : string + string;
  host_exists : string -> bool;
  host_open : string -> option string;
  host_decode : string -> string + EnvConfig
}.

Definition defaultEnvConfig : EnvConfig :=
  mkEnvConfig (mkEnvConfigInstall installKindSelfHosted "" defaultECNETNamespace).

Definition envFromConfig (h : HostEnv) : string + EnvConfig :=
  let load (configFile : string) :=
    if negb (host_exists h configFile) then inr defaultEnvConfig
    else match host_open h configFile with
         | Some err => inl err
         | None => host_decode h configFile
         end in
  match host_config h with
  | Some configFile => load configFile
  | None =>
      match host_home h with
      | inl err => inl err
      | inr homeDir => load (homeDir +:+ "/.ecnet/config.yaml")
      end
  end.

(** [New]: an error ends the process ([inl]). *)
Definition New (h : HostEnv) : string + EnvSettings :=
  match envFromConfig h with
  | inl err => inl ("Error parsing environment configuration: " +:+ err +:+ eol)
  | inr c => inr (mkEnvSettings c false)
  end.

(** ** The control planes of a cluster ([ecnet_list.go], [util.go]) *)

Record ecnetInfo := mkEcnetInfo {
  info_name : string;
  info_namespace : string;
  info_version : string;
  info_monitoredNamespaces : list string
}.

Record ecnetService := mkEcnetService { svc_name : string; svc_namespace : string }.

Definition getPrettyPrintedEcnetInfoList (l : list ecnetInfo) : string :=
  foldl (fun s netInfo =>
           s +:+ info_name netInfo +:+ tab +:+ info_namespace netInfo +:+ tab
             +:+ info_version netInfo +:+ tab +:+ Join (info_monitoredNamespaces netInfo) ","
             +:+ eol)
    (eol +:+ "ECNET NAME" +:+ tab +:+ "ECNET NAMESPACE" +:+ tab +:+ "VERSION" +:+ tab
       +:+ "ADDED NAMESPACES" +:+ eol) l.

Definition getPrettyPrintedCniInfoList (l : list ecnetService) : string :=
  foldl (fun s cni => s +:+ svc_name cni +:+ tab +:+ svc_namespace cni +:+ eol)
    (eol +:+ "ECNET NAME" +:+ tab +:+ "ECNET NAMESPACE" +:+ eol) l.

Definition getSupportedInfoForEcnetList (l : list ecnetInfo) : list ecnetService :=
  map (fun e => mkEcnetService (info_name e) (info_namespace e)) l.

(** [%+v] of a slice of strings. *)
Definition fmt_slice (l : list string) : string := "[" +:+ Join l " " +:+ "]".

Section EcnetCommands.
Context {W : Type} (api : KubeAPI W).

Definition getControllerDeployments : Cmd W (ApiError + list Deployment) :=
  cmd_call (Deployments_List api "" (set_String AppLabel ECNETControllerName)).

(** The body of the loop over the deployments. *)
Definition ecnet_info (d : Deployment) : Cmd W ecnetInfo :=
  let ecnetName := map_get (dep_Labels d) "ecnetName" in
  let ecnetVersion := map_get (dep_Labels d) ECNETAppVersionLabelKey in
  let ecnetVersion := if String.eqb ecnetVersion "" then "Unknown" else ecnetVersion in
  nsList ← selectNamespacesMonitoredByEcnet api ecnetName;
  mret (mkEcnetInfo ecnetName (dep_Namespace d) ecnetVersion
          match nsList with inr items => map kns_Name items | inl _ => [] end).

Fixpoint ecnet_infos (ds : list Deployment) (ecnetInfoList : list ecnetInfo)
  : Cmd W (list ecnetInfo) :=
  match ds with
  | [] => mret ecnetInfoList
  | d :: ds' => i ← ecnet_info d; ecnet_infos ds' (ecnetInfoList ++ [i])
  end.

Definition getEcnetInfoList : Cmd W (list ecnetInfo) :=
  r ← getControllerDeployments;
  match r with
  | inl err => cmd_fail ("Could not list deployments " +:+ err_Error err)
  | inr ds => if negb (nonempty ds) then mret [] else ecnet_infos ds []
  end.

Definition ecnetList_run : Cmd W () :=
  r ← cmd_try getEcnetInfoList;
  match r with
  | inl err =>
      Fprintf ("Unable to list ecnets within the cluster." +:+ eol) ≫= fun _ => cmd_fail err
  | inr ecnetInfoList =>
      if negb (nonempty ecnetInfoList) then Fprintf ("No ecnet control planes found" +:+ eol)
      else
        cmd_output (Table (getPrettyPrintedEcnetInfoList ecnetInfoList)) ≫= fun _ =>
        cmd_output (Table (getPrettyPrintedCniInfoList
                             (getSupportedInfoForEcnetList ecnetInfoList))) ≫= fun _ =>
        Fprintf (eol +:+ "To list the ECNET ctrlplane pods, please run the following command passing in the ecnet's namespace" +:+ eol) ≫= fun _ =>
        Fprintf (tab +:+ "kubectl get pods -n <ecnet-ecnet-namespace> -l app=ecnet-bridge" +:+ eol)
  end.

(** ** [confirm]

    Every prompt wraps standard input in a new buffered reader. *)

Definition read_line (buf : string) : Cmd W (string * string) :=
  fun s => match ReadString buf (cs_in s) with
           | Some (l, buf', reads) => (inr (l, buf'), mkCmdState (cs_world s) (cs_out s) reads)
           | None => (inl "EOF", mkCmdState (cs_world s) (cs_out s) [])
           end.

Fixpoint confirm_loop (prompt : string) (tries : nat) (buf : string) : Cmd W bool :=
  match tries with
  | O => mret false
  | S tries' =>
      Fprintf (prompt +:+ " [y/n]: ") ≫= fun _ =>
      r ← read_line buf;
      let '(res, buf') := r in
      if Nat.ltb (String.length res) 2 then confirm_loop prompt tries' buf'
      else
        let answer := ToLower (TrimSpace res) in
        if String.eqb answer "y" then mret true
        else if String.eqb answer "n" then mret false
        else Fprintf ("Invalid input." +:+ eol) ≫= fun _ => confirm_loop prompt tries' buf'
  end.

Definition confirm (prompt : string) (tries : Z) : Cmd W bool :=
  confirm_loop prompt (Z.to_nat tries) "".

(** ** [uninstall_ecnet.go] *)

Record uninstallCniCmd := mkUninstallCniCmd {
  un_ecnetName : string;
  un_ecnetNamespace : string;
  un_force : bool;
  un_deleteNamespace : bool;
  un_deleteClusterWideResources : bool
}.

Definition ecnetSpecified (d : uninstallCniCmd) : bool := negb (String.eqb (un_ecnetName d) "").

Definition findEcnet (d : uninstallCniCmd) (l : list ecnetInfo) : bool :=
  existsb (fun e => String.eqb (info_name e) (un_ecnetName d)) l.

Definition printEcnets : Cmd W () :=
  Fprintf ("List of ecnets present in the cluster:" +:+ eol) ≫= fun _ => ecnetList_run.

Definition findSpecifiedEcnet (d : uninstallCniCmd) (l : list ecnetInfo) : Cmd W bool :=
  if findEcnet d l then mret true
  else
    Fprintf ("Did not find ecnet [" +:+ un_ecnetName d +:+ "] in namespace ["
             +:+ un_ecnetNamespace d +:+ "]" +:+ eol) ≫= fun _ =>
    r ← cmd_try printEcnets;
    match r with
    | inl err => Fprintf ("Unable to list ecnets in the cluster - [" +:+ err +:+ "]")
    | inr _ => mret tt
    end ≫= fun _ => mret false.

Fixpoint promptEcnetUninstall (d : uninstallCniCmd) (l ecnetsToUninstall : list ecnetInfo)
  : Cmd W (list ecnetInfo) :=
  match l with
  | [] => mret ecnetsToUninstall
  | ecni :: l' =>
      if ecnetSpecified d && negb (String.eqb (info_name ecni) (un_ecnetName d))
      then promptEcnetUninstall d l' ecnetsToUninstall
      else
        yes ← confirm (eol +:+ "Uninstall ECNET [ecnet name: " +:+ info_name ecni
                       +:+ "] in namespace [" +:+ info_namespace ecni
                       +:+ "] and/or ECNET resources?") 3;
        promptEcnetUninstall d l' (if yes : bool then ecnetsToUninstall ++ [ecni]
                                   else ecnetsToUninstall)
  end.

Definition deleteNs (d : uninstallCniCmd) (ns : string) : Cmd W () :=
  if negb (un_deleteNamespace d) then mret tt
  else
    r ← cmd_call (Namespaces_Delete api ns);
    match r with
    | inl err =>
        if IsNotFound err then Fprintf ("ECNET namespace [" +:+ ns +:+ "] not found" +:+ eol)
        else cmd_fail ("Could not delete ECNET namespace [" +:+ ns +:+ "] - " +:+ err_Error err)
    | inr _ => Fprintf ("ECNET namespace [" +:+ ns +:+ "] deleted successfully" +:+ eol)
    end.

(** The shape both deletion loops share: delete each name, ignore those
    that are not found, collect the failures. *)
Fixpoint delete_each (del : string -> W -> (ApiError + unit) * W)
  (ok missing : string -> string) (failed : string -> string -> string)
  (l failedDeletions : list string) : Cmd W (list string) :=
  match l with
  | [] => mret failedDeletions
  | x :: l' =>
      r ← cmd_call (del x);
      match r with
      | inr _ => Fprintf (ok x) ≫= fun _ => delete_each del ok missing failed l' failedDeletions
      | inl err =>
          if IsNotFound err then
            Fprintf (missing x) ≫= fun _ => delete_each del ok missing failed l' failedDeletions
          else
            Fprintf (failed x (err_Error err)) ≫= fun _ =>
            delete_each del ok missing failed l' (failedDeletions ++ [x])
      end
  end.

Definition uninstallCustomResourceDefinitions : Cmd W () :=
  failed ← delete_each (CRDs_Delete api)
    (fun crd => "Successfully deleted ECNET CRD: " +:+ crd +:+ eol)
    (fun crd => "Ignoring - did not find ECNET CRD: " +:+ crd +:+ eol)
    (fun crd err => "Failed to delete ECNET CRD " +:+ crd +:+ ": " +:+ err +:+ eol)
    ["ecnetconfigs.config.flomesh.io"] [];
  if nonempty failed
  then cmd_fail ("Failed to delete the following ECNET CRDs: " +:+ fmt_slice failed)
  else mret tt.

Definition uninstallSecrets (d : uninstallCniCmd) : Cmd W () :=
  let ns := un_ecnetNamespace d in
  failed ← delete_each (Secrets_Delete api ns)
    (fun secret => "Successfully deleted ECNET secret " +:+ secret +:+ " in namespace " +:+ ns
                   +:+ eol)
    (fun secret => "Ignoring - did not find ECNET secret " +:+ secret +:+ " in namespace " +:+ ns
                   +:+ ". Use --ecnet-namespace to delete a specific ecnet namespace's secret if desired" +:+ eol)
    (fun secret err => "Found but failed to delete the ECNET secret " +:+ secret
                       +:+ " in namespace " +:+ ns +:+ ": " +:+ err +:+ eol)
    [] [];
  if nonempty failed
  then cmd_fail ("Found but failed to delete the following ECNET secrets in namespace " +:+ ns
                 +:+ ": " +:+ fmt_slice failed)
  else mret tt.

Definition uninstallClusterResources (d : uninstallCniCmd) : Cmd W (list string) :=
  crds ← cmd_try uninstallCustomResourceDefinitions;
  let failedDeletions := match crds with inl _ => ["CustomResourceDefinitions"] | inr _ => [] end in
  secrets ← cmd_try (uninstallSecrets d);
  mret match secrets with
       | inl _ => failedDeletions ++ ["Secrets"]
       | inr _ => failedDeletions
       end.

(** An error of listing the control planes, as both callers report it. *)
Definition listed_ecnets : Cmd W (list ecnetInfo) :=
  r ← cmd_try getEcnetInfoList;
  match r with
  | inl err => cmd_fail ("unable to list ecnets within the cluster: " +:+ err)
  | inr l => mret l
  end.

Definition deleteClusterResources (d : uninstallCniCmd) : Cmd W () :=
  if un_deleteClusterWideResources d then
    ecnetInfoList ← listed_ecnets;
    (if nonempty ecnetInfoList then
       Fprintf ("Deleting cluster resources will affect current ecnet(s) in cluster:" +:+ eol)
       ≫= fun _ =>
       cmd_for (fun m => Fprintf ("[" +:+ info_name m +:+ "] ecnet in namespace ["
                                  +:+ info_namespace m +:+ "]" +:+ eol)) ecnetInfoList
     else mret tt) ≫= fun _ =>
    failedDeletions ← uninstallClusterResources d;
    if nonempty failedDeletions
    then cmd_fail ("Failed to completely delete the following ECNET resource types: "
                   +:+ fmt_slice failedDeletions)
    else mret tt
  else mret tt.

(** The body of the loop over the ecnets to uninstall. *)
Definition uninstall_one (d : uninstallCniCmd) (m : ecnetInfo) : Cmd W () :=
  i ← cmd_call (Helm_Init api (info_namespace m));
  match i with
  | inl err => cmd_fail (err_Error err)
  | inr _ =>
      r ← cmd_call (Helm_Uninstall api (info_namespace m) (info_name m));
      match r with
      | inl err =>
          (if IsReleaseNotFound err then
             Fprintf ("No ECNET control plane with ecnet name [" +:+ info_name m
                      +:+ "] found in namespace [" +:+ info_namespace m +:+ "]" +:+ eol)
           else mret tt) ≫= fun _ =>
          if negb (un_deleteClusterWideResources d) && negb (un_deleteNamespace d)
          then cmd_fail (err_Error err)
          else Fprintf ("Could not uninstall ecnet name [" +:+ info_name m +:+ "] in namespace ["
                        +:+ info_namespace m +:+ "]- " +:+ err_Error err
                        +:+ " - continuing to deleteClusterWideResources and/or deleteNamespace"
                        +:+ eol)
      | inr _ =>
          Fprintf ("ECNET [ecnet name: " +:+ info_name m +:+ "] in namespace ["
                   +:+ info_namespace m +:+ "] uninstalled" +:+ eol)
      end ≫= fun _ => deleteNs d (info_namespace m)
  end.

(** The command after a forced choice: with a single ecnet in the cluster
    it names that one. *)
Definition forced (d : uninstallCniCmd) (l : list ecnetInfo) : uninstallCniCmd :=
  match l with
  | [e] => mkUninstallCniCmd (info_name e) (info_namespace e) (un_force d)
             (un_deleteNamespace d) (un_deleteClusterWideResources d)
  | _ => d
  end.

Definition choose_ecnets (d : uninstallCniCmd) (l : list ecnetInfo)
  : Cmd W (uninstallCniCmd * list ecnetInfo) :=
  if un_force d then
    let d' := forced d l in
    mret (d', [mkEcnetInfo (un_ecnetName d') (un_ecnetNamespace d') "" []])
  else
    printEcnets ≫= fun _ =>
    sel ← promptEcnetUninstall d l [];
    mret (d, sel).

Definition uninstall_run (settings : EnvSettings) (d : uninstallCniCmd) : Cmd W () :=
  if negb (IsManaged settings) then
    ecnetInfoList ← listed_ecnets;
    if negb (nonempty ecnetInfoList) then Fprintf ("No ECNET control planes found" +:+ eol)
    else
    found ← (if ecnetSpecified d then findSpecifiedEcnet d ecnetInfoList else mret true);
    if negb found then mret tt
    else
    c ← choose_ecnets d ecnetInfoList;
    let '(d', cniesToUninstall) := c in
    cmd_for (uninstall_one d') cniesToUninstall ≫= fun _ =>
    deleteClusterResources d'
  else
    Fprintf ("ECNET CANNOT be uninstalled in a managed environment" +:+ eol) ≫= fun _ =>
    (if un_deleteNamespace d
     then Fprintf ("ECNET namespace CANNOT be deleted in a managed environment" +:+ eol)
     else mret tt) ≫= fun _ =>
    deleteClusterResources d.

(** The [RunE] of the command: three clients are built. *)
Definition newUninstallEcnet (settings : EnvSettings)
  (restConfigErr clientsetErr extensionsErr : option string)
  (ecnetName : string) (force deleteNamespace deleteClusterWideResources : bool) : Cmd W () :=
  with_clientset restConfigErr clientsetErr
    match extensionsErr with
    | Some e => cmd_fail ("Could not access extension client set: " +:+ e)
    | None =>
        uninstall_run settings
          (mkUninstallCniCmd ecnetName (Namespace settings) force deleteNamespace
             deleteClusterWideResources)
    end.

End EcnetCommands.

(** ** Prompts *)

(** Commands that leave the input alone. *)
Section NoInput.
Context {W : Type}.

Definition no_input {A} (m : Cmd W A) : Prop := forall s, cs_in (m s).2 = cs_in s.

Lemma no_input_ret {A} (a : A) : no_input (mret a).
Proof. done. Qed.

Lemma no_input_fail {A} e : no_input (cmd_fail (A:=A) e).
Proof. done. Qed.

Lemma no_input_output o : no_input (cmd_output o).
Proof. done. Qed.

Lemma no_input_call {A} (f : W -> (ApiError + A) * W) : no_input (cmd_call f).
Proof. intros s. unfold cmd_call. by destruct (f (cs_world s)). Qed.

Lemma no_input_try {A} (m : Cmd W A) : no_input m -> no_input (cmd_try m).
Proof. intros H s. specialize (H s). unfold cmd_try. by destruct (m s). Qed.

Lemma no_input_bind {A B} (m : Cmd W A) (f : A -> Cmd W B) :
  no_input m -> (forall a, no_input (f a)) -> no_input (m ≫= f).
Proof.
  intros Hm Hf s. specialize (Hm s). unfold mbind, Cmd_bind. destruct (m s) as [[e|a] s']; [done|].
  rewrite (Hf a s'). done.
Qed.

Context (api : KubeAPI W).

(** Whatever does not prompt. *)
Ltac no_input :=
  repeat first
    [ apply no_input_ret | apply no_input_fail | apply no_input_output | apply no_input_call
    | apply no_input_try | apply no_input_bind; [|intros ?] | progress unfold Fprintf | case_match ].

Lemma ecnet_infos_no_input ds acc : no_input (ecnet_infos api ds acc).
Proof.
  revert acc. induction ds as [|d ds IH]; intros acc; simpl; [no_input|].
  unfold ecnet_info, selectNamespacesMonitoredByEcnet. no_input. apply IH.
Qed.

Lemma getEcnetInfoList_no_input : no_input (getEcnetInfoList api).
Proof. unfold getEcnetInfoList, getControllerDeployments. no_input. apply ecnet_infos_no_input. Qed.

#[local] Opaque getEcnetInfoList.

Lemma listed_ecnets_no_input : no_input (listed_ecnets api).
Proof. unfold listed_ecnets. no_input; apply getEcnetInfoList_no_input. Qed.

Lemma printEcnets_no_input : no_input (printEcnets api).
Proof. unfold printEcnets, ecnetList_run. no_input; apply getEcnetInfoList_no_input. Qed.

#[local] Opaque printEcnets.

Lemma findSpecifiedEcnet_no_input d l : no_input (findSpecifiedEcnet api d l).
Proof. unfold findSpecifiedEcnet. no_input; apply printEcnets_no_input. Qed.

#[local] Transparent getEcnetInfoList printEcnets.

End NoInput.

Section Prompts.
Context {W : Type}.

(** What an answer typed at a terminal means: at most [tries] lines are
    read; empty lines and other answers count as a try. [None] is the end
    of the input. *)
Fixpoint ask (tries : nat) (lines : list string) : option (bool * list string) :=
  match tries with
  | O => Some (false, lines)
  | S tries' =>
      match lines with
      | [] => None
      | l :: lines' =>
          if String.eqb (ToLower (TrimSpace l)) "y" then Some (true, lines')
          else if String.eqb (ToLower (TrimSpace l)) "n" then Some (false, lines')
          else ask tries' lines'
      end
  end.

(** The control planes that were confirmed: one [ask] for each that the
    flag admits. *)
Fixpoint ask_each (d : uninstallCniCmd) (l : list ecnetInfo) (lines : list string)
  : option (list ecnetInfo) :=
  match l with
  | [] => Some []
  | e :: l' =>
      if ecnetSpecified d && negb (String.eqb (info_name e) (un_ecnetName d))
      then ask_each d l' lines
      else match ask 3 lines with
           | None => None
           | Some (yes, lines') =>
               match ask_each d l' lines' with
               | None => None
               | Some sel => Some (if yes : bool then e :: sel else sel)
               end
           end
  end.

(** Standard input is a terminal on which these lines are typed. *)
Definition terminal (s : CmdState W) (lines : list string) : Prop :=
  cs_in s = map (fun l => l +:+ eol) lines /\ Forall one_line lines.

Lemma confirm_terminal prompt tries lines (s : CmdState W) :
  terminal s lines ->
  cmd_wp (confirm_loop prompt tries "") (fun r s' =>
    match ask tries lines with
    | None => r = inl "EOF"
    | Some (yes, lines') => r = inr yes /\ terminal s' lines'
    end) s.
Proof.
  revert lines s. induction tries as [|tries IH]; intros lines s [Hin Hone]; simpl.
  { by apply wp_ret. }
  cmd_step. cmd_step. cmd_step. unfold cmd_wp at 1, read_line. simpl. rewrite Hin.
  destruct lines as [|l lines]; [done|]. apply Forall_cons in Hone as [Hl Hlines].
  rewrite map_cons, ReadString_terminal by done. simpl.
  set (s1 := mkCmdState _ _ _). assert (terminal s1 lines) as Ht by done.
  rewrite TrimSpace_eol. destruct l as [|c l].
  { simpl. by apply IH. }
  replace (Nat.ltb (String.length (String c l +:+ eol)) 2) with false.
  2:{ symmetry. apply Nat.ltb_ge. simpl. destruct (l +:+ eol) as [|] eqn:E; [by destruct l|simpl; lia]. }
  destruct (String.eqb _ "y"); [by apply wp_ret|]. destruct (String.eqb _ "n"); [by apply wp_ret|].
  cmd_step. cmd_step. by apply IH.
Qed.

#[local] Arguments ask : simpl never.

Lemma prompts_terminal_lemma d l lines (s : CmdState W) :
  terminal s lines ->
  (promptEcnetUninstall d l [] s).1
  = match ask_each d l lines with Some sel => inr sel | None => inl "EOF" end.
Proof.
  intros Ht.
  enough (forall acc, cmd_wp (promptEcnetUninstall d l acc) (fun r _ =>
    r = match ask_each d l lines with Some sel => inr (acc ++ sel) | None => inl "EOF" end) s) as H
    by apply (H []).
  revert lines s Ht. induction l as [|e l IH]; intros lines s Ht acc; simpl.
  { apply wp_ret. by rewrite app_nil_r. }
  destruct (_ && _); [by apply IH|]. cmd_step. unfold confirm.
  eapply wp_mono; [by apply (confirm_terminal _ 3 lines)|].
  intros r s'. change (Z.to_nat 3) with 3%nat. destruct (ask 3 lines) as [[yes lines']|]; [|by intros ->].
  intros [-> Ht']. eapply wp_mono; [by apply (IH lines')|]. intros r s'' ->.
  destruct (ask_each d l lines'); [|done]. destruct yes; [by rewrite <- app_assoc|done].
Qed.

(** At a terminal the control planes to uninstall are exactly those whose
    prompt was answered with yes, in their order; input that ends early is
    an error and nothing is chosen. *)
Theorem prompts_terminal d l lines (s : CmdState W) :
  terminal s lines ->
  (promptEcnetUninstall d l [] s).1
  = match ask_each d l lines with Some sel => inr sel | None => inl "EOF" end.
Proof. apply prompts_terminal_lemma. Qed.

(** Input from a pipe whose first read returns more than one line: the
    reader of the first prompt takes it all, so the second prompt meets the
    end of the input, whatever the answers are, and the command fails
    before anything is uninstalled. *)
Theorem prompts_pipe d e1 e2 l rest (s : CmdState W) :
  ecnetSpecified d = false -> cs_in s = ["y" +:+ eol +:+ rest] ->
  (promptEcnetUninstall d (e1 :: e2 :: l) [] s).1 = inl "EOF".
Proof.
  intros Hsp Hin.
  enough (cmd_wp (promptEcnetUninstall d (e1 :: e2 :: l) []) (fun r _ => r = inl "EOF") s) as H
    by exact H.
  simpl. rewrite Hsp. simpl. cmd_step. unfold confirm. change (Z.to_nat 3) with 3%nat.
  simpl. cmd_step. cmd_step. cmd_step. unfold cmd_wp at 1, read_line. simpl. rewrite Hin. simpl.
  apply wp_ret. cmd_step. unfold cmd_wp at 1. done.
Qed.

End Prompts.

(** ** What uninstalling may change *)

Section UninstallLaws.
Context {W : Type} (api : KubeAPI W) `{!KubeLaws api}.

(** Only the releases of the chosen ecnets go, their namespaces only when
    asked for, and the resource definitions only when asked for. *)
Definition confined (d : uninstallCniCmd) (sel : list ecnetInfo) (c c' : Cluster) : Prop :=
  (forall n, un_deleteNamespace d = false \/ (forall m, m ∈ sel -> info_namespace m <> n) ->
     cl_namespaces c' !! n = cl_namespaces c !! n) /\
  (forall x, (forall m, m ∈ sel -> x.1 <> info_namespace m \/
                (x.2 <> info_name m /\ un_deleteNamespace d = false)) ->
     x ∈ cl_releases c <-> x ∈ cl_releases c') /\
  (un_deleteClusterWideResources d = false -> cl_crds c' = cl_crds c).

#[local] Instance confined_preorder d sel : PreOrder (confined d sel).
Proof.
  split; [done|]. intros c1 c2 c3 (H1 & H2 & H3) (H4 & H5 & H6). split_and!.
  - intros n Hn. rewrite H4 by done. by apply H1.
  - intros x Hx. rewrite H2 by done. by apply H5.
  - intros Hd. rewrite H6 by done. by apply H3.
Qed.

#[local] Instance eq_preorder : PreOrder (@eq Cluster).
Proof. apply _. Qed.

Lemma eq_confined {A} d sel (m : Cmd W A) :
  cmd_keeps api eq m -> cmd_keeps api (confined d sel) m.
Proof. intros H s. eapply wp_mono; [apply H|]. by intros r s' <-. Qed.

Lemma confined_mono d sel sel' c c' :
  sel ⊆ sel' -> confined d sel c c' -> confined d sel' c c'.
Proof.
  intros Hs (H1 & H2 & H3). split_and!; [intros n Hn; apply H1|intros x Hx; apply H2|done];
    naive_solver.
Qed.

(** *** Finding the control planes *)

Lemma ecnet_info_reads d : cmd_keeps api eq (ecnet_info api d).
Proof. unfold ecnet_info, selectNamespacesMonitoredByEcnet. keeps. Qed.

Lemma ecnet_infos_reads ds acc : cmd_keeps api eq (ecnet_infos api ds acc).
Proof.
  revert acc. induction ds as [|d ds IH]; intros acc; simpl; keeps;
    auto using ecnet_info_reads.
Qed.

Lemma getEcnetInfoList_reads : cmd_keeps api eq (getEcnetInfoList api).
Proof. unfold getEcnetInfoList, getControllerDeployments. keeps. apply ecnet_infos_reads. Qed.

Lemma listed_ecnets_reads : cmd_keeps api eq (listed_ecnets api).
Proof. unfold listed_ecnets. keeps. apply getEcnetInfoList_reads. Qed.

Lemma ecnetList_reads : cmd_keeps api eq (ecnetList_run api).
Proof. unfold ecnetList_run. keeps. apply getEcnetInfoList_reads. Qed.

Lemma printEcnets_reads : cmd_keeps api eq (printEcnets api).
Proof. unfold printEcnets. keeps. apply ecnetList_reads. Qed.

Lemma findSpecifiedEcnet_reads d l : cmd_keeps api eq (findSpecifiedEcnet api d l).
Proof. unfold findSpecifiedEcnet, printEcnets. keeps. apply ecnetList_reads. Qed.

Lemma read_line_reads buf : cmd_keeps api eq (read_line buf).
Proof.
  intros s. unfold cmd_wp, read_line. by destruct (ReadString _ _) as [[[]]|].
Qed.

Lemma confirm_reads prompt tries : cmd_keeps api eq (confirm prompt tries).
Proof.
  unfold confirm. generalize (Z.to_nat tries). intros n. generalize "".
  induction n as [|n IH]; intros buf; simpl; keeps; auto using read_line_reads.
Qed.

Lemma prompt_reads d l acc : cmd_keeps api eq (promptEcnetUninstall d l acc).
Proof.
  revert acc. induction l as [|e l IH]; intros acc; simpl; [keeps|].
  destruct (_ && _); [apply IH|]. keeps. apply confirm_reads.
Qed.

Lemma choose_reads d l : cmd_keeps api eq (choose_ecnets api d l).
Proof.
  unfold choose_ecnets, printEcnets. keeps; auto using ecnetList_reads, prompt_reads.
Qed.

(** *** Deleting *)

Lemma delete_each_keeps R `{!PreOrder R} del ok missing failed l acc :
  (forall x w, R (cluster w) (cluster (del x w).2)) ->
  cmd_keeps api R (delete_each (W:=W) del ok missing failed l acc).
Proof.
  intros H. revert acc. induction l as [|x l IH]; intros acc; simpl; keeps; auto using keeps_call.
Qed.

Lemma deleteClusterResources_confined d sel :
  cmd_keeps api (confined d sel) (deleteClusterResources api d).
Proof.
  unfold deleteClusterResources. destruct (un_deleteClusterWideResources d) eqn:Ed; [|keeps].
  unfold uninstallClusterResources, uninstallCustomResourceDefinitions, uninstallSecrets. keeps.
  - apply eq_confined, listed_ecnets_reads.
  - apply keeps_for; [apply _|]. keeps.
  - apply delete_each_keeps; [apply _|]. intros x w. destruct (crds_confined x w) as [Hn Hr].
    split_and!; [by rewrite Hn|by rewrite Hr|congruence].
  - apply keeps_ret, _.
Qed.

Lemma deleteNs_confined d sel m :
  m ∈ sel -> cmd_keeps api (confined d sel) (deleteNs api d (info_namespace m)).
Proof.
  intros Hm. unfold deleteNs. destruct (un_deleteNamespace d) eqn:Ed; simpl; keeps.
  apply keeps_call. intros w. destruct (delete_confined (info_namespace m) w) as (H1 & H2 & H3).
  split_and!; [| |done].
  - intros n [Hn|Hn]; [congruence|]. apply H1. intros ->. by apply (Hn m).
  - intros x Hx. apply H2. destruct (Hx m Hm) as [?|[_ ?]]; congruence.
Qed.

Lemma uninstall_one_confined d sel m :
  m ∈ sel -> cmd_keeps api (confined d sel) (uninstall_one api d m).
Proof.
  intros Hm. unfold uninstall_one. keeps; try by apply deleteNs_confined.
  - apply keeps_read; [apply _|apply helm_init_reads].
  - apply keeps_call. intros w.
    destruct (helm_confined (info_namespace m) (info_name m) w) as (H1 & H2 & H3).
    split_and!; [by rewrite H1| |done]. intros x Hx. apply H3. intros ->.
    destruct (Hx m Hm) as [?|[? _]]; done.
Qed.

(** *** What the commands see *)

(** A control plane of the cluster: the name and the namespace of the
    controller deployment. *)
Definition control_plane (c : Cluster) (name ns : string) : Prop :=
  exists d, d ∈ cl_deployments c /\ is_controller d /\
    map_get (dep_Labels d) "ecnetName" = name /\ dep_Namespace d = ns.

Definition listed (l : list ecnetInfo) (name ns : string) : Prop :=
  exists i, i ∈ l /\ info_name i = name /\ info_namespace i = ns.

Lemma ecnet_infos_spec ds acc (s : CmdState W) :
  cmd_wp (ecnet_infos api ds acc) (fun r s' => exists l, r = inr (acc ++ l) /\
    map (fun i => (info_name i, info_namespace i)) l
    = map (fun d => (map_get (dep_Labels d) "ecnetName", dep_Namespace d)) ds) s.
Proof.
  revert acc s. induction ds as [|d ds IH]; intros acc s; simpl.
  - apply wp_ret. exists []. by rewrite app_nil_r.
  - cmd_step. unfold ecnet_info, selectNamespacesMonitoredByEcnet. cmd_step. apply wp_call.
    cmd_step. eapply wp_mono; [apply IH|]. intros r s' (l & -> & Hl). eexists.
    rewrite <- app_assoc. split; [done|]. simpl. by rewrite Hl.
Qed.

Lemma getEcnetInfoList_spec (s : CmdState W) :
  cmd_wp (getEcnetInfoList api) (fun r s' =>
    cluster (cs_world s') = cluster (cs_world s) /\
    forall l, r = inr l -> forall name ns,
      listed l name ns <-> control_plane (cluster (cs_world s)) name ns) s.
Proof.
  split; [symmetry; apply getEcnetInfoList_reads|]. revert s.
  enough (forall s, cmd_wp (getEcnetInfoList api) (fun r _ => forall l, r = inr l -> forall name ns,
      listed l name ns <-> control_plane (cluster (cs_world s)) name ns) s) as H by exact H.
  intros s. unfold getEcnetInfoList, getControllerDeployments. cmd_step.
  apply (wp_dep_list api). intros [e|ds] w' _ Hds; [by cmd_step|].
  assert (forall d, d ∈ ds <-> d ∈ cl_deployments (cluster (cs_world s)) /\ is_controller d) as Hd.
  { intros d. rewrite (Hds ds eq_refl), selects_controller, bool_decide_eq_true. naive_solver. }
  assert (forall name ns, control_plane (cluster (cs_world s)) name ns <->
    (name, ns) ∈ map (fun d => (map_get (dep_Labels d) "ecnetName", dep_Namespace d)) ds) as Hc.
  { intros name ns. rewrite list_elem_of_fmap. unfold control_plane. setoid_rewrite Hd.
    naive_solver. }
  destruct ds as [|d ds]; simpl.
  { cmd_step. intros l [= <-] name ns. rewrite Hc. split; [by intros (i & []%not_elem_of_nil & _)|].
    by intros []%not_elem_of_nil. }
  eapply wp_mono; [apply (ecnet_infos_spec (d :: ds) [])|].
  intros r s' (l' & -> & Hl) l [= <-] name ns. rewrite Hc, <- Hl, list_elem_of_fmap.
  unfold listed. naive_solver.
Qed.

Lemma listed_ecnets_spec Q (s : CmdState W) :
  (forall e s', cluster (cs_world s') = cluster (cs_world s) -> Q (inl e) s') ->
  (forall l s', cluster (cs_world s') = cluster (cs_world s) ->
     (forall name ns, listed l name ns <-> control_plane (cluster (cs_world s)) name ns) ->
     Q (inr l) s') ->
  cmd_wp (listed_ecnets api) Q s.
Proof.
  intros He Hl. unfold listed_ecnets. cmd_step. cmd_step.
  eapply wp_mono; [apply getEcnetInfoList_spec|].
  intros [e|l] s' [Hs Hr]; cmd_step; eauto.
Qed.

Lemma prompt_sublist d l acc (s : CmdState W) :
  cmd_wp (promptEcnetUninstall d l acc) (fun r _ => forall sel, r = inr sel ->
    exists sub, sel = acc ++ sub /\ sub `sublist_of` l /\
      forall m, m ∈ sub -> ecnetSpecified d = true -> info_name m = un_ecnetName d) s.
Proof.
  revert acc s. induction l as [|e l IH]; intros acc s; simpl.
  { apply wp_ret. intros sel [= <-]. exists []. split_and!; [by rewrite app_nil_r|done|].
    by intros m []%not_elem_of_nil. }
  destruct (ecnetSpecified d && negb _) eqn:Eskip.
  { eapply wp_mono; [apply IH|]. intros r s0 H sel Hr. destruct (H sel Hr) as (sub & Hsel & Hs & Hm).
    exists sub. split_and!; [done|by apply sublist_cons|done]. }
  cmd_step. eapply wp_mono; [apply confirm_reads|]. intros [err|[]] s' _; [done| |].
  - eapply wp_mono; [apply IH|]. intros r s0 H sel Hr. destruct (H sel Hr) as (sub & Hsel & Hs & Hm).
    exists (e :: sub). split_and!; [by rewrite Hsel, <- app_assoc|by apply sublist_skip|].
    intros m. rewrite elem_of_cons. intros [->|Hin] Hsp; [|by apply Hm].
    rewrite Hsp in Eskip. simpl in Eskip. bool_props. done.
  - eapply wp_mono; [apply IH|]. intros r s0 H sel Hr. destruct (H sel Hr) as (sub & Hsel & Hs & Hm).
    exists sub. split_and!; [done|by apply sublist_cons|done].
Qed.

(** An ecnet that may be uninstalled: when forced, the only one of the
    cluster or the one that the flags name; else a control plane of the
    cluster, with the name of the flag if there is one. *)
Definition may_uninstall (d : uninstallCniCmd) (c : Cluster) (m : ecnetInfo) : Prop :=
  if un_force d
  then control_plane c (info_name m) (info_namespace m) \/
       (info_name m = un_ecnetName d /\ info_namespace m = un_ecnetNamespace d)
  else control_plane c (info_name m) (info_namespace m) /\
       (ecnetSpecified d = true -> info_name m = un_ecnetName d).

Lemma choose_spec d l c Q (s : CmdState W) :
  (forall name ns, listed l name ns <-> control_plane c name ns) ->
  (forall e s', cluster (cs_world s') = cluster (cs_world s) -> Q (inl e) s') ->
  (forall d' sel s', cluster (cs_world s') = cluster (cs_world s) ->
     un_deleteNamespace d' = un_deleteNamespace d ->
     un_deleteClusterWideResources d' = un_deleteClusterWideResources d ->
     (forall m, m ∈ sel -> may_uninstall d c m) ->
     (un_force d = false -> forall lines, terminal s lines -> ask_each d l lines = Some sel) ->
     Q (inr (d', sel)) s') ->
  cmd_wp (choose_ecnets api d l) Q s.
Proof.
  intros Hl He Hok. unfold choose_ecnets. unfold may_uninstall in Hok.
  destruct (un_force d) eqn:Ef.
  - apply wp_ret. apply Hok; [done|by destruct l as [|? []]|by destruct l as [|? []]| |done].
    intros m. rewrite list_elem_of_singleton. intros ->. simpl.
    destruct l as [|e [|]]; simpl; [by right| |by right]. left. apply Hl. exists e. split_and!; set_solver.
  - cmd_step. unfold cmd_wp at 1. pose proof (printEcnets_no_input api s) as Hin.
    pose proof (printEcnets_reads s) as Hs1. unfold cmd_wp in Hs1.
    destruct (printEcnets api s) as [[e|[]] s1]; simpl in Hs1, Hin |- *; [by apply He|].
    cmd_step. unfold cmd_wp at 1.
    pose proof (prompt_reads d l [] s1) as Hr. pose proof (prompt_sublist d l [] s1) as Hsub.
    pose proof (fun lines => prompts_terminal_lemma d l lines s1) as Hterm.
    unfold cmd_wp in Hr, Hsub. destruct (promptEcnetUninstall d l [] s1) as [[e|sel] s2]; simpl in *.
    { apply He. congruence. }
    cmd_step. destruct (Hsub sel eq_refl) as (sub & -> & Hs & Hm).
    apply Hok; [congruence|done..| |].
    + intros m Hm'. simpl in Hm'. split; [|by apply Hm].
      apply Hl. exists m. split_and!; [|done..]. by eapply elem_of_sublist.
    + intros _ lines [Hlines Hone]. specialize (Hterm lines). unfold terminal in Hterm.
      rewrite Hin in Hterm. specialize (Hterm (conj Hlines Hone)). destruct (ask_each d l lines); congruence.
Qed.

Lemma wp_no_input {A} (m : Cmd W A) (s : CmdState W) :
  no_input m -> cmd_wp m (fun _ s' => cs_in s' = cs_in s) s.
Proof. intros H. apply H. Qed.

Lemma wp_and {A} (m : Cmd W A) (P : CmdState W -> Prop) (Q : string + A -> CmdState W -> Prop) s :
  cmd_wp m (fun _ s' => P s') s -> cmd_wp m (fun r s' => P s' -> Q r s') s -> cmd_wp m Q s.
Proof. unfold cmd_wp. auto. Qed.

Lemma wp_and2 {A} (m : Cmd W A) (P1 P2 : CmdState W -> Prop) (Q : string + A -> CmdState W -> Prop) s :
  cmd_wp m (fun _ s' => P1 s') s -> cmd_wp m (fun _ s' => P2 s') s ->
  (forall r s', P1 s' -> P2 s' -> Q r s') -> cmd_wp m Q s.
Proof. unfold cmd_wp. auto. Qed.

Lemma wp_result {A} (m : Cmd W A) (Q : string + A -> CmdState W -> Prop) s :
  cmd_wp m (fun r s' => (m s).1 = r -> Q r s') s -> cmd_wp m Q s.
Proof. unfold cmd_wp. auto. Qed.

Lemma confined_flags d d' sel c c' :
  un_deleteNamespace d' = un_deleteNamespace d ->
  un_deleteClusterWideResources d' = un_deleteClusterWideResources d ->
  confined d' sel c c' -> confined d sel c c'.
Proof. unfold confined. by intros -> ->. Qed.

(** What was confirmed: of the control planes of the cluster, in the order
    in which they are listed, exactly those whose prompt was answered with
    yes by the lines typed. *)
Definition confirmed (s : CmdState W) (d : uninstallCniCmd) (lines : list string) (sel : list ecnetInfo)
  : Prop :=
  exists l, (listed_ecnets api s).1 = inr l /\
    (forall name ns, listed l name ns <-> control_plane (cluster (cs_world s)) name ns) /\
    ask_each d l lines = Some sel.


End UninstallLaws.

(** ** A forced uninstallation in a cluster with two control planes

    [blue] runs in the namespace the settings name by default, [green] in
    another. *)

Definition controller (ns name : string) : Deployment :=
  mkDeployment ns "ecnet-controller" {[ AppLabel := ECNETControllerName; "ecnetName" := name ]}.

Definition plain_namespace (n : string) : KNamespace := mkKNamespace n ∅ ∅ [].

Definition two_ecnets : Cluster :=
  mkCluster
    {[ defaultECNETNamespace := plain_namespace defaultECNETNamespace;
       "green-system" := plain_namespace "green-system" ]}
    [controller defaultECNETNamespace "blue"; controller "green-system" "green"]
    {["ecnetconfigs.config.flomesh.io"]}
    {[ (defaultECNETNamespace, "blue"); ("green-system", "green") ]}.

Definition default_settings : EnvSettings := mkEnvSettings defaultEnvConfig false.

(** [ecnet uninstall ecnet --force --ecnet-name green --delete-namespace]
    looks for the release in the namespace of the settings instead of the
    namespace the ecnet was found in: [green] stays, and the namespace of
    [blue] is deleted with everything in it, without any error. *)
Theorem forced_uninstall_other_namespace :
  let '(r, s') := newUninstallEcnet mem_api default_settings None None None "green" true true false
                    (mkCmdState two_ecnets [] []) in
  r = inr tt /\
  ("green-system", "green") ∈ cl_releases (cs_world s') /\
  (defaultECNETNamespace, "blue") ∉ cl_releases (cs_world s') /\
  cl_namespaces (cs_world s') !! defaultECNETNamespace = None.
Proof.
  destruct (newUninstallEcnet mem_api default_settings None None None "green" true true false
              (mkCmdState two_ecnets [] [])) as [r s'] eqn:E.
  vm_compute in E. injection E as <- <-. by split_and!.
Qed.

(** ** Witnesses *)

Definition blue_green : list ecnetInfo :=
  [mkEcnetInfo "blue" defaultECNETNamespace "Unknown" []; mkEcnetInfo "green" "green-system" "Unknown" []].

Definition ask_all : uninstallCniCmd := mkUninstallCniCmd "" defaultECNETNamespace false false false.

(** At a terminal: no to [blue], and a yes to [green] at the second try. *)
Example example_uninstall_green :
  let s' := (uninstall_run mem_api default_settings ask_all
               (mkCmdState two_ecnets [] (map (fun l => l +:+ eol) ["n"; ""; " Y "]))).2 in
  bool_decide (cl_releases (cs_world s') = {[ (defaultECNETNamespace, "blue") ]}) = true.
Proof. by vm_compute. Qed.


Lemma prompts_terminal_witness :
  (promptEcnetUninstall ask_all blue_green []
     (mkCmdState two_ecnets [] (map (fun l => l +:+ eol) ["n"; ""; " Y "]))).1
  = inr [mkEcnetInfo "green" "green-system" "Unknown" []].
Proof.
  rewrite (prompts_terminal ask_all blue_green ["n"; ""; " Y "]); [by vm_compute|].
  split; [done|]. repeat constructor.
Defined.

Lemma prompts_pipe_witness :
  (promptEcnetUninstall ask_all blue_green []
     (mkCmdState two_ecnets [] ["y" +:+ eol +:+ "y" +:+ eol])).1 = inl "EOF".
Proof. by apply (prompts_pipe ask_all _ _ [] ("y" +:+ eol)). Defined.
