(* ===== verification/Spinner.v ===== *)
(** * The progress display of [ecnet install] ([pkg/ecnet/cli/spinner.go])

    While Helm installs the chart in a goroutine of its own, the spinner
    polls the pods of the namespace and decides when the installation is
    done. The answers of the API server are arguments; the terminal spinner
    (github.com/briandowns/spinner) appears as the fields the code sets and
    whether it is turning. The loop of [Run], the goroutine of the job, the
    buffered channels [quit] and [updateChan] and the timer are a step
    relation over the shared [Spinner]. *)

From Stdlib Require Import Ascii String.
From S2P Require Import Prelude GoStrings ApiTypes.

(** ** Data *)

Record ContainerStatus := mkContainerStatus {
  cst_Ready : bool;
  cst_RestartCount : Z
}.

(** What the spinner reads of a pod. *)
Record PodStatus := mkPodStatus {
  ps_Name : string;
  ps_Labels : gmap string string;
  ps_Phase : string;
  ps_ContainerStatuses : list ContainerStatus
}.

Definition PodSucceeded : string := "Succeeded".
Definition PodPending : string := "Pending".

(** The terminal spinner. *)
Record TermSpinner := mkTermSpinner {
  ts_Suffix : string;
  ts_FinalMSG : string;
  ts_active : bool
}.

Definition ts_Stop (t : TermSpinner) : TermSpinner :=
  mkTermSpinner (ts_Suffix t) (ts_FinalMSG t) false.

Record watcher := mkWatcher {
  w_ecnetApp : string;
  w_podName : string;
  w_spinner : TermSpinner;
  w_containerCnt : Z;
  w_readyContainerCnt : Z;
  w_restartCnt : Z;
  w_ready : bool
}.

(** ** [refresh]

    The loop over the container statuses: ready containers and restarts. *)

Definition count_container (cnt : Z * Z) (c : ContainerStatus) : Z * Z :=
  let '(ready, restarts) := cnt in
  (if cst_Ready c then sint 64 (ready + 1) else ready, sint 64 (restarts + cst_RestartCount c)).

(** [pods]: the answer to listing the pods with the name of the watcher. *)
Definition refresh (ecnetNamespace : string) (pods : string + list PodStatus) (w : watcher)
  : watcher :=
  if w_ready w then w
  else
    match pods with
    | inl _ => w
    | inr [] =>
        mkWatcher (w_ecnetApp w) (w_podName w) (ts_Stop (w_spinner w)) (w_containerCnt w)
          (w_readyContainerCnt w) (w_restartCnt w) true
    | inr (pod :: _) =>
        let containers := ps_ContainerStatuses pod in
        let containerCnt := Z.of_nat (length containers) in
        let '(readyContainerCnt, restartCnt) := foldl count_container (0, 0) containers in
        if Z.eqb containerCnt readyContainerCnt || String.eqb PodSucceeded (ps_Phase pod)
        then mkWatcher (w_ecnetApp w) (w_podName w) (ts_Stop (w_spinner w)) containerCnt
               readyContainerCnt restartCnt true
        else
          mkWatcher (w_ecnetApp w) (w_podName w)
            (mkTermSpinner
               (w_podName w +:+ "[" +:+ ecnetNamespace +:+ "] READY:" +:+ fmt_d readyContainerCnt
                  +:+ "/" +:+ fmt_d containerCnt +:+ " STATUS:" +:+ ps_Phase pod
                  +:+ " RESTARTS:" +:+ fmt_d restartCnt)
               (ts_FinalMSG (w_spinner w)) (ts_active (w_spinner w)))
            containerCnt readyContainerCnt restartCnt false
    end.

(** ** [Spinner] *)

Record Spinner := mkSpinner {
  s_ecnetNamespace : string;
  s_watchers : gmap string watcher;
  s_err : option string;
  s_quit : bool   (* the one slot of the channel is full *)
}.

Definition Init (ecnetNamespace : string) : Spinner := mkSpinner ecnetNamespace ∅ None false.

Definition set_watchers (m : gmap string watcher) (s : Spinner) : Spinner :=
  mkSpinner (s_ecnetNamespace s) m (s_err s) (s_quit s).
Definition set_err (e : option string) (s : Spinner) : Spinner :=
  mkSpinner (s_ecnetNamespace s) (s_watchers s) e (s_quit s).
Definition set_quit (b : bool) (s : Spinner) : Spinner :=
  mkSpinner (s_ecnetNamespace s) (s_watchers s) (s_err s) b.

Definition ecnet_apps : list string := ["ecnet-bootstrap"; "ecnet-controller"; "ecnet-bridge"].

(** The watcher of a pod that is seen for the first time. *)
Definition new_watcher (app : PodStatus) : watcher :=
  let podName := ps_Name app in
  let label := default "" (ps_Labels app !! "app") in
  let ecnetApp :=
    if Nat.eqb (String.length label) 0 then
      match Split podName "-" with
      | p0 :: p1 :: _ => p0 +:+ "-" +:+ p1
      | _ => label
      end
    else label in
  let spinner :=
    if Nat.ltb 0 (String.length ecnetApp) then
      mkTermSpinner (ecnetApp +:+ "[" +:+ podName +:+ "] is being deployed ...")
        (ecnetApp +:+ "[" +:+ podName +:+ "] Done" +:+ String (ascii_of_nat 10) "") true
    else mkTermSpinner podName (podName +:+ " Done" +:+ String (ascii_of_nat 10) "") true in
  mkWatcher ecnetApp podName spinner 0 0 0 false.

Definition watch_app (m : gmap string watcher) (app : PodStatus) : gmap string watcher :=
  match m !! ps_Name app with
  | Some _ => m
  | None => <[ps_Name app := new_watcher app]> m
  end.

(** An answer of the API server to a list of pods. *)
Definition PodList : Type := string + list PodStatus.

Section Spinner.
Context {RO : RangeOrder}.

Fixpoint done_loop (ws : list (string * watcher)) (doneApps : gmap string bool)
  : option (gmap string bool) :=
  match ws with
  | [] => Some doneApps
  | (_, w) :: ws' =>
      if negb (w_ready w) then None else done_loop ws' (<[w_ecnetApp w := true]> doneApps)
  end.

Definition done (s : Spinner) : bool :=
  if Nat.leb 3 (size (s_watchers s)) then
    match done_loop (range (s_watchers s)) (list_to_map (map (fun a => (a, false)) ecnet_apps)) with
    | None => false
    | Some doneApps => forallb snd (range doneApps)
    end
  else false.

(** The refresh of every watcher; [pods] answers the list for a name. *)
Definition refresh_all (pods : string -> PodList) (s : Spinner) : gmap string watcher :=
  foldl (fun m '(k, w) => <[k := refresh (s_ecnetNamespace s) (pods (w_podName w)) w]> m)
    (s_watchers s) (range (s_watchers s)).

(** [refreshEcnetApps] up to the send on [quit], which the flag announces. *)
Definition refreshEcnetApps (apps : PodList) (pods : string -> PodList) (s : Spinner)
  : Spinner * bool :=
  match apps with
  | inl err => (set_err (Some err) s, true)
  | inr [] => (s, false)
  | inr items =>
      let s := set_watchers (foldl watch_app (s_watchers s) items) s in
      (set_watchers (refresh_all pods s) s, false)
  end.

(** ** [Run]: the loop and the goroutine of the job *)

Inductive loop_pc :=
| AtSelect
| Refreshing           (* the timer was received *)
| SendingErr           (* [s.quit <- true] of [refreshEcnetApps] *)
| Checking             (* [if !s.done()] *)
| SendingUpdate        (* [updateChan <- new(interface{})] *)
| SendingDone          (* [s.quit <- true] *)
| Returned (err : option string).

Inductive job_pc := JobRunning | JobSending | JobEnded.

Record RunState := mkRunState {
  r_spinner : Spinner;
  r_update : bool;       (* the one slot of [updateChan] is full *)
  r_armed : bool;        (* [slidingTimer] is running *)
  r_tick : bool;         (* and its channel holds a time *)
  r_pc : loop_pc;
  r_job : job_pc
}.

Definition set_pc (pc : loop_pc) (r : RunState) : RunState :=
  mkRunState (r_spinner r) (r_update r) (r_armed r) (r_tick r) pc (r_job r).
Definition set_spinner (s : Spinner) (r : RunState) : RunState :=
  mkRunState s (r_update r) (r_armed r) (r_tick r) (r_pc r) (r_job r).
Definition set_job (j : job_pc) (r : RunState) : RunState :=
  mkRunState (r_spinner r) (r_update r) (r_armed r) (r_tick r) (r_pc r) j.
Definition set_update (b : bool) (r : RunState) : RunState :=
  mkRunState (r_spinner r) b (r_armed r) (r_tick r) (r_pc r) (r_job r).
Definition set_timer (armed tick : bool) (r : RunState) : RunState :=
  mkRunState (r_spinner r) (r_update r) armed tick (r_pc r) (r_job r).

Definition Run (s : Spinner) : RunState := mkRunState s false true false AtSelect JobRunning.

Definition send_quit (r : RunState) : RunState :=
  set_spinner (set_quit true (r_spinner r)) r.

Inductive event :=
| JobFails (err : string)
| JobSucceeds
| JobQuits
| Listed (apps : PodList) (pods : string -> PodList)
| Loop.                (* a step of the loop or of its timer *)

Definition quit_full (r : RunState) : bool := s_quit (r_spinner r).

Inductive run_step : RunState -> event -> RunState -> Prop :=
| job_fails r err :
    r_job r = JobRunning ->
    run_step r (JobFails err) (set_job JobSending (set_spinner (set_err (Some err) (r_spinner r)) r))
| job_succeeds r : r_job r = JobRunning -> run_step r JobSucceeds (set_job JobEnded r)
| job_quits r :
    r_job r = JobSending -> quit_full r = false ->
    run_step r JobQuits (set_job JobEnded (send_quit r))
| timer_fires r : r_armed r = true -> run_step r Loop (set_timer false true r)
| select_quit r :
    r_pc r = AtSelect -> quit_full r = true ->
    run_step r Loop
      (* the deferred [slidingTimer.Stop()] *)
      (set_pc (Returned (s_err (r_spinner r)))
         (set_timer false (r_tick r) (set_spinner (set_quit false (r_spinner r)) r)))
| select_update r :
    r_pc r = AtSelect -> r_update r = true ->
    run_step r Loop (set_timer true (r_tick r) (set_update false r))
| select_timer r :
    r_pc r = AtSelect -> r_tick r = true ->
    run_step r Loop (set_pc Refreshing (set_timer (r_armed r) false r))
| refreshes r apps pods :
    r_pc r = Refreshing ->
    run_step r (Listed apps pods)
      (let '(s, fails) := refreshEcnetApps apps pods (r_spinner r) in
       set_pc (if fails then SendingErr else Checking) (set_spinner s r))
| sends_err r :
    r_pc r = SendingErr -> quit_full r = false ->
    run_step r Loop (set_pc Checking (send_quit r))
| checks r :
    r_pc r = Checking ->
    run_step r Loop (set_pc (if negb (done (r_spinner r)) then SendingUpdate else SendingDone) r)
| sends_update r :
    r_pc r = SendingUpdate -> r_update r = false ->
    run_step r Loop (set_pc AtSelect (set_update true r))
| sends_done r :
    r_pc r = SendingDone -> quit_full r = false ->
    run_step r Loop (set_pc AtSelect (send_quit r)).

(** The interleavings of a run; the latest event is first. *)
Inductive runs (ecnetNamespace : string) : list event -> RunState -> Prop :=
| runs_start : runs ecnetNamespace [] (Run (Init ecnetNamespace))
| runs_step trace r e r' :
    runs ecnetNamespace trace r -> run_step r e r' -> runs ecnetNamespace (e :: trace) r'.

(** ** What the polls decide *)

Lemma foldl_count_ready cs n k :
  0 <= n -> n + Z.of_nat (length cs) < 2 ^ 63 ->
  (foldl count_container (n, k) cs).1
  = n + Z.of_nat (length (List.filter cst_Ready cs)).
Proof.
  revert n k. induction cs as [|c cs IH]; intros n k Hn Hb; simpl in *; [lia|].
  destruct (cst_Ready c); simpl.
  - rewrite sint_id by lia. rewrite IH by lia. lia.
  - apply IH; lia.
Qed.

Lemma filter_all {A} (f : A -> bool) (l : list A) :
  length (List.filter f l) = length l <-> Forall (fun a => f a = true) l.
Proof.
  induction l as [|a l IH]; simpl; [by rewrite Forall_nil|]. rewrite Forall_cons, <- IH.
  pose proof (List.filter_length_le f l). destruct (f a); simpl; split; [naive_solver lia| |naive_solver lia|].
  - intros [_ ?]. lia.
  - by intros [? _].
Qed.

(** A pod counts as ready: it is gone, it succeeded, or every container
    that has a status is ready. *)
Definition counts_ready (pods : list PodStatus) : Prop :=
  match pods with
  | [] => True
  | pod :: _ => ps_Phase pod = PodSucceeded \/
      Forall (fun c => cst_Ready c = true) (ps_ContainerStatuses pod)
  end.

(** The statuses of a pod fit in memory. *)
Definition in_memory (pods : PodList) : Prop :=
  match pods with
  | inr (pod :: _) => Z.of_nat (length (ps_ContainerStatuses pod)) < 2 ^ 63
  | _ => True
  end.

Lemma refresh_ready_iff ns pods w :
  in_memory pods ->
  w_ready (refresh ns pods w) = true <->
  w_ready w = true \/ exists l, pods = inr l /\ counts_ready l.
Proof.
  intros Hm. unfold refresh. destruct (w_ready w) eqn:Ew; [naive_solver|].
  destruct pods as [e|[|pod l]]; [simpl; naive_solver..|]. simpl in Hm.
  pose proof (foldl_count_ready (ps_ContainerStatuses pod) 0 0 ltac:(lia) ltac:(lia)) as Hc.
  destruct (foldl _ _ _) as [rdy rst]. simpl fst in Hc. rewrite Z.add_0_l in Hc. subst rdy.
  assert (Z.of_nat (length (ps_ContainerStatuses pod)) =
    Z.of_nat (length (List.filter cst_Ready (ps_ContainerStatuses pod))) <->
    Forall (fun c => cst_Ready c = true) (ps_ContainerStatuses pod)) as Hf.
  { rewrite <- filter_all. lia. }
  destruct (Z.eqb_spec (Z.of_nat (length (ps_ContainerStatuses pod)))
    (Z.of_nat (length (List.filter cst_Ready (ps_ContainerStatuses pod))))) as [He|He];
    [|destruct (String.eqb_spec PodSucceeded (ps_Phase pod)) as [Hs|Hs]].
  - simpl. split; [|done]. intros _. right. eexists. split; [done|]. right. by apply Hf.
  - simpl orb. cbn iota. split; [|done]. intros _. right. eexists. split; [done|]. by left.
  - simpl orb. cbn iota. split; [done|].
    intros [?|(? & [= <-] & [?|?%Hf])]; congruence.
Qed.

Lemma refresh_app ns pods w : w_ecnetApp (refresh ns pods w) = w_ecnetApp w.
Proof. unfold refresh. repeat case_match; done. Qed.

(** The applications that have a watcher, marked. *)
Definition mark_app (m : gmap string bool) (kw : string * watcher) : gmap string bool :=
  <[w_ecnetApp kw.2 := true]> m.

Lemma done_loop_Some ws m m' :
  done_loop ws m = Some m' <->
  Forall (fun kw => w_ready kw.2 = true) ws /\
  m' = foldl mark_app m ws.
Proof.
  revert m. induction ws as [|[k w] ws IH]; intros m; simpl; [rewrite Forall_nil; naive_solver|].
  rewrite Forall_cons; simpl. destruct (w_ready w); simpl; [rewrite IH; naive_solver|naive_solver].
Qed.

Lemma done_apps_lookup (ws : list (string * watcher)) m a :
  foldl mark_app m ws !! a = Some false <->
  m !! a = Some false /\ ~ exists kw, kw ∈ ws /\ w_ecnetApp kw.2 = a.
Proof.
  revert m. induction ws as [|kw ws IH]; intros m; simpl.
  { split; [intros H; split; [done|]; intros (? & ?%not_elem_of_nil & _); done|by intros []]. }
  unfold mark_app at 2. rewrite IH. setoid_rewrite elem_of_cons. rewrite lookup_insert_Some. naive_solver.
Qed.

(** A watcher of the application is there. *)
Definition watched (s : Spinner) (app : string) : Prop :=
  exists k w, s_watchers s !! k = Some w /\ w_ecnetApp w = app.

Lemma done_iff s :
  done s = true <->
  (3 <= size (s_watchers s))%nat /\
  map_Forall (fun _ w => w_ready w = true) (s_watchers s) /\
  Forall (watched s) ecnet_apps.
Proof.
  unfold done. destruct (Nat.leb_spec 3 (size (s_watchers s))) as [Hsz|]; [|split; [done|lia]].
  assert (Forall (fun kw => w_ready kw.2 = true) (range (s_watchers s)) <->
    map_Forall (fun _ w => w_ready w = true) (s_watchers s)) as Hready.
  { rewrite Forall_forall, map_Forall_lookup. setoid_rewrite <- elem_of_range.
    split; [intros H k w; apply (H (k, w))|intros H [k w]; apply (H k w)]. }
  destruct (done_loop _ _) as [apps|] eqn:E.
  - apply done_loop_Some in E as [Hr ->]. rewrite forallb_forall. split.
    + intros Hall. split_and!; [done|by apply Hready|]. apply Forall_forall. intros a Ha.
      apply dec_stable. intros Hn.
      enough (((a, false) : string * bool) ∈ range (foldl mark_app
        (list_to_map (map (fun a => (a, false)) ecnet_apps)) (range (s_watchers s)))) as Hin.
      { apply list_elem_of_In in Hin. by apply Hall in Hin. }
      rewrite elem_of_range, done_apps_lookup. split.
      * revert Ha. unfold ecnet_apps. rewrite !elem_of_cons.
        intros [->|[->|[->|[]%not_elem_of_nil]]]; reflexivity.
      * intros ([k w] & Hin%elem_of_range & Hw). apply Hn. by exists k, w.
    + intros (_ & _ & Happs) [a []] Hin%list_elem_of_In; [done|].
      rewrite elem_of_range, done_apps_lookup in Hin. destruct Hin as [Ha Hn].
      exfalso. apply Hn. rewrite Forall_forall in Happs. destruct (Happs a) as (k & w & Hw & <-).
      * apply elem_of_list_to_map_2, list_elem_of_fmap in Ha as (? & [= ->] & ?). done.
      * exists (k, w). by rewrite elem_of_range.
  - split; [done|]. intros (_ & Hr & _). apply Hready in Hr.
    assert (exists m, done_loop (range (s_watchers s))
      (list_to_map (map (fun a => (a, false)) ecnet_apps)) = Some m) as [m Hm].
    { eexists. apply done_loop_Some. split; [done|reflexivity]. }
    congruence.
Qed.

(** ** Invariant of the loop

    Until a poll finds the installation done, one of the timer, its
    channel, [updateChan] and the loop itself has the turn. *)

Definition busy (pc : loop_pc) : bool :=
  match pc with Refreshing | SendingErr | Checking | SendingUpdate => true | _ => false end.

(** The phases of the loop: whether the installation is done, the error,
    the place in the loop, [quit], the timer, its channel, [updateChan]. *)
Inductive phase (d : bool) (err : option string) : loop_pc -> bool -> bool -> bool -> bool -> Prop :=
| ph_armed q : (q = true -> err <> None) -> phase d err AtSelect q true false false
| ph_tick q : (q = true -> err <> None) -> phase d err AtSelect q false true false
| ph_update q : (q = true -> err <> None) -> phase d err AtSelect q false false true
| ph_busy pc q :
    busy pc = true -> (q = true -> err <> None) -> (pc = SendingErr -> err <> None) ->
    phase d err pc q false false false
| ph_ending q :
    d = true -> (q = true -> err <> None) -> phase d err SendingDone q false false false
| ph_ended : d = true -> phase d err AtSelect true false false false
| ph_returned res q t u : (res = None -> d = true) -> phase d err (Returned res) q false t u.

(** An error that the job or a poll met. *)
Definition reported (e : string) (trace : list event) : Prop :=
  JobFails e ∈ trace \/ exists pods, Listed (inl e) pods ∈ trace.

Lemma reported_cons e ev trace : reported e trace -> reported e (ev :: trace).
Proof. intros [?|[pods ?]]; [left|right; exists pods]; by apply list_elem_of_further. Qed.

Record loop_inv (trace : list event) (r : RunState) : Prop := {
  li_err : forall e, s_err (r_spinner r) = Some e -> reported e trace;
  li_ret : forall e, r_pc r = Returned (Some e) -> reported e trace;
  li_job : r_job r = JobSending -> s_err (r_spinner r) <> None;
  li_phase : phase (done (r_spinner r)) (s_err (r_spinner r)) (r_pc r) (quit_full r)
               (r_armed r) (r_tick r) (r_update r)
}.

Lemma done_watchers s s' : s_watchers s = s_watchers s' -> done s = done s'.
Proof. unfold done. by intros ->. Qed.

Lemma loop_inv_step trace r e r' :
  loop_inv trace r -> run_step r e r' -> loop_inv (e :: trace) r'.
Proof.
  intros [He Hr Hj Hp] Hs. unfold quit_full in *.
  inversion Hs as [? err Hjr|? Hjr|? Hjr Hqf|? Ha|? Hpc Hqf|? Hpc Hu|? Hpc Htk|? apps pods Hpc
                  |? Hpc Hqf|? Hpc|? Hpc Hu|? Hpc Hqf]; subst;
    destruct r as [[ns ws serr q] u a t pc j]; unfold quit_full in *; simpl in *; subst;
    [..|destruct apps as [err|[|app items]]; simpl| | | |];
    (split; unfold quit_full; simpl;
     [try by intros; apply reported_cons; auto|try by intros; apply reported_cons; auto
     |try done; auto|]).
  all: try exact Hp.
  all: try (inversion Hp; subst; solve [constructor; try done; auto]).
  - intros ? [= <-]. left. apply list_elem_of_here.
  - intros e [= ->]. by apply reported_cons; auto.
  - inversion Hp; subst; constructor; try done; intros; try congruence; intuition congruence.
  - intros ? [= <-]. right. exists pods. apply list_elem_of_here.
  - by destruct (negb _).
  - inversion Hp; subst; try done. destruct (done _) eqn:Hd; by constructor.
Qed.

Lemma runs_inv ns trace r : runs ns trace r -> loop_inv trace r.
Proof.
  induction 1 as [|trace r e r' _ IH Hs]; [|by eapply loop_inv_step].
  split; simpl; try done. by constructor.
Qed.

(** ** What the watchers know

    Every watcher stands for a pod that a poll listed, and is ready only if
    the answer for its pod said so. *)

(** The application of a pod: its [app] label, or else the first two parts
    of its name. *)
Definition pod_app (p : PodStatus) (a : string) : Prop :=
  let label := default "" (ps_Labels p !! "app") in
  (label <> "" -> a = label) /\
  (label = "" -> forall p0 p1 rest, Split (ps_Name p) "-" = p0 :: p1 :: rest -> a = p0 +:+ "-" +:+ p1).

(** A poll listed the pod. *)
Definition listed_pod (trace : list event) (k : string) (w : watcher) : Prop :=
  exists items pods p, Listed (inr items) pods ∈ trace /\ p ∈ items /\
    ps_Name p = k /\ pod_app p (w_ecnetApp w).

(** A poll got an answer about the pod, and by the answer it counts as ready. *)
Definition found_ready (trace : list event) (k : string) : Prop :=
  exists items pods l, Listed (inr items) pods ∈ trace /\ pods k = inr l /\
    (in_memory (inr l) -> counts_ready l).

Definition watcher_inv (trace : list event) (k : string) (w : watcher) : Prop :=
  w_podName w = k /\ listed_pod trace k w /\ (w_ready w = true -> found_ready trace k).

Lemma listed_pod_cons trace ev k w : listed_pod trace k w -> listed_pod (ev :: trace) k w.
Proof. intros (i & po & p & H & ?). exists i, po, p. split; [by apply list_elem_of_further|done]. Qed.

Lemma found_ready_cons trace ev k : found_ready trace k -> found_ready (ev :: trace) k.
Proof. intros (i & po & l & H & ?). exists i, po, l. split; [by apply list_elem_of_further|done]. Qed.

Lemma watcher_inv_cons trace ev k w : watcher_inv trace k w -> watcher_inv (ev :: trace) k w.
Proof.
  intros (Hk & Hl & Hr). split_and!; [done|by apply listed_pod_cons|].
  intros H. by apply found_ready_cons, Hr.
Qed.

Lemma new_watcher_inv trace items pods p :
  p ∈ items -> Listed (inr items) pods ∈ trace -> watcher_inv trace (ps_Name p) (new_watcher p).
Proof.
  intros Hp Ht. split_and!; [done| |done]. exists items, pods, p. split_and!; try done.
  unfold pod_app, new_watcher. cbn [w_ecnetApp].
  destruct (default "" (ps_Labels p !! "app")) as [|c l]; split; try done.
  intros _ p0 p1 rest H. simpl. by rewrite H.
Qed.

Lemma watch_apps_inv trace items pods apps m :
  (forall p, p ∈ apps -> p ∈ items) -> Listed (inr items) pods ∈ trace ->
  map_Forall (watcher_inv trace) m -> map_Forall (watcher_inv trace) (foldl watch_app m apps).
Proof.
  intros Hsub Ht. revert m. induction apps as [|p apps IH]; intros m Hm; simpl; [done|].
  apply IH; [set_solver|]. unfold watch_app. destruct (m !! ps_Name p); [done|].
  apply map_Forall_insert_2; [|done]. eapply new_watcher_inv; [|done]. set_solver.
Qed.

Lemma refresh_name ns pods w : w_podName (refresh ns pods w) = w_podName w.
Proof. unfold refresh. repeat case_match; done. Qed.

Lemma refresh_found ns pods w :
  w_ready (refresh ns pods w) = true ->
  w_ready w = true \/ exists l, pods = inr l /\ (in_memory (inr l) -> counts_ready l).
Proof.
  intros Hr. destruct pods as [e|l]; [left; revert Hr; unfold refresh; destruct (w_ready w) eqn:E; congruence|].
  destruct (w_ready w) eqn:Ew; [by left|right]. exists l. split; [done|]. intros Hm.
  apply refresh_ready_iff in Hr as [Hr|(l' & [= <-] & Hr)]; [|exact Hr|exact Hm]. congruence.
Qed.

Lemma refresh_inv trace items pods ns k w :
  Listed (inr items) pods ∈ trace -> watcher_inv trace k w ->
  watcher_inv trace k (refresh ns (pods (w_podName w)) w).
Proof.
  intros Ht (Hk & (i & po & p & H1 & H2 & H3 & H4) & Hr). split_and!.
  - by rewrite refresh_name.
  - exists i, po, p. by rewrite refresh_app.
  - intros [?|(l & Hl & Hc)]%refresh_found; [auto|]. exists items, pods, l. rewrite <- Hk at 1. done.
Qed.

Lemma refresh_all_lookup pods s k :
  refresh_all pods s !! k =
  (fun w => refresh (s_ecnetNamespace s) (pods (w_podName w)) w) <$> s_watchers s !! k.
Proof.
  unfold refresh_all. set (f := fun w : watcher => refresh _ _ w).
  assert (forall (l : list (string * watcher)) (m : gmap string watcher), NoDup l.*1 -> (forall k w, (k, w) ∈ l -> m !! k = Some w) ->
    foldl (fun m '(k, w) => <[k := f w]> m) m l !! k =
    (if decide (k ∈ l.*1) then f <$> m !! k else m !! k)) as Hgen.
  { induction l as [|[k' w'] l IH]; intros m Hnd Hl; simpl; [done|].
    apply NoDup_cons in Hnd as [Hni Hnd]. rewrite IH; [|done|].
    - destruct (decide (k ∈ l.*1)) as [Hin|Hin].
      + rewrite decide_True by set_solver. rewrite lookup_insert_ne; [done|]. by intros ->.
      + destruct (decide (k' = k)) as [->|Hne].
        * rewrite lookup_insert_eq, decide_True by set_solver. by rewrite (Hl k w') by set_solver.
        * rewrite lookup_insert_ne by done. rewrite decide_False; [done|]. set_solver.
    - intros k2 w2 Hin. rewrite lookup_insert_ne; [apply Hl; set_solver|].
      intros ->. apply Hni. by apply (list_elem_of_fmap_2 fst) in Hin. }
  rewrite Hgen; [|apply NoDup_range_fst|by intros ? ? ?%elem_of_range].
  case_decide as Hin; [done|]. rewrite elem_of_range_keys, not_elem_of_dom in Hin. by rewrite Hin.
Qed.

Lemma watchers_step trace r e r' :
  run_step r e r' -> map_Forall (watcher_inv trace) (s_watchers (r_spinner r)) ->
  map_Forall (watcher_inv (e :: trace)) (s_watchers (r_spinner r')).
Proof.
  intros Hs Hm. assert (map_Forall (watcher_inv (e :: trace)) (s_watchers (r_spinner r))) as Hm'.
  { eapply map_Forall_impl; [exact Hm|]. intros k w. apply watcher_inv_cons. }
  inversion Hs as [| | | | | | |? apps pods Hpc| | | |]; subst; try exact Hm'.
  destruct apps as [err|[|p items]]; try exact Hm'.
  assert (Listed (inr (p :: items)) pods ∈ Listed (inr (p :: items)) pods :: trace) as Ht by set_solver.
  simpl. intros k w. rewrite refresh_all_lookup, fmap_Some. intros (w0 & Hw0 & ->).
  eapply refresh_inv; [exact Ht|]. revert k w0 Hw0.
  apply (watch_apps_inv _ (p :: items) pods (p :: items)); auto.
Qed.

Lemma runs_watchers ns trace r :
  runs ns trace r -> map_Forall (watcher_inv trace) (s_watchers (r_spinner r)).
Proof.
  induction 1 as [|trace r e r' _ IH Hs]; [apply map_Forall_empty|by eapply watchers_step].
Qed.

(** ** Theorems *)

(** C27: What [Run] returns: no error only when at least three pods are
    watched, bootstrap, controller and bridge are among their applications
    (taken from the [app] label of a listed pod, or else from its name), and
    for each of them a poll got an answer, not an error, by which the pod
    counts as ready: it is gone, it succeeded, or every container that has a
    status is ready (given fewer than 2^63 statuses). An error is returned
    only if the installation or a list of the pods reported it. *)
Theorem spinner_return_sound ns trace r res :
  runs ns trace r -> r_pc r = Returned res ->
  match res with
  | None => (3 <= size (s_watchers (r_spinner r)))%nat /\
            map_Forall (fun k w => listed_pod trace k w /\ found_ready trace k)
              (s_watchers (r_spinner r)) /\
            Forall (watched (r_spinner r)) ecnet_apps
  | Some e => reported e trace
  end.
Proof.
  intros Hruns Hpc. pose proof (runs_watchers _ _ _ Hruns) as Hw.
  destruct (runs_inv _ _ _ Hruns) as [He Hr _ Hp]. destruct res as [e|]; [by apply Hr|].
  rewrite Hpc in Hp. inversion Hp as [| | | | | |? ? ? ? Hd]; subst; [done|].
  specialize (Hd eq_refl). apply done_iff in Hd as (Hsz & Hrd & Happs).
  split_and!; [done| |done]. intros k w Hkw. destruct (Hw k w Hkw) as (_ & Hl & Hf).
  split; [done|]. apply Hf, (Hrd k w Hkw).
Qed.

(** The loop waits to send on [quit], whose slot is full. *)
Definition blocked (r : RunState) : Prop :=
  quit_full r = true /\ (r_pc r = SendingErr \/ r_pc r = SendingDone).

(** Steps until the next poll. *)
Definition to_poll (r : RunState) : nat :=
  match r_pc r with
  | SendingErr => 6 | Checking => 5 | SendingUpdate => 4 | SendingDone => 1
  | AtSelect => if r_update r then 3 else if r_armed r then 2 else if r_tick r then 1 else 0
  | _ => 0
  end.

Definition polls_or_loops (e : event) : Prop :=
  match e with Loop | Listed _ _ => True | _ => False end.

(** C28: The loop is never idle: unless it returned, it or its timer can
    take a step, and within six steps it polls again or returns; sending on
    [updateChan] never blocks. The one exception is a loop that waits to
    send on [quit] after an error of the job or of a poll has filled it. *)
Theorem spinner_progress ns trace r :
  runs ns trace r ->
  ((exists res, r_pc r = Returned res) \/
   (exists e r', polls_or_loops e /\ run_step r e r') \/
   (blocked r /\ exists e, reported e trace)) /\
  (forall r', run_step r Loop r' ->
     (exists res, r_pc r' = Returned res) \/ (to_poll r' < to_poll r <= 6)%nat).
Proof.
  intros [He Hr Hj Hp]%runs_inv. split.
  - destruct r as [[ns' ws serr q] u a t pc j]. unfold blocked, quit_full in *. simpl in *.
    assert (q = true -> serr <> None -> exists e, reported e trace) as Hrep.
    { destruct serr; naive_solver. }
    assert (forall r', run_step (mkRunState (mkSpinner ns' ws serr q) u a t pc j) Loop r' ->
      exists e r', polls_or_loops e /\
        run_step (mkRunState (mkSpinner ns' ws serr q) u a t pc j) e r') as Hl.
    { intros r' Hs. by exists Loop, r'. }
    inversion Hp as [| | |? ? Hb| | | ]; subst; [| | | | | |by left; eauto].
    1-3: right; left; eapply Hl; by constructor.
    + destruct pc; try done; [right; left| |right; left; eapply Hl; by constructor..].
      * exists (Listed (inr []) (fun _ => inr [])). eexists. split; [done|by constructor].
      * right. destruct q; [right; split; [by auto|naive_solver]|left; eapply Hl; by constructor].
    + right. destruct q; [right; split; [by auto|naive_solver]|left; eapply Hl; by constructor].
    + right. left. eapply Hl. by apply select_quit.
  - intros r' Hs. unfold to_poll, quit_full in *.
    inversion Hs as [| | |? Ha|? Hpc Hqf|? Hpc Hu|? Hpc Htk|
                  |? Hpc Hqf|? Hpc|? Hpc Hu|? Hpc Hqf]; subst; simpl in *; try (by left; eauto);
      try rewrite Hpc in *.
    all: inversion Hp; subst; simpl; repeat case_match; simplify_eq/=; try lia; try congruence.
Qed.

(** Any further interleaving. *)
Definition continues : RunState -> RunState -> Prop :=
  rtc (fun r r' => exists e, run_step r e r').

(** The loop waits forever, or is about to. *)
Definition doomed (r : RunState) : Prop :=
  blocked r \/ quit_full r = true /\ r_pc r = Checking /\ done (r_spinner r) = true.

Lemma doomed_step r e r' : doomed r -> run_step r e r' -> doomed r'.
Proof.
  unfold doomed, blocked, quit_full. intros Hd Hs.
  destruct Hd as [[Hq [Hpc|Hpc]]|(Hq & Hpc & Hdn)];
    inversion Hs; subst; unfold quit_full in *; simpl in *; try congruence; eauto.
  rewrite Hdn. simpl. auto.
Qed.

Lemma doomed_forever r r' : doomed r -> continues r r' -> forall res, r_pc r' <> Returned res.
Proof.
  intros Hd Hc res. assert (doomed r') as Hd'.
  { induction Hc as [|r r1 r2 [e He] _ IH]; [done|]. apply IH. by eapply doomed_step. }
  destruct Hd' as [[_ [-> | ->]]|(_ & -> & _)]; done.
Qed.

(** C38: The installation can hang. When Helm fails while a poll is under
    way, and that poll fails too or finds the pods ready, then the loop
    waits to send on the full channel [quit], from which nothing but the
    loop itself receives: no interleaving from there returns. *)
Theorem spinner_hangs ns trace r e apps pods :
  runs ns trace r -> r_pc r = Refreshing -> r_job r = JobRunning -> quit_full r = false ->
  (exists e', apps = inl e') \/ done (refreshEcnetApps apps pods (r_spinner r)).1 = true ->
  exists r', runs ns (Listed apps pods :: JobQuits :: JobFails e :: trace) r' /\
    forall r'', continues r' r'' -> forall res, r_pc r'' <> Returned res.
Proof.
  intros Hr Hpc Hj Hq Hends. eexists. split.
  - eapply runs_step; [eapply runs_step; [eapply runs_step; [done|]|]|].
    + by apply job_fails.
    + by apply job_quits.
    + by apply refreshes.
  - intros r'' Hc. eapply doomed_forever; [|exact Hc]. unfold doomed, blocked, quit_full.
    destruct Hends as [[e' ->]|Hd]; simpl; [auto|].
    destruct apps as [e'|[|app items]]; simpl in *; auto.
Qed.

(** ** A poll of new pods *)

Lemma watch_apps_lookup items m k w :
  NoDup (map ps_Name items) -> (forall app, app ∈ items -> m !! ps_Name app = None) ->
  foldl watch_app m items !! k = Some w <->
  m !! k = Some w \/ exists app, app ∈ items /\ ps_Name app = k /\ new_watcher app = w.
Proof.
  revert m. induction items as [|app items IH]; intros m Hnd Hm; simpl.
  { split; [by left|]. intros [?|(? & ?%not_elem_of_nil & _)]; done. }
  apply NoDup_cons in Hnd as [Hni Hnd].
  assert (m !! ps_Name app = None) as Hn by (apply Hm; set_solver).
  unfold watch_app at 2. rewrite Hn. rewrite IH; [|done|].
  - rewrite lookup_insert_Some. setoid_rewrite elem_of_cons. split; [naive_solver|].
    intros [?|(app' & [->|?] & <- & <-)]; [left; right|left; left|right]; [|done|by eauto].
    split; [|done]. intros <-. congruence.
  - intros app' Hin. rewrite lookup_insert_ne; [apply Hm; set_solver|].
    intros He. apply Hni. rewrite He. apply list_elem_of_fmap. eauto.
Qed.

(** The API server answers from these pods. *)
Definition serve (items : list PodStatus) (name : string) : PodList :=
  inr (List.filter (fun p => String.eqb (ps_Name p) name) items).

(** No container of the pods has a status yet: they are not scheduled. *)
Definition unscheduled (items : list PodStatus) : Prop :=
  Forall (fun p => ps_ContainerStatuses p = []) items.

Lemma filter_name items p :
  p ∈ items -> exists p' l, p' ∈ items /\
    List.filter (fun q => String.eqb (ps_Name q) (ps_Name p)) items = p' :: l.
Proof.
  intros Hp. assert (p ∈ List.filter (fun q => String.eqb (ps_Name q) (ps_Name p)) items) as Hin.
  { apply elem_of_lfilter. by rewrite String.eqb_refl. }
  destruct (List.filter _ _) as [|p' l] eqn:E; [by apply not_elem_of_nil in Hin|].
  exists p', l. split; [|done]. apply (elem_of_lfilter (fun q => String.eqb (ps_Name q) (ps_Name p)) items).
  rewrite E. apply list_elem_of_here.
Qed.

Lemma refresh_unscheduled ns items p :
  unscheduled items -> p ∈ items ->
  w_ready (refresh ns (serve items (ps_Name p)) (new_watcher p)) = true.
Proof.
  intros Hu Hp. unfold serve. destruct (filter_name items p Hp) as (p' & l & Hp' & ->).
  unfold unscheduled in Hu. rewrite Forall_forall in Hu. pose proof (Hu p' Hp') as Hc.
  apply refresh_ready_iff; simpl; [by rewrite Hc|]. right. eexists. split; [done|].
  simpl. rewrite Hc. by right.
Qed.

Lemma three_keys {V} (m : gmap string V) a b c :
  a <> b -> a <> c -> b <> c -> is_Some (m !! a) -> is_Some (m !! b) -> is_Some (m !! c) ->
  (3 <= size m)%nat.
Proof.
  intros ? ? ? Ha Hb Hc. rewrite <- size_dom.
  assert ({[a; b; c]} ⊆ dom m) as Hsub.
  { intros x. rewrite !elem_of_union, !elem_of_singleton, elem_of_dom. naive_solver. }
  apply subseteq_size in Hsub. rewrite !size_union, !size_singleton in Hsub by set_solver. lia.
Qed.

Lemma first_poll_watchers ns items k w :
  NoDup (map ps_Name items) ->
  s_watchers (refreshEcnetApps (inr items) (serve items) (Init ns)).1 !! k = Some w <->
  exists p, p ∈ items /\ ps_Name p = k /\ refresh ns (serve items k) (new_watcher p) = w.
Proof.
  intros Hnd. destruct items as [|p0 items']; [simpl; rewrite lookup_empty; set_solver|].
  cbn [refreshEcnetApps fst s_watchers set_watchers]. rewrite refresh_all_lookup.
  rewrite fmap_Some. cbn [s_watchers set_watchers Init s_ecnetNamespace].
  setoid_rewrite watch_apps_lookup; [|done|intros; apply lookup_empty].
  setoid_rewrite lookup_empty. split; [|naive_solver].
  intros (x & [?|(p & ? & <- & <-)] & ->); [done|]. eauto.
Qed.

(** A first poll that finds the installation done ends the loop. *)
Lemma first_poll_returns ns items pods :
  done (refreshEcnetApps (inr items) pods (Init ns)).1 = true ->
  exists trace r, runs ns trace r /\ r_pc r = Returned None /\ r_job r = JobRunning.
Proof.
  intros Hd. destruct items as [|app items].
  { apply done_iff in Hd as [Hsz _]. simpl in Hsz. rewrite map_size_empty in Hsz. lia. }
  eexists _, _. split.
  - eapply runs_step; [eapply runs_step; [eapply runs_step; [eapply runs_step;
      [eapply runs_step; [eapply runs_step; [constructor|]|]|]|]|]|].
    + by apply timer_fires.
    + by apply select_timer.
    + by apply (refreshes _ (inr (app :: items)) pods).
    + by apply checks.
    + simpl in Hd |- *. rewrite Hd. by apply sends_done.
    + by apply select_quit.
  - done.
Qed.

(** Pods that are not scheduled yet count as ready: a pod without
    container statuses has as many containers as ready containers. When the
    first poll finds the pods of the three applications created but not
    scheduled, the spinner returns without an error while Helm is still
    installing. *)
Theorem spinner_trusts_unscheduled ns items :
  NoDup (map ps_Name items) -> unscheduled items ->
  Forall (fun a => exists p, p ∈ items /\ w_ecnetApp (new_watcher p) = a) ecnet_apps ->
  exists trace r, runs ns trace r /\ r_pc r = Returned None /\ r_job r = JobRunning.
Proof.
  intros Hnd Hu Happs. eapply (first_poll_returns ns items (serve items)). apply done_iff.
  set (s := (refreshEcnetApps (inr items) (serve items) (Init ns)).1).
  assert (Forall (watched s) ecnet_apps) as Hw.
  { eapply Forall_impl; [exact Happs|]. intros a (p & Hp & <-).
    eexists (ps_Name p), _. split; [apply first_poll_watchers; eauto|apply refresh_app]. }
  split_and!; [|intros k w (p & Hp & <- & <-)%first_poll_watchers; [by apply refresh_unscheduled|done]|done].
  unfold ecnet_apps in Hw. rewrite !Forall_cons in Hw.
  destruct Hw as ((k1 & w1 & H1 & E1) & (k2 & w2 & H2 & E2) & (k3 & w3 & H3 & E3) & _).
  apply (three_keys _ k1 k2 k3); [congruence..| | |]; by eexists.
Qed.

End Spinner.

(** ** Witnesses *)

Definition pod_of (name app : string) (cs : list ContainerStatus) : PodStatus :=
  mkPodStatus name {["app" := app]} PodPending cs.

(** Three pods that wait for a node. *)
Definition waiting_pods : list PodStatus :=
  [pod_of "ecnet-bootstrap-5d" "ecnet-bootstrap" []; pod_of "ecnet-controller-7f" "ecnet-controller" [];
   pod_of "ecnet-bridge-x2" "ecnet-bridge" []].

Lemma spinner_trusts_unscheduled_witness :
  exists trace r, runs (RO:=any_order) "ecnet-system" trace r /\
    r_pc r = Returned None /\ r_job r = JobRunning.
Proof.
  apply (@spinner_trusts_unscheduled any_order "ecnet-system" waiting_pods).
  - vm_compute. repeat (constructor; [set_solver|]). constructor.
  - repeat constructor.
  - constructor; [exists (pod_of "ecnet-bootstrap-5d" "ecnet-bootstrap" [])|].
    { split; [set_solver|reflexivity]. }
    constructor; [exists (pod_of "ecnet-controller-7f" "ecnet-controller" [])|].
    { split; [set_solver|reflexivity]. }
    constructor; [exists (pod_of "ecnet-bridge-x2" "ecnet-bridge" [])|].
    { split; [set_solver|reflexivity]. }
    constructor.
Defined.

(** The timer fired and the loop polls; the job is still running. *)
Lemma polling_run : exists r, runs (RO:=any_order) "ecnet-system" [Loop; Loop] r /\
  r_pc r = Refreshing /\ r_job r = JobRunning /\ quit_full r = false.
Proof.
  eexists. split.
  - eapply runs_step; [eapply runs_step; [constructor|]|]; [by apply timer_fires|by apply select_timer].
  - done.
Defined.

Lemma spinner_hangs_witness :
  exists r', runs (RO:=any_order) "ecnet-system"
    [Listed (inl "connection refused") (fun _ => inr []); JobQuits; JobFails "timed out"; Loop; Loop] r' /\
    forall r'', continues (RO:=any_order) r' r'' -> forall res, r_pc r'' <> Returned res.
Proof.
  destruct polling_run as (r & Hr & Hpc & Hj & Hq).
  apply (@spinner_hangs any_order "ecnet-system" [Loop; Loop] r "timed out"); try assumption.
  left. eexists. reflexivity.
Defined.

Lemma spinner_return_sound_witness :
  exists trace r, runs (RO:=any_order) "ecnet-system" trace r /\ r_pc r = Returned None /\
    (3 <= size (s_watchers (r_spinner r)))%nat /\
    map_Forall (fun k _ => found_ready trace k) (s_watchers (r_spinner r)).
Proof.
  destruct (first_poll_returns (RO:=any_order) "ecnet-system" waiting_pods (serve waiting_pods))
    as (trace & r & Hr & Hpc & _); [vm_compute; reflexivity|].
  exists trace, r. split; [exact Hr|]. split; [exact Hpc|].
  destruct (@spinner_return_sound any_order _ _ _ _ Hr Hpc) as (Hsz & Hw & _).
  split; [exact Hsz|]. intros k w Hkw. exact (proj2 (Hw k w Hkw)).
Defined.

Lemma spinner_progress_witness :
  exists r, runs (RO:=any_order) "ecnet-system" [Loop; Loop] r /\ ~ blocked r /\
    exists e r', polls_or_loops e /\ run_step (RO:=any_order) r e r'.
Proof.
  destruct polling_run as (r & Hr & Hpc & Hj & Hq). exists r. split; [exact Hr|].
  assert (~ blocked r) as Hb by (intros [Hb _]; congruence). split; [exact Hb|].
  destruct (@spinner_progress any_order _ _ _ Hr) as [[[res Hres]|[Hs|[Hbl _]]] _].
  - congruence.
  - exact Hs.
  - contradiction.
Defined.
