(* ===== verification/CliInstall.v ===== *)
(** * The [install] and [upgrade] commands ([cmd/ecnet/cli/install.go],
    [ecnet_upgrade.go], and the commands of [cli.go] and [env.go])

    The values of a release are built from the flags with Helm's [strvals]
    and handed to Helm with the chart. Helm is not part of the sources:
    [HelmLib] holds its calls over a state of the outside world, [HelmLaws]
    what its documentation says of values; [mem_helm] is an instance. What
    the spinner returns is an argument of the installation; its runs are
    those of the file Spinner. *)

From Stdlib Require Import Ascii String.
From S2P Require Import Prelude GoStrings GoIO KubeAPI CliEcnet.

(** ** Helm *)

Record InstallClient := mkInstallClient {
  ic_ReleaseName : string;
  ic_Namespace : string;
  ic_CreateNamespace : bool;
  ic_Wait : bool;
  ic_Atomic : bool;
  ic_Timeout : Z
}.

Record UpgradeClient := mkUpgradeClient {
  uc_Wait : bool;
  uc_Timeout : Z;
  uc_ResetValues : bool
}.

(** Name, namespace and printed status of a pod. *)
Record StatusPod := mkStatusPod { sp_Name : string; sp_Namespace : string; sp_Status : string }.

Record HelmLib (W Chart Values : Type) := mkHelmLib {
  (** [loader.Load], and [loader.LoadArchive] of the embedded chart *)
  loader_Load : string -> W -> (ApiError + Chart) * W;
  loader_LoadArchive : ApiError + Chart;
  no_values : Values;
  (** [strvals.ParseInto] *)
  ParseInto : string -> Values -> string + Values;
  Install_Run : InstallClient -> Chart -> Values -> W -> (ApiError + unit) * W;
  Upgrade_Run : UpgradeClient -> string -> Chart -> Values -> W -> (ApiError + unit) * W;
  Status_Pods : string -> W -> (ApiError + list StatusPod) * W
}.
Arguments loader_Load {W Chart Values}.
Arguments loader_LoadArchive {W Chart Values}.
Arguments no_values {W Chart Values}.
Arguments ParseInto {W Chart Values}.
Arguments Install_Run {W Chart Values}.
Arguments Upgrade_Run {W Chart Values}.
Arguments Status_Pods {W Chart Values}.

Definition fmt_t (b : bool) : string := if b then "true" else "false".

Definition defaultEcnetName : string := "ecnet".
Definition defaultEnforceSingleEcnet : bool := true.
Definition minutes (n : Z) : Z := n * 60 * 1000000000.

Section Install.
Context {W Chart Values : Type} (helm : HelmLib W Chart Values).

Record installCmd := mkInstallCmd {
  in_chartPath : string;
  in_ecnetName : string;
  in_timeout : Z;
  in_setOptions : list string;
  in_atomic : bool;
  in_enforceSingleEcnet : bool;
  in_disableSpinner : bool
}.

(** [parseVal]: the values of the lines, one merged after the other. *)
Fixpoint parseVal (vals : list string) (parsedVals : Values) : string + Values :=
  match vals with
  | [] => inr parsedVals
  | v :: vals' =>
      match ParseInto helm v parsedVals with
      | inl err => inl err
      | inr parsedVals => parseVal vals' parsedVals
      end
  end.

Definition install_resolveValues (i : installCmd) : string + Values :=
  match parseVal (in_setOptions i) (no_values helm) with
  | inl err => inl ("invalid format for --set: " +:+ err)
  | inr finalValues =>
      parseVal ["ecnet.ecnetName=" +:+ in_ecnetName i;
                "ecnet.enforceSingleEcnet=" +:+ fmt_t (in_enforceSingleEcnet i)] finalValues
  end.

Definition loadECNETChart (i : installCmd) : Cmd W Chart :=
  r ← (if negb (String.eqb (in_chartPath i) "") then cmd_call (loader_Load helm (in_chartPath i))
       else mret (loader_LoadArchive helm));
  match r with
  | inl err => cmd_fail ("error loading chart for installation: " +:+ err_Error err)
  | inr chart => mret chart
  end.

Definition install_client (s : EnvSettings) (i : installCmd) : InstallClient :=
  mkInstallClient (in_ecnetName i) (Namespace s) true true (in_atomic i) (in_timeout i).

Definition debug (s : EnvSettings) (text : string) : Cmd W () :=
  if Verbose s then Fprintf ("[debug] " +:+ text +:+ eol) else mret tt.

(** [spinner.Run(job)]: the job that it runs, and what it returns. *)
Definition SpinnerRun : Type := (W -> (ApiError + unit) * W) -> Cmd W (option string).

Definition print_status (pod : StatusPod) : Cmd W () :=
  Fprintf ("Status for pod " +:+ sp_Name pod +:+ " in namespace " +:+ sp_Namespace pod
           +:+ ":" +:+ eol +:+ " " +:+ sp_Status pod +:+ eol +:+ eol).

Definition install_run (spinner : SpinnerRun) (s : EnvSettings) (i : installCmd) : Cmd W () :=
  debug s "Loading ECNET helm chart" ≫= fun _ =>
  chartRequested ← loadECNETChart i;
  match install_resolveValues i with
  | inl err => cmd_fail err
  | inr values =>
      let installClient := install_client s i in
      debug s "Beginning ECNET installation" ≫= fun _ =>
      (if in_disableSpinner i || Verbose s then
         r ← cmd_call (Install_Run helm installClient chartRequested values);
         match r with
         | inr _ => mret tt
         | inl err =>
             if negb (Verbose s) then cmd_fail (err_Error err)
             else
               pods ← cmd_call (Status_Pods helm (Namespace s));
               cmd_for print_status match pods with inr l => l | inl _ => [] end ≫= fun _ =>
               cmd_fail (err_Error err)
         end
       else
         err ← spinner (Install_Run helm installClient chartRequested values);
         match err with
         | Some err => if negb (Verbose s) then cmd_fail err else mret tt
         | None => mret tt
         end) ≫= fun _ =>
      Fprintf ("ECNET installed successfully in namespace [" +:+ Namespace s
               +:+ "] with ecnet name [" +:+ in_ecnetName i +:+ "]" +:+ eol)
  end.

(** The [RunE] of the command: [kubeconfig] and [clientset] are the errors
    of reaching the cluster. *)
Definition install_RunE (kubeconfig clientset : option string) (spinner : SpinnerRun)
  (s : EnvSettings) (i : installCmd) : Cmd W () :=
  match kubeconfig, clientset with
  | Some err, _ => cmd_fail ("Error fetching kubeconfig: " +:+ err)
  | None, Some err => cmd_fail ("Could not access Kubernetes cluster, check kubeconfig: " +:+ err)
  | None, None => install_run spinner s i
  end.

(** ** [ecnet_upgrade.go] *)

Record ecnetUpgradeCmd := mkEcnetUpgradeCmd {
  up_ecnetName : string;
  up_chart : option Chart;
  up_setOptions : list string
}.

Fixpoint upgrade_loop (opts : list string) (vals : Values) : string + Values :=
  match opts with
  | [] => inr vals
  | val :: opts' =>
      match ParseInto helm val vals with
      | inl err => inl ("invalid format for --set: " +:+ err)
      | inr vals => upgrade_loop opts' vals
      end
  end.

Definition upgrade_resolveValues (u : ecnetUpgradeCmd) : string + Values :=
  upgrade_loop (up_setOptions u) (no_values helm).

Definition upgrade_run (s : EnvSettings) (u : ecnetUpgradeCmd) : Cmd W () :=
  chart ← match up_chart u with
          | Some c => mret c
          | None => match loader_LoadArchive helm with
                    | inl err => cmd_fail (err_Error err)
                    | inr c => mret c
                    end
          end;
  match upgrade_resolveValues u with
  | inl err => cmd_fail err
  | inr values =>
      r ← cmd_call (Upgrade_Run helm (mkUpgradeClient true (minutes 5) true) (up_ecnetName u)
                      chart values);
      match r with
      | inl err => cmd_fail (err_Error err)
      | inr _ =>
          Fprintf ("ECNET successfully upgraded ecnet [" +:+ up_ecnetName u +:+ "] in namespace ["
                   +:+ Namespace s +:+ "]" +:+ eol)
      end
  end.

(** The [RunE] of the command, with its flag [--ecnet-chart-path]. *)
Definition upgrade_RunE (s : EnvSettings) (chartPath : string) (u : ecnetUpgradeCmd) : Cmd W () :=
  if negb (String.eqb chartPath "") then
    r ← cmd_call (loader_Load helm chartPath);
    match r with
    | inl err => cmd_fail (err_Error err)
    | inr c => upgrade_run s (mkEcnetUpgradeCmd (up_ecnetName u) (Some c) (up_setOptions u))
    end
  else upgrade_run s u.

End Install.
Arguments up_ecnetName {Chart}.
Arguments up_chart {Chart}.
Arguments up_setOptions {Chart}.
Arguments mkEcnetUpgradeCmd {Chart}.

(** ** [cli.go] and [env.go] *)

(** The subcommands; installing is not offered in a managed environment. *)
Definition subcommands (s : EnvSettings) : list string :=
  ["ecnet"; "env"; "namespace"; "version"; "uninstall"]
  ++ (if negb (IsManaged s) then ["install"] else []).

(** What [env] prints; [Marshal] is [yaml.Marshal]. *)
Definition env_run (Marshal : EnvConfig -> string + string) (s : EnvSettings) : string + string :=
  match Marshal (Config s) with
  | inl err => inl ("Error redendering environment information: " +:+ err)
  | inr config => inr ("--- " +:+ eol +:+ config +:+ eol)
  end.

(** ** What Helm promises *)

(** Text without a meaning of its own in a line of [strvals]. *)
Definition strvals_syntax (c : ascii) : bool := ContainsByte ",=.[]{}\" c.

Definition plain (s : string) : Prop := free_of strvals_syntax s.

(** Neither path leads to the other. *)
Definition apart (p q : list string) : Prop := ~ p `prefix_of` q /\ ~ q `prefix_of` p.

Class HelmLaws {W Chart Values : Type} (helm : HelmLib W Chart Values) : Type := {
  (** the scalar at a path of a set of values or of a chart's defaults *)
  value_at : Values -> list string -> option string;
  chart_value : Chart -> list string -> option string;
  (** the values in effect of the release of a name *)
  release_value : W -> string -> list string -> option string;
  no_value : forall p, value_at (no_values helm) p = None;
  (** a line sets the value at its path and leaves those apart from it *)
  parse_sets : forall p v vals vals', p <> [] -> Forall plain p -> plain v -> v <> "null" ->
    ParseInto helm (Join p "." +:+ "=" +:+ v) vals = inr vals' ->
    value_at vals' p = Some v /\
    forall q, apart p q -> value_at vals' q = value_at vals q;
  (** the values given to an installation are in effect over the chart's *)
  install_values : forall c chart vals w w', Install_Run helm c chart vals w = (inr tt, w') ->
    forall p v, value_at vals p = Some v -> v <> "null" ->
    release_value w' (ic_ReleaseName c) p = Some v;
  (** [ResetValues]: the values of the release before are forgotten, so the
      chart's are in effect where none is given *)
  upgrade_values : forall c name chart vals w w', uc_ResetValues c = true ->
    Upgrade_Run helm c name chart vals w = (inr tt, w') ->
    forall p, (forall q, q `prefix_of` p -> value_at vals q = None) ->
    release_value w' name p = chart_value chart p
}.

Definition ecnetName_path : list string := ["ecnet"; "ecnetName"].
Definition enforceSingleEcnet_path : list string := ["ecnet"; "enforceSingleEcnet"].

(** ** Theorems *)

Section InstallTheorems.
Context {W Chart Values : Type} (helm : HelmLib W Chart Values) `{!HelmLaws helm}.

Lemma apart_names : apart ecnetName_path enforceSingleEcnet_path.
Proof. split; intros [k Hk]; simplify_eq/=. Qed.

Lemma apart_sym p q : apart p q -> apart q p.
Proof. unfold apart. tauto. Qed.

Lemma plain_bool b : plain (fmt_t b) /\ fmt_t b <> "null".
Proof. by destruct b. Qed.

(** The two values the command adds come last, so no [--set] replaces
    them; the options decide every other value. *)
Lemma install_resolveValues_spec i vals :
  plain (in_ecnetName i) -> in_ecnetName i <> "null" ->
  install_resolveValues helm i = inr vals ->
  value_at vals ecnetName_path = Some (in_ecnetName i) /\
  value_at vals enforceSingleEcnet_path = Some (fmt_t (in_enforceSingleEcnet i)) /\
  exists set, parseVal helm (in_setOptions i) (no_values helm) = inr set /\
    forall q, apart ecnetName_path q -> apart enforceSingleEcnet_path q ->
      value_at vals q = value_at set q.
Proof.
  intros Hp Hn. unfold install_resolveValues.
  destruct (parseVal helm (in_setOptions i) (no_values helm)) as [e|set] eqn:Es; [done|].
  cbn [parseVal]. destruct (ParseInto helm _ set) as [e|v1] eqn:E1; [done|].
  destruct (ParseInto helm _ v1) as [e|v2] eqn:E2; [done|]. intros [= <-].
  destruct (parse_sets ecnetName_path (in_ecnetName i) set v1) as [Hv1 Hq1]; [done| |done..|].
  { by repeat constructor. }
  destruct (plain_bool (in_enforceSingleEcnet i)) as [Hb Hb'].
  destruct (parse_sets enforceSingleEcnet_path (fmt_t (in_enforceSingleEcnet i)) v1 v2)
    as [Hv2 Hq2]; [done| |done..|].
  { by repeat constructor. }
  split_and!; [|done|].
  - rewrite Hq2; [done|]. apply apart_sym, apart_names.
  - exists set. split; [done|]. intros q H1 H2. by rewrite Hq2, Hq1.
Qed.

Definition installed_message (s : EnvSettings) (i : installCmd) : string :=
  "ECNET installed successfully in namespace [" +:+ Namespace s
  +:+ "] with ecnet name [" +:+ in_ecnetName i +:+ "]" +:+ eol.

Lemma wp_any {A} (m : Cmd W A) (Q : string + A -> CmdState W -> Prop) st :
  (forall r st', Q r st') -> cmd_wp m Q st.
Proof. intros H. apply H. Qed.

Lemma wp_debug s text Q (st : CmdState W) :
  (forall out, Q (inr tt) (mkCmdState (cs_world st) out (cs_in st))) -> cmd_wp (debug s text) Q st.
Proof. intros H. unfold debug. destruct (Verbose s); cmd_step; [apply H|]. by destruct st. Qed.

Lemma wp_loadECNETChart i Q (st : CmdState W) :
  (forall r w, Q r (mkCmdState w (cs_out st) (cs_in st))) -> cmd_wp (loadECNETChart helm i) Q st.
Proof.
  intros H. unfold loadECNETChart. cmd_step. destruct (negb _); cmd_step.
  - destruct (loader_Load helm _ _) as [[e|c] w]; simpl; cmd_step; apply H.
  - destruct (loader_LoadArchive helm) as [e|c]; cmd_step; destruct st; apply H.
Qed.

(** An installation that does not go through the spinner and reports
    success leaves a release of the given name whose values name the ecnet
    by [--ecnet-name] and enforce a single ecnet as the flag says, whatever
    the [--set] options are; the report is the last thing printed. *)
Theorem install_names_release spinner s i (st : CmdState W) :
  plain (in_ecnetName i) -> in_ecnetName i <> "null" ->
  in_disableSpinner i || Verbose s = true ->
  cmd_wp (install_run helm spinner s i)
    (fun r st' => r = inr tt ->
       release_value (cs_world st') (in_ecnetName i) ecnetName_path = Some (in_ecnetName i) /\
       release_value (cs_world st') (in_ecnetName i) enforceSingleEcnet_path
         = Some (fmt_t (in_enforceSingleEcnet i)) /\
       last (cs_out st') = Some (Text (installed_message s i))) st.
Proof.
  intros Hp Hn Hdirect. unfold install_run. cmd_step. apply wp_debug. intros out.
  cmd_step. apply wp_loadECNETChart. intros [e|chart] w1; [done|].
  destruct (install_resolveValues helm i) as [e|vals] eqn:Ev; [by cmd_step|].
  destruct (install_resolveValues_spec i vals Hp Hn Ev) as (Hname & Hsingle & _).
  cmd_step. apply wp_debug. intros out2. cmd_step. rewrite Hdirect. cmd_step. cmd_step.
  destruct (Install_Run helm _ chart vals w1) as [[e|[]] w2] eqn:Ei; simpl.
  - destruct (negb (Verbose s)); [by cmd_step|]. cmd_step. cmd_step. cmd_step.
    apply wp_any. intros [e'|[]] st'; [done|]. by cmd_step.
  - cmd_step. cmd_step. intros _. destruct (plain_bool (in_enforceSingleEcnet i)) as [_ Hb].
    split_and!; [by eapply (install_values (install_client s i)) in Ei
                |by eapply (install_values (install_client s i)) in Ei|].
    by rewrite last_snoc.
Qed.

(** An upgrade forgets how the ecnet was installed. When it succeeds,
    every value that its own [--set] options leave alone is the default of
    the chart, the name of the ecnet included: only the values of the
    upgrade's options survive, not those of the release. *)
Theorem upgrade_resets_values s u chart vals (st : CmdState W) :
  up_chart u = Some chart -> upgrade_resolveValues helm u = inr vals ->
  cmd_wp (upgrade_run helm s u)
    (fun r st' => r = inr tt -> forall p,
       (forall q, q `prefix_of` p -> value_at vals q = None) ->
       release_value (cs_world st') (up_ecnetName u) p = chart_value chart p) st.
Proof.
  intros Hc Hv. unfold upgrade_run. rewrite Hc, Hv. cmd_step. cmd_step. cmd_step. cmd_step.
  destruct (Upgrade_Run helm _ _ _ _ _) as [[e|[]] w'] eqn:Eu; simpl; cmd_step; [done|].
  intros _ p Hun. by eapply upgrade_values in Eu.
Qed.

End InstallTheorems.

(** ** Helm in memory

    Values are scalars by path; a line is a list of assignments separated
    by commas; a release keeps the values in effect. *)

Notation PathValues := (gmap (list string) string).

Definition mem_assign (vals : string + PathValues) (a : string) : string + PathValues :=
  match vals with
  | inl err => inl err
  | inr vals =>
      match Split a "=" with
      | [k; v] => inr (<[Split k "." := v]> vals)
      | _ => inl ("key " +:+ a +:+ " has no value")
      end
  end.

Definition mem_helm (archive : PathValues)
  : HelmLib (gmap string PathValues) PathValues PathValues := {|
  loader_Load path w := (inl not_found, w);
  loader_LoadArchive := inr archive;
  no_values := ∅;
  ParseInto line vals := foldl mem_assign (inr vals) (Split line ",");
  Install_Run c chart vals w :=
    match w !! ic_ReleaseName c with
    | Some _ => (inl (mkApiError AlreadyExists "cannot re-use a name that is still in use"), w)
    | None => (inr tt, <[ic_ReleaseName c := vals ∪ chart]> w)
    end;
  Upgrade_Run c name chart vals w :=
    match w !! name with
    | Some old => (inr tt, <[name := vals ∪ (if uc_ResetValues c then chart else old ∪ chart)]> w)
    | None => (inl (mkApiError ReleaseNotFound "has no deployed releases"), w)
    end;
  Status_Pods ns w := (inr [], w)
|}.

Lemma plain_free p s :
  (forall c, p c = true -> strvals_syntax c = true) -> plain s -> free_of p s.
Proof. apply free_of_weaken. Qed.

Lemma join_free p l sep :
  (forall c, p c = true -> strvals_syntax c = true) -> free_of p sep -> Forall plain l ->
  free_of p (Join l sep).
Proof.
  intros Hp Hsep. induction 1 as [|s l Hs Hl IH]; [done|]. destruct l as [|t l].
  - by apply plain_free.
  - change (Join (s :: t :: l) sep) with (s +:+ sep +:+ Join (t :: l) sep).
    rewrite !free_of_app. split_and!; [by apply plain_free|done|done].
Qed.

Lemma split_join l : l <> [] -> Forall plain l -> Split (Join l ".") "." = l.
Proof.
  assert (forall c, Ascii.eqb c "." = true -> strvals_syntax c = true) as Hp.
  { by intros c ->%Ascii.eqb_eq. }
  intros Hl. induction 1 as [|s l Hs Hf IH]; [done|]. unfold Split in *. destruct l as [|t l].
  - apply split_by_free. by apply plain_free.
  - change (Join (s :: t :: l) ".") with (s +:+ String "." (Join (t :: l) ".")).
    rewrite split_by_sep; [by rewrite IH|by apply plain_free|done].
Qed.

#[global] Instance mem_helm_laws archive : HelmLaws (mem_helm archive).
Proof.
  refine {| value_at := fun (m : PathValues) p => m !! p; chart_value := fun (m : PathValues) p => m !! p;
            release_value := fun (w : gmap string PathValues) n p => w !! n ≫= fun m => m !! p |}; simpl.
  - done.
  - intros p v vals vals' Hp Hf Hv _. unfold Split at 1.
    assert (forall c, Ascii.eqb c "," = true -> strvals_syntax c = true) as Hcomma.
    { by intros c ->%Ascii.eqb_eq. }
    assert (forall c, Ascii.eqb c "=" = true -> strvals_syntax c = true) as Heq.
    { by intros c ->%Ascii.eqb_eq. }
    rewrite split_by_free.
    + simpl. unfold Split at 1. change ("=" +:+ v) with (String "=" v).
      rewrite split_by_sep; [|by apply join_free|done].
      rewrite split_by_free by (by apply plain_free). rewrite split_join by done.
      intros [= <-]. split; [by rewrite lookup_insert_eq|]. intros q [Hpq _].
      rewrite lookup_insert_ne; [done|]. intros ->. by apply Hpq.
    + rewrite free_of_app. split; [by apply join_free|]. by apply (plain_free _ v Hcomma).
  - intros c chart vals w w'. destruct (w !! ic_ReleaseName c); [done|]. intros [= <-] p v Hv _.
    rewrite lookup_insert_eq. simpl. by apply lookup_union_Some_l.
  - intros c name chart vals w w' Hc. rewrite Hc. destruct (w !! name); [|done]. intros [= <-] p Hun.
    rewrite lookup_insert_eq. simpl. apply lookup_union_r. by apply Hun.
Defined.

Definition chart_defaults : PathValues :=
  {[ ecnetName_path := "ecnet"; enforceSingleEcnet_path := "true"; ["ecnet"; "image"; "tag"] := "1.0" ]}.

Definition direct_install : installCmd :=
  mkInstallCmd "" "mesh2" (minutes 5) ["ecnet.image.tag=1.1,ecnet.ecnetName=other"] false false true.

Definition self_hosted : EnvSettings := mkEnvSettings defaultEnvConfig false.

Definition no_spinner : SpinnerRun (W:=gmap string PathValues) := fun _ => mret None.

(** The option that names the ecnet otherwise is overridden. *)
Lemma install_names_release_witness :
  let r := install_run (mem_helm chart_defaults) no_spinner self_hosted direct_install
             (mkCmdState ∅ [] []) in
  r.1 = inr tt /\
  release_value (HelmLaws:=mem_helm_laws chart_defaults) (cs_world r.2) "mesh2" ecnetName_path = Some "mesh2".
Proof.
  intros r. assert (Hr : r.1 = inr tt) by (vm_compute; reflexivity). split; [exact Hr|].
  pose proof (install_names_release (mem_helm chart_defaults) no_spinner self_hosted direct_install
    (mkCmdState ∅ [] []) eq_refl ltac:(discriminate) eq_refl) as Hw.
  unfold cmd_wp in Hw. fold r in Hw. clearbody r. destruct r. exact (proj1 (Hw Hr)).
Defined.

(** After an upgrade with no option, the ecnet called mesh2 has the name
    and the image of the chart. *)
Definition mesh2_releases : gmap string PathValues :=
  {[ "mesh2" := <[ecnetName_path := "mesh2"]> (<[["ecnet"; "image"; "tag"] := "1.1"]> chart_defaults) ]}.

Definition plain_upgrade : ecnetUpgradeCmd :=
  mkEcnetUpgradeCmd "mesh2" (Some chart_defaults) [].

Lemma upgrade_resets_values_witness :
  let r := upgrade_run (mem_helm chart_defaults) self_hosted plain_upgrade (mkCmdState mesh2_releases [] []) in
  r.1 = inr tt /\
  release_value (HelmLaws:=mem_helm_laws chart_defaults) (cs_world r.2) "mesh2" ecnetName_path
    = chart_value (HelmLaws:=mem_helm_laws chart_defaults) chart_defaults ecnetName_path.
Proof.
  intros r. assert (Hr : r.1 = inr tt) by (vm_compute; reflexivity). split; [exact Hr|].
  pose proof (upgrade_resets_values (mem_helm chart_defaults) self_hosted plain_upgrade chart_defaults ∅
    (mkCmdState mesh2_releases [] []) eq_refl eq_refl) as Hw.
  unfold cmd_wp in Hw. fold r in Hw. clearbody r. destruct r. apply (Hw Hr). intros q _. exact (lookup_empty (M:=gmap (list string)) q).
Defined.

(** A name with a comma sets other values of the chart. *)
Example install_name_injects :
  match install_resolveValues (mem_helm chart_defaults)
          (mkInstallCmd "" "mesh2,ecnet.image.tag=evil" 0 [] false true false) with
  | inl _ => None
  | inr vals => vals !! ["ecnet"; "image"; "tag"]
  end = Some "evil".
Proof. vm_compute. reflexivity. Qed.
