(* ===== verification/Preinstall.v ===== *)
(** * Checks before an installation ([cmd/ecnet/ecnet-preinstall])

    Whether a control plane may be installed, and what the checks and the
    commands see of the control planes that the chart installs. *)

From Stdlib Require Import Ascii String.
From S2P Require Import Prelude GoStrings GoIO Constants ApiTypes KubeAPI CliNamespace CliEcnet.

Section Checks.
Context {W : Type} (api : KubeAPI W).

Definition describe (dep : Deployment) : string :=
  "namespace: " +:+ dep_Namespace dep +:+ ", name: " +:+ map_get (dep_Labels dep) "ecnetName".

Definition enforces_single (dep : Deployment) : bool :=
  String.eqb (map_get (dep_Labels dep) "enforceSingleEcnet") "true".

Definition singleEcnetOK (enforceSingleEcnet : bool) : Cmd W () :=
  r ← cmd_call (Deployments_List api "" (set_String AppLabel ECNETControllerName));
  match r with
  | inl err => cmd_fail ("listing ECNET deployments: " +:+ err_Error err)
  | inr deps =>
      let existingEcnets := map describe deps in
      let existingSingleEcnets := map describe (List.filter enforces_single deps) in
      if nonempty existingSingleEcnets then
        cmd_fail ("Ecnet(s) " +:+ Join existingSingleEcnets ", " +:+ " already enforce it is the only ecnet in the cluster, cannot install new ecnets")
      else if enforceSingleEcnet && nonempty existingEcnets then
        cmd_fail ("Ecnet(s) " +:+ Join existingEcnets ", " +:+ " already exist so a new ecnet enforcing it is the only one cannot be installed")
      else mret tt
  end.

Definition namespaceHasNoEcnet (namespace : string) : Cmd W () :=
  r ← cmd_call (Deployments_List api namespace (set_String AppLabel ECNETControllerName));
  match r with
  | inl err =>
      cmd_fail ("listing ecnet-ctrlplane deployments in namespace " +:+ namespace +:+ ": "
                +:+ err_Error err)
  | inr deps =>
      let ecnetNames := map (fun dep => map_get (dep_Labels dep) "ecnetName") deps in
      if nonempty ecnetNames
      then cmd_fail ("Namespace " +:+ namespace +:+ " already contains ecnet "
                     +:+ fmt_slice ecnetNames)
      else mret tt
  end.

(** Every check runs; a failed one is logged. *)
Fixpoint run_checks (checks : list (Cmd W ())) (ok : bool) : Cmd W bool :=
  match checks with
  | [] => mret ok
  | check :: checks' =>
      r ← cmd_try check;
      match r with
      | inl err => Fprintf ("check failed: " +:+ err) ≫= fun _ => run_checks checks' false
      | inr _ => run_checks checks' ok
      end
  end.

(** [main] once the flags are parsed and the client is built: the process
    fails unless all checks pass. *)
Definition preinstall (enforceSingleEcnet : bool) (namespace : string) : Cmd W () :=
  ok ← run_checks [singleEcnetOK enforceSingleEcnet; namespaceHasNoEcnet namespace] true;
  if negb ok then cmd_fail "checks failed" else Fprintf "checks OK".

End Checks.

(** ** The checks decide *)

Section CheckLaws.
Context {W : Type} (api : KubeAPI W) `{!KubeLaws api, !ReliableAPI api}.

Lemma wp_controllers n Q (s : CmdState W) :
  (forall l w', cluster w' = cluster (cs_world s) ->
     (forall d, d ∈ l <-> d ∈ cl_deployments (cluster (cs_world s)) /\
        (n = EmptyString \/ dep_Namespace d = n) /\ is_controller d) ->
     Q (inr (inr l)) (mkCmdState w' (cs_out s) (cs_in s))) ->
  cmd_wp (cmd_call (Deployments_List api n (set_String AppLabel ECNETControllerName))) Q s.
Proof.
  intros H. apply (wp_rel_dep_list api). intros l w' Hw Hl. apply H; [done|]. intros d.
  by rewrite Hl, selects_controller, bool_decide_eq_true.
Qed.

(** No deployment labelled as a control plane forbids a new one: none has
    the label [enforceSingleEcnet: true], and there is none at all if the new
    control plane is to be the only one. *)
Definition single_ok (enforceSingleEcnet : bool) (c : Cluster) : Prop :=
  (forall d, d ∈ cl_deployments c -> dep_Labels d !! "app" = Some "ecnet-ctrlplane" ->
     dep_Labels d !! "enforceSingleEcnet" <> Some "true") /\
  (enforceSingleEcnet = true ->
     forall d, d ∈ cl_deployments c -> dep_Labels d !! "app" <> Some "ecnet-ctrlplane").

Lemma enforces_single_iff d :
  enforces_single d = true <-> dep_Labels d !! "enforceSingleEcnet" = Some "true".
Proof.
  unfold enforces_single, map_get. rewrite String.eqb_eq.
  by destruct (dep_Labels d !! "enforceSingleEcnet"); simpl; naive_solver.
Qed.

Lemma singleEcnetOK_iff enforce (s : CmdState W) :
  cmd_wp (singleEcnetOK api enforce) (fun r s' =>
    cluster (cs_world s') = cluster (cs_world s) /\
    (r = inr tt <-> single_ok enforce (cluster (cs_world s)))) s.
Proof.
  unfold singleEcnetOK. cmd_step. apply wp_controllers. intros l w' Hw Hl.
  assert (single_ok enforce (cluster (cs_world s)) <->
    List.filter enforces_single l = [] /\ (enforce = false \/ l = [])) as Hiff.
  { unfold single_ok. split.
    - intros [H1 H2]. split.
      + destruct (List.filter _ l) as [|d l'] eqn:E; [done|].
        assert (d ∈ List.filter enforces_single l) as [Hd Hs]%elem_of_lfilter by (rewrite E; set_solver).
        apply Hl in Hd as (Hd & _ & Hc). apply enforces_single_iff in Hs. by destruct (H1 d Hd Hc).
      + destruct enforce; [right|by left]. destruct l as [|d l]; [done|]. destruct (Hl d) as [Hd _].
        specialize (Hd ltac:(set_solver)) as (Hd & _ & Hc). by destruct (H2 eq_refl d Hd).
    - intros [Hf Hn]. assert (forall d, d ∈ cl_deployments (cluster (cs_world s)) ->
        dep_Labels d !! "app" = Some "ecnet-ctrlplane" -> d ∈ l) as Hin.
      { intros d Hd Hc. apply Hl. auto. }
      split.
      + intros d Hd Hc Hs%enforces_single_iff. apply (not_elem_of_nil d). rewrite <- Hf.
        apply elem_of_lfilter. auto.
      + intros -> d Hd Hc. destruct Hn as [|Hn]; [done|]. apply (not_elem_of_nil d). rewrite <- Hn. auto. }
  destruct (List.filter enforces_single l); simpl; [|cmd_step; rewrite Hiff; naive_solver].
  destruct enforce, l; simpl; cmd_step; rewrite Hiff; naive_solver.
Qed.

Lemma namespaceHasNoEcnet_iff n (s : CmdState W) :
  cmd_wp (namespaceHasNoEcnet api n) (fun r s' =>
    cluster (cs_world s') = cluster (cs_world s) /\
    (r = inr tt <-> ~ hosts_controller (cluster (cs_world s)) n)) s.
Proof.
  unfold namespaceHasNoEcnet. cmd_step. apply wp_controllers. intros l w' Hw Hl.
  assert (hosts_controller (cluster (cs_world s)) n <-> l <> []) as Hiff.
  { unfold hosts_controller. setoid_rewrite <- Hl. destruct l as [|d l].
    - split; [by intros (d & []%not_elem_of_nil)|done].
    - split; [done|]. intros _. exists d. set_solver. }
  destruct l; simpl; cmd_step; rewrite Hiff; naive_solver.
Qed.

Lemma preinstall_decides enforce n (s : CmdState W) :
  let c := cluster (cs_world s) in
  cmd_wp (preinstall api enforce n) (fun r s' =>
    cluster (cs_world s') = c /\
    (r = inr tt <-> single_ok enforce c /\ ~ hosts_controller c n)) s.
Proof.
  intros c. unfold preinstall. cmd_step. simpl. cmd_step. cmd_step.
  eapply wp_mono; [apply singleEcnetOK_iff|]. intros r1 s1 [Hs1 Hr1]. fold c in Hs1, Hr1.
  assert (forall ok (s2 : CmdState W), cluster (cs_world s2) = c ->
    cmd_wp (run_checks [namespaceHasNoEcnet api n] ok) (fun r s' =>
      cluster (cs_world s') = c /\
      exists b, r = inr b /\ (b = true <-> ok = true /\ ~ hosts_controller c n)) s2) as Hrest.
  { intros ok s2 Hs2. simpl. cmd_step. cmd_step.
    eapply wp_mono; [apply namespaceHasNoEcnet_iff|]. intros r2 s3 [Hs3 Hr2]. rewrite Hs2 in Hs3, Hr2.
    destruct r2 as [e|[]]; [cmd_step; cmd_step; cmd_step|cmd_step]; split; try done; eexists; naive_solver. }
  assert (forall ok (s2 : CmdState W), cluster (cs_world s2) = c ->
    (ok = true <-> single_ok enforce c) ->
    cmd_wp (run_checks [namespaceHasNoEcnet api n] ok) (fun r s' => match r with
      | inl e => cluster (cs_world s') = c /\ (inl e = inr tt <-> single_ok enforce c /\ ~ hosts_controller c n)
      | inr a => cmd_wp (if negb a then cmd_fail "checks failed" else Fprintf "checks OK") (fun r s' =>
          cluster (cs_world s') = c /\ (r = inr tt <-> single_ok enforce c /\ ~ hosts_controller c n)) s'
      end) s2) as Hfin.
  { intros ok s2 Hs2 Hok. eapply wp_mono; [by apply Hrest|]. intros r s3 (Hs3 & b & -> & Hb).
    destruct b; simpl; cmd_step; naive_solver. }
  destruct r1 as [e|[]]; [cmd_step; cmd_step|]; apply Hfin; try done; naive_solver.
Qed.

End CheckLaws.

(** ** The control planes of the chart *)

(** The controller deployment of the Helm chart, with its labels. *)
Definition chart_deployment (ns ecnetName version : string) (enforceSingleEcnet : bool)
  : Deployment :=
  let labels : gmap string string :=
    {[ "app.kubernetes.io/name" := "flomesh.io"; ECNETAppInstanceLabelKey := ecnetName;
       ECNETAppVersionLabelKey := version; AppLabel := "ecnet-controller";
       "ecnetName" := ecnetName ]} in
  mkDeployment ns "ecnet-controller"
    (if enforceSingleEcnet then <["enforceSingleEcnet" := "true"]> labels else labels).

Definition from_chart (d : Deployment) : Prop :=
  exists ns ecnetName version single, d = chart_deployment ns ecnetName version single.

Lemma chart_not_controller d : from_chart d -> ~ is_controller d.
Proof.
  intros (ns & name & version & single & ->). unfold is_controller. simpl.
  destruct single; simplify_map_eq; done.
Qed.

Section Chart.
Context {W : Type} (api : KubeAPI W) `{!KubeLaws api, !ReliableAPI api}.

Lemma wp_no_controllers Q (s : CmdState W) :
  Forall from_chart (cl_deployments (cluster (cs_world s))) ->
  (forall w', cluster w' = cluster (cs_world s) ->
     Q (inr []) (mkCmdState w' (cs_out s) (cs_in s))) ->
  cmd_wp (getEcnetInfoList api) Q s.
Proof.
  intros Hc HQ. unfold getEcnetInfoList, getControllerDeployments. cmd_step.
  apply (wp_controllers api). intros l w' Hw Hl. destruct l as [|d l]; simpl; [cmd_step; by apply HQ|].
  destruct (Hl d) as [Hd _]. specialize (Hd ltac:(set_solver)) as (Hd & _ & Hcon).
  rewrite Forall_forall in Hc. exfalso. by eapply chart_not_controller; [apply Hc|].
Qed.

Lemma chart_checks enforce n (c : Cluster) :
  Forall from_chart (cl_deployments c) -> single_ok enforce c /\ ~ hosts_controller c n.
Proof.
  rewrite Forall_forall. intros Hc. split; [split|].
  - intros d Hd Hcon. by destruct (chart_not_controller d (Hc d Hd)).
  - intros _ d Hd Hcon. by destruct (chart_not_controller d (Hc d Hd)).
  - intros (d & Hd & _ & Hcon). by destruct (chart_not_controller d (Hc d Hd)).
Qed.

(** C35: Against an API server that answers, the checks change nothing, and
    they pass exactly when of the deployments with the label
    [app: ecnet-ctrlplane] none has the label [enforceSingleEcnet: true],
    none exists if the new control plane is to be the only one, and none is
    in the namespace. The controllers that the chart installs are labelled
    [app: ecnet-controller]: in a cluster whose deployments come from the
    chart the checks pass whatever control planes exist and demand. *)
Theorem preinstall_iff enforce n (s : CmdState W) :
  let c := cluster (cs_world s) in
  cmd_wp (preinstall api enforce n) (fun r s' =>
    cluster (cs_world s') = c /\
    (r = inr tt <-> single_ok enforce c /\ ~ hosts_controller c n) /\
    (Forall from_chart (cl_deployments c) -> r = inr tt)) s.
Proof.
  intros c. destruct (preinstall_decides api enforce n s) as [Hc Hr]. fold c in Hc, Hr.
  split; [exact Hc|]. split; [exact Hr|]. intros Hchart. by apply Hr, chart_checks.
Qed.

(** The chart labels its controller [app: ecnet-controller], the commands
    look for [app: ecnet-ctrlplane]. So in a cluster whose deployments come
    from the chart the installation checks pass whatever control planes
    exist and demand, the list command finds no control plane, and
    uninstalling reports that there is none and removes nothing. *)
Theorem chart_control_planes_unseen settings d enforce n (s : CmdState W) :
  Forall from_chart (cl_deployments (cluster (cs_world s))) ->
  IsManaged settings = false ->
  (preinstall api enforce n s).1 = inr tt /\
  cmd_wp (ecnetList_run api) (fun r s' => r = inr tt /\
    cs_out s' = cs_out s ++ [Text ("No ecnet control planes found" +:+ eol)]) s /\
  cmd_wp (uninstall_run api settings d) (fun r s' => r = inr tt /\
    cluster (cs_world s') = cluster (cs_world s) /\
    cs_out s' = cs_out s ++ [Text ("No ECNET control planes found" +:+ eol)]) s.
Proof.
  intros Hc Hm. split_and!.
  - destruct (preinstall_decides api enforce n s) as [_ H]. by apply H, chart_checks.
  - unfold ecnetList_run. cmd_step. cmd_step. apply wp_no_controllers; [done|].
    intros w1 Hw. simpl. by cmd_step.
  - unfold uninstall_run. rewrite Hm. simpl. cmd_step. unfold listed_ecnets. cmd_step. cmd_step.
    apply wp_no_controllers; [done|]. intros w' Hw. simpl. cmd_step. simpl. by cmd_step.
Qed.

End Chart.

(** ** Witnesses *)

Definition self_hosted : EnvSettings := mkEnvSettings defaultEnvConfig false.

Definition chart_cluster : Cluster :=
  mkCluster {[ "ecnet-system" := mkKNamespace "ecnet-system" ∅ ∅ [] ]}
    [chart_deployment "ecnet-system" "ecnet" "1.0.2" true]
    {["ecnetconfigs.config.flomesh.io"]} {[("ecnet-system", "ecnet")]}.

Lemma chart_cluster_ok : Forall from_chart (cl_deployments chart_cluster).
Proof. repeat constructor. by eexists _, _, _, _. Qed.

Lemma preinstall_iff_witness :
  (preinstall mem_api false "apps" (example_state [])).1 = inr tt /\
  (preinstall mem_api true "apps" (example_state [])).1 <> inr tt /\
  (preinstall mem_api true "ecnet-system" (mkCmdState chart_cluster [] [])).1 = inr tt.
Proof.
  split_and!.
  - apply (proj1 (proj2 (preinstall_iff mem_api false "apps" (example_state [])))). split; [split|].
    + intros d [->|[]%not_elem_of_nil]%elem_of_cons _. by vm_compute.
    + discriminate.
    + intros (d & [->|[]%not_elem_of_nil]%elem_of_cons & [|] & _); done.
  - intros H. apply (proj1 (proj2 (preinstall_iff mem_api true "apps" (example_state [])))) in H as [[_ H] _].
    by apply (H eq_refl (mkDeployment "ecnet-system" "ecnet-controller"
       {[ AppLabel := ECNETControllerName; "ecnetName" := "ecnet" ]})); [left|].
  - exact (proj2 (proj2 (preinstall_iff mem_api true "ecnet-system" (mkCmdState chart_cluster [] [])))
             chart_cluster_ok).
Defined.

Lemma chart_control_planes_unseen_witness :
  (preinstall mem_api true "ecnet-system" (mkCmdState chart_cluster [] [])).1 = inr tt.
Proof.
  exact (proj1 (chart_control_planes_unseen mem_api self_hosted
    (mkUninstallCniCmd "" "ecnet-system" false false false) true "ecnet-system"
    (mkCmdState chart_cluster [] []) chart_cluster_ok eq_refl)).
Defined.
