(* ===== verification/Health.v ===== *)
(** * Probes, the HTTP server, log levels and fatal events
    ([pkg/ecnet/health], [pkg/ecnet/httpserver], [pkg/ecnet/logger],
    [pkg/ecnet/version], [pkg/ecnet/k8s/events])

    What the processes of ecnet share. [net/http] requests are a parameter;
    a handler is a function to the response it writes. *)

From Stdlib Require Import Ascii String.
From S2P Require Import Prelude GoStrings GoIO Constants.

(** ** [health.go] *)

Record Response := mkResponse { rw_Code : Z; rw_Body : string }.

Definition StatusOK : Z := 200.
Definition StatusServiceUnavailable : Z := 503.

(** [Probes]: the interface. *)
Record Probes := mkProbes {
  probe_Liveness : bool;
  probe_Readiness : bool;
  probe_GetID : string
}.

Record HTTPProbe := mkHTTPProbe { hp_URL : string; hp_Protocol : string }.

(** [%s] of an error. *)
Definition fmt_err (err : option string) : string :=
  match err with Some e => e | None => "%!s(<nil>)" end.

Section Handlers.
(** Building a GET request for a URL may fail; sending it yields an error
    or a status code. *)
Context (NewRequest : string -> option string) (Do : string -> string + Z).

Definition Probe (p : HTTPProbe) : Z * option string :=
  match NewRequest (hp_URL p) with
  | Some err => (StatusServiceUnavailable, Some err)
  | None =>
      match Do (hp_URL p) with
      | inl err => (StatusServiceUnavailable, Some err)
      | inr code => (code, None)
      end
  end.

(** The loop over the probes of the process. *)
Fixpoint func_probes (check : Probes -> bool) (msg : string -> string) (probes : list Probes)
  : option Response :=
  match probes with
  | [] => None
  | p :: probes' =>
      if negb (check p) then Some (mkResponse StatusServiceUnavailable (msg (probe_GetID p)))
      else func_probes check msg probes'
  end.

(** The loop over the URLs. *)
Fixpoint url_probes (msg : string -> string -> string) (urls : list HTTPProbe) : option Response :=
  match urls with
  | [] => None
  | u :: urls' =>
      let '(responseCode, err) := Probe u in
      if bool_decide (err <> None) || negb (Z.eqb responseCode StatusOK)
      then Some (mkResponse responseCode (msg (hp_URL u) (fmt_err err)))
      else url_probes msg urls'
  end.

Definition ReadinessHandler (probes : list Probes) (urlProbes : list HTTPProbe) : Response :=
  match func_probes probe_Readiness
          (fun id => "Readiness probe for " +:+ id +:+ " indicates it is not ready") probes with
  | Some r => r
  | None =>
      match url_probes (fun url err => "Readiness probe failed for URL " +:+ url +:+ ": " +:+ err)
              urlProbes with
      | Some r => r
      | None => mkResponse StatusOK ServiceReadyResponse
      end
  end.

Definition LivenessHandler (probes : list Probes) (urlProbes : list HTTPProbe) : Response :=
  match func_probes probe_Liveness
          (fun id => "Liveness probe for " +:+ id +:+ " indicates it is not alive") probes with
  | Some r => r
  | None =>
      match url_probes (fun url err => "Liveness probe failed for URL " +:+ url +:+ ": " +:+ err)
              urlProbes with
      | Some r => r
      | None => mkResponse StatusOK ServiceAliveResponse
      end
  end.

Definition SimpleHandler : Response := mkResponse StatusOK "Health OK".

(** *** What the handlers answer *)

Lemma func_probes_None check msg probes :
  func_probes check msg probes = None <-> Forall (fun p => check p = true) probes.
Proof.
  induction probes as [|p probes IH]; simpl; [by rewrite Forall_nil|].
  rewrite Forall_cons, <- IH. destruct (check p); naive_solver.
Qed.

Lemma func_probes_Some check msg probes r :
  func_probes check msg probes = Some r -> rw_Code r = StatusServiceUnavailable.
Proof. induction probes as [|p probes IH]; [done|]. simpl. destruct (check p); naive_solver. Qed.

Lemma url_probes_None msg urls :
  url_probes msg urls = None <-> Forall (fun u => Probe u = (StatusOK, None)) urls.
Proof.
  induction urls as [|u urls IH]; simpl; [by rewrite Forall_nil|].
  rewrite Forall_cons, <- IH. destruct (Probe u) as [code [err|]]; simpl; [naive_solver|].
  destruct (Z.eqb_spec code StatusOK) as [->|]; simpl; naive_solver.
Qed.

(** The first URL that fails. *)
Definition first_failure (urls : list HTTPProbe) : option (Z * option string) :=
  first_some (fun u => if bool_decide (Probe u = (StatusOK, None)) then None else Some (Probe u)) urls.

Lemma url_probes_code msg urls :
  rw_Code <$> url_probes msg urls = fst <$> first_failure urls.
Proof.
  unfold first_failure. induction urls as [|u urls IH]; [done|]. simpl.
  destruct (Probe u) as [code [err|]]; simpl.
  { by rewrite bool_decide_eq_false_2 by congruence. }
  destruct (Z.eqb_spec code StatusOK) as [->|]; simpl; [done|].
  by rewrite bool_decide_eq_false_2 by congruence.
Qed.

Lemma url_probes_body msg urls r :
  url_probes msg urls = Some r -> exists url err, rw_Body r = msg url err.
Proof.
  induction urls as [|u urls IH]; [done|]. simpl. destruct (Probe u) as [code err].
  destruct (_ || _); [|done]. intros [= <-]. by eexists _, _.
Qed.

(** A service is reported ready exactly when every probe of the process is
    ready and every URL answers 200. Else the code is 503, or the code of
    the first URL that failed: a URL that answers 204 or 302 makes the
    handler answer 204 or 302. *)
Theorem readiness_spec probes urls :
  let r := ReadinessHandler probes urls in
  (r = mkResponse StatusOK ServiceReadyResponse <->
     Forall (fun p => probe_Readiness p = true) probes /\
     Forall (fun u => Probe u = (StatusOK, None)) urls) /\
  (~ Forall (fun p => probe_Readiness p = true) probes -> rw_Code r = StatusServiceUnavailable) /\
  (Forall (fun p => probe_Readiness p = true) probes ->
     forall code err, first_failure urls = Some (code, err) -> rw_Code r = code).
Proof.
  intros r. unfold r, ReadinessHandler.
  set (fmsg := fun id => "Readiness probe for " +:+ id +:+ " indicates it is not ready").
  set (umsg := fun url err => "Readiness probe failed for URL " +:+ url +:+ ": " +:+ err).
  rewrite <- (func_probes_None probe_Readiness fmsg probes), <- (url_probes_None umsg urls).
  pose proof (url_probes_code umsg urls) as Hc.
  destruct (func_probes _ _ probes) as [r1|] eqn:E1.
  { apply func_probes_Some in E1. split_and!; [|done|done]. split; [by intros ->|by intros [? _]]. }
  destruct (url_probes umsg urls) as [r2|] eqn:E2; simpl in Hc.
  - apply url_probes_body in E2 as (url & err & Hb). split_and!; [|done|].
    + split; [by intros ->|by intros [_ ?]].
    + intros _ code e Hf. rewrite Hf in Hc. by injection Hc.
  - split_and!; [done|done|]. intros _ code e Hf. by rewrite Hf in Hc.
Qed.

End Handlers.

(** ** [httpserver.go]

    A started server runs [ListenAndServe] in a goroutine; [Stop] shuts the
    server down and waits for the goroutine on an unbuffered channel. A
    server that was shut down makes [ListenAndServe] return at once, also
    when it had not begun to listen. *)

(** The goroutine of [Start]. *)
Inductive ServeRoutine := Listening | SendingStop.

(** The caller of [Stop] between [Shutdown] and the receive. *)
Inductive StopCall := NotStopping | AwaitingStop.

Record HTTPServer := mkHTTPServer {
  hs_started : bool;
  hs_shutdown : bool;
  hs_routines : list ServeRoutine;
  hs_stopping : StopCall;
  hs_mux : gset string;
  hs_port : Z
}.

Definition NewHTTPServer (port : Z) : HTTPServer :=
  mkHTTPServer false false [] NotStopping ∅ uint16(port).

(** [ServeMux.Handle] panics when the pattern is registered already. *)
Definition AddHandler (url : string) (s : HTTPServer) : outcome HTTPServer :=
  if bool_decide (url ∈ hs_mux s) then Panic
  else Ret (mkHTTPServer (hs_started s) (hs_shutdown s) (hs_routines s) (hs_stopping s)
              (hs_mux s ∪ {[url]}) (hs_port s)).

(** [AddHandlers] ranges over a map: the order of its keys is any order,
    and each comes once. *)
Definition AddHandlers (urls : list string) (s : HTTPServer) : outcome HTTPServer :=
  for_range (fun s url => AddHandler url s) s urls.

Definition hs_Start (s : HTTPServer) : HTTPServer :=
  if hs_started s then s
  else mkHTTPServer true (hs_shutdown s) (hs_routines s ++ [Listening]) (hs_stopping s)
         (hs_mux s) (hs_port s).

(** [Stop] up to the receive: nothing when it is not started; a [Shutdown]
    that times out is returned as an error, with the server shut down. *)
Definition hs_Stop (shutdownErr : option string) (s : HTTPServer) : HTTPServer :=
  if negb (hs_started s) then s
  else mkHTTPServer true true (hs_routines s)
         (match shutdownErr with Some _ => NotStopping | None => AwaitingStop end)
         (hs_mux s) (hs_port s).

(** [Stop] after the receive: a new server, so that it can start again. *)
Definition hs_stopped (routines : list ServeRoutine) (s : HTTPServer) : HTTPServer :=
  mkHTTPServer false false routines NotStopping (hs_mux s) (hs_port s).

(** The goroutines. A listener that fails for another reason than the
    shutdown ends the process and is no step. *)
Inductive hs_step : HTTPServer -> HTTPServer -> Prop :=
| hs_returns s r1 r2 :
    hs_shutdown s = true -> hs_routines s = r1 ++ Listening :: r2 ->
    hs_step s (mkHTTPServer (hs_started s) true (r1 ++ SendingStop :: r2) (hs_stopping s)
                 (hs_mux s) (hs_port s))
| hs_syncs s r1 r2 :
    hs_stopping s = AwaitingStop -> hs_routines s = r1 ++ SendingStop :: r2 ->
    hs_step s (hs_stopped (r1 ++ r2) s).

(** One caller uses the server: while [Stop] waits it makes no other
    call. *)
Inductive hs_use : HTTPServer -> HTTPServer -> Prop :=
| use_start s : hs_stopping s = NotStopping -> hs_use s (hs_Start s)
| use_stop s err : hs_stopping s = NotStopping -> hs_use s (hs_Stop err s)
| use_step s s' : hs_step s s' -> hs_use s s'.

Definition hs_inv (s : HTTPServer) : Prop :=
  match hs_routines s with
  | [] => hs_started s = false /\ hs_shutdown s = false /\ hs_stopping s = NotStopping
  | [Listening] => hs_started s = true /\ (hs_stopping s = AwaitingStop -> hs_shutdown s = true)
  | [SendingStop] => hs_started s = true /\ hs_shutdown s = true
  | _ => False
  end.

Lemma hs_inv_use s s' : hs_inv s -> hs_use s s' -> hs_inv s'.
Proof.
  intros Hi Hu. destruct Hu as [s Hs|s err Hs|s s' Hstep].
  - unfold hs_Start. destruct (hs_started s) eqn:E; [done|]. unfold hs_inv in *. simpl.
    destruct (hs_routines s) as [|[] [|]]; simpl; intuition congruence.
  - unfold hs_Stop. destruct (hs_started s) eqn:E; simpl; [|done]. unfold hs_inv in *. simpl.
    destruct (hs_routines s) as [|[] [|]]; destruct err; simpl; intuition congruence.
  - destruct Hstep as [s r1 r2 Hsd Hr|s r1 r2 Hw Hr]; unfold hs_inv in *; rewrite Hr in Hi; simpl in *.
    + destruct r1 as [|[] [|]]; destruct r2; simpl in *; intuition congruence.
    + destruct r1 as [|[] [|]]; destruct r2; simpl in *; intuition congruence.
Qed.

(** Starting and stopping, in any order and with shutdowns that fail, keep
    exactly one serving goroutine while the server is started and none
    otherwise. A call of [Stop] that waits is never left waiting: the
    goroutines can always bring it to its end, which takes at most two of
    their steps, and it leaves a server that can be started again. *)
Theorem http_server_lifecycle port s :
  rtc hs_use (NewHTTPServer port) s ->
  length (hs_routines s) = (if hs_started s then 1%nat else 0%nat) /\
  (hs_stopping s = AwaitingStop ->
     (exists s', hs_step s s') /\
     forall s', hs_step s s' ->
       s' = hs_stopped [] s \/
       (hs_stopping s' = AwaitingStop /\ forall s'', hs_step s' s'' -> s'' = hs_stopped [] s)).
Proof.
  intros Hr. assert (hs_inv s) as Hi.
  { assert (hs_inv (NewHTTPServer port)) as H0 by done. revert H0.
    induction Hr as [|s1 s2 s3 Hu _ IH]; [done|]. intros H. by eapply IH, hs_inv_use. }
  split.
  { unfold hs_inv in Hi. destruct (hs_routines s) as [|[] [|]]; try done; by destruct Hi as [-> _]. }
  intros Hw. unfold hs_inv in Hi. destruct (hs_routines s) as [|[] [|]] eqn:E; try (exfalso; intuition congruence).
  - destruct Hi as [Hst Hsd]. specialize (Hsd Hw). split.
    + eexists. by apply (hs_returns s [] []).
    + intros s' Hs. right. destruct Hs as [s r1 r2 _ Hr1|s r1 r2 _ Hr1]; rewrite E in Hr1;
        destruct r1 as [|? []], r2; simplify_eq. split; [done|]. intros s'' Hs.
      inversion Hs as [? q1 q2 _ Hq|? q1 q2 _ Hq]; subst; simpl in Hq;
        destruct q1 as [|? []], q2; simplify_eq. done.
  - split.
    + eexists. by apply (hs_syncs s [] []).
    + intros s' Hs. left. destruct Hs as [s r1 r2 _ Hr1|s r1 r2 _ Hr1]; rewrite E in Hr1;
        destruct r1 as [|? []], r2; by simplify_eq.
Qed.

Lemma http_server_lifecycle_witness :
  exists s, rtc hs_use (NewHTTPServer 9091) s /\ hs_stopping s = AwaitingStop /\
    exists s', hs_step s s'.
Proof.
  set (s := hs_Stop None (hs_Start (NewHTTPServer 9091))).
  assert (rtc hs_use (NewHTTPServer 9091) s) as Hr.
  { eapply rtc_l; [by apply use_start|]. eapply rtc_once. by apply use_stop. }
  exists s. split_and!; [done|done|].
  by apply (proj2 (http_server_lifecycle 9091 s Hr)).
Defined.

(** ** [logger.go] *)

Inductive Level := DebugLevel | InfoLevel | WarnLevel | ErrorLevel | FatalLevel | PanicLevel
  | Disabled | TraceLevel.

Definition AllowedLevels : list string :=
  ["debug"; "info"; "warn"; "error"; "fatal"; "panic"; "disabled"; "trace"].

(** [path.Base] of a name without a trailing slash. *)
Definition path_Base (p : string) : string := default "" (last (Split p "/")).

(** A logger of zerolog: the fields of its messages, its hooks, and whether
    it writes to the console in a readable form. A hook adds fields, from the
    caller of the logger where it is known. *)
Definition Hook : Type := option (string * Z) -> list (string * string).

Record Logger := mkLogger {
  lg_fields : list (string * string);
  lg_hooks : list Hook;
  lg_console : bool
}.

Definition CallerHook_Run : Hook := fun caller =>
  match caller with
  | Some (file, line) => [("file", path_Base file +:+ ":" +:+ fmt_d line)]
  | None => []
  end.

Definition newLogger (component : string) : Logger := mkLogger [("component", component)] [CallerHook_Run] false.

Definition NewPretty (component : string) : Logger :=
  let l := newLogger component in mkLogger (lg_fields l) (lg_hooks l) true.

Definition EnvVarHumanReadableLogMessages : string := "ECNET_HUMAN_DEBUG_LOG".

(** [Getenv] is the environment. *)
Definition New (Getenv : string -> string) (component : string) : Logger :=
  if String.eqb (Getenv EnvVarHumanReadableLogMessages) "true" then NewPretty component else newLogger component.

Definition logged (l : Logger) (caller : option (string * Z)) : list (string * string) :=
  lg_fields l ++ flat_map (fun h => h caller) (lg_hooks l).

(** Every message names its component and, where it is known, the file and
    line it comes from, in whatever form it is written. *)
Lemma logger_fields Getenv component file line :
  logged (New Getenv component) (Some (file, line)) =
    [("component", component); ("file", path_Base file +:+ ":" +:+ fmt_d line)] /\
  (lg_console (New Getenv component) = true <-> Getenv EnvVarHumanReadableLogMessages = "true").
Proof. unfold New. by destruct (String.eqb_spec (Getenv EnvVarHumanReadableLogMessages) "true"). Qed.

(** The new global level, or the error. *)
Definition SetLogLevel (verbosity : string) : string + Level :=
  let v := ToLower verbosity in
  if String.eqb v "debug" then inr DebugLevel
  else if String.eqb v "info" then inr InfoLevel
  else if String.eqb v "warn" then inr WarnLevel
  else if String.eqb v "error" then inr ErrorLevel
  else if String.eqb v "fatal" then inr FatalLevel
  else if String.eqb v "panic" then inr PanicLevel
  else if String.eqb v "disabled" then inr Disabled
  else if String.eqb v "trace" then inr TraceLevel
  else inl ("Invalid log level '" +:+ verbosity +:+ "' specified. Please specify one of ["
            +:+ Join AllowedLevels " " +:+ "]").

Definition level_name (l : Level) : string :=
  match l with
  | DebugLevel => "debug" | InfoLevel => "info" | WarnLevel => "warn" | ErrorLevel => "error"
  | FatalLevel => "fatal" | PanicLevel => "panic" | Disabled => "disabled" | TraceLevel => "trace"
  end.

Lemma SetLogLevel_iff v l : SetLogLevel v = inr l <-> ToLower v = level_name l.
Proof.
  unfold SetLogLevel. split.
  - repeat (case_match; [intros [= <-]; by apply String.eqb_eq|]). by intros [=].
  - intros ->. by destruct l.
Qed.

(** ** [version.go] *)

Record Info := mkInfo { info_Version : string; info_GitCommit : string; info_BuildDate : string }.

Section Version.
(** The variables the linker sets, and [json.Marshal]. *)
Context (Version GitCommit BuildDate : string) (Marshal : Info -> string + string).

Definition GetInfo : Info := mkInfo Version GitCommit BuildDate.

(** The body the handler writes: nothing when marshalling fails. *)
Definition GetVersionHandler : Response :=
  match Marshal GetInfo with
  | inl _ => mkResponse StatusOK ""
  | inr json => mkResponse StatusOK json
  end.

End Version.

(** ** [events.go]

    The event recorder of a process. The recorder and the watch are
    client-go code: an event that is recorded joins the list of events, and
    the watch is the list of what it delivers before the timeout or before
    its channel is closed. *)

Definition EventTypeNormal : string := "Normal".
Definition EventTypeWarning : string := "Warning".
Definition fatalEventPrefix : string := "Fatal".
Definition InvalidCLIParameters : string := "FatalInvalidCLIParameters".
Definition InitializationError : string := "FatalInitializationError".

Record Event := mkEvent { ev_Type : string; ev_Reason : string; ev_Message : string }.

(** What a watch delivers: an event with its reason, or another object,
    such as the status that reports a failed watch. *)
Inductive WatchItem := WatchedEvent (reason : string) | OtherObject.

Record EventRecorder := mkEventRecorder {
  er_recorder : bool;
  er_object : bool;
  er_watcher : option (list WatchItem)
}.

(** [GenericEventRecorder()] before [Initialize]. *)
Definition uninitialized_recorder : EventRecorder := mkEventRecorder false false None.

(** [Initialize] with a pod: only the watch can fail. *)
Definition Initialize (watch : string + list WatchItem) (e : EventRecorder)
  : EventRecorder * option string :=
  match watch with
  | inl err => (mkEventRecorder true true None, Some err)
  | inr items => (mkEventRecorder true true (Some items), None)
  end.

Definition NewEventRecorder (watch : string + list WatchItem) : string + EventRecorder :=
  match watch with
  | inl err => inl err
  | inr items => inr (mkEventRecorder true true (Some items))
  end.

Definition recordEvent (e : EventRecorder) (eventType reason message : string)
  (recorded : list Event) : list Event :=
  if negb (er_recorder e) || negb (er_object e) then recorded
  else recorded ++ [mkEvent eventType reason message].

Definition NormalEvent (e : EventRecorder) (reason message : string) : list Event -> list Event :=
  recordEvent e EventTypeNormal reason message.

Definition WarnEvent (e : EventRecorder) (reason message : string) : list Event -> list Event :=
  recordEvent e EventTypeWarning reason message.

Definition ErrorEvent (e : EventRecorder) (reason message : string) : list Event -> list Event :=
  recordEvent e EventTypeWarning reason message.

(** The loop over the watch; the assertion that an object is an event
    panics for any other object. *)
Fixpoint wait_on_events (items : list WatchItem) : outcome () :=
  match items with
  | [] => Ret tt
  | OtherObject :: _ => Panic
  | WatchedEvent reason :: items' =>
      if HasPrefix reason fatalEventPrefix then Ret tt else wait_on_events items'
  end.

(** A recorder without a watch is a nil interface: calling it panics. *)
Definition waitForFatalEvent (e : EventRecorder) : outcome () :=
  items ← deref (er_watcher e); wait_on_events items.

(** The events recorded and the text of the fatal log entry that ends the
    process. *)
Definition FatalEvent (e : EventRecorder) (err reason message : string) (recorded : list Event)
  : outcome (list Event * string) :=
  let recorded := recordEvent e EventTypeWarning reason message recorded in
  waitForFatalEvent e ≫= fun _ => Ret (recorded, message +:+ ": " +:+ err).

Lemma wait_on_events_returns items :
  Forall (fun i => i <> OtherObject) items -> wait_on_events items = Ret tt.
Proof.
  induction 1 as [|[reason|] items Hi _ IH]; simpl; [done| |done]. by destruct (HasPrefix _ _).
Qed.

(** A fatal error is recorded as a warning event and then logged when the
    recorder was initialised with a watch that delivers events; before it
    is initialised, and after an initialisation whose error is passed over,
    the process panics and neither happens. *)
Theorem fatal_event_spec err reason message recorded :
  (forall items, Forall (fun i => i <> OtherObject) items ->
     FatalEvent (Initialize (inr items) uninitialized_recorder).1 err reason message recorded
     = Ret (recorded ++ [mkEvent EventTypeWarning reason message], message +:+ ": " +:+ err)) /\
  FatalEvent uninitialized_recorder err reason message recorded = Panic /\
  forall e, FatalEvent (Initialize (inl e) uninitialized_recorder).1 err reason message recorded
            = Panic.
Proof.
  split_and!; [|done|done]. intros items Hi. unfold FatalEvent, waitForFatalEvent. simpl.
  by rewrite wait_on_events_returns.
Qed.
