(* ===== verification/CliVersion.v ===== *)
(** * The [version] command ([cmd/ecnet/cli/version.go],
    [version_latest.go])

    The versions of the control planes of a cluster, asked for through the
    API server's proxy to a pod of each, and the note on a newer release.
    The proxy, the JSON decoders, GitHub's answer, Kubernetes' semantic
    versions and the text of several errors are parameters. *)

From Stdlib Require Import Ascii String.
From S2P Require Import Prelude GoStrings GoIO Constants ApiTypes KubeAPI CliNamespace CliEcnet Health.

Definition VersionPath : string := "/version".

(** ** What the command calls *)

Record VersionAPI (W SemVer : Type) := mkVersionAPI {
  Pods_List : string -> string -> W -> (ApiError + list KPod) * W;
  (** pod, namespace, port, path *)
  ProxyGet : string -> string -> string -> string -> W -> (ApiError + string) * W;
  Unmarshal_Info : string -> string + Info;
  (** the request to GitHub: creating it, its answer, the decoded object
      with its values printed *)
  New_Request : option string;
  Do_Request : W -> (ApiError + string) * W;
  Decode_Release : string -> string + gmap string string;
  ParseSemantic : string -> string + SemVer;
  LessThan : SemVer -> SemVer -> bool;
  (** [multierror.Error] *)
  multi_Error : list string -> string
}.
Arguments Pods_List {W SemVer}.
Arguments ProxyGet {W SemVer}.
Arguments Unmarshal_Info {W SemVer}.
Arguments New_Request {W SemVer}.
Arguments Do_Request {W SemVer}.
Arguments Decode_Release {W SemVer}.
Arguments ParseSemantic {W SemVer}.
Arguments LessThan {W SemVer}.
Arguments multi_Error {W SemVer}.

Record remoteVersionInfo := mkRemoteVersionInfo {
  rv_ecnetName : string;
  rv_namespace : string;
  rv_version : option Info
}.

Record versionCmd := mkVersionCmd { ver_clientOnly : bool; ver_versionOnly : bool }.

Section Version.
Context {W SemVer : Type} (api : KubeAPI W) (vapi : VersionAPI W SemVer).

Definition getControllerPods (namespace : string) : Cmd W (ApiError + list KPod) :=
  cmd_call (Pods_List vapi namespace (set_String AppLabel ECNETControllerName)).

Definition proxyGetEcnetVersion (pod namespace : string) : Cmd W Info :=
  resp ← cmd_call (ProxyGet vapi pod namespace (fmt_d ECNETHTTPServerPort) VersionPath);
  match resp with
  | inl err =>
      cmd_fail ("Error retrieving mesh version from pod [" +:+ pod +:+ "] in namespace ["
                +:+ namespace +:+ "]: " +:+ err_Error err)
  | inr resp =>
      if Nat.eqb (String.length resp) 0 then
        cmd_fail ("Empty response received from pod [" +:+ pod +:+ "] in namespace ["
                  +:+ namespace +:+ "]: %!w(<nil>)")
      else
        match Unmarshal_Info vapi resp with
        | inl err =>
            cmd_fail ("Error unmarshalling retrieved mesh version from pod [" +:+ pod
                      +:+ "] in namespace [" +:+ namespace +:+ "]: " +:+ err)
        | inr versionInfo => mret versionInfo
        end
  end.

Definition getEcnetVersion (namespace : string) : Cmd W remoteVersionInfo :=
  r ← getControllerPods namespace;
  match r with
  | inl err => cmd_fail (err_Error err)
  | inr [] => mret (mkRemoteVersionInfo "" "" None)
  | inr (controllerPod :: _) =>
      version ← proxyGetEcnetVersion (pod_Name controllerPod) namespace;
      mret (mkRemoteVersionInfo (map_get (pod_Labels controllerPod) ECNETAppInstanceLabelKey)
              namespace (Some version))
  end.

(** The row of an ecnet; [None] is the dereference of a nil version. *)
Definition version_row (r : remoteVersionInfo) : option string :=
  match rv_version r with
  | Some v =>
      Some (rv_ecnetName r +:+ tab +:+ rv_namespace r +:+ tab +:+ info_Version v +:+ tab
            +:+ info_GitCommit v +:+ tab +:+ info_BuildDate v +:+ eol)
  | None => None
  end.

Definition table_header : string :=
  eol +:+ "ECNET NAME" +:+ tab +:+ "ECNET NAMESPACE" +:+ tab +:+ "VERSION" +:+ tab
  +:+ "GIT COMMIT" +:+ tab +:+ "BUILD DATE" +:+ eol.

Fixpoint version_rows (table : string) (l : list (option remoteVersionInfo)) : option string :=
  match l with
  | [] => Some table
  | r :: l' =>
      match r with
      | Some r =>
          if negb (String.eqb (rv_ecnetName r) "") then
            match version_row r with
            | Some row => version_rows (table +:+ row) l'
            | None => None
            end
          else version_rows table l'
      | None => version_rows table l'
      end
  end.

(** The list holds pointers: [None] is nil. *)
Definition outputPrettyVersionInfo (remoteVerList : list (option remoteVersionInfo))
  : option string :=
  match remoteVerList with
  | [] => Some ("Unable to find ECNET control plane in the cluster" +:+ eol)
  | _ => version_rows table_header remoteVerList
  end.

(** ** [version_latest.go] *)

Definition releases_url : string :=
  "https://api.github.com/repos/flomesh-io/ErieCanal/releases/latest".

Definition getLatestReleaseVersion : Cmd W string :=
  match New_Request vapi with
  | Some err =>
      cmd_fail ("unable to create GET request for latest release version from " +:+ releases_url
                +:+ ": " +:+ err)
  | None =>
      resp ← cmd_call (Do_Request vapi);
      match resp with
      | inl err =>
          cmd_fail ("unable to fetch latest release version from " +:+ releases_url +:+ ": "
                    +:+ err_Error err)
      | inr body =>
          match Decode_Release vapi body with
          | inl err =>
              cmd_fail ("unable to decode latest release version information from "
                        +:+ releases_url +:+ ": " +:+ err)
          | inr latestReleaseVersionInfo =>
              match latestReleaseVersionInfo !! "tag_name" with
              | Some latestVersion => mret latestVersion
              | None =>
                  cmd_fail ("tag_name key not found in latest release version information from "
                            +:+ releases_url)
              end
          end
      end
  end.

Definition newer_note (latestRelease : string) : string :=
  eol +:+ "ECNET " +:+ latestRelease +:+ " is now available. Please see https://github.com/flomesh-io/ErieCanal/releases/latest."
  +:+ eol +:+ "WARNING: upgrading could introduce breaking changes. Please review the release notes."
  +:+ eol +:+ eol.

Definition outputLatestReleaseVersion (latestRelease currentRelease : string) : Cmd W () :=
  match ParseSemantic vapi latestRelease with
  | inl err => cmd_fail err
  | inr latest =>
      match ParseSemantic vapi currentRelease with
      | inl err => cmd_fail err
      | inr current =>
          if LessThan vapi current latest then Fprintf (newer_note latestRelease) else mret tt
      end
  end.

(** ** The command *)

Definition mesh_error (m : ecnetInfo) (err : string) : string :=
  "Failed to get mesh version for mesh " +:+ info_name m +:+ " in namespace "
  +:+ info_namespace m +:+ ": " +:+ err.

(** The loop over the ecnets: the versions found, nil for a failure, and
    the errors. *)
Fixpoint version_loop (l : list ecnetInfo) (found : list (option remoteVersionInfo))
  (multiError : list string) : Cmd W (list (option remoteVersionInfo) * list string) :=
  match l with
  | [] => mret (found, multiError)
  | m :: l' =>
      r ← cmd_try (getEcnetVersion (info_namespace m));
      match r with
      | inl err => version_loop l' (found ++ [None]) (multiError ++ [mesh_error m err])
      | inr meshVer => version_loop l' (found ++ [Some meshVer]) multiError
      end
  end.

(** The note on the latest release; the error it adds. *)
Definition latest_note (current : string) : Cmd W (list string) :=
  r ← cmd_try getLatestReleaseVersion;
  match r with
  | inl err => mret ["Failed to get latest release information: " +:+ err]
  | inr latestReleaseVersion =>
      o ← cmd_try (outputLatestReleaseVersion latestReleaseVersion current);
      mret match o with
           | inl err => ["Failed to output latest release information: " +:+ err]
           | inr _ => []
           end
  end.

(** [setKubeClientset]: the errors of the configuration and of the client. *)
Definition setKubeClientset (config clientset : option string) : option string :=
  match config, clientset with
  | Some _, _ => Some "Error fetching kubeconfig"
  | None, Some _ => Some "Could not access Kubernetes cluster, check kubeconfig"
  | None, None => None
  end.

(** The [RunE] closure. [cli] prints the version of the tool; [config] and
    [clientset] are the errors of reaching the cluster. *)
Definition version_RunE (cliVersionInfo : Info) (cli : string) (config clientset : option string)
  (s : EnvSettings) (v : versionCmd) : Cmd W () :=
  Fprintf ("CLI Version: " +:+ cli +:+ eol) ≫= fun _ =>
  if ver_clientOnly v then mret tt
  else
    match setKubeClientset config clientset with
    | Some err => cmd_fail err
    | None =>
        r ← cmd_try (getEcnetInfoList api);
        match r with
        | inl err => cmd_fail ("unable to list meshes within the cluster: " +:+ err)
        | inr ecnetInfoList =>
            loop ← version_loop ecnetInfoList [] [];
            match outputPrettyVersionInfo loop.1 with
            | None => cmd_fail "panic"
            | Some table =>
                cmd_output (Table table) ≫= fun _ =>
                more ← (if negb (IsManaged s) && negb (ver_versionOnly v)
                        then latest_note (info_Version cliVersionInfo) else mret []);
                let multiError := loop.2 ++ more in
                if nonempty multiError then cmd_fail (multi_Error vapi multiError) else mret tt
            end
        end
    end.

End Version.

(** ** What is reported

    The calls of the command read; what they answer is a view of the
    world, which they leave as it is. *)

Class VersionReads {W SemVer : Type} (vapi : VersionAPI W SemVer) : Type := {
  controller_pods : W -> string -> ApiError + list KPod;
  proxied_version : W -> string -> string -> ApiError + string;
  pods_answer : forall ns w,
    (Pods_List vapi ns (set_String AppLabel ECNETControllerName) w).1 = controller_pods w ns;
  pods_reads : forall ns sel w, let w' := (Pods_List vapi ns sel w).2 in
    controller_pods w' = controller_pods w /\ proxied_version w' = proxied_version w;
  proxy_answer : forall pod ns w,
    (ProxyGet vapi pod ns (fmt_d ECNETHTTPServerPort) VersionPath w).1 = proxied_version w pod ns;
  proxy_reads : forall pod ns port path w, let w' := (ProxyGet vapi pod ns port path w).2 in
    controller_pods w' = controller_pods w /\ proxied_version w' = proxied_version w
}.

Fixpoint concat_str (l : list string) : string :=
  match l with [] => "" | s :: l' => s +:+ concat_str l' end.

Section VersionTheorems.
Context {W SemVer : Type} (vapi : VersionAPI W SemVer) `{!VersionReads vapi}.

(** The version of the ecnet in a namespace: its first pod answers. [None]
    is a control plane without pods. *)
Definition mesh_version (w : W) (ns : string) : option (option (string * Info)) :=
  match controller_pods w ns with
  | inl _ => None
  | inr [] => Some None
  | inr (pod :: _) =>
      match proxied_version w (pod_Name pod) ns with
      | inl _ => None
      | inr resp =>
          if Nat.eqb (String.length resp) 0 then None
          else match Unmarshal_Info vapi resp with
               | inl _ => None
               | inr v => Some (Some (map_get (pod_Labels pod) ECNETAppInstanceLabelKey, v))
               end
      end
  end.

(** Two states of the world in which the command sees the same. *)
Definition same_view (w w' : W) : Prop :=
  controller_pods w' = controller_pods w /\ proxied_version w' = proxied_version w.

#[local] Instance same_view_preorder : PreOrder same_view.
Proof. split; [done|]. intros w1 w2 w3 [? ?] [? ?]. split; congruence. Qed.

Lemma same_view_version w w' ns : same_view w w' -> mesh_version w' ns = mesh_version w ns.
Proof. unfold mesh_version. by intros [-> ->]. Qed.

Definition remote_info (ns : string) (v : option (string * Info)) : remoteVersionInfo :=
  match v with
  | Some (name, v) => mkRemoteVersionInfo name ns (Some v)
  | None => mkRemoteVersionInfo "" "" None
  end.

Lemma getEcnetVersion_spec ns (st : CmdState W) :
  cmd_wp (getEcnetVersion vapi ns)
    (fun r st' => same_view (cs_world st) (cs_world st') /\ cs_out st' = cs_out st /\
       match mesh_version (cs_world st) ns with
       | Some v => r = inr (remote_info ns v)
       | None => exists err, r = inl err
       end) st.
Proof.
  unfold getEcnetVersion, getControllerPods, mesh_version. cmd_step. cmd_step.
  pose proof (pods_answer ns (cs_world st)) as Ha.
  pose proof (pods_reads ns (set_String AppLabel ECNETControllerName) (cs_world st)) as Hr.
  destruct (Pods_List vapi ns _ _) as [r w1]. simpl in Ha, Hr |- *. rewrite <- Ha.
  destruct r as [err|[|pod l]]; [cmd_step; eauto|by cmd_step|].
  cmd_step. unfold proxyGetEcnetVersion. cmd_step. cmd_step.
  pose proof (proxy_answer (pod_Name pod) ns w1) as Hpa.
  pose proof (proxy_reads (pod_Name pod) ns (fmt_d ECNETHTTPServerPort) VersionPath w1) as Hpr.
  destruct (ProxyGet vapi _ _ _ _ _) as [resp w2]. simpl in Hpa, Hpr |- *.
  rewrite (proj2 Hr) in Hpa. rewrite <- Hpa.
  assert (same_view (cs_world st) w2) as Hv by (by transitivity w1).
  destruct resp as [err|resp]; [cmd_step; eauto|].
  destruct (Nat.eqb (String.length resp) 0); [cmd_step; eauto|].
  destruct (Unmarshal_Info vapi resp) as [err|v]; cmd_step; [by eauto|]. by cmd_step.
Qed.

(** The entry of an ecnet in the list of versions, and its row. *)
Definition entry (w : W) (m : ecnetInfo) : option remoteVersionInfo :=
  remote_info (info_namespace m) <$> mesh_version w (info_namespace m).

Definition fails (w : W) (m : ecnetInfo) : bool :=
  match mesh_version w (info_namespace m) with None => true | Some _ => false end.

Definition row (w : W) (m : ecnetInfo) : option string :=
  match mesh_version w (info_namespace m) with
  | Some (Some (name, v)) =>
      if String.eqb name "" then None
      else Some (name +:+ tab +:+ info_namespace m +:+ tab +:+ info_Version v +:+ tab
                 +:+ info_GitCommit v +:+ tab +:+ info_BuildDate v +:+ eol)
  | _ => None
  end.

Definition reports (m : ecnetInfo) (e : string) : Prop := exists err, e = mesh_error m err.

Lemma version_loop_spec l found errs (st : CmdState W) :
  cmd_wp (version_loop vapi l found errs)
    (fun r st' => same_view (cs_world st) (cs_world st') /\ cs_out st' = cs_out st /\
       exists es, r = inr (found ++ map (entry (cs_world st)) l, errs ++ es) /\
         Forall2 reports (List.filter (fails (cs_world st)) l) es) st.
Proof.
  revert found errs st. induction l as [|m l IH]; intros found errs st; simpl.
  { cmd_step. split_and!; [done..|]. exists []. by rewrite !app_nil_r. }
  cmd_step. cmd_step. eapply wp_mono; [apply getEcnetVersion_spec|].
  intros r st1 (Hv & Hout & Hr).
  assert (forall m, entry (cs_world st1) m = entry (cs_world st) m) as Hentry.
  { intros m'. unfold entry. by rewrite (same_view_version _ _ _ Hv). }
  assert (forall l, List.filter (fails (cs_world st1)) l = List.filter (fails (cs_world st)) l) as Hfails.
  { intros l'. apply List.filter_ext. intros m'. unfold fails. by rewrite (same_view_version _ _ _ Hv). }
  assert (entry (cs_world st) m = remote_info (info_namespace m) <$>
    mesh_version (cs_world st) (info_namespace m)) as He by done.
  assert (fails (cs_world st) m =
    match mesh_version (cs_world st) (info_namespace m) with None => true | Some _ => false end)
    as Hf by done.
  destruct (mesh_version (cs_world st) (info_namespace m)) as [v|]; rewrite He, Hf.
  - subst r. eapply wp_mono; [apply IH|]. intros r st2 (Hv2 & Hout2 & es & -> & Hes).
    split_and!; [by etransitivity|congruence|]. exists es. rewrite (map_ext _ _ Hentry), <- app_assoc.
    split; [done|]. by rewrite <- Hfails.
  - destruct Hr as [err ->]. eapply wp_mono; [apply IH|]. intros r st2 (Hv2 & Hout2 & es & -> & Hes).
    split_and!; [by etransitivity|congruence|]. exists (mesh_error m err :: es).
    rewrite (map_ext _ _ Hentry), <- !app_assoc. split; [done|]. constructor; [by eexists|].
    by rewrite <- Hfails.
Qed.

Lemma version_rows_spec w l table :
  version_rows table (map (entry w) l) = Some (table +:+ concat_str (omap (row w) l)).
Proof.
  revert table. induction l as [|m l IH]; intros table; simpl; [by rewrite string_app_nil_r|].
  unfold entry at 1, row at 1. destruct (mesh_version w (info_namespace m)) as [[[name v]|]|]; simpl;
    [|apply IH..]. destruct (String.eqb name ""); simpl; [apply IH|].
  by rewrite IH, !string_app_assoc.
Qed.

(** The table lists every control plane whose first pod answered with
    a version and carries a name, in the order of the deployments; a
    control plane that fails hides no other and adds an error that names
    it. Printing the table never dereferences a missing version. *)
Theorem version_reports_all l (st : CmdState W) :
  cmd_wp (version_loop vapi l [] [])
    (fun r st' => exists found es, r = inr (found, es) /\
       outputPrettyVersionInfo found =
         Some (if nonempty l then table_header +:+ concat_str (omap (row (cs_world st)) l)
               else "Unable to find ECNET control plane in the cluster" +:+ eol) /\
       Forall2 reports (List.filter (fails (cs_world st)) l) es) st.
Proof.
  eapply wp_mono; [apply version_loop_spec|]. intros r st' (_ & _ & es & -> & Hes).
  simpl. eexists _, es. split; [reflexivity|]. split; [|done].
  destruct l as [|m l]; [done|]. exact (version_rows_spec (cs_world st) (m :: l) table_header).
Qed.

End VersionTheorems.
