(* ===== verification/Bootstrap.v ===== *)
(** * Bootstrapping ([cmd/ecnet/ecnet-bootstrap], and the start-up checks of
    [cmd/ecnet/ecnet-controller] and [cmd/ecnet/ecnet-bridge])

    The resource definitions and the default configuration of a control
    plane. The Kubernetes clients, [json.Unmarshal], the YAML decoder and
    kubectl's [CreateApplyAnnotation] are parameters; [BootLaws] says what
    they promise. [log.Fatal] ends the process with a message: it is a
    failed command. Where a function both ends the process and returns
    errors, the errors it returns are values. *)

From Stdlib Require Import Ascii String.
From S2P Require Import Prelude GoStrings GoIO Constants ApiTypes KubeAPI Health.

Definition configName : string := "ecnet-config".
Definition presetEcnetConfigName : string := "preset-ecnet-config".
Definition presetEcnetConfigJSONKey : string := "preset-ecnet-config.json".
Definition LastAppliedConfigAnnotation : string :=
  "kubectl.kubernetes.io/last-applied-configuration".

(** ** Objects *)

(** An [EcnetConfig] with its metadata. *)
Record ConfigObject := mkConfigObject {
  co_Name : string;
  co_Annotations : gmap string string;
  co_Spec : EcnetConfigSpec
}.

(** A resource definition: the conversion strategy apart from the rest of
    the specification. *)
Record CRDSpec := mkCRDSpec { spec_Body : string; spec_Conversion : option string }.

Record CRD := mkCRD {
  crd_Name : string;
  crd_Labels : gmap string string;
  crd_Annotations : gmap string string;
  crd_Spec : CRDSpec
}.

Definition NoneConverter : string := "None".

(** A file of the CRD directory: reading and decoding it may fail. *)
Record CRDFile := mkCRDFile { file_Name : string; file_Read : string + (string + CRD) }.

Record BootAPI (W : Type) := mkBootAPI {
  EcnetConfigs_Get : string -> string -> W -> (ApiError + ConfigObject) * W;
  EcnetConfigs_Create : string -> ConfigObject -> W -> (ApiError + unit) * W;
  EcnetConfigs_Update : string -> ConfigObject -> W -> (ApiError + unit) * W;
  ConfigMaps_Get : string -> string -> W -> (ApiError + gmap string string) * W;
  CRDs_Get : string -> W -> (ApiError + CRD) * W;
  CRDs_Create : CRD -> W -> (ApiError + unit) * W;
  CRDs_Update : CRD -> W -> (ApiError + unit) * W;
  Pods_Get : string -> string -> W -> (ApiError + KPod) * W
}.
Arguments EcnetConfigs_Get {W}.
Arguments EcnetConfigs_Create {W}.
Arguments EcnetConfigs_Update {W}.
Arguments ConfigMaps_Get {W}.
Arguments CRDs_Get {W}.
Arguments CRDs_Create {W}.
Arguments CRDs_Update {W}.
Arguments Pods_Get {W}.

(** The libraries a bootstrap uses: decoding the preset specification, and
    the annotation that records the applied configuration. *)
Record BootLib := mkBootLib {
  Unmarshal : string -> string + EcnetConfigSpec;
  AnnotateConfig : ConfigObject -> string + ConfigObject;
  AnnotateCRD : CRD -> string + CRD
}.

Section Bootstrap.
Context {W : Type} (api : BootAPI W) (lib : BootLib).

(** ** The default configuration *)

(** A preset that cannot be decoded ends the process; the error of the
    annotation is returned. *)
Definition buildDefaultEcnetConfig (presets : gmap string string) : Cmd W (string + ConfigObject) :=
  match Unmarshal lib (map_get presets presetEcnetConfigJSONKey) with
  | inl err =>
      cmd_fail ("Error converting preset-ecnet-config json string to ecnetConfig object: " +:+ err)
  | inr spec => mret (AnnotateConfig lib (mkConfigObject configName ∅ spec))
  end.

(** The result is the returned error, if any. A configuration that somebody
    else created since it was not found is as good. *)
Definition createDefaultEcnetConfig (namespace : string) : Cmd W (option string) :=
  cm ← cmd_call (ConfigMaps_Get api namespace presetEcnetConfigName);
  match cm with
  | inl err => mret (Some (err_Error err))
  | inr presets =>
      built ← buildDefaultEcnetConfig presets;
      match built with
      | inl err => mret (Some err)
      | inr defaultEcnetConfig =>
          r ← cmd_call (EcnetConfigs_Create api namespace defaultEcnetConfig);
          match r with
          | inr _ => mret None
          | inl err => if IsAlreadyExists err then mret None else mret (Some (err_Error err))
          end
      end
  end.

Definition ensureEcnetConfig (namespace : string) : Cmd W (option string) :=
  g ← cmd_call (EcnetConfigs_Get api namespace configName);
  match g with
  | inl err =>
      if IsNotFound err then createDefaultEcnetConfig namespace else mret (Some (err_Error err))
  | inr config =>
      match co_Annotations config !! LastAppliedConfigAnnotation with
      | Some _ => mret None
      | None =>
          match AnnotateConfig lib config with
          | inl err => mret (Some err)
          | inr config =>
              u ← cmd_call (EcnetConfigs_Update api namespace config);
              match u with
              | inl err => mret (Some (err_Error err))
              | inr _ => mret None
              end
          end
      end
  end.

(** ** Resource definitions *)

Definition apply_crd (file : CRDFile) : Cmd W () :=
  match file_Read file with
  | inl err => cmd_fail ("Error reading CRD file " +:+ file_Name file +:+ ": " +:+ err)
  | inr (inl err) => cmd_fail ("Error decoding CRD file " +:+ file_Name file +:+ ": " +:+ err)
  | inr (inr crd) =>
      g ← cmd_call (CRDs_Get api (crd_Name crd));
      match g with
      | inl err =>
          if negb (IsNotFound err) then
            cmd_fail ("error getting CRD " +:+ crd_Name crd +:+ ": " +:+ err_Error err)
          else
            match AnnotateCRD lib crd with
            | inl err =>
                cmd_fail ("Error applying annotation to CRD " +:+ crd_Name crd +:+ ": " +:+ err)
            | inr crd =>
                r ← cmd_call (CRDs_Create api crd);
                match r with
                | inl err => cmd_fail ("Error creating crd : " +:+ crd_Name crd +:+ ": " +:+ err_Error err)
                | inr _ => mret tt
                end
            end
      | inr crdExisting =>
          let updated := mkCRD (crd_Name crdExisting) (crd_Labels crdExisting)
            (crd_Annotations crdExisting)
            (mkCRDSpec (spec_Body (crd_Spec crd)) (Some NoneConverter)) in
          r ← cmd_call (CRDs_Update api updated);
          match r with
          | inl err =>
              cmd_fail ("Error updating conversion webhook configuration for crd : "
                        +:+ crd_Name crd +:+ ": " +:+ err_Error err)
          | inr _ => mret tt
          end
      end
  end.

(** The files that match the pattern, or the error of finding them. *)
Definition applyOrUpdateCRDs (glob : string + list CRDFile) : Cmd W () :=
  match glob with
  | inl err => cmd_fail ("error reading files from /ecnet-crds: " +:+ err)
  | inr crdFiles => cmd_for apply_crd crdFiles
  end.

(** ** The pod and the flags *)

(** [getBootstrapPod] and [getECNETControllerPod]: the pod that an
    environment variable names. *)
Definition get_own_pod (variable podName namespace : string) : Cmd W KPod :=
  if String.eqb podName "" then cmd_fail (variable +:+ " env variable cannot be empty")
  else
    r ← cmd_call (Pods_Get api namespace podName);
    match r with inl err => cmd_fail (err_Error err) | inr pod => mret pod end.

Definition getBootstrapPod (podName namespace : string) : Cmd W KPod :=
  get_own_pod "BOOTSTRAP_POD_NAME" podName namespace.

Definition getECNETControllerPod (podName namespace : string) : Cmd W KPod :=
  get_own_pod "CONTROLLER_POD_NAME" podName namespace.

(** The flags of the three processes. *)
Record Flags := mkFlags {
  fl_ecnetName : string;
  fl_ecnetNamespace : string;
  fl_verbosity : string
}.

Definition bootstrap_validateCLIParams (f : Flags) : option string :=
  if String.eqb (fl_ecnetNamespace f) ""
  then Some "Please specify the ECNET namespace using --ecnet-namespace" else None.

Definition controller_validateCLIParams (f : Flags) : option string :=
  if String.eqb (fl_ecnetName f) ""
  then Some "Please specify the ecnet name using --ecnet-name"
  else if String.eqb (fl_ecnetNamespace f) ""
  then Some "Please specify the ECNET namespace using --ecnet-namespace" else None.

Definition bridge_validateCLIParams (f : Flags) : option string :=
  if String.eqb (fl_ecnetName f) ""
  then Some "Please specify the ecnet name using --ecnet-name"
  else if String.eqb (fl_ecnetNamespace f) ""
  then Some "Please specify the ECNET namespace using --ecnet-namespace" else None.

(** What the surroundings of the process yield: the in-cluster
    configuration, the configuration client, the CRD files, the name of the
    pod and the watch on events. *)
Record BootEnv := mkBootEnv {
  be_kubeConfigErr : option string;
  be_configClientErr : option string;
  be_crdFiles : string + list CRDFile;
  be_podName : string;
  be_watch : string + list WatchItem
}.

Definition initiatilizeKubernetesEventsRecorder (env : BootEnv) (namespace : string)
  : Cmd W EventRecorder :=
  r ← cmd_try (getBootstrapPod (be_podName env) namespace);
  match r with
  | inl err => cmd_fail ("Error fetching ecnet-bootstrap pod: " +:+ err)
  | inr _ =>
      let '(recorder, err) := Initialize (be_watch env) uninitialized_recorder in
      match err with Some e => cmd_fail e | None => mret recorder end
  end.

(** [main] up to the started HTTP server, which it then waits on. *)
Definition bootstrap_main (f : Flags) (env : BootEnv) : outcome (Cmd W HTTPServer) :=
  let rest : Cmd W HTTPServer :=
    match SetLogLevel (fl_verbosity f) with
    | inl err => cmd_fail ("Error setting log level: " +:+ err)
    | inr _ =>
    match be_kubeConfigErr env with
    | Some err => cmd_fail ("Error creating kube configs using in-cluster config: " +:+ err)
    | None =>
    match be_configClientErr env with
    | Some err => cmd_fail ("Could not access Kubernetes cluster, check kubeconfig.: " +:+ err)
    | None =>
        applyOrUpdateCRDs (be_crdFiles env) ≫= fun _ =>
        r ← ensureEcnetConfig (fl_ecnetNamespace f);
        match r with
        | Some err =>
            cmd_fail ("Error setting up default EcnetConfig " +:+ configName +:+ " from ConfigMap "
                      +:+ presetEcnetConfigName +:+ ": " +:+ err)
        | None =>
            e ← cmd_try (initiatilizeKubernetesEventsRecorder env (fl_ecnetNamespace f));
            match e with
            | inl err => cmd_fail ("Error initializing Kubernetes events recorder: " +:+ err)
            | inr _ =>
                match AddHandlers ["/version"; "/healthz"] (NewHTTPServer ECNETHTTPServerPort) with
                | Ret s => mret (hs_Start s)
                | Panic => cmd_fail "http: multiple registrations"
                end
            end
        end
    end
    end
    end in
  match bootstrap_validateCLIParams f with
  | Some err =>
      r ← FatalEvent uninitialized_recorder err InvalidCLIParameters
            "Error validating CLI parameters" [];
      Ret (cmd_fail r.2)
  | None => Ret rest
  end.

End Bootstrap.

(** ** What the clients promise *)

(** An object with the applied configuration recorded in its annotations. *)
Definition annotated (o o' : ConfigObject) : Prop :=
  exists v, o' = mkConfigObject (co_Name o)
    (<[LastAppliedConfigAnnotation := v]> (co_Annotations o)) (co_Spec o).

Class BootLaws {W : Type} (api : BootAPI W) (lib : BootLib) : Type := {
  configs : W -> gmap (string * string) ConfigObject;
  configmaps : W -> gmap (string * string) (gmap string string);
  crds : W -> gmap string CRD;
  config_keyed : forall w ns n o, configs w !! (ns, n) = Some o -> co_Name o = n;
  crds_keyed : forall w n x, crds w !! n = Some x -> crd_Name x = n;
  annotate_config : forall o o', AnnotateConfig lib o = inr o' -> annotated o o';
  annotate_crd : forall x x', AnnotateCRD lib x = inr x' ->
    crd_Name x' = crd_Name x /\ crd_Spec x' = crd_Spec x;
  config_get : forall ns n w, let '(r, w') := EcnetConfigs_Get api ns n w in
    configs w' = configs w /\ configmaps w' = configmaps w /\ crds w' = crds w /\
    match r with
    | inr o => configs w !! (ns, n) = Some o
    | inl e => IsNotFound e = true -> configs w !! (ns, n) = None
    end;
  configmap_get : forall ns n w, let '(r, w') := ConfigMaps_Get api ns n w in
    configs w' = configs w /\ configmaps w' = configmaps w /\ crds w' = crds w /\
    match r with inr m => configmaps w !! (ns, n) = Some m | inl _ => True end;
  config_create : forall ns o w, let '(r, w') := EcnetConfigs_Create api ns o w in
    configmaps w' = configmaps w /\ crds w' = crds w /\
    match r with
    | inr _ => configs w' = <[(ns, co_Name o) := o]> (configs w)
    | inl e =>
        (configs w' = configs w /\ (IsAlreadyExists e = true ->
           is_Some (configs w !! (ns, co_Name o)))) \/
        (IsAlreadyExists e = false /\ configs w' = <[(ns, co_Name o) := o]> (configs w))
    end;
  config_update : forall ns o w, let '(r, w') := EcnetConfigs_Update api ns o w in
    configmaps w' = configmaps w /\ crds w' = crds w /\
    match r with
    | inr _ => configs w' = <[(ns, co_Name o) := o]> (configs w)
    | inl e => configs w' = configs w \/ configs w' = <[(ns, co_Name o) := o]> (configs w)
    end;
  crd_get : forall n w, let '(r, w') := CRDs_Get api n w in
    configs w' = configs w /\ configmaps w' = configmaps w /\ crds w' = crds w /\
    match r with
    | inr x => crds w !! n = Some x
    | inl e => IsNotFound e = true -> crds w !! n = None
    end;
  crd_create : forall x w, let '(r, w') := CRDs_Create api x w in
    configs w' = configs w /\ configmaps w' = configmaps w /\
    match r with
    | inr _ => crds w' = <[crd_Name x := x]> (crds w)
    | inl e => crds w' = crds w \/ crds w' = <[crd_Name x := x]> (crds w)
    end;
  crd_update : forall x w, let '(r, w') := CRDs_Update api x w in
    configs w' = configs w /\ configmaps w' = configmaps w /\
    match r with
    | inr _ => crds w' = <[crd_Name x := x]> (crds w)
    | inl e => crds w' = crds w \/ crds w' = <[crd_Name x := x]> (crds w)
    end
}.

Section BootTheorems.
Context {W : Type} (api : BootAPI W) (lib : BootLib) `{!BootLaws api lib}.

(** What ensuring the configuration of a namespace may do to the
    configurations: an existing one keeps its specification and at most
    gains the annotation it lacks; a missing one is created from the
    preset. *)
Definition ensured (ns : string) (w w' : W) : Prop :=
  let key := (ns, configName) in
  (forall k, k <> key -> configs w' !! k = configs w !! k) /\
  match configs w !! key with
  | Some o => configs w' !! key = Some o \/
      (co_Annotations o !! LastAppliedConfigAnnotation = None /\
       exists o', configs w' !! key = Some o' /\ annotated o o')
  | None => configs w' !! key = None \/
      exists presets spec o', configmaps w !! (ns, presetEcnetConfigName) = Some presets /\
        Unmarshal lib (map_get presets presetEcnetConfigJSONKey) = inr spec /\
        configs w' !! key = Some o' /\ annotated (mkConfigObject configName ∅ spec) o'
  end.

(** The configuration of a namespace as it should be after bootstrapping. *)
Definition has_config (ns : string) (w : W) : Prop :=
  exists o, configs w !! (ns, configName) = Some o /\
    is_Some (co_Annotations o !! LastAppliedConfigAnnotation).

Lemma annotated_has o o' : annotated o o' -> is_Some (co_Annotations o' !! LastAppliedConfigAnnotation).
Proof. intros (v & ->). simpl. rewrite lookup_insert_eq. by eexists. Qed.

Lemma annotated_name o o' : annotated o o' -> co_Name o' = co_Name o.
Proof. by intros (v & ->). Qed.

Lemma ensured_same ns w w' : configs w' = configs w -> ensured ns w w'.
Proof.
  intros E. split; [by rewrite E|]. rewrite E. destruct (configs w !! _); by left.
Qed.

(** The preset is there and cannot be decoded. *)
Definition bad_preset (ns : string) (w : W) : Prop :=
  exists presets err, configmaps w !! (ns, presetEcnetConfigName) = Some presets /\
    Unmarshal lib (map_get presets presetEcnetConfigJSONKey) = inl err.

Lemma createDefault_ok ns w (s : CmdState W) :
  configs (cs_world s) = configs w -> configmaps (cs_world s) = configmaps w ->
  crds (cs_world s) = crds w -> configs w !! (ns, configName) = None ->
  cmd_wp (createDefaultEcnetConfig api lib ns) (fun r s' =>
    crds (cs_world s') = crds w /\ ensured ns w (cs_world s') /\
    (r = inr None -> has_config ns (cs_world s')) /\
    (forall e, r = inl e -> bad_preset ns w)) s.
Proof.
  intros Hc Hm Hx Hnone. unfold createDefaultEcnetConfig. cmd_step. apply wp_call.
  pose proof (configmap_get ns presetEcnetConfigName (cs_world s)) as Hg.
  destruct (ConfigMaps_Get api ns presetEcnetConfigName (cs_world s)) as [[e|presets] w1]; simpl.
  { destruct Hg as (H1 & _ & H3 & _). cmd_step. split_and!; [congruence| |done..].
    apply ensured_same. congruence. }
  destruct Hg as (H1 & H2 & H3 & H4). cmd_step. unfold buildDefaultEcnetConfig.
  assert (crds w1 = crds w /\ ensured ns w w1) as [Hs1 Hs2].
  { split; [congruence|]. apply ensured_same. congruence. }
  destruct (Unmarshal lib _) as [err|spec] eqn:Eu.
  { cmd_step. split_and!; [done..|]. intros _ _. exists presets, err. split; [congruence|done]. }
  cmd_step. destruct (AnnotateConfig lib _) as [err|o] eqn:Ea; [by cmd_step|].
  apply annotate_config in Ea as Ho. cmd_step. apply wp_call. simpl.
  pose proof (config_create ns o w1) as Hcr. pose proof (annotated_name _ _ Ho) as Hn. simpl in Hn.
  destruct (EcnetConfigs_Create api ns o w1) as [r w2]. simpl in *. rewrite Hn in Hcr.
  destruct Hcr as (C1 & C2 & C3).
  assert (configs w2 = <[(ns, configName) := o]> (configs w1) ->
    ensured ns w w2 /\ has_config ns w2) as Hnew.
  { intros E. split; [split|].
    - intros k Hk. rewrite E, lookup_insert_ne by done. congruence.
    - rewrite Hnone. right. exists presets, spec, o. rewrite E, lookup_insert_eq. split_and!; congruence.
    - exists o. rewrite E, lookup_insert_eq. split; [done|]. by eapply annotated_has. }
  destruct r as [e|[]].
  - destruct C3 as [[C3 C4]|[C3 C4]].
    + assert (ensured ns w w2) as He by (apply ensured_same; congruence).
      destruct (IsAlreadyExists e) eqn:Ee; cmd_step; split_and!; try done; try congruence.
      intros _. destruct (C4 eq_refl) as [o' Ho']. rewrite H1, Hc in Ho'. congruence.
    + rewrite C3. cmd_step. split_and!; [congruence|by apply Hnew|done..].
  - cmd_step. destruct (Hnew C3). split_and!; [congruence|done..].
Qed.

(** C25: Whatever happens, an existing configuration keeps its specification: it
    gains at most the annotation it lacks, and one that has it is left
    alone, so a second run changes nothing. A missing one is created from
    the preset. Other configurations and the resource definitions are
    untouched. After a success the namespace has an annotated
    configuration. The process ends in it only if there is no configuration
    and the preset cannot be decoded. (Nobody else writes in between; for a
    creation that was overtaken see [createDefault_overtaken].) *)
Theorem ensureEcnetConfig_spec ns (s : CmdState W) :
  cmd_wp (ensureEcnetConfig api lib ns) (fun r s' =>
    crds (cs_world s') = crds (cs_world s) /\
    ensured ns (cs_world s) (cs_world s') /\
    (r = inr None -> has_config ns (cs_world s')) /\
    (forall e, r = inl e ->
       configs (cs_world s) !! (ns, configName) = None /\ bad_preset ns (cs_world s))) s.
Proof.
  unfold ensureEcnetConfig. cmd_step. apply wp_call.
  pose proof (config_get ns configName (cs_world s)) as Hg.
  destruct (EcnetConfigs_Get api ns configName (cs_world s)) as [[e|o] w1]; simpl;
    destruct Hg as (H1 & H2 & H3 & H4).
  { destruct (IsNotFound e) eqn:Ee.
    - eapply wp_mono; [apply (createDefault_ok ns (cs_world s)); simpl; auto|]. naive_solver.
    - cmd_step. split_and!; [done|by apply ensured_same|done..]. }
  destruct (co_Annotations o !! LastAppliedConfigAnnotation) as [v|] eqn:El.
  { cmd_step. split_and!; [done|by apply ensured_same| |done]. intros _. exists o. rewrite H1, El. by eauto. }
  destruct (AnnotateConfig lib o) as [err|o'] eqn:Ea.
  { cmd_step. split_and!; [done|by apply ensured_same|done..]. }
  apply annotate_config in Ea as Ho. cmd_step. apply wp_call. simpl.
  pose proof (config_update ns o' w1) as Hu.
  assert (co_Name o' = configName) as Hn.
  { rewrite (annotated_name _ _ Ho). by eapply config_keyed. }
  destruct (EcnetConfigs_Update api ns o' w1) as [r w2]. simpl in *. rewrite Hn in Hu.
  destruct Hu as (C1 & C2 & C3).
  assert (configs w2 = <[(ns, configName) := o']> (configs w1) ->
    ensured ns (cs_world s) w2 /\ has_config ns w2) as Hnew.
  { intros E. split; [split|].
    - intros k Hk. rewrite E, lookup_insert_ne by done. congruence.
    - rewrite H4. right. split; [done|]. exists o'. by rewrite E, lookup_insert_eq.
    - exists o'. rewrite E, lookup_insert_eq. split; [done|]. by eapply annotated_has. }
  destruct r as [e|[]]; cmd_step.
  - split_and!; [congruence| |done..]. destruct C3 as [C3|C3]; [|by apply Hnew].
    apply ensured_same. congruence.
  - destruct (Hnew C3). split_and!; [congruence|done..].
Qed.

(** Overtaken by another creation: whatever the API server does between the
    calls, when it refuses the creation because the configuration exists by
    then, no error is returned. *)
Theorem createDefault_overtaken ns presets spec o (s : CmdState W) e w1 w2 :
  ConfigMaps_Get api ns presetEcnetConfigName (cs_world s) = (inr presets, w1) ->
  Unmarshal lib (map_get presets presetEcnetConfigJSONKey) = inr spec ->
  AnnotateConfig lib (mkConfigObject configName ∅ spec) = inr o ->
  EcnetConfigs_Create api ns o w1 = (inl e, w2) -> IsAlreadyExists e = true ->
  createDefaultEcnetConfig api lib ns s = (inr None, mkCmdState w2 (cs_out s) (cs_in s)).
Proof.
  intros H1 H2 H3 H4 H5. unfold createDefaultEcnetConfig, buildDefaultEcnetConfig, cmd_call.
  unfold mbind, Cmd_bind. rewrite H1. simpl. rewrite H2, H3. simpl. rewrite H4. simpl. by rewrite H5.
Qed.

(** ** Resource definitions *)

(** The definition of a file as it is installed: created as it is, or the
    specification put into the existing object, without conversion. *)
Definition installs (crd : CRD) (before : option CRD) (x : CRD) : Prop :=
  match before with
  | None => crd_Name x = crd_Name crd /\ crd_Spec x = crd_Spec crd
  | Some old => x = mkCRD (crd_Name old) (crd_Labels old) (crd_Annotations old)
                      (mkCRDSpec (spec_Body (crd_Spec crd)) (Some NoneConverter))
  end.

Definition file_crd (f : CRDFile) : option CRD :=
  match file_Read f with inr (inr crd) => Some crd | _ => None end.

Lemma apply_crd_ok file (s : CmdState W) :
  cmd_wp (apply_crd api lib file) (fun r s' =>
    (forall n, (forall crd, file_crd file = Some crd -> crd_Name crd <> n) ->
       crds (cs_world s') !! n = crds (cs_world s) !! n) /\
    (r = inr tt -> exists crd x, file_crd file = Some crd /\
       crds (cs_world s') !! crd_Name crd = Some x /\
       installs crd (crds (cs_world s) !! crd_Name crd) x)) s.
Proof.
  unfold apply_crd, file_crd. destruct (file_Read file) as [e|[e|crd]]; [by cmd_step..|].
  cmd_step. apply wp_call. pose proof (crd_get (crd_Name crd) (cs_world s)) as Hg.
  destruct (CRDs_Get api (crd_Name crd) (cs_world s)) as [[e|old] w1]; simpl;
    destruct Hg as (_ & _ & H3 & H4).
  - destruct (IsNotFound e) eqn:Ee; simpl; [|cmd_step; by rewrite H3].
    destruct (AnnotateCRD lib crd) as [err|x] eqn:Ea; [cmd_step; by rewrite H3|].
    apply annotate_crd in Ea as [Hn Hs]. cmd_step. apply wp_call. simpl.
    pose proof (crd_create x w1) as Hc. destruct (CRDs_Create api x w1) as [r w2]. simpl in *.
    destruct Hc as (_ & _ & Hc). rewrite Hn, H3 in Hc.
    assert (forall n, (forall c, Some crd = Some c -> crd_Name c <> n) ->
      crds w2 !! n = crds (cs_world s) !! n) as Hframe.
    { intros n Hne. specialize (Hne crd eq_refl).
      destruct r as [e'|]; [destruct Hc as [->| ->]; [done|]|rewrite Hc]; by rewrite lookup_insert_ne. }
    destruct r as [e'|]; cmd_step; (split; [done|]); [done|]. intros _. exists crd, x.
    rewrite Hc, lookup_insert_eq, H4 by done. done.
  - pose proof (crds_keyed _ _ _ H4) as Hk. cmd_step. apply wp_call. simpl.
    set (x := mkCRD _ _ _ _). pose proof (crd_update x w1) as Hc.
    destruct (CRDs_Update api x w1) as [r w2]. simpl in *. destruct Hc as (_ & _ & Hc).
    rewrite Hk, H3 in Hc.
    assert (forall n, (forall c, Some crd = Some c -> crd_Name c <> n) ->
      crds w2 !! n = crds (cs_world s) !! n) as Hframe.
    { intros n Hne. specialize (Hne crd eq_refl).
      destruct r as [e'|]; [destruct Hc as [->| ->]; [done|]|rewrite Hc]; by rewrite lookup_insert_ne. }
    destruct r as [e'|]; cmd_step; (split; [done|]); [done|]. intros _. exists crd, x.
    rewrite Hc, lookup_insert_eq, H4. done.
Qed.

(** When applying files that define different resources succeeds, every
    file was decoded and its definition is installed with the specification
    of the file; an existing object keeps its metadata and loses its
    conversion webhook. Definitions that no file names are never
    touched. *)
Theorem applyOrUpdateCRDs_spec files (s : CmdState W) :
  NoDup (crd_Name <$> omap file_crd files) ->
  cmd_wp (applyOrUpdateCRDs api lib (inr files)) (fun r s' =>
    (forall n, n ∉ crd_Name <$> omap file_crd files ->
       crds (cs_world s') !! n = crds (cs_world s) !! n) /\
    (r = inr tt -> forall f, f ∈ files -> exists crd x, file_crd f = Some crd /\
       crds (cs_world s') !! crd_Name crd = Some x /\
       installs crd (crds (cs_world s) !! crd_Name crd) x)) s.
Proof.
  intros Hnd. simpl. revert s Hnd. induction files as [|f files IH]; intros s Hnd; simpl.
  { apply wp_ret. split; [done|]. by intros _ f []%not_elem_of_nil. }
  cmd_step. eapply wp_mono; [apply apply_crd_ok|]. intros r1 s1 [Hf1 Hok1]. simpl in Hnd.
  assert (forall n, n ∉ crd_Name <$> match file_crd f with Some c => c :: omap file_crd files
      | None => omap file_crd files end -> crds (cs_world s1) !! n = crds (cs_world s) !! n) as Hn1.
  { intros n Hn. apply Hf1. intros crd Hc <-. apply Hn. rewrite Hc. set_solver. }
  destruct r1 as [e|[]]; [by split|]. specialize (Hok1 eq_refl) as (crd & x & Hc & Hx & Hi).
  rewrite Hc in *. simpl in *. apply NoDup_cons in Hnd as [Hni Hnd].
  eapply wp_mono; [by apply IH|]. intros r2 s2 [Hf2 Hok2]. split.
  - intros n Hn. rewrite Hf2 by set_solver. apply Hn1. done.
  - intros -> g [->|Hg]%elem_of_cons.
    + exists crd, x. by rewrite Hf2.
    + destruct (Hok2 eq_refl g Hg) as (c' & x' & Hc' & Hx' & Hi'). exists c', x'. split_and!; [done..|].
      rewrite <- (Hf1 (crd_Name c')); [done|]. intros c0 [= <-] Heq. apply Hni. rewrite Heq.
      apply list_elem_of_fmap. exists c'. split; [done|]. apply elem_of_omap_first. eauto.
Qed.

(** A bootstrap without a namespace panics: the fatal event is sent through
    a recorder that is only initialised later, so the message that names
    the missing flag is never logged. With a namespace it does not. *)
Theorem bootstrap_missing_namespace f env :
  (exists m, bootstrap_main api lib f env = Ret m) <-> fl_ecnetNamespace f <> "".
Proof.
  unfold bootstrap_main, bootstrap_validateCLIParams.
  destruct (String.eqb_spec (fl_ecnetNamespace f) "") as [E|E].
  - split; [by intros [m Hm]|done].
  - split; [done|]. by eexists.
Qed.

End BootTheorems.

(** ** A cluster in memory

    Objects are stored under their names, without them. *)

Record BootWorld := mkBootWorld {
  bw_configs : gmap (string * string) (gmap string string * EcnetConfigSpec);
  bw_configmaps : gmap (string * string) (gmap string string);
  bw_crds : gmap string (gmap string string * gmap string string * CRDSpec)
}.

Definition named_config (k : string * string) (d : gmap string string * EcnetConfigSpec)
  : option ConfigObject := Some (mkConfigObject k.2 d.1 d.2).

Definition named_crd (k : string) (d : gmap string string * gmap string string * CRDSpec)
  : option CRD := Some (mkCRD k d.1.1 d.1.2 d.2).

Definition put_config (ns : string) (o : ConfigObject) (w : BootWorld) : BootWorld :=
  mkBootWorld (<[(ns, co_Name o) := (co_Annotations o, co_Spec o)]> (bw_configs w))
    (bw_configmaps w) (bw_crds w).

Definition put_crd (x : CRD) (w : BootWorld) : BootWorld :=
  mkBootWorld (bw_configs w) (bw_configmaps w)
    (<[crd_Name x := (crd_Labels x, crd_Annotations x, crd_Spec x)]> (bw_crds w)).

Definition answer {A} (o : option A) (w : BootWorld) : (ApiError + A) * BootWorld :=
  (match o with Some a => inr a | None => inl not_found end, w).

Definition mem_boot : BootAPI BootWorld := {|
  EcnetConfigs_Get ns n w := answer (bw_configs w !! (ns, n) ≫= named_config (ns, n)) w;
  EcnetConfigs_Create ns o w :=
    match bw_configs w !! (ns, co_Name o) with
    | Some _ => (inl (mkApiError AlreadyExists "already exists"), w)
    | None => (inr tt, put_config ns o w)
    end;
  EcnetConfigs_Update ns o w := (inr tt, put_config ns o w);
  ConfigMaps_Get ns n w := answer (bw_configmaps w !! (ns, n)) w;
  CRDs_Get n w := answer (bw_crds w !! n ≫= named_crd n) w;
  CRDs_Create x w := (inr tt, put_crd x w);
  CRDs_Update x w := (inr tt, put_crd x w);
  Pods_Get ns n w := answer None w
|}.

(** A library that decodes the empty preset only. *)
Definition mem_lib : BootLib := {|
  Unmarshal s := if String.eqb s "{}" then inr (ec_Spec zero_EcnetConfig) else inl "bad preset";
  AnnotateConfig o := inr (mkConfigObject (co_Name o)
    (<[LastAppliedConfigAnnotation := "{}"]> (co_Annotations o)) (co_Spec o));
  AnnotateCRD x := inr x
|}.

#[global] Instance mem_boot_laws : BootLaws mem_boot mem_lib.
Proof.
  refine {| configs := fun w => map_imap named_config (bw_configs w);
            configmaps := bw_configmaps;
            crds := fun w => map_imap named_crd (bw_crds w) |}; simpl.
  - intros w ns n o. rewrite map_lookup_imap. by intros (d & _ & [= <-])%bind_Some.
  - intros w n x. rewrite map_lookup_imap. by intros (d & _ & [= <-])%bind_Some.
  - intros o o' [= <-]. by eexists.
  - by intros x x' [= <-].
  - intros ns n w. split_and!; [done..|]. rewrite map_lookup_imap.
    by destruct (bw_configs w !! (ns, n)).
  - intros ns n w. split_and!; [done..|]. by destruct (bw_configmaps w !! (ns, n)).
  - intros ns o w. destruct (bw_configs w !! (ns, co_Name o)) as [d|] eqn:E; simpl.
    + split_and!; [done..|]. left. split; [done|]. intros _. rewrite map_lookup_imap, E. by eexists.
    + split_and!; [done..|]. erewrite map_imap_insert_Some by done. by destruct o.
  - intros ns o w. split_and!; [done..|]. erewrite map_imap_insert_Some by done. by destruct o.
  - intros n w. split_and!; [done..|]. rewrite map_lookup_imap. by destruct (bw_crds w !! n).
  - intros x w. split_and!; [done..|]. erewrite map_imap_insert_Some by done. by destruct x.
  - intros x w. split_and!; [done..|]. erewrite map_imap_insert_Some by done. by destruct x.
Defined.

Definition boot_world : BootWorld :=
  mkBootWorld ∅ {[ ("ecnet-system", presetEcnetConfigName) := {[ presetEcnetConfigJSONKey := "{}" ]} ]} ∅.

Example example_ensure :
  (ensureEcnetConfig mem_boot mem_lib "ecnet-system" (mkCmdState boot_world [] [])).1 = inr None.
Proof. by vm_compute. Qed.

Lemma ensureEcnetConfig_spec_witness :
  has_config mem_boot mem_lib "ecnet-system"
    (cs_world (ensureEcnetConfig mem_boot mem_lib "ecnet-system" (mkCmdState boot_world [] [])).2).
Proof.
  exact (proj1 (proj2 (proj2 (ensureEcnetConfig_spec mem_boot mem_lib "ecnet-system"
    (mkCmdState boot_world [] [])))) example_ensure).
Defined.

(** Another bootstrap creates the configuration just before this one. *)
Definition racing_boot : BootAPI BootWorld := {|
  EcnetConfigs_Get := EcnetConfigs_Get mem_boot;
  EcnetConfigs_Create ns o w :=
    EcnetConfigs_Create mem_boot ns o (EcnetConfigs_Create mem_boot ns o w).2;
  EcnetConfigs_Update := EcnetConfigs_Update mem_boot;
  ConfigMaps_Get := ConfigMaps_Get mem_boot;
  CRDs_Get := CRDs_Get mem_boot;
  CRDs_Create := CRDs_Create mem_boot;
  CRDs_Update := CRDs_Update mem_boot;
  Pods_Get := Pods_Get mem_boot
|}.

Definition preset_config : ConfigObject :=
  mkConfigObject configName {[ LastAppliedConfigAnnotation := "{}" ]} (ec_Spec zero_EcnetConfig).

Lemma createDefault_overtaken_witness :
  createDefaultEcnetConfig racing_boot mem_lib "ecnet-system" (mkCmdState boot_world [] [])
  = (inr None, mkCmdState (put_config "ecnet-system" preset_config boot_world) [] []).
Proof.
  apply (createDefault_overtaken racing_boot mem_lib "ecnet-system"
    {[ presetEcnetConfigJSONKey := "{}" ]} (ec_Spec zero_EcnetConfig) preset_config
    (mkCmdState boot_world [] []) (mkApiError AlreadyExists "already exists") boot_world
    (put_config "ecnet-system" preset_config boot_world)); vm_compute; reflexivity.
Defined.

Definition config_crd : CRD :=
  mkCRD "ecnetconfigs.config.flomesh.io" ∅ ∅ (mkCRDSpec "v1alpha1" None).

Definition crd_files : list CRDFile := [mkCRDFile "ecnet_config.yaml" (inr (inr config_crd))].

Example example_apply_crds :
  (applyOrUpdateCRDs mem_boot mem_lib (inr crd_files) (mkCmdState boot_world [] [])).1 = inr tt.
Proof. by vm_compute. Qed.

Lemma applyOrUpdateCRDs_spec_witness :
  exists crd x, file_crd (mkCRDFile "ecnet_config.yaml" (inr (inr config_crd))) = Some crd /\
    crds (cs_world (applyOrUpdateCRDs mem_boot mem_lib (inr crd_files)
                      (mkCmdState boot_world [] [])).2) !! crd_Name crd = Some x /\
    installs crd (crds boot_world !! crd_Name crd) x.
Proof.
  refine (proj2 (applyOrUpdateCRDs_spec mem_boot mem_lib crd_files (mkCmdState boot_world [] []) _)
    example_apply_crds _ _).
  - apply (bool_decide_unpack _). by vm_compute.
  - by left.
Defined.
