(* ===== verification/Informers.v ===== *)
(** * Informers ([pkg/ecnet/k8s/informers])

    An informer's store is client-go code: [Store] is its interface, and
    [store_ok] what its documentation promises. The collection's map from
    informer keys to informers is a record with one optional store per
    key. The informer of a key caches the objects of that kind only, so the
    type assertions of the callers are the types of the fields. *)

From Stdlib Require Import String.
From S2P Require Import Prelude GoStrings ApiTypes.

(** The Go triple [(item, exists, err)]. *)
Definition found (T : Type) : Type := option T * bool * option string.

Record Store (T : Type) := mkStore {
  store_GetByKey : string -> found T;
  store_List : list T
}.
Arguments mkStore {T}.
Arguments store_GetByKey {T}.
Arguments store_List {T}.

(** The store is a map from [namespace/name] keys to objects: lookups do
    not fail, and listing gives every object once. *)
Definition store_ok {T} (key : T -> string) (s : Store T) : Prop :=
  exists m : gmap string T,
    (forall k, store_GetByKey s k = (m !! k, bool_decide (is_Some (m !! k)), None)) /\
    store_List s ≡ₚ (map_to_list m).*2 /\
    (forall k x, m !! k = Some x -> key x = k).

Record InformerCollection := mkInformerCollection {
  ic_ecnetName : string;
  ic_Namespace : option (Store KNamespace);
  ic_Service : option (Store KService);
  ic_Pod : option (Store KPod);
  ic_Endpoints : option (Store KEndpoints);
  ic_ServiceAccount : option (Store KServiceAccount);
  ic_EcnetConfig : option (Store EcnetConfig);
  ic_ServiceImport : option (Store ServiceImport);
  ic_GlobalTrafficPolicy : option (Store GlobalTrafficPolicy)
}.

Definition GetByKey {T} (informer : option (Store T)) (objectKey : string) : found T :=
  match informer with
  | None => (None, false, None)
  | Some i => store_GetByKey i objectKey
  end.

Definition ListInformer {T} (informer : option (Store T)) : list T :=
  match informer with
  | None => []
  | Some i => store_List i
  end.

Definition ic_IsMonitoredNamespace (_ : InformerCollection) (_ : string) : bool := true.

(** A store given by its map, for concrete runs. *)
Definition map_store {T} (m : gmap string T) : Store T :=
  mkStore (fun k => (m !! k, bool_decide (is_Some (m !! k)), None)) (map_to_list m).*2.

Lemma map_store_ok {T} (key : T -> string) (m : gmap string T) :
  (forall k x, m !! k = Some x -> key x = k) -> store_ok key (map_store m).
Proof. intros H. exists m. by repeat split. Qed.

(** A hit: the pattern [exists && err == nil] of the callers. *)
Definition hit {T} (r : found T) : option T :=
  match r with (item, true, None) => item | _ => None end.

Lemma hit_store_ok {T} (key : T -> string) s k x :
  store_ok key s -> hit (store_GetByKey s k) = Some x -> key x = k /\ x ∈ store_List s.
Proof.
  intros (m & Hget & Hlist & Hkey). rewrite Hget. destruct (m !! k) as [y|] eqn:E; [|done].
  intros [= ->]. split; [by apply Hkey|]. rewrite Hlist, list_elem_of_fmap.
  exists (k, x). split; [done|]. by apply elem_of_map_to_list.
Qed.
