(* ===== verification/InformerFactory.v ===== *)
(** * Shared informers and listers ([pkg/ecnet/gen/client/*/informers],
      [pkg/ecnet/gen/client/*/listers])

    A factory keeps one informer per type and runs each of them once. The
    two factories are generated from one template and differ in the group
    they serve. Informers are allocated in a heap and are shared by
    reference; [Pool] is the heap with the goroutines that run informers.

    The informers themselves are client-go code: an informer is what it was
    made from, its list and watch functions, its resync period and its
    indexers. A goroutine that runs an informer returns after its stop channel was
    closed. *)

From Stdlib Require Import String.
From S2P Require Import Prelude GoStrings GoIO Constants MeshService ApiTypes KubeAPI RestClient Informers.

Section Factories.
Context {Obj : Type} (Name : Obj -> string) {RO : RangeOrder}.

(** ** Informers and the goroutines that run them *)

Record SharedIndexInformer := mkSharedIndexInformer {
  inf_ListFunc : ListOptions -> RestRequest Obj;
  inf_WatchFunc : ListOptions -> RestRequest Obj;
  inf_Type : string;
  inf_ResyncPeriod : Z;
  inf_Indexers : list string
}.

(** An informer is a reference into [p_heap]; a run is the informer and
    the stop channel it was started with. *)
Record Pool := mkPool {
  p_heap : list SharedIndexInformer;
  p_runs : list (nat * nat);
  p_running : list (nat * nat)
}.

Definition alloc (i : SharedIndexInformer) (p : Pool) : nat * Pool :=
  (length (p_heap p), mkPool (p_heap p ++ [i]) (p_runs p) (p_running p)).

(** [go informer.Run(stopCh)]. *)
Definition go_Run (informer stopCh : nat) (p : Pool) : Pool :=
  mkPool (p_heap p) (p_runs p ++ [(informer, stopCh)]) (p_running p ++ [(informer, stopCh)]).

(** ** The factory *)

Definition TweakListOptionsFunc : Type := option (ListOptions -> ListOptions).

Record sharedInformerFactory := mkFactory {
  f_client : GroupClient;
  f_namespace : string;
  f_tweakListOptions : TweakListOptionsFunc;
  f_defaultResync : Z;
  f_customResync : gmap string Z;
  f_informers : gmap string nat;
  f_startedInformers : gmap string bool;
  f_wg : Z;
  f_shuttingDown : bool
}.

Definition set_informers (f : sharedInformerFactory) (m : gmap string nat) : sharedInformerFactory :=
  mkFactory (f_client f) (f_namespace f) (f_tweakListOptions f) (f_defaultResync f) (f_customResync f)
    m (f_startedInformers f) (f_wg f) (f_shuttingDown f).
Definition set_started (f : sharedInformerFactory) (m : gmap string bool) (wg : Z) : sharedInformerFactory :=
  mkFactory (f_client f) (f_namespace f) (f_tweakListOptions f) (f_defaultResync f) (f_customResync f)
    (f_informers f) m wg (f_shuttingDown f).

(** Options. *)
Definition SharedInformerOption : Type := sharedInformerFactory -> sharedInformerFactory.

Definition WithCustomResyncConfig (resyncConfig : gmap string Z) : SharedInformerOption := fun f =>
  mkFactory (f_client f) (f_namespace f) (f_tweakListOptions f) (f_defaultResync f)
    (foldl (fun m '(k, v) => <[k := v]> m) (f_customResync f) (range resyncConfig))
    (f_informers f) (f_startedInformers f) (f_wg f) (f_shuttingDown f).

Definition WithTweakListOptions (tweak : TweakListOptionsFunc) : SharedInformerOption := fun f =>
  mkFactory (f_client f) (f_namespace f) tweak (f_defaultResync f) (f_customResync f)
    (f_informers f) (f_startedInformers f) (f_wg f) (f_shuttingDown f).

Definition WithNamespace (namespace : string) : SharedInformerOption := fun f =>
  mkFactory (f_client f) namespace (f_tweakListOptions f) (f_defaultResync f) (f_customResync f)
    (f_informers f) (f_startedInformers f) (f_wg f) (f_shuttingDown f).

Definition NamespaceAll : string := "".

Definition NewSharedInformerFactoryWithOptions (client : GroupClient) (defaultResync : Z)
    (options : list SharedInformerOption) : sharedInformerFactory :=
  foldl (fun factory opt => opt factory)
    (mkFactory client NamespaceAll None defaultResync ∅ ∅ ∅ 0 false) options.

Definition NewSharedInformerFactory (client : GroupClient) (defaultResync : Z) : sharedInformerFactory :=
  NewSharedInformerFactoryWithOptions client defaultResync [].

Definition NewFilteredSharedInformerFactory (client : GroupClient) (defaultResync : Z) (namespace : string)
    (tweak : TweakListOptionsFunc) : sharedInformerFactory :=
  NewSharedInformerFactoryWithOptions client defaultResync [WithNamespace namespace; WithTweakListOptions tweak].

Definition NewInformerFunc : Type := GroupClient -> Z -> SharedIndexInformer.

Definition resyncPeriod (f : sharedInformerFactory) (informerType : string) : Z :=
  match f_customResync f !! informerType with Some r => r | None => f_defaultResync f end.

Definition InformerFor (informerType : string) (newFunc : NewInformerFunc)
    (s : sharedInformerFactory * Pool) : nat * (sharedInformerFactory * Pool) :=
  let '(f, p) := s in
  match f_informers f !! informerType with
  | Some informer => (informer, (f, p))
  | None =>
      let '(informer, p') := alloc (newFunc (f_client f) (resyncPeriod f informerType)) p in
      (informer, (set_informers f (<[informerType := informer]> (f_informers f)), p'))
  end.

Definition is_started (f : sharedInformerFactory) (informerType : string) : bool :=
  default false (f_startedInformers f !! informerType).

(** An iteration of the loop of [Start]. *)
Definition start_one (stopCh : nat) (s : sharedInformerFactory * Pool) (e : string * nat)
  : sharedInformerFactory * Pool :=
  let '(f, p) := s in
  let '(informerType, informer) := e in
  if is_started f informerType then s
  else (set_started f (<[informerType := true]> (f_startedInformers f)) (f_wg f + 1),
        go_Run informer stopCh p).

Definition Start (stopCh : nat) (s : sharedInformerFactory * Pool) : sharedInformerFactory * Pool :=
  if f_shuttingDown s.1 then s else foldl (start_one stopCh) s (range (f_informers s.1)).

(** [Shutdown] sets the flag, and returns once the counter is 0. *)
Definition Shutdown (s : sharedInformerFactory * Pool) : sharedInformerFactory * Pool :=
  let '(f, p) := s in
  (mkFactory (f_client f) (f_namespace f) (f_tweakListOptions f) (f_defaultResync f) (f_customResync f)
     (f_informers f) (f_startedInformers f) (f_wg f) true, p).

Definition Shutdown_returns (s : sharedInformerFactory * Pool) : bool := Z.eqb (f_wg s.1) 0.

(** [WaitForCacheSync]: the informers that were started, and whether each
    of them synced; [wait] is the function of client-go. *)
Definition WaitForCacheSync (wait : nat -> nat -> bool) (stopCh : nat) (f : sharedInformerFactory)
  : gmap string bool :=
  let informers := foldl (fun m '(informerType, informer) =>
      if is_started f informerType then <[informerType := informer]> m else m)
    ∅ (range (f_informers f)) in
  foldl (fun res '(informType, informer) => <[informType := wait stopCh informer]> res) ∅ (range informers).

(** A goroutine of the factory ends: its informer's [Run] returned, and
    [wg.Done] is called. *)
Definition run_ends (s : sharedInformerFactory * Pool) (pre post : list (nat * nat))
  : sharedInformerFactory * Pool :=
  let '(f, p) := s in
  (set_started f (f_startedInformers f) (f_wg f - 1), mkPool (p_heap p) (p_runs p) (pre ++ post)).

(** The steps of a factory whose callers may use it concurrently; its lock
    makes each of its methods one step. *)
Record Sys := mkSys { sys_state : sharedInformerFactory * Pool; sys_closed : gset nat }.

Inductive factory_step : Sys -> Sys -> Prop :=
| step_InformerFor s closed informerType newFunc :
    factory_step (mkSys s closed) (mkSys (InformerFor informerType newFunc s).2 closed)
| step_Start s closed stopCh : factory_step (mkSys s closed) (mkSys (Start stopCh s) closed)
| step_Shutdown s closed : factory_step (mkSys s closed) (mkSys (Shutdown s) closed)
| step_close s closed stopCh : factory_step (mkSys s closed) (mkSys s ({[stopCh]} ∪ closed))
| step_run_ends s closed pre r post :
    p_running s.2 = pre ++ r :: post -> r.2 ∈ closed ->
    factory_step (mkSys s closed) (mkSys (run_ends s pre post) closed).

(** ** The invariant of a factory *)

Record factory_inv (s : sharedInformerFactory * Pool) : Prop := {
  fi_heap : forall t i, f_informers s.1 !! t = Some i -> (i < length (p_heap s.2))%nat;
  fi_inj : forall t1 t2 i, f_informers s.1 !! t1 = Some i -> f_informers s.1 !! t2 = Some i -> t1 = t2;
  fi_once : NoDup (p_runs s.2).*1;
  fi_runs : forall i, i ∈ (p_runs s.2).*1 <-> exists t, f_informers s.1 !! t = Some i /\ is_started s.1 t = true;
  fi_started : forall t, is_started s.1 t = true -> is_Some (f_informers s.1 !! t);
  fi_wg : f_wg s.1 = Z.of_nat (length (p_running s.2));
  fi_running : p_running s.2 ⊆+ p_runs s.2
}.

Lemma is_started_insert f m t b wg t' :
  f_startedInformers f = m ->
  is_started (set_started f (<[t := b]> m) wg) t' = if bool_decide (t = t') then b else is_started f t'.
Proof.
  intros <-. unfold is_started. simpl. case_bool_decide as E.
  - subst. by rewrite lookup_insert_eq.
  - by rewrite lookup_insert_ne.
Qed.

Lemma inv_InformerFor t newFunc s : factory_inv s -> factory_inv (InformerFor t newFunc s).2.
Proof.
  destruct s as [f p]. intros [Hh Hi Ho Hr Hs Hw Hn]. simpl in *. unfold InformerFor.
  destruct (f_informers f !! t) as [i|] eqn:E; [by split|]. simpl.
  assert (Hfresh : forall t' i, f_informers f !! t' = Some i -> i <> length (p_heap p))
    by (intros t' i Ht ->; apply Hh in Ht; lia).
  split; simpl; try done.
  - intros t' i Ht. rewrite length_app. simpl. apply lookup_insert_Some in Ht as [[_ <-]|[_ Ht]]; [lia|].
    apply Hh in Ht. lia.
  - intros t1 t2 i [[<- <-]|[_ H1]]%lookup_insert_Some [[<- E2]|[_ H2]]%lookup_insert_Some; subst; try done.
    + by destruct (Hfresh _ _ H2).
    + by destruct (Hfresh _ _ H1).
    + by eapply Hi.
  - intros i. rewrite Hr. split; intros (t' & Ht & Hst).
    + exists t'. split; [|done]. rewrite lookup_insert_ne; [done|]. intros <-. congruence.
    + exists t'. split; [|done]. apply lookup_insert_Some in Ht as [[<- <-]|[_ Ht]]; [|done].
      apply Hs in Hst as [? Hst]. congruence.
  - intros t' Hst. apply Hs in Hst. rewrite lookup_insert_is_Some'. by right.
Qed.

(** What an iteration of [Start] keeps, and what it reaches. *)
Lemma inv_start_one ch s t i :
  factory_inv s -> f_informers s.1 !! t = Some i ->
  let s' := start_one ch s (t, i) in
  factory_inv s' /\ f_informers s'.1 = f_informers s.1 /\ f_shuttingDown s'.1 = f_shuttingDown s.1 /\
  is_started s'.1 t = true /\ (forall t', is_started s.1 t' = true -> is_started s'.1 t' = true).
Proof.
  destruct s as [f p]. intros [Hh Hi Ho Hr Hs Hw Hn] Ht. simpl in *. unfold start_one.
  destruct (is_started f t) eqn:E; [by repeat (split; try done)|]. simpl.
  assert (Hst : forall t', is_started (set_started f (<[t:=true]> (f_startedInformers f)) (f_wg f + 1)) t' = true
    <-> t' = t \/ is_started f t' = true).
  { intros t'. rewrite is_started_insert by done. case_bool_decide; naive_solver. }
  split_and!; try done; [|by apply Hst; left|by intros t' ?; apply Hst; right].
  split; simpl; try done.
  - rewrite fmap_app. apply NoDup_app. split_and!; [done| |apply NoDup_singleton].
    intros j Hj ->%list_elem_of_singleton. apply Hr in Hj as (t' & Ht' & Hst').
    rewrite (Hi _ _ _ Ht' Ht) in Hst'. congruence.
  - intros j. rewrite fmap_app, elem_of_app, Hr. simpl. rewrite list_elem_of_singleton. split.
    + intros [(t' & Ht' & Hst')| ->]; [exists t'|exists t]; rewrite Hst; auto.
    + intros (t' & Ht' & [-> |Hst']%Hst); [right; congruence|left; eauto].
  - intros t' [-> |H]%Hst; [by eexists|by apply Hs].
  - rewrite length_app, Hw. simpl. lia.
  - by apply submseteq_app.
Qed.

Lemma inv_Start ch s :
  factory_inv s ->
  factory_inv (Start ch s) /\ f_informers (Start ch s).1 = f_informers s.1 /\
  f_shuttingDown (Start ch s).1 = f_shuttingDown s.1 /\
  (f_shuttingDown s.1 = false -> forall t i, f_informers s.1 !! t = Some i -> is_started (Start ch s).1 t = true).
Proof.
  intros Hinv. unfold Start. destruct (f_shuttingDown s.1) eqn:Hsd; [done|].
  pose proof (foldl_inv (start_one ch) (fun pre st =>
    factory_inv st /\ f_informers st.1 = f_informers s.1 /\ f_shuttingDown st.1 = false /\
    forall e, e ∈ pre -> is_started st.1 e.1 = true) s (range (f_informers s.1))) as Hloop.
  destruct Hloop as (? & ? & ? & Hall).
  - split_and!; try done. by intros e ?%not_elem_of_nil.
  - intros pre [t i] post st Hl (Hi & Hf & Hd & Hpre).
    assert (Ht : f_informers st.1 !! t = Some i).
    { rewrite Hf, <-elem_of_range, Hl. set_solver. }
    destruct (inv_start_one ch st t i Hi Ht) as (? & E1 & E2 & ? & Hmono).
    split_and!; [done|by rewrite E1|by rewrite E2|].
    intros e [He| ->%list_elem_of_singleton]%elem_of_app; auto.
  - split_and!; try done. intros _ t i Ht%elem_of_range. by apply (Hall (t, i)).
Qed.

Lemma inv_step x y : factory_inv (sys_state x) -> factory_step x y -> factory_inv (sys_state y).
Proof.
  intros Hinv Hs. destruct Hs as [s ? t nf|s ? ch|s|s|s ? pre r post Hr]; simpl in *.
  - by apply inv_InformerFor.
  - by apply inv_Start.
  - destruct s. by destruct Hinv.
  - done.
  - destruct s as [f p], Hinv as [Hh Hi Ho Hru Hst Hw Hn]. simpl in *. split; simpl; try done.
    + rewrite Hw, Hr, !length_app. simpl. lia.
    + etransitivity; [|exact Hn]. rewrite Hr. apply submseteq_app; [done|]. by apply submseteq_cons.
Qed.

Lemma inv_steps x y : factory_inv (sys_state x) -> rtc factory_step x y -> factory_inv (sys_state y).
Proof. intros Hi Hr. revert Hi. induction Hr; eauto using inv_step. Qed.

(** The options of the sources. *)
Definition factory_option (opt : SharedInformerOption) : Prop :=
  (exists m, opt = WithCustomResyncConfig m) \/ (exists tw, opt = WithTweakListOptions tw) \/
  (exists ns, opt = WithNamespace ns).

Definition idle (f : sharedInformerFactory) : Prop :=
  f_informers f = ∅ /\ f_startedInformers f = ∅ /\ f_wg f = 0 /\ f_shuttingDown f = false.

Lemma new_factory_idle client resync opts :
  Forall factory_option opts -> idle (NewSharedInformerFactoryWithOptions client resync opts).
Proof.
  intros Ho. unfold NewSharedInformerFactoryWithOptions.
  assert (Hgen : forall f, idle f -> idle (foldl (fun factory opt => opt factory) f opts)).
  { induction Ho as [|opt opts Hopt Ho IH]; intros f Hf; [done|]. apply IH.
    by destruct Hopt as [[? ->]|[[? ->]|[? ->]]]. }
  by apply Hgen.
Qed.

Lemma inv_idle f heap : idle f -> factory_inv (f, mkPool heap [] []).
Proof.
  intros (Hi & Hs & Hw & _). split; simpl; unfold is_started; rewrite ?Hi, ?Hs; try done.
  - constructor.
  - intros i. split; [by intros ?%not_elem_of_nil|]. intros (t & Ht & _). by rewrite lookup_empty in Ht.
Qed.

(** Informers are never replaced. *)
Lemma informers_kept x y t i :
  rtc factory_step x y -> f_informers (sys_state x).1 !! t = Some i ->
  factory_inv (sys_state x) -> f_informers (sys_state y).1 !! t = Some i.
Proof.
  induction 1 as [|x y z Hs _ IH]; [done|]. intros Ht Hinv. apply IH; [|by eapply inv_step].
  destruct Hs as [[f p] ? t' nf|s ? ch|[f p]|s|[f p]]; simpl in *; try done.
  - unfold InformerFor. destruct (f_informers f !! t') eqn:E; [done|]. simpl.
    rewrite lookup_insert_ne; [done|]. congruence.
  - by destruct (inv_Start ch s Hinv) as (_ & -> & _).
Qed.

(** After [Shutdown], no step starts an informer. *)
Lemma quiet_step x y :
  factory_step x y -> f_shuttingDown (sys_state x).1 = true ->
  f_shuttingDown (sys_state y).1 = true /\ p_runs (sys_state y).2 = p_runs (sys_state x).2 /\
  (length (p_running (sys_state y).2) <= length (p_running (sys_state x).2))%nat.
Proof.
  intros Hs Hd. destruct Hs as [[f p] ? t nf|s ? ch|[f p]|s|[f p] ? pre r post Hr]; simpl in *; try done.
  - unfold InformerFor. by destruct (f_informers f !! t).
  - unfold Start. by rewrite Hd.
  - rewrite Hr, !length_app. simpl. split_and!; [done|done|lia].
Qed.

Lemma quiet_steps x y :
  rtc factory_step x y -> f_shuttingDown (sys_state x).1 = true ->
  f_shuttingDown (sys_state y).1 = true /\ p_runs (sys_state y).2 = p_runs (sys_state x).2 /\
  (length (p_running (sys_state y).2) <= length (p_running (sys_state x).2))%nat.
Proof.
  induction 1 as [|x y z Hs _ IH]; [done|]. intros Hd.
  destruct (quiet_step _ _ Hs Hd) as (Hd' & Hr & Hl). destruct (IH Hd') as (? & Hr' & ?).
  split_and!; [done|congruence|lia].
Qed.

(** Goroutines whose channels are closed end. *)
Lemma running_drains s closed :
  (forall r, r ∈ p_running s.2 -> r.2 ∈ closed) ->
  exists y, nsteps factory_step (length (p_running s.2)) (mkSys s closed) y /\ p_running (sys_state y).2 = [].
Proof.
  remember (length (p_running s.2)) as n eqn:Hn. revert s Hn. induction n as [|n IH]; intros s Hn Hc.
  - exists (mkSys s closed). split; [constructor|]. simpl. by apply length_zero_iff_nil.
  - destruct (p_running s.2) as [|r post] eqn:Hr; [done|].
    destruct (IH (run_ends s [] post)) as (y & Hy & E).
    + destruct s. simpl in *. lia.
    + intros r' Hr'. apply Hc. destruct s. simpl in *. by right.
    + exists y. split; [|done]. econstructor; [|exact Hy]. apply (step_run_ends s closed [] r post Hr).
      apply Hc. by left.
Qed.

(** C21: However its methods are interleaved, a factory runs each informer at
    most once, its wait group counts the goroutines that run, [Start] leaves
    every informer of the factory started, and a type has one informer for
    good: asked again, the factory returns the same one. *)
Theorem informers_run_once client resync opts heap x :
  Forall factory_option opts ->
  rtc factory_step
    (mkSys (NewSharedInformerFactoryWithOptions client resync opts, mkPool heap [] []) ∅) x ->
  NoDup (p_runs (sys_state x).2).*1 /\
  f_wg (sys_state x).1 = Z.of_nat (length (p_running (sys_state x).2)) /\
  (forall ch, f_shuttingDown (sys_state x).1 = false ->
     forall i, i ∈ (p_runs (Start ch (sys_state x)).2).*1 <-> exists t, f_informers (sys_state x).1 !! t = Some i) /\
  (forall t nf nf' y, rtc factory_step (mkSys (InformerFor t nf (sys_state x)).2 (sys_closed x)) y ->
     InformerFor t nf' (sys_state y) = ((InformerFor t nf (sys_state x)).1, sys_state y)).
Proof.
  intros Ho Hx. assert (Hinv : factory_inv (sys_state x)).
  { eapply inv_steps; [|exact Hx]. by apply inv_idle, new_factory_idle. }
  split_and!; [apply Hinv..| |].
  - intros ch Hd i. destruct (inv_Start ch _ Hinv) as (Hi' & Hf & _ & Hall).
    rewrite (fi_runs _ Hi'), Hf. split; [naive_solver|]. intros (t & Ht). eauto.
  - intros t nf nf' y Hy.
    assert (Ht : f_informers (InformerFor t nf (sys_state x)).2.1 !! t = Some (InformerFor t nf (sys_state x)).1).
    { destruct (sys_state x) as [f p]. unfold InformerFor. destruct (f_informers f !! t) eqn:E; [done|].
      simpl. by rewrite lookup_insert_eq. }
    eapply informers_kept in Hy; [|exact Ht|by apply inv_InformerFor].
    destruct (sys_state y) as [f p]. unfold InformerFor at 1. simpl in Hy. by rewrite Hy.
Qed.

(** C22: Once [Shutdown] set its flag no informer is started any more; its
    wait ends after at most as many steps of the running goroutines as there
    are, when their stop channels are closed; and when it has returned
    nothing runs, then or later. *)
Theorem shutdown_quiesces client resync opts heap x :
  Forall factory_option opts ->
  rtc factory_step
    (mkSys (NewSharedInformerFactoryWithOptions client resync opts, mkPool heap [] []) ∅) x ->
  f_shuttingDown (sys_state x).1 = true ->
  (forall y, rtc factory_step x y -> p_runs (sys_state y).2 = p_runs (sys_state x).2) /\
  ((forall r, r ∈ p_running (sys_state x).2 -> r.2 ∈ sys_closed x) ->
   exists y, nsteps factory_step (length (p_running (sys_state x).2)) x y /\ Shutdown_returns (sys_state y) = true) /\
  (Shutdown_returns (sys_state x) = true ->
   forall y, rtc factory_step x y -> p_running (sys_state y).2 = []).
Proof.
  intros Ho Hx Hd. assert (Hinv : factory_inv (sys_state x)).
  { eapply inv_steps; [|exact Hx]. by apply inv_idle, new_factory_idle. }
  split_and!.
  - intros y Hy. by apply quiet_steps.
  - intros Hc. destruct x as [s closed]. destruct (running_drains s closed Hc) as (y & Hy & E).
    exists y. split; [done|]. unfold Shutdown_returns. apply Z.eqb_eq.
    rewrite (fi_wg (sys_state y)), E; [done|].
    eapply (inv_steps (mkSys s closed)); [done|]. by eapply rtc_nsteps_2.
  - intros Hret%Z.eqb_eq y Hy. rewrite (fi_wg _ Hinv) in Hret.
    destruct (quiet_steps x y Hy Hd) as (_ & _ & Hl). apply length_zero_iff_nil. lia.
Qed.

End Factories.

Arguments mkSharedIndexInformer {Obj}.
Arguments inf_ListFunc {Obj}.
Arguments inf_WatchFunc {Obj}.
Arguments inf_Type {Obj}.
Arguments inf_ResyncPeriod {Obj}.
Arguments inf_Indexers {Obj}.
Arguments mkPool {Obj}.
Arguments p_heap {Obj}.
Arguments p_runs {Obj}.
Arguments p_running {Obj}.
Arguments mkSys {Obj}.
Arguments sys_state {Obj}.
Arguments sys_closed {Obj}.

(** ** The informers of the three resources *)

Section Typed.
Context {Obj : Type} (Name : Obj -> string).

Definition tweaked (tweak : TweakListOptionsFunc) (options : ListOptions) : ListOptions :=
  match tweak with Some tweakListOptions => tweakListOptions options | None => options end.

Definition NamespaceIndex : string := "namespace".

Definition NewFilteredEcnetConfigInformer (client : GroupClient) (namespace : string) (resync : Z)
    (indexers : list string) (tweak : TweakListOptionsFunc) : SharedIndexInformer (Obj:=Obj) :=
  mkSharedIndexInformer
    (fun options => tc_List (ecnetConfigs Name client namespace) (tweaked tweak options))
    (fun options => tc_Watch (ecnetConfigs Name client namespace) (tweaked tweak options))
    "EcnetConfig" resync indexers.

Definition NewFilteredServiceImportInformer (client : GroupClient) (namespace : string) (resync : Z)
    (indexers : list string) (tweak : TweakListOptionsFunc) : SharedIndexInformer (Obj:=Obj) :=
  mkSharedIndexInformer
    (fun options => tc_List (serviceImports Name client namespace) (tweaked tweak options))
    (fun options => tc_Watch (serviceImports Name client namespace) (tweaked tweak options))
    "ServiceImport" resync indexers.

Definition NewFilteredGlobalTrafficPolicyInformer (client : GroupClient) (namespace : string) (resync : Z)
    (indexers : list string) (tweak : TweakListOptionsFunc) : SharedIndexInformer (Obj:=Obj) :=
  mkSharedIndexInformer
    (fun options => tc_List (globalTrafficPolicies Name client namespace) (tweaked tweak options))
    (fun options => tc_Watch (globalTrafficPolicies Name client namespace) (tweaked tweak options))
    "GlobalTrafficPolicy" resync indexers.

Definition NewEcnetConfigInformer (client : GroupClient) (namespace : string) (resync : Z)
    (indexers : list string) : SharedIndexInformer :=
  NewFilteredEcnetConfigInformer client namespace resync indexers None.
Definition NewServiceImportInformer (client : GroupClient) (namespace : string) (resync : Z)
    (indexers : list string) : SharedIndexInformer :=
  NewFilteredServiceImportInformer client namespace resync indexers None.
Definition NewGlobalTrafficPolicyInformer (client : GroupClient) (namespace : string) (resync : Z)
    (indexers : list string) : SharedIndexInformer :=
  NewFilteredGlobalTrafficPolicyInformer client namespace resync indexers None.

(** The interfaces of a group and of its version carry the namespace and
    the filter of their factory. *)
Record version := mkVersion { v_namespace : string; v_tweakListOptions : TweakListOptionsFunc }.

(** [f.Config().V1alpha1()] and [f.Flomesh().V1alpha1()]. *)
Definition V1alpha1 (f : sharedInformerFactory) : version :=
  mkVersion (f_namespace f) (f_tweakListOptions f).

Definition EcnetConfigs_Informer (v : version) (s : sharedInformerFactory * Pool (Obj:=Obj))
  : nat * (sharedInformerFactory * Pool) :=
  InformerFor "EcnetConfig" (fun client resync =>
    NewFilteredEcnetConfigInformer client (v_namespace v) resync [NamespaceIndex] (v_tweakListOptions v)) s.

Definition ServiceImports_Informer (v : version) (s : sharedInformerFactory * Pool (Obj:=Obj))
  : nat * (sharedInformerFactory * Pool) :=
  InformerFor "ServiceImport" (fun client resync =>
    NewFilteredServiceImportInformer client (v_namespace v) resync [NamespaceIndex] (v_tweakListOptions v)) s.

Definition GlobalTrafficPolicies_Informer (v : version) (s : sharedInformerFactory * Pool (Obj:=Obj))
  : nat * (sharedInformerFactory * Pool) :=
  InformerFor "GlobalTrafficPolicy" (fun client resync =>
    NewFilteredGlobalTrafficPolicyInformer client (v_namespace v) resync [NamespaceIndex]
      (v_tweakListOptions v)) s.

(** [ForResource]: the informer and the group's resource; [gvr_String] is
    how apimachinery prints a resource. *)
Record GroupVersionResource := mkGVR { gvr_gv : GroupVersion; gvr_Resource : string }.

#[global] Instance GroupVersionResource_eq_dec : EqDecision GroupVersionResource.
Proof. solve_decision. Defined.

Definition genericInformer : Type := nat * GroupResource.

Definition gvr_GroupResource (r : GroupVersionResource) : GroupResource :=
  mkGroupResource (gv_Group (gvr_gv r)) (gvr_Resource r).

Context (gvr_String : GroupVersionResource -> string).

Definition no_informer (resource : GroupVersionResource) : string :=
  "no informer found for " +:+ gvr_String resource.

Definition config_ForResource (resource : GroupVersionResource) (s : sharedInformerFactory * Pool (Obj:=Obj))
  : (string + genericInformer) * (sharedInformerFactory * Pool) :=
  if decide (resource = mkGVR config_SchemeGroupVersion "ecnetconfigs") then
    let '(i, s') := EcnetConfigs_Informer (V1alpha1 s.1) s in (inr (i, gvr_GroupResource resource), s')
  else (inl (no_informer resource), s).

Definition multicluster_ForResource (resource : GroupVersionResource)
    (s : sharedInformerFactory * Pool (Obj:=Obj))
  : (string + genericInformer) * (sharedInformerFactory * Pool) :=
  if decide (resource = mkGVR flomesh_SchemeGroupVersion "globaltrafficpolicies") then
    let '(i, s') := GlobalTrafficPolicies_Informer (V1alpha1 s.1) s in
    (inr (i, gvr_GroupResource resource), s')
  else if decide (resource = mkGVR flomesh_SchemeGroupVersion "serviceimports") then
    let '(i, s') := ServiceImports_Informer (V1alpha1 s.1) s in (inr (i, gvr_GroupResource resource), s')
  else (inl (no_informer resource), s).

End Typed.

(** ** Listers *)

Section Listers.
Context {T Selector : Type}.

(** What the listers use of an indexer, and client-go's iteration over it:
    the objects it visits, in order, and its error. *)
Record Indexer := mkIndexer {
  ix_GetByKey : string -> found T;
  ix_ListAll : Selector -> list T * option ApiError;
  ix_ListAllByNamespace : string -> Selector -> list T * option ApiError
}.

(** The callback appends each object it is given. *)
Definition appended (visited : list T) : list T := foldl (fun ret m => ret ++ [m]) [] visited.

Definition Lister_List (ix : Indexer) (selector : Selector) : list T * option ApiError :=
  let '(visited, err) := ix_ListAll ix selector in (appended visited, err).

Definition NamespaceLister_List (ix : Indexer) (namespace : string) (selector : Selector)
  : list T * option ApiError :=
  let '(visited, err) := ix_ListAllByNamespace ix namespace selector in (appended visited, err).

(** [NewNotFound] is the error of apimachinery for a resource and a
    name. *)
Definition NamespaceLister_Get (NewNotFound : GroupResource -> string -> ApiError) (resource : GroupResource)
    (ix : Indexer) (namespace name : string) : ApiError + option T :=
  match ix_GetByKey ix (namespace +:+ "/" +:+ name) with
  | (_, _, Some err) => inl (mkApiError OtherReason err)
  | (_, false, None) => inl (NewNotFound resource name)
  | (obj, true, None) => inr obj
  end.

Definition EcnetConfigs_resource : GroupResource := config_Resource "ecnetconfig".
Definition ServiceImports_resource : GroupResource := flomesh_Resource "serviceimport".
Definition GlobalTrafficPolicies_resource : GroupResource := flomesh_Resource "globaltrafficpolicy".

Lemma appended_id l : appended l = l.
Proof.
  unfold appended. assert (Hgen : forall pre, foldl (fun ret m => ret ++ [m]) pre l = pre ++ l).
  { induction l as [|x l IH]; intros pre; simpl; [by rewrite app_nil_r|]. by rewrite IH, <-app_assoc. }
  by rewrite Hgen.
Qed.

(** Over a store of objects under their keys, a lister gets the object
    of the namespace and name, or fails to find it. *)
Lemma NamespaceLister_Get_spec NewNotFound resource ix (key : T -> string) s ns name :
  store_ok key s -> ix_GetByKey ix = store_GetByKey s ->
  match NamespaceLister_Get NewNotFound resource ix ns name with
  | inr o => exists x, o = Some x /\ x ∈ store_List s /\ key x = ns +:+ "/" +:+ name
  | inl e => e = NewNotFound resource name /\ forall x, x ∈ store_List s -> key x <> ns +:+ "/" +:+ name
  end.
Proof.
  intros (m & Hget & Hlist & Hkey) E. unfold NamespaceLister_Get. rewrite E, Hget.
  destruct (m !! (ns +:+ "/" +:+ name)) as [x|] eqn:Hx; simpl.
  - exists x. split_and!; [done| |by apply Hkey]. rewrite Hlist, list_elem_of_fmap.
    eexists (_, x). split; [done|]. by apply elem_of_map_to_list.
  - split; [done|]. intros x Hin Hk. rewrite Hlist, list_elem_of_fmap in Hin.
    destruct Hin as ([k y] & -> & Hy%elem_of_map_to_list). simpl in *. apply Hkey in Hy as Hk'. congruence.
Qed.

End Listers.

(** ** A run of a factory *)

Definition run_conf : RestConfig := setConfigDefaults sample_lib config_SchemeGroupVersion sample_conf.
Definition run_factory : sharedInformerFactory :=
  NewSharedInformerFactoryWithOptions run_conf 0 [WithNamespace "ecnet-system"].
Definition run_start : sharedInformerFactory * Pool :=
  (EcnetConfigs_Informer (Obj:=string) (fun o => o) (V1alpha1 run_factory) (run_factory, mkPool [] [] [])).2.

(** The configuration's informer is made, started and stopped while the
    factory shuts down. *)
Definition run_state : sharedInformerFactory * Pool :=
  Shutdown (Start (RO:=any_order) 7 run_start).

Lemma run_state_reached :
  rtc (factory_step (RO:=any_order)) (mkSys (run_factory, mkPool [] [] []) ∅) (mkSys run_state ({[7%nat]} ∪ ∅)).
Proof.
  eapply rtc_l; [apply (step_InformerFor _ _ "EcnetConfig")|].
  eapply rtc_l; [apply (step_Start _ _ 7)|].
  eapply rtc_l; [apply step_Shutdown|].
  eapply rtc_l; [apply (step_close _ _ 7)|]. apply rtc_refl.
Qed.

Lemma informers_run_once_witness :
  NoDup (p_runs run_state.2).*1 /\ f_wg run_state.1 = 1.
Proof.
  destruct (informers_run_once (RO:=any_order) run_conf 0 [WithNamespace "ecnet-system"] [] _
    (Forall_cons_2 _ _ _ (or_intror (or_intror (ex_intro _ "ecnet-system" eq_refl))) (Forall_nil_2 _))
    run_state_reached) as (H1 & H2 & _).
  split; [exact H1|]. etransitivity; [exact H2|]. by vm_compute.
Defined.

Lemma shutdown_quiesces_witness :
  exists y, nsteps (factory_step (RO:=any_order)) 1 (mkSys run_state ({[7%nat]} ∪ ∅)) y /\
            Shutdown_returns (sys_state y) = true.
Proof.
  destruct (shutdown_quiesces (RO:=any_order) run_conf 0 [WithNamespace "ecnet-system"] [] _
    (Forall_cons_2 _ _ _ (or_intror (or_intror (ex_intro _ "ecnet-system" eq_refl))) (Forall_nil_2 _))
    run_state_reached eq_refl) as (_ & H & _).
  apply H. intros r Hr. vm_compute in Hr. apply list_elem_of_singleton in Hr as ->. set_solver.
Defined.
