(* ===== verification/Kube.v ===== *)
(** * The Kubernetes controller ([pkg/ecnet/k8s])

    [client.go]: the cached views of native resources, and the translation
    of a Kubernetes service into mesh services. [util.go]: host names. *)

From Stdlib Require Import Ascii String.
From S2P Require Import Prelude GoStrings MapSet Constants MeshService ApiTypes Informers.

Record NamespacedName := mkNamespacedName {
  nn_Namespace : string;
  nn_Name : string
}.

(** The [Controller] interface, as far as other components call it. *)
Record Controller := mkController {
  ctl_ListServices : list KService;
  ctl_GetService : MeshService -> option KService;
  ctl_GetNamespace : string -> option KNamespace;
  ctl_GetEndpoints : MeshService -> option KEndpoints * option string
}.

(** ** [util.go] *)

Definition SetTrustDomain (trustDomain domain : string) : string :=
  if String.eqb domain "" then trustDomain else domain.

(** The loop over the segments of the trust domain. *)
Fixpoint trust_domain_hosts (hostname : string) (port : Z) (segs : list string) : list string :=
  match segs with
  | [] => []
  | seg :: segs' =>
      if String.eqb seg "" then trust_domain_hosts hostname port segs'
      else
        let hostname' := hostname +:+ "." +:+ seg in
        hostname' :: (hostname' +:+ ":" +:+ fmt_d port)
        :: trust_domain_hosts hostname' port segs'
  end.

Definition GetHostnamesForService (trustDomain : string) (svc : MeshService)
    (localNamespace : bool) : list string :=
  let name := ms_Name svc in
  let ns := ms_Namespace svc in
  let port := ms_Port svc in
  (if localNamespace then [name; name +:+ ":" +:+ fmt_d port] else [])
  ++ [ name +:+ "." +:+ ns;
       name +:+ "." +:+ ns +:+ ":" +:+ fmt_d port;
       name +:+ "." +:+ ns +:+ ".svc";
       name +:+ "." +:+ ns +:+ ".svc:" +:+ fmt_d port ]
  ++ trust_domain_hosts (name +:+ "." +:+ ns +:+ ".svc") port (Split trustDomain ".").

(** The [switch] on the number of components; [c] is [None] when no
    controller is passed. *)
Definition split_components (c : option Controller) (serviceComponents : list string)
  : string * string :=
  let at_ i := default "" (serviceComponents !! i) in
  match length serviceComponents with
  | 1%nat => (at_ 0%nat, "")
  | 2%nat =>
      let p1 := at_ 0%nat in
      let p2 := at_ 1%nat in
      match c with
      | None => (p1, "")
      | Some ctl => match ctl_GetNamespace ctl p2 with None => (p2, p1) | Some _ => (p1, "") end
      end
  | 3%nat =>
      let tld := at_ 2%nat in
      match c with
      | None => if String.eqb tld "svc" then (at_ 0%nat, "") else (at_ 1%nat, at_ 0%nat)
      | Some ctl =>
          match ctl_GetNamespace ctl tld with
          | None => (at_ 0%nat, "")
          | Some _ => (at_ 1%nat, at_ 0%nat)
          end
      end
  | 4%nat => (at_ 1%nat, at_ 0%nat)
  | 5%nat => (at_ 0%nat, "")
  | 6%nat => (at_ 1%nat, at_ 0%nat)
  | _ => (at_ 0%nat, "")
  end.

(** The service name and the subdomain of a host. *)
Definition splitHostName (c : option Controller) (host : string) : string * string :=
  let host := default "" (head (Split host ":")) in
  split_components c (Split host ".").

Definition GetServiceFromHostname (c : option Controller) (host : string) : string :=
  (splitHostName c host).1.

Definition GetSubdomainFromHostname (c : option Controller) (host : string) : string :=
  (splitHostName c host).2.

(** A nil client is [None]; [ServerVersion] is the answer of the server and
    [NewVersion] the segments of a version, or their errors. *)
Definition GetKubernetesServerVersionNumber (ServerVersion : option (string + string))
    (NewVersion : string -> string + list Z) : string + list Z :=
  match ServerVersion with
  | None => inl "Kubernetes client is not initialized"
  | Some (inl err) => inl ("Error getting K8s server version: " +:+ err)
  | Some (inr version) =>
      match NewVersion version with
      | inl err => inl ("Error parsing k8s server version " +:+ version +:+ ": " +:+ err)
      | inr segments => inr segments
      end
  end.

Definition NamespacedNameFrom (name : string) : NamespacedName + string :=
  match Split name "/" with
  | [ns; n] => inl (mkNamespacedName ns n)
  | _ => inr (name +:+ " is not a namespaced name")
  end.

Definition IsHeadlessService (svc : KService) : bool :=
  String.eqb (svc_ClusterIP svc) "" || String.eqb (svc_ClusterIP svc) ClusterIPNone.

(** ** [client.go] *)

Section Client.
Context (ic : InformerCollection).

Definition IsMonitoredNamespace (namespace : string) : bool :=
  ic_IsMonitoredNamespace ic namespace.

Definition ListMonitoredNamespaces : list string :=
  map kns_Name (ListInformer (ic_Namespace ic)).

Definition GetService (svc : MeshService) : option KService :=
  hit (GetByKey (ic_Service ic) (NamespacedKey svc)).

Definition ListServices : list KService :=
  List.filter (fun svc => IsMonitoredNamespace (svc_Namespace svc))
    (ListInformer (ic_Service ic)).

Definition ListServiceAccounts : list KServiceAccount :=
  List.filter (fun sa => IsMonitoredNamespace (ksa_Namespace sa))
    (ListInformer (ic_ServiceAccount ic)).

Definition GetNamespace (ns : string) : option KNamespace :=
  hit (GetByKey (ic_Namespace ic) ns).

Definition ListPods : list KPod :=
  List.filter (fun pod => IsMonitoredNamespace (pod_Namespace pod))
    (ListInformer (ic_Pod ic)).

Definition GetEndpoints (svc : MeshService) : option KEndpoints * option string :=
  match GetByKey (ic_Endpoints ic) (NamespacedKey svc) with
  | (_, _, Some err) => (None, Some err)
  | (ep, true, None) => (ep, None)
  | (_, false, None) => (None, None)
  end.

Definition client_controller : Controller :=
  mkController ListServices GetService GetNamespace GetEndpoints.

(** [labels.Set(selector).AsSelector().Matches] is apimachinery code. *)
Definition ListServiceIdentitiesForService `{!MapSet K8sServiceAccount}
    (selector_Matches : gmap string string -> gmap string string -> bool)
    (svc : MeshService) : list K8sServiceAccount + string :=
  match GetService svc with
  | None => inr ("Error fetching service " +:+ fmt_q (MeshService_String svc) +:+ ": service not found")
  | Some k8sSvc =>
      let step accounts pod :=
        let svcRawSelector := svc_Selector k8sSvc in
        if bool_decide (svcRawSelector = ∅) then accounts
        else if selector_Matches svcRawSelector (pod_Labels pod)
        then Add (mkK8sServiceAccount (pod_Namespace pod) (pod_ServiceAccountName pod)) accounts
        else accounts in
      inl (Iter (foldl step NewSet ListPods))
  end.

(** [types.NamespacedName.String] is apimachinery code. *)
Definition GetTargetPortForServicePort (nn_String : NamespacedName -> string)
    (namespacedSvc : NamespacedName) (port : Z) : Z * option string :=
  match GetByKey (ic_Service ic) (nn_String namespacedSvc) with
  | (_, _, Some err) => (0, Some err)
  | (Some svc, true, None) =>
      let portName :=
        default "" (first_some
          (fun ps => if Z.eqb uint16(sp_Port ps) port then Some (sp_Name ps) else None)
          (svc_Ports svc)) in
      match GetByKey (ic_Endpoints ic) (nn_String namespacedSvc) with
      | (_, _, Some err) => (0, Some err)
      | (Some endpoint, true, None) =>
          match first_some
                  (fun subset => first_some
                     (fun ps => if String.eqb (eport_Name ps) portName
                                then Some uint16(eport_Port ps) else None)
                     (sub_Ports subset))
                  (eps_Subsets endpoint) with
          | Some p => (p, None)
          | None => (0, Some ("error finding port name " +:+ portName +:+ " for endpoint "
                              +:+ nn_String namespacedSvc))
          end
      | _ => (0, Some ("endpoint for service " +:+ nn_String namespacedSvc
                       +:+ " not found in cache"))
      end
  | _ => (0, Some ("service " +:+ nn_String namespacedSvc +:+ " not found in cache"))
  end.

End Client.

(** [strconv.ParseBool], whose error the caller drops. *)
Definition ParseBool (s : string) : bool :=
  bool_decide (s ∈ ["1"; "t"; "T"; "true"; "TRUE"; "True"]).

Definition IsMetricsEnabled (pod : KPod) : bool :=
  match pod_Annotations pod !! PrometheusScrapeAnnotation with
  | None => false
  | Some a => ParseBool a
  end.

(** The protocol a port name announces: the first supported protocol [p]
    such that the name starts with [p-], and [http] otherwise. *)
Definition protocol_of_port_name (portName : string) : string :=
  default ProtocolHTTP
    (first_some (fun p => if HasPrefix portName (p +:+ "-") then Some p else None)
       SupportedProtocolsInMesh).

(** The doubly nested loop of [GetTargetPortFromEndpoints]. *)
Definition GetTargetPortFromEndpoints (endpointName : string) (endpoints : KEndpoints) : Z :=
  default 0
    (first_some
       (fun subset => first_some
          (fun port =>
             if String.eqb endpointName "" || Nat.eqb (length (sub_Ports subset)) 1
             then Some uint16(eport_Port port)
             else if String.eqb (eport_Name port) endpointName
             then Some uint16(eport_Port port)
             else None)
          (sub_Ports subset))
       (eps_Subsets endpoints)).

(** The named addresses of a headless service, in order. *)
Definition subdomain_services (svc : KService) (meshSvc : MeshService) (endpoints : KEndpoints)
  : list MeshService :=
  subset ← eps_Subsets endpoints;
  address ← sub_Addresses subset;
  if String.eqb (ea_Hostname address) "" then []
  else [mkMeshService (svc_Namespace svc) (ea_Hostname address +:+ "." +:+ svc_Name svc)
          (ms_Port meshSvc) (ms_TargetPort meshSvc) (ms_Protocol meshSvc) ""].

(** The body of the loop over [svc.Spec.Ports]. *)
Definition port_to_mesh_services (c : Controller) (svc : KService) (portSpec : KServicePort)
  : list MeshService :=
  let protocol := protocol_of_port_name (sp_Name portSpec) in
  let meshSvc0 := mkMeshService (svc_Namespace svc) (svc_Name svc) uint16(sp_Port portSpec) 0
                    (default protocol (sp_AppProtocol portSpec)) "" in
  match (ctl_GetEndpoints c meshSvc0).1 with
  | None => [meshSvc0]
  | Some endpoints =>
      let meshSvc := mkMeshService (svc_Namespace svc) (svc_Name svc) uint16(sp_Port portSpec)
                       (GetTargetPortFromEndpoints (sp_Name portSpec) endpoints)
                       (default protocol (sp_AppProtocol portSpec)) "" in
      if negb (IsHeadlessService svc) then [meshSvc]
      else match subdomain_services svc meshSvc endpoints with
           | [] => [meshSvc]
           | added => added
           end
  end.

Definition ServiceToMeshServices (c : Controller) (svc : KService) : list MeshService :=
  portSpec ← svc_Ports svc; port_to_mesh_services c svc portSpec.

(** ** Names *)

Definition label_char (c : ascii) : bool := Ascii.eqb c "." || Ascii.eqb c ":" || Ascii.eqb c "/".

(** A DNS label: not empty, no dot, no colon, no slash. *)
Definition dns_label (s : string) : Prop := s <> "" /\ free_of label_char s.

#[global] Instance dns_label_dec s : Decision (dns_label s).
Proof. unfold dns_label. apply _. Defined.

Lemma dns_label_free_dot s : dns_label s -> free_of (fun c => Ascii.eqb c ".") s.
Proof.
  intros [_ H]. revert H. apply free_of_weaken. intros c ->%Ascii.eqb_eq. done.
Qed.

Lemma dns_label_free_colon s : dns_label s -> free_of (fun c => Ascii.eqb c ":") s.
Proof.
  intros [_ H]. revert H. apply free_of_weaken. intros c ->%Ascii.eqb_eq. done.
Qed.

Lemma colon_not_digit c : Ascii.eqb c ":" = true -> is_digit c = false.
Proof. intros ->%Ascii.eqb_eq. done. Qed.

#[export] Hint Resolve dns_label_free_dot dns_label_free_colon : ecnet.

Lemma join_free_colon l :
  Forall dns_label l -> free_of (fun c => Ascii.eqb c ":") (String.concat "." l).
Proof.
  induction 1 as [|x l Hx Hl IH]; [done|].
  destruct l as [|y l]; simpl; [by auto with ecnet|].
  apply free_of_app. split; [by auto with ecnet|done].
Qed.

Lemma Split_join l :
  Forall dns_label l -> l <> [] -> Split (String.concat "." l) "." = l.
Proof.
  unfold Split. induction 1 as [|x l Hx Hl IH]; [done|]. intros _.
  destruct l as [|y l]; simpl.
  - by apply split_by_free, dns_label_free_dot.
  - rewrite (split_by_sep _ x "."%char); [|by auto with ecnet|done]. f_equal. by apply IH.
Qed.

(** A host made of labels, with or without a port, is split into them. *)
Lemma splitHostName_join c l port :
  Forall dns_label l -> l <> [] ->
  splitHostName c (String.concat "." l) = split_components c l /\
  splitHostName c (String.concat "." l +:+ ":" +:+ port) = split_components c l.
Proof.
  intros Hl Hne. pose proof (join_free_colon l Hl) as Hc.
  change (":" +:+ port) with (String ":" port).
  unfold splitHostName, Split. rewrite (split_by_sep _ _ ":"%char) by done.
  rewrite (split_by_free (fun c => Ascii.eqb c ":") _ Hc). simpl. fold (Split (String.concat "." l) ".").
  by rewrite Split_join.
Qed.

(** ** The host names of a service

    [name.namespace], [name.namespace.svc], and the latter followed by the
    labels of the trust domain up to any of them; each with and without the
    port of the service. *)
Definition domain_hosts (svc : MeshService) (labels : list string) : list string :=
  [ms_Name svc +:+ "." +:+ ms_Namespace svc]
  ++ map (fun n => String.concat "." ([ms_Name svc; ms_Namespace svc; "svc"] ++ take n labels))
       (seq 0 (S (length labels))).

Definition service_hosts (trustDomain : string) (svc : MeshService) : list string :=
  let hosts := domain_hosts svc (List.filter (fun l => negb (String.eqb l "")) (Split trustDomain ".")) in
  hosts ++ map (fun h => h +:+ ":" +:+ fmt_d (ms_Port svc)) hosts.

Lemma elem_of_trust_domain_hosts hostname port segs h :
  h ∈ trust_domain_hosts hostname port segs <->
  exists n b, (n < length (List.filter (fun l => negb (String.eqb l "")) segs))%nat /\
    b = foldl (fun s l => s +:+ "." +:+ l) hostname
          (take (S n) (List.filter (fun l => negb (String.eqb l "")) segs)) /\
    (h = b \/ h = b +:+ ":" +:+ fmt_d port).
Proof.
  revert hostname. induction segs as [|seg segs IH]; intros hostname; simpl.
  - split; [intros []%not_elem_of_nil|]. intros (n & b & Hn & _). lia.
  - destruct (String.eqb seg ""); simpl; [apply IH|].
    rewrite !elem_of_cons, IH. split.
    + intros [->|[->|(n & b & Hn & Hb & Hh)]].
      * exists 0%nat. eexists. split; [lia|]. rewrite take_0. simpl. auto.
      * exists 0%nat. eexists. split; [lia|]. rewrite take_0. simpl. auto.
      * exists (S n), b. split; [lia|]. auto.
    + intros ([|n] & b & Hn & -> & Hh); [rewrite take_0 in Hh; simpl in Hh; tauto|].
      right. right. exists n. eexists. split; [lia|]. split; [reflexivity|done].
Qed.

Lemma foldl_labels (a : string) l :
  foldl (fun s l => s +:+ "." +:+ l) a l = String.concat "." (a :: l).
Proof.
  revert a. induction l as [|x l IH]; intros a; [done|]. simpl foldl. rewrite IH.
  destruct l as [|y l]; simpl; [done|]. by rewrite !string_app_assoc.
Qed.

(** The host names the catalog registers are those of the service. *)
Lemma elem_of_GetHostnamesForService trustDomain svc h :
  h ∈ GetHostnamesForService trustDomain svc false <-> h ∈ service_hosts trustDomain svc.
Proof.
  unfold GetHostnamesForService, service_hosts, domain_hosts. cbn zeta.
  set (labels := List.filter _ _).
  set (base := ms_Name svc +:+ "." +:+ ms_Namespace svc +:+ ".svc").
  assert (forall n, String.concat "." ([ms_Name svc; ms_Namespace svc; "svc"] ++ take n labels) =
                    foldl (fun s l => s +:+ "." +:+ l) base (take n labels)) as Hj.
  { intros n. rewrite foldl_labels. unfold base. destruct (take n labels); simpl;
      repeat (rewrite string_app_assoc; simpl); done. }
  rewrite (map_ext _ _ Hj). clear Hj.
  assert (forall (p : nat -> string) x, x ∈ map p (seq 0 (S (length labels))) <->
            x = p 0%nat \/ exists n, (n < length labels)%nat /\ x = p (S n)) as Hseq.
  { intros p x. rewrite list_elem_of_In, in_map_iff. setoid_rewrite in_seq. split.
    - intros (n & <- & Hn). destruct n as [|n]; [by left|]. right. exists n. split; [lia|done].
    - intros [->|(n & Hn & ->)]; [exists 0%nat|exists (S n)]; split; [done|lia|done|lia]. }
  cbn [app]. rewrite !elem_of_cons, elem_of_app, map_cons, elem_of_cons, map_map, !Hseq,
    elem_of_trust_domain_hosts. fold labels. rewrite take_0. cbn [foldl].
  unfold base. rewrite !string_app_assoc. cbn. naive_solver.
Qed.

(** ** Theorems *)

(** Without a controller, the host names of a service resolve to its name,
    except the ones of four labels ([name.namespace.svc.cluster], with and
    without port), which resolve to the namespace. *)
Theorem hostnames_resolve (svc : MeshService) :
  dns_label (ms_Name svc) -> dns_label (ms_Namespace svc) ->
  map (GetServiceFromHostname None) (GetHostnamesForService "cluster.local" svc true) =
  let n := ms_Name svc in let ns := ms_Namespace svc in
  [n; n; n; n; n; n; ns; ns; n; n].
Proof.
  destruct svc as [ns n port tp pr uid]. simpl. intros Hn Hns.
  assert (dns_label "svc" /\ dns_label "cluster" /\ dns_label "local") as (H1 & H2 & H3)
    by (repeat split; done).
  assert (forall l r, Forall dns_label l -> l <> [] -> (split_components None l).1 = r ->
            GetServiceFromHostname None (String.concat "." l) = r /\
            GetServiceFromHostname None (String.concat "." l +:+ ":" +:+ fmt_d port) = r) as H.
  { intros l r Hl Hne Hr. unfold GetServiceFromHostname.
    destruct (splitHostName_join None l (fmt_d port) Hl Hne) as [-> ->]. done. }
  unfold GetHostnamesForService. simpl.
  destruct (H [n] n) as [E0 E1]; [by repeat first [assumption | constructor]|done|done|].
  destruct (H [n; ns] n) as [E2 E3]; [by repeat first [assumption | constructor]|done|done|].
  destruct (H [n; ns; "svc"] n) as [E4 E5]; [by repeat first [assumption | constructor]|done|done|].
  destruct (H [n; ns; "svc"; "cluster"] ns) as [E6 E7]; [by repeat first [assumption | constructor]|done|done|].
  destruct (H [n; ns; "svc"; "cluster"; "local"] n) as [E8 E9];
    [by repeat first [assumption | constructor]|done|done|].
  simpl in *. repeat rewrite string_app_assoc in *. simpl in *.
  repeat rewrite string_app_assoc in *. simpl in *. by rewrite E0, E1, E2, E3, E4, E5, E6, E7, E8, E9.
Qed.

Lemma hostnames_resolve_witness :
  map (GetServiceFromHostname None)
    (GetHostnamesForService "cluster.local" (mkMeshService "default" "web" 80 8080 "http" "") true)
  = ["web"; "web"; "web"; "web"; "web"; "web"; "default"; "default"; "web"; "web"].
Proof. apply hostnames_resolve; vm_compute; split; done. Defined.

(** A namespaced name is parsed back from its printed form, and a name is
    refused when it has no slash. *)
Theorem NamespacedNameFrom_String (ms : MeshService) :
  free_of is_slash (ms_Namespace ms) -> free_of is_slash (ms_Name ms) ->
  NamespacedNameFrom (MeshService_String ms) =
    inl (mkNamespacedName (ms_Namespace ms) (ms_Name ms)) /\
  NamespacedNameFrom (ms_Name ms) = inr (ms_Name ms +:+ " is not a namespaced name").
Proof.
  intros Hns Hn. unfold NamespacedNameFrom, Split, MeshService_String. split.
  - change ("/" +:+ ms_Name ms) with (String "/" (ms_Name ms)).
    by rewrite split_by_sep, split_by_free.
  - by rewrite split_by_free.
Qed.

Lemma NamespacedNameFrom_String_witness :
  NamespacedNameFrom "default/web" = inl (mkNamespacedName "default" "web").
Proof.
  apply (NamespacedNameFrom_String (mkMeshService "default" "web" 80 8080 "http" "")); done.
Defined.

(** The identities of a service: the accounts of the pods its selector
    matches, each once. *)
Theorem ListServiceIdentitiesForService_spec `{!MapSet K8sServiceAccount}
    ic selector_Matches svc k8sSvc :
  GetService ic svc = Some k8sSvc ->
  exists accounts,
    ListServiceIdentitiesForService ic selector_Matches svc = inl accounts /\
    NoDup accounts /\
    forall sa, sa ∈ accounts <->
      svc_Selector k8sSvc <> ∅ /\
      exists pod, pod ∈ ListPods ic /\
        selector_Matches (svc_Selector k8sSvc) (pod_Labels pod) = true /\
        sa = mkK8sServiceAccount (pod_Namespace pod) (pod_ServiceAccountName pod).
Proof.
  intros E. unfold ListServiceIdentitiesForService. rewrite E.
  eexists. split; [done|]. split; [apply iter_nodup|]. intros sa.
  apply (foldl_inv _ (fun pre s => sa ∈ Iter s <->
    svc_Selector k8sSvc <> ∅ /\ exists pod, pod ∈ pre /\
      selector_Matches (svc_Selector k8sSvc) (pod_Labels pod) = true /\
      sa = mkK8sServiceAccount (pod_Namespace pod) (pod_ServiceAccountName pod))).
  - rewrite iter_new. set_solver.
  - intros pre pod post s _ IH. case_bool_decide as Hsel; [rewrite IH; naive_solver|].
    destruct (selector_Matches (svc_Selector k8sSvc) (pod_Labels pod)) eqn:Hm.
    + rewrite iter_add, IH. set_solver.
    + rewrite IH. split; [set_solver|]. intros [? (p & Hp & Hpm & ->)].
      split; [done|]. exists p. split; [|done].
      apply elem_of_app in Hp as [?| ->%list_elem_of_singleton]; [done|congruence].
Qed.

(** ** [ServiceToMeshServices] *)

Lemma GetTargetPortFromEndpoints_fits name eps : fits 16 (GetTargetPortFromEndpoints name eps).
Proof.
  unfold GetTargetPortFromEndpoints.
  destruct (first_some _ (eps_Subsets eps)) as [z|] eqn:E; [|by split]. simpl.
  apply first_some_Some in E as (? & sub & ? & _ & E & _).
  apply first_some_Some in E as (? & p & ? & _ & E & _).
  split_matches; by apply uint_bound.
Qed.

Lemma ProviderKey_subdomain ms host name :
  ms_Name ms = host +:+ "." +:+ name -> free_of (fun c => Ascii.eqb c ".") name ->
  ProviderKey ms = name.
Proof.
  intros Hn Hf. unfold ProviderKey, Split. rewrite Hn.
  change ("." +:+ name) with (String "." name).
  by rewrite split_by_last, split_by_free.
Qed.

(** *** What a port promises

    The translation of a port, stated by itself: the protocol its name
    announces, the port of the endpoints it leads to, and the names of its
    mesh services. *)

(** The first element with a property. *)
Definition first_that {A} (P : A -> Prop) (l : list A) (a : A) : Prop :=
  exists pre post, l = pre ++ a :: post /\ P a /\ Forall (fun x => ~ P x) pre.

(** The name of a port starts with a protocol and a dash. *)
Definition announces (portName p : string) : Prop := exists rest, portName = p +:+ "-" +:+ rest.

(** The protocol of a port: its [appProtocol] field, else the first supported
    protocol that its name announces, else http. *)
Definition port_protocol (portSpec : KServicePort) (q : string) : Prop :=
  match sp_AppProtocol portSpec with
  | Some p => q = p
  | None => first_that (announces (sp_Name portSpec)) SupportedProtocolsInMesh q \/
            ((forall p, p ∈ SupportedProtocolsInMesh -> ~ announces (sp_Name portSpec) p) /\ q = "http")
  end.

(** A port of the endpoints belongs to the port of the service: the latter
    has no name, or the former is the only one, or the names are equal. *)
Definition serves_port (name : string) (sub : EndpointSubset) (p : EndpointPort) : Prop :=
  name = "" \/ length (sub_Ports sub) = 1%nat \/ eport_Name p = name.

(** The target port: the first that belongs to the port of the service, at
    16 bits, and 0 if there is none. *)
Definition target_port (name : string) (eps : KEndpoints) (z : Z) : Prop :=
  (exists sub p,
     first_that (fun sub => exists p, p ∈ sub_Ports sub /\ serves_port name sub p) (eps_Subsets eps) sub /\
     first_that (serves_port name sub) (sub_Ports sub) p /\ z = uint16(eport_Port p)) \/
  ((forall sub p, sub ∈ eps_Subsets eps -> p ∈ sub_Ports sub -> ~ serves_port name sub p) /\ z = 0).

(** An address of a headless service that has a host name. *)
Definition named_host (svc : KService) (eps : KEndpoints) (h : string) : Prop :=
  (svc_ClusterIP svc = "" \/ svc_ClusterIP svc = "None") /\ h <> "" /\
  exists sub addr, sub ∈ eps_Subsets eps /\ addr ∈ sub_Addresses sub /\ ea_Hostname addr = h.

Definition mesh_service_name (svc : KService) (eps : KEndpoints) (n : string) : Prop :=
  (exists h, named_host svc eps h /\ n = h +:+ "." +:+ svc_Name svc) \/
  ((forall h, ~ named_host svc eps h) /\ n = svc_Name svc).

(** The mesh services of a port. *)
Definition mesh_service_of_port (c : Controller) (svc : KService) (portSpec : KServicePort)
  (ms : MeshService) : Prop :=
  ms_Namespace ms = svc_Namespace svc /\ ms_ServiceImportUID ms = "" /\
  ms_Port ms = uint16(sp_Port portSpec) /\ port_protocol portSpec (ms_Protocol ms) /\
  match (ctl_GetEndpoints c (mkMeshService (svc_Namespace svc) (svc_Name svc)
           uint16(sp_Port portSpec) 0 (ms_Protocol ms) "")).1 with
  | None => ms_Name ms = svc_Name svc /\ ms_TargetPort ms = 0
  | Some eps => mesh_service_name svc eps (ms_Name ms) /\
                target_port (sp_Name portSpec) eps (ms_TargetPort ms)
  end.

(** *** The code keeps it *)

Lemma first_some_that {A B} (f : A -> option B) (P : A -> Prop) l b :
  (forall a, is_Some (f a) <-> P a) ->
  first_some f l = Some b <-> exists a, first_that P l a /\ f a = Some b.
Proof.
  intros HP. assert (forall a, f a = None <-> ~ P a) as HN by (intros a; rewrite <- HP, eq_None_not_Some; done).
  rewrite first_some_Some. unfold first_that. split.
  - intros (pre & a & post & -> & Ha & Hpre). exists a. split; [|done]. exists pre, post.
    split_and!; [done|by apply HP|]. eapply Forall_impl; [exact Hpre|]. intros x. apply HN.
  - intros (a & (pre & post & -> & _ & Hpre) & Ha). exists pre, a, post. split_and!; [done..|].
    eapply Forall_impl; [exact Hpre|]. intros x. apply HN.
Qed.

Lemma first_some_none_that {A B} (f : A -> option B) (P : A -> Prop) l :
  (forall a, is_Some (f a) <-> P a) ->
  first_some f l = None <-> forall a, a ∈ l -> ~ P a.
Proof.
  intros HP. rewrite first_some_None, Forall_forall.
  split; intros H a Ha; specialize (H a Ha); rewrite <- HP, <- eq_None_not_Some in *; done.
Qed.

(** A search with a default. *)
Lemma default_first_that {A B} (f : A -> option B) (P : A -> Prop) l d b :
  (forall a, is_Some (f a) <-> P a) ->
  b = default d (first_some f l) <->
  (exists a, first_that P l a /\ f a = Some b) \/ ((forall a, a ∈ l -> ~ P a) /\ b = d).
Proof.
  intros HP. rewrite <- (first_some_that f P l b HP), <- (first_some_none_that f P l HP).
  destruct (first_some f l) as [x|]; simpl; naive_solver.
Qed.

Lemma HasPrefix_iff s p : HasPrefix s p = true <-> exists rest, s = p +:+ rest.
Proof.
  split; [|intros (rest & ->); apply HasPrefix_app]. unfold HasPrefix.
  revert s. induction p as [|c p IH]; intros s; [by exists s|]. destruct s as [|c' s]; [done|].
  simpl. destruct (ascii_dec c c') as [->|]; [|done]. intros (rest & ->)%IH. by exists rest.
Qed.

Lemma first_some_is_Some {A B} (f : A -> option B) (P : A -> Prop) l :
  (forall a, is_Some (f a) <-> P a) ->
  is_Some (first_some f l) <-> exists a, a ∈ l /\ P a.
Proof.
  intros HP. induction l as [|x l IH]; simpl.
  - split; [by intros []|by intros (? & []%not_elem_of_nil & _)].
  - setoid_rewrite elem_of_cons. destruct (f x) as [b|] eqn:E.
    + split; [|by eexists]. intros _. exists x. split; [by left|]. apply HP. by rewrite E.
    + rewrite IH. assert (~ P x) as Hx by (rewrite <- HP, E; by intros []). naive_solver.
Qed.

Lemma announces_iff name p : HasPrefix name (p +:+ "-") = true <-> announces name p.
Proof. unfold announces. rewrite HasPrefix_iff. by setoid_rewrite string_app_assoc. Qed.

Lemma port_protocol_iff portSpec q :
  q = default (protocol_of_port_name (sp_Name portSpec)) (sp_AppProtocol portSpec)
  <-> port_protocol portSpec q.
Proof.
  unfold port_protocol, protocol_of_port_name. destruct (sp_AppProtocol portSpec) as [p|]; [done|].
  change (default ?x None) with x. rewrite (default_first_that _ (announces (sp_Name portSpec))).
  - apply or_iff_compat_r. split.
    + intros (a & Ha & Hq). case_match; [|done]. by injection Hq as <-.
    + intros Hq. exists q. split; [done|]. destruct Hq as (? & ? & _ & Hq & _).
      by apply announces_iff in Hq as ->.
  - intros a. rewrite <- announces_iff. destruct (HasPrefix _ _); split; intros H; solve [done|by destruct H|by eexists].
Qed.

Lemma target_port_iff name eps z :
  z = GetTargetPortFromEndpoints name eps <-> target_port name eps z.
Proof.
  unfold GetTargetPortFromEndpoints, target_port.
  set (g := fun (sub : EndpointSubset) (port : EndpointPort) =>
    if String.eqb name "" || Nat.eqb (length (sub_Ports sub)) 1 then Some uint16(eport_Port port)
    else if String.eqb (eport_Name port) name then Some uint16(eport_Port port) else None).
  assert (forall sub p, is_Some (g sub p) <-> serves_port name sub p) as Hg.
  { intros sub p. unfold g, serves_port. destruct (String.eqb_spec name ""),
      (Nat.eqb_spec (length (sub_Ports sub)) 1), (String.eqb_spec (eport_Name p) name); simpl;
      (split; [intros []; naive_solver|intros ?; (by eexists) || naive_solver]). }
  assert (forall sub p b, g sub p = Some b -> b = uint16(eport_Port p)) as Hb.
  { intros sub p b. unfold g. repeat case_match; by intros [= <-]. }
  rewrite (default_first_that _ (fun sub => exists p, p ∈ sub_Ports sub /\ serves_port name sub p)).
  2:{ intros sub. apply (first_some_is_Some (g sub) _ _ (Hg sub)). }
  apply Morphisms_Prop.or_iff_morphism; [|naive_solver]. split.
  - intros (sub & Hs & E). apply (first_some_that _ _ _ _ (Hg sub)) in E as (p & Hp & ->%Hb). eauto.
  - intros (sub & p & Hs & Hp & ->). exists sub. split; [done|].
    apply (first_some_that _ _ _ _ (Hg sub)). exists p. split; [done|].
    destruct Hp as (? & ? & _ & Hp & _). apply Hg in Hp as [b Hp]. rewrite Hp. f_equal. by eapply Hb.
Qed.

Lemma headless_iff svc :
  IsHeadlessService svc = true <-> svc_ClusterIP svc = "" \/ svc_ClusterIP svc = "None".
Proof. unfold IsHeadlessService. by rewrite orb_true_iff, !String.eqb_eq. Qed.

Lemma elem_of_subdomains svc m eps ms :
  IsHeadlessService svc = true ->
  ms ∈ subdomain_services svc m eps <-> exists h, named_host svc eps h /\
    ms = mkMeshService (svc_Namespace svc) (h +:+ "." +:+ svc_Name svc)
           (ms_Port m) (ms_TargetPort m) (ms_Protocol m) "".
Proof.
  intros Hh%headless_iff. unfold subdomain_services, named_host. rewrite list_elem_of_bind. split.
  - intros (sub & (addr & Hms & Ha)%list_elem_of_bind & Hs).
    destruct (String.eqb_spec (ea_Hostname addr) ""); [by apply not_elem_of_nil in Hms|].
    apply list_elem_of_singleton in Hms as ->. eauto 10.
  - intros (h & (_ & Hne & sub & addr & Hs & Ha & <-) & ->). exists sub. split; [|done].
    apply list_elem_of_bind. exists addr. split; [|done].
    destruct (String.eqb_spec (ea_Hostname addr) ""); [done|]. by apply list_elem_of_singleton.
Qed.

Lemma elem_of_mesh_services c svc portSpec ms :
  ms ∈ port_to_mesh_services c svc portSpec <-> mesh_service_of_port c svc portSpec ms.
Proof.
  unfold port_to_mesh_services, mesh_service_of_port. rewrite <- port_protocol_iff.
  destruct ms as [ns n p t q u]. simpl.
  set (q0 := default _ (sp_AppProtocol portSpec)).
  destruct (decide (q = q0)) as [->|Hq].
  2:{ split; [|naive_solver]. intros H. exfalso. revert H.
      destruct (ctl_GetEndpoints c _).1 as [eps|]; [|rewrite list_elem_of_singleton; congruence].
      destruct (IsHeadlessService svc) eqn:Hh; simpl; [|rewrite list_elem_of_singleton; congruence].
      destruct (subdomain_services _ _ _) as [|ms0 added] eqn:E; [rewrite list_elem_of_singleton; congruence|].
      rewrite <- E, elem_of_subdomains by done. simpl. intros (h & _ & [=]). congruence. }
  destruct (ctl_GetEndpoints c _).1 as [eps|]; [|rewrite list_elem_of_singleton; naive_solver].
  rewrite <- target_port_iff. unfold mesh_service_name.
  destruct (IsHeadlessService svc) eqn:Hh; simpl.
  - destruct (subdomain_services _ _ _) as [|ms0 added] eqn:E.
    + assert (forall h, ~ named_host svc eps h) as Hno.
      { intros h Hn. eapply not_elem_of_nil. rewrite <- E. apply elem_of_subdomains; [done|]. eauto. }
      rewrite list_elem_of_singleton. naive_solver.
    + assert (exists h, named_host svc eps h) as [h0 Hh0].
      { assert (ms0 ∈ ms0 :: added) as Hin by set_solver. rewrite <- E in Hin.
        apply elem_of_subdomains in Hin as (h & ? & _); eauto. }
      rewrite <- E, elem_of_subdomains by done. simpl. naive_solver.
  - assert (forall h, ~ named_host svc eps h) as Hno.
    { intros h [Hn%headless_iff _]. congruence. }
    rewrite list_elem_of_singleton. naive_solver.
Qed.

Lemma port_to_mesh_services_nonempty c svc portSpec : port_to_mesh_services c svc portSpec <> [].
Proof. unfold port_to_mesh_services. simpl. by repeat case_match. Qed.

Lemma mesh_service_identity c svc portSpec ms :
  free_of (fun ch => Ascii.eqb ch ".") (svc_Name svc) ->
  mesh_service_of_port c svc portSpec ms ->
  NamespacedKey ms = svc_Namespace svc +:+ "/" +:+ svc_Name svc /\
  IsMultiClusterService ms = false /\ fits 16 (ms_TargetPort ms).
Proof.
  intros Hdot (Hns & Hu & _ & _ & Hep).
  assert (ProviderKey ms = svc_Name svc /\ fits 16 (ms_TargetPort ms)) as [Hk Hf].
  { destruct (ctl_GetEndpoints c _).1 as [eps|].
    - destruct Hep as [[(h & _ & Hn)|[_ Hn]] ->%target_port_iff];
        (split; [|apply GetTargetPortFromEndpoints_fits]).
      + by eapply ProviderKey_subdomain.
      + rewrite ProviderKey_nodot by (by rewrite Hn). done.
    - destruct Hep as [Hn ->]. split; [|by split]. rewrite ProviderKey_nodot by (by rewrite Hn). done. }
  split_and!; [|by unfold IsMultiClusterService; rewrite Hu|done]. unfold NamespacedKey. by rewrite Hns, Hk.
Qed.

(** C36: A Kubernetes service whose name has no dot is translated port by
    port, and every port has a mesh service. The mesh services are exactly
    these: the namespace of the service and its port at 16 bits; the protocol
    of the [appProtocol] field, else the first supported one that the name of
    the port announces as a prefix, else http; without endpoints the name of
    the service and target port 0; with endpoints the first endpoint port
    that belongs to the port (by name, or the only one, or the first when the
    port has no name) at 16 bits, or 0, and the name of the service, which
    for a headless service with named addresses is replaced by one name
    per host name. All of them keep the identity of the service. *)
Theorem ServiceToMeshServices_spec (c : Controller) (svc : KService) :
  free_of (fun ch => Ascii.eqb ch ".") (svc_Name svc) ->
  (forall ms, ms ∈ ServiceToMeshServices c svc <->
     exists portSpec, portSpec ∈ svc_Ports svc /\ mesh_service_of_port c svc portSpec ms) /\
  (forall portSpec, portSpec ∈ svc_Ports svc ->
     exists ms, ms ∈ ServiceToMeshServices c svc /\ mesh_service_of_port c svc portSpec ms) /\
  (forall ms, ms ∈ ServiceToMeshServices c svc ->
     NamespacedKey ms = svc_Namespace svc +:+ "/" +:+ svc_Name svc /\
     IsMultiClusterService ms = false /\ fits 16 (ms_TargetPort ms)).
Proof.
  intros Hdot. assert (forall ms, ms ∈ ServiceToMeshServices c svc <->
     exists portSpec, portSpec ∈ svc_Ports svc /\ mesh_service_of_port c svc portSpec ms) as Hiff.
  { intros ms. unfold ServiceToMeshServices. rewrite list_elem_of_bind.
    setoid_rewrite elem_of_mesh_services. naive_solver. }
  split_and!; [exact Hiff| |].
  - intros portSpec Hp. pose proof (port_to_mesh_services_nonempty c svc portSpec) as Hne.
    destruct (port_to_mesh_services c svc portSpec) as [|ms l] eqn:E; [done|].
    assert (mesh_service_of_port c svc portSpec ms) as Hms
      by (apply elem_of_mesh_services; rewrite E; set_solver).
    exists ms. split; [|done]. apply Hiff. eauto.
  - intros ms (portSpec & _ & Hms)%Hiff. by eapply mesh_service_identity.
Qed.

(** A headless service with two named addresses and one port, and its
    endpoints. *)
Definition example_service : KService :=
  mkKService "default" "mysql" "u1" ServiceTypeClusterIP ClusterIPNone [] {["app" := "mysql"]}
    [mkKServicePort "tcp-db" "TCP" None 3306 3306].

Definition example_endpoints : KEndpoints :=
  mkKEndpoints "default" "mysql" ∅
    [mkEndpointSubset [mkEndpointAddress "10.0.0.1" "mysql-0"; mkEndpointAddress "10.0.0.2" "mysql-1"]
       [mkEndpointPort "tcp-db" "TCP" None 13306]].

Definition example_pod : KPod :=
  mkKPod "default" "mysql-0" "u2" {["app" := "mysql"]} ∅ "db" "10.0.0.1" ["10.0.0.1"].

Definition example_informers : InformerCollection :=
  mkInformerCollection "ecnet" (Some (map_store ∅))
    (Some (map_store {["default/mysql" := example_service]}))
    (Some (map_store {["default/mysql-0" := example_pod]}))
    (Some (map_store {["default/mysql" := example_endpoints]})) None None None None.

Lemma ServiceToMeshServices_spec_witness :
  ServiceToMeshServices (client_controller example_informers) example_service =
    [mkMeshService "default" "mysql-0.mysql" 3306 13306 "tcp" "";
     mkMeshService "default" "mysql-1.mysql" 3306 13306 "tcp" ""] /\
  exists ms, ms ∈ ServiceToMeshServices (client_controller example_informers) example_service /\
    mesh_service_of_port (client_controller example_informers) example_service
      (mkKServicePort "tcp-db" "TCP" None 3306 3306) ms.
Proof.
  split; [vm_compute; reflexivity|].
  apply (proj1 (proj2 (ServiceToMeshServices_spec (client_controller example_informers) example_service
    ltac:(vm_compute; reflexivity)))). apply list_elem_of_here.
Defined.

#[global] Instance K8sServiceAccount_countable : Countable K8sServiceAccount.
Proof.
  refine (inj_countable' (fun sa => (sa_Namespace sa, sa_Name sa))
            (fun p => mkK8sServiceAccount p.1 p.2) _).
  by intros [].
Defined.

Lemma ListServiceIdentitiesForService_spec_witness :
  exists accounts,
    ListServiceIdentitiesForService (MapSet0:=gset_MapSet) example_informers
      (fun sel labels => bool_decide (sel ⊆ labels))
      (mkMeshService "default" "mysql-0.mysql" 3306 13306 "tcp" "") = inl accounts /\
    NoDup accounts /\
    forall sa, sa ∈ accounts <->
      svc_Selector example_service <> ∅ /\
      exists pod, pod ∈ ListPods example_informers /\
        bool_decide (svc_Selector example_service ⊆ pod_Labels pod) = true /\
        sa = mkK8sServiceAccount (pod_Namespace pod) (pod_ServiceAccountName pod).
Proof.
  apply (ListServiceIdentitiesForService_spec (MapSet0:=gset_MapSet)). vm_compute. reflexivity.
Defined.
