(* ===== verification/Multicluster.v ===== *)
(** * Imported services ([pkg/ecnet/service/multicluster])

    Service imports and global traffic policies, presented as Kubernetes
    services, endpoints and pods. A nil Go map is read as an empty one by
    every caller, so both are [∅]. *)

From Stdlib Require Import Ascii String.
From S2P Require Import Prelude GoStrings Constants MeshService ApiTypes Informers Kube.

(** ** Annotations of imported endpoints *)

Definition ServiceImportClusterKeyAnnotation (ip : string) (port : Z) : string :=
  "flomesh.io/ServiceImport/ClusterKey/" +:+ ip +:+ "/" +:+ fmt_d port.

Definition ServiceImportContextPathAnnotation (ip : string) (port : Z) : string :=
  "flomesh.io/ServiceImport/ContextPath/" +:+ ip +:+ "/" +:+ fmt_d port.

Definition ServiceImportLBTypeAnnotation (ip : string) (port : Z) : string :=
  "flomesh.io/ServiceImport/LBType/" +:+ ip +:+ "/" +:+ fmt_d port.

Definition ServiceImportLBWeightAnnotation (ip : string) (port : Z) : string :=
  "flomesh.io/ServiceImport/LBWeight/" +:+ ip +:+ "/" +:+ fmt_d port.

(** The service object made for one imported endpoint. *)
Definition import_service_port (port : SIServicePort) (endpoint : SIEndpoint) : KServicePort :=
  mkKServicePort (sip_Name port) (sip_Protocol port) (sip_AppProtocol port) (sip_Port port)
    (tgt_Port (sie_Target endpoint)).

Section MulticlusterClient.
Context (ic : InformerCollection).

(** ** [traffic_policy.go] *)

Definition getGlobalTrafficPolicy (svc : MeshService) : option GlobalTrafficPolicy :=
  hit (GetByKey (ic_GlobalTrafficPolicy ic) (NamespacedKey svc)).

Definition isLocality (svc : MeshService) : bool :=
  match getGlobalTrafficPolicy svc with
  | Some p => String.eqb (gtp_LbType p) LocalityLbType
  | None => true
  end.

Definition getServiceTrafficPolicy (svc : MeshService) : string * gmap string Z :=
  match getGlobalTrafficPolicy svc with
  | Some p =>
      (gtp_LbType p,
       if nonempty (gtp_LoadBalanceTarget p)
       then foldl (fun m lbt => <[tt_ClusterKey lbt := default 0 (tt_Weight lbt)]> m) ∅
              (gtp_LoadBalanceTarget p)
       else ∅)
  | None => (LocalityLbType, ∅)
  end.

(** The named results [(aa, fo, lc, weight, clusterKeys)]. *)
Record LbWeight := mkLbWeight {
  lb_aa : bool;
  lb_fo : bool;
  lb_lc : bool;
  lb_weight : Z;
  lb_clusterKeys : gmap string Z
}.

Definition GetLbWeightForService (svc : MeshService) : LbWeight :=
  let locality := mkLbWeight false false true 0 ∅ in
  match getGlobalTrafficPolicy svc with
  | None => locality
  | Some p =>
      if String.eqb (gtp_LbType p) ActiveActiveLbType then
        match gtp_LoadBalanceTarget p with
        | [] => mkLbWeight true false false ClusterWeightAcceptAll ∅
        | targets =>
            match first_some
                    (fun lbt => if String.eqb (ms_ServiceImportUID svc) (tt_ClusterKey lbt)
                                then Some lbt else None) targets with
            | Some lbt =>
                let w := default 0 (tt_Weight lbt) in
                mkLbWeight true false false w {[ tt_ClusterKey lbt := w ]}
            | None => mkLbWeight true false false 0 ∅
            end
        end
      else if String.eqb (gtp_LbType p) FailOverLbType then
        mkLbWeight false true false ClusterWeightFailOver
          (foldl (fun m lbt => <[tt_ClusterKey lbt := ClusterWeightFailOver]> m) ∅
             (gtp_LoadBalanceTarget p))
      else locality
  end.

(** ** [service_import.go] *)

Definition GetService (svc : MeshService) : option KService :=
  if isLocality svc then None
  else match hit (GetByKey (ic_ServiceImport ic) (NamespacedKey svc)) with
  | None => None
  | Some importedService =>
      first_some
        (fun port =>
           if EqualFold (si_Name importedService) (ms_Name svc)
              && Z.eqb uint16(sip_Port port) (ms_Port svc)
              && nonempty (sip_Endpoints port)
           then
             let found := first_some
               (fun e => if Z.eqb (ms_TargetPort svc) uint16(tgt_Port (sie_Target e))
                         then Some e else None) (sip_Endpoints port) in
             Some
               (mkKService (si_Namespace importedService) (si_Name importedService)
                  (si_UID importedService) ServiceTypeClusterIP
                  (from_option (fun e => tgt_IP (sie_Target e)) "" found)
                  (from_option (fun e => [tgt_IP (sie_Target e)]) [] found)
                  {[ "app" := si_Name importedService ]}
                  (from_option (fun e => [import_service_port port e]) [] found))
           else None)
        (si_Ports importedService)
  end.

Definition ListServices : list KService :=
  importedService ← ListInformer (ic_ServiceImport ic);
  if negb (nonempty (si_Ports importedService)) then []
  else if isLocality (mkMeshService (si_Namespace importedService) (si_Name importedService)
                        0 0 "" "") then []
  else
    port ← si_Ports importedService;
    endpoint ← sip_Endpoints port;
    [mkKService (si_Namespace importedService) (si_Name importedService)
       (sie_ClusterKey endpoint) ServiceTypeClusterIP
       (tgt_IP (sie_Target endpoint)) [tgt_IP (sie_Target endpoint)]
       {[ "app" := si_Name importedService ]} [import_service_port port endpoint]].

Definition GetNamespace (ns : string) : option KNamespace :=
  first_some
    (fun importedService =>
       if EqualFold (si_Namespace importedService) ns
       then Some (mkKNamespace (si_Namespace importedService) ∅ ∅ ["flomesh.io"])
       else None)
    (ListInformer (ic_ServiceImport ic)).

Definition ListPods : list KPod :=
  importedService ← ListInformer (ic_ServiceImport ic);
  port ← si_Ports importedService;
  endpoint ← sip_Endpoints port;
  [mkKPod (si_Namespace importedService) (tgt_Host (sie_Target endpoint)) ""
     {[ "app" := si_Name importedService ]} ∅ (si_ServiceAccountName importedService)
     (tgt_IP (sie_Target endpoint)) [tgt_IP (sie_Target endpoint)]].

(** The endpoints of a port that serve [svc]. *)
Definition endpoint_weight (clusterKeys : gmap string Z) (svc : MeshService) (endpoint : SIEndpoint)
  : option Z :=
  if Z.ltb 0 (ms_TargetPort svc)
     && negb (Z.eqb (ms_TargetPort svc) uint16(tgt_Port (sie_Target endpoint)))
  then None
  else if bool_decide (clusterKeys = ∅) then Some 0
  else clusterKeys !! sie_ClusterKey endpoint.

Definition import_subset (port : SIServicePort) (endpoint : SIEndpoint) : EndpointSubset :=
  mkEndpointSubset
    [mkEndpointAddress (tgt_IP (sie_Target endpoint)) (tgt_Host (sie_Target endpoint))]
    [mkEndpointPort (sip_Name port) (sip_Protocol port) (sip_AppProtocol port)
       (tgt_Port (sie_Target endpoint))].

Definition import_annotations (lbType : string) (lbWeight : Z) (endpoint : SIEndpoint)
    (m : gmap string string) : gmap string string :=
  let t := sie_Target endpoint in
  <[ServiceImportLBWeightAnnotation (tgt_IP t) (tgt_Port t) := fmt_d lbWeight]>
  (<[ServiceImportLBTypeAnnotation (tgt_IP t) (tgt_Port t) := lbType]>
  (<[ServiceImportContextPathAnnotation (tgt_IP t) (tgt_Port t) := tgt_Path t]>
  (<[ServiceImportClusterKeyAnnotation (tgt_IP t) (tgt_Port t) := sie_ClusterKey endpoint]> m))).

(** The body of the loop over [port.Endpoints]. *)
Definition add_import_endpoint (lbType : string) (clusterKeys : gmap string Z) (svc : MeshService)
    (port : SIServicePort) (targetEndpoints : KEndpoints) (endpoint : SIEndpoint) : KEndpoints :=
  match endpoint_weight clusterKeys svc endpoint with
  | None => targetEndpoints
  | Some lbWeight =>
      mkKEndpoints (eps_Namespace targetEndpoints) (eps_Name targetEndpoints)
        (import_annotations lbType lbWeight endpoint (eps_Annotations targetEndpoints))
        (eps_Subsets targetEndpoints ++ [import_subset port endpoint])
  end.

Definition GetEndpoints (svc : MeshService) : option KEndpoints * option string :=
  let '(lbType, clusterKeys) := getServiceTrafficPolicy svc in
  if String.eqb lbType LocalityLbType then (None, None)
  else match hit (GetByKey (ic_ServiceImport ic) (NamespacedKey svc)) with
  | None => (None, None)
  | Some importedService =>
      (first_some
         (fun port =>
            if EqualFold (si_Name importedService) (ms_Name svc)
               && (Z.eqb (ms_Port svc) 0 || Z.eqb (ms_Port svc) uint16(sip_Port port))
               && nonempty (sip_Endpoints port)
            then Some
              (foldl (add_import_endpoint lbType clusterKeys svc port)
                 (mkKEndpoints (si_Namespace importedService) (si_Name importedService) ∅ [])
                 (sip_Endpoints port))
            else None)
         (si_Ports importedService), None)
  end.

(** The loops over the ports and their endpoints. *)
Definition add_target_ports (aa : bool) (clusterKeys : gmap string Z) (targetPorts : gmap Z bool)
    (svcPort : SIServicePort) : gmap Z bool :=
  foldl (fun m e =>
           if bool_decide (clusterKeys = ∅) || bool_decide (is_Some (clusterKeys !! sie_ClusterKey e))
           then <[uint16(tgt_Port (sie_Target e)) := aa]> m else m)
    targetPorts (sip_Endpoints svcPort).

Definition GetTargetPortForServicePort (namespacedSvc : NamespacedName) (port : Z)
  : gmap Z bool :=
  let svc := mkMeshService (nn_Namespace namespacedSvc) (nn_Name namespacedSvc) 0 0 "" "" in
  let lb := GetLbWeightForService svc in
  if lb_lc lb then ∅
  else match hit (GetByKey (ic_ServiceImport ic) (NamespacedKey svc)) with
  | None => ∅
  | Some importedService =>
      foldl (fun m svcPort =>
               if EqualFold (si_Name importedService) (nn_Name namespacedSvc)
                  && Z.eqb uint16(sip_Port svcPort) port
                  && nonempty (sip_Endpoints svcPort)
               then add_target_ports (lb_aa lb) (lb_clusterKeys lb) m svcPort else m)
        ∅ (si_Ports importedService)
  end.

End MulticlusterClient.

(** The [Controller] interface, as far as other components call it. *)
Record MulticlusterController := mkMulticlusterController {
  mcc_ListServices : list KService;
  mcc_GetService : MeshService -> option KService;
  mcc_GetEndpoints : MeshService -> option KEndpoints * option string;
  mcc_GetTargetPortForServicePort : NamespacedName -> Z -> gmap Z bool;
  mcc_GetLbWeightForService : MeshService -> LbWeight
}.

Definition multicluster_controller (ic : InformerCollection) : MulticlusterController :=
  mkMulticlusterController (ListServices ic) (GetService ic) (GetEndpoints ic)
    (GetTargetPortForServicePort ic) (GetLbWeightForService ic).

(** ** Locality *)

(** No policy for the service, or one of type [Locality]. *)
Definition locality_policy (ic : InformerCollection) (svc : MeshService) : Prop :=
  forall p, getGlobalTrafficPolicy ic svc = Some p -> gtp_LbType p = LocalityLbType.

Lemma isLocality_true ic svc : isLocality ic svc = true <-> locality_policy ic svc.
Proof.
  unfold isLocality, locality_policy. destruct (getGlobalTrafficPolicy ic svc) as [p|].
  - rewrite String.eqb_eq. naive_solver.
  - naive_solver.
Qed.

Lemma getGlobalTrafficPolicy_key ic svc svc' :
  NamespacedKey svc = NamespacedKey svc' ->
  getGlobalTrafficPolicy ic svc = getGlobalTrafficPolicy ic svc'.
Proof. unfold getGlobalTrafficPolicy. by intros ->. Qed.

Lemma isLocality_key ic svc svc' :
  NamespacedKey svc = NamespacedKey svc' -> isLocality ic svc = isLocality ic svc'.
Proof. unfold isLocality. by intros ->%(getGlobalTrafficPolicy_key ic). Qed.

Lemma locality_lb ic svc :
  locality_policy ic svc -> GetLbWeightForService ic svc = mkLbWeight false false true 0 ∅.
Proof.
  unfold locality_policy, GetLbWeightForService.
  destruct (getGlobalTrafficPolicy ic svc) as [p|]; [|done]. intros H. by rewrite (H p).
Qed.

(** With no global traffic policy, or a [Locality] one, nothing of a
    service import is visible: no service, no endpoint, no target port, and
    the load balancing type is locality. *)
Theorem locality_hides_import (ic : InformerCollection) (svc : MeshService) :
  locality_policy ic svc ->
  GetService ic svc = None /\
  GetEndpoints ic svc = (None, None) /\
  GetLbWeightForService ic svc = mkLbWeight false false true 0 ∅ /\
  (forall nn port, nn_Namespace nn +:+ "/" +:+ nn_Name nn = NamespacedKey svc ->
     free_of (fun c => Ascii.eqb c ".") (nn_Name nn) ->
     GetTargetPortForServicePort ic nn port = ∅) /\
  (forall k, k ∈ ListServices ic -> svc_Namespace k +:+ "/" +:+ svc_Name k = NamespacedKey svc ->
     free_of (fun c => Ascii.eqb c ".") (svc_Name k) -> False).
Proof.
  intros Hl. pose proof (proj2 (isLocality_true ic svc) Hl) as Hb.
  assert (forall ns n p tp pr uid, ns +:+ "/" +:+ n = NamespacedKey svc ->
            free_of (fun c => Ascii.eqb c ".") n ->
            NamespacedKey (mkMeshService ns n p tp pr uid) = NamespacedKey svc) as Hkey.
  { intros ns n p tp pr uid <- Hn. unfold NamespacedKey. by rewrite ProviderKey_nodot. }
  repeat split.
  - unfold GetService. by rewrite Hb.
  - unfold GetEndpoints, getServiceTrafficPolicy. unfold locality_policy in Hl.
    destruct (getGlobalTrafficPolicy ic svc) as [p|]; [|done]. by rewrite (Hl p).
  - by apply locality_lb.
  - intros nn port Hk Hdot. unfold GetTargetPortForServicePort. rewrite locality_lb; [done|].
    unfold locality_policy. intros p.
    rewrite (getGlobalTrafficPolicy_key ic _ svc) by (by apply Hkey). apply Hl.
  - intros k Hk Hkk Hdot. unfold ListServices in Hk.
    apply list_elem_of_bind in Hk as (si & Hk & _).
    case_match; [by apply not_elem_of_nil in Hk|].
    case_match eqn:Hsi; [by apply not_elem_of_nil in Hk|].
    apply list_elem_of_bind in Hk as (port & Hk & _).
    apply list_elem_of_bind in Hk as (e & Hk & _).
    apply list_elem_of_singleton in Hk as ->. simpl in *.
    rewrite (isLocality_key ic _ svc) in Hsi by (by apply Hkey). congruence.
Qed.

(** ** Load balancing types *)

(** The load balancing mode of a service is the one its global traffic
    policy names: active-active with the weight of the first target for the
    cluster of the service (100 without targets), fail-over with weight 0
    and the clusters of the targets, locality otherwise. *)
Theorem GetLbWeightForService_modes (ic : InformerCollection) (svc : MeshService) :
  let lb := GetLbWeightForService ic svc in
  match getGlobalTrafficPolicy ic svc with
  | Some p =>
      (gtp_LbType p = ActiveActiveLbType ->
         lb_aa lb = true /\ lb_fo lb = false /\ lb_lc lb = false /\
         (gtp_LoadBalanceTarget p = [] -> lb_weight lb = ClusterWeightAcceptAll) /\
         (forall pre lbt post, gtp_LoadBalanceTarget p = pre ++ lbt :: post ->
            tt_ClusterKey lbt = ms_ServiceImportUID svc ->
            Forall (fun t => tt_ClusterKey t <> ms_ServiceImportUID svc) pre ->
            lb_weight lb = default 0 (tt_Weight lbt))) /\
      (gtp_LbType p = FailOverLbType ->
         lb_aa lb = false /\ lb_fo lb = true /\ lb_lc lb = false /\ lb_weight lb = 0 /\
         forall k, is_Some (lb_clusterKeys lb !! k) <->
           exists lbt, lbt ∈ gtp_LoadBalanceTarget p /\ tt_ClusterKey lbt = k) /\
      (gtp_LbType p <> ActiveActiveLbType -> gtp_LbType p <> FailOverLbType ->
         lb = mkLbWeight false false true 0 ∅)
  | None => lb = mkLbWeight false false true 0 ∅
  end.
Proof.
  simpl. unfold GetLbWeightForService.
  destruct (getGlobalTrafficPolicy ic svc) as [p|]; [|done]. split; [|split].
  - intros ->. rewrite String.eqb_refl. split_and!; [by repeat case_match..| |].
    + by intros ->.
    + intros pre lbt post Hp Hk Hpre. rewrite Hp.
      destruct (pre ++ lbt :: post) as [|t0 l] eqn:E; [by destruct pre|].
      rewrite (proj2 (first_some_Some _ (t0 :: l) lbt)); [done|]. rewrite <- E.
      exists pre, lbt, post. rewrite Hk, String.eqb_refl. split_and!; [done..|].
      eapply Forall_impl; [exact Hpre|]. intros t Ht. simpl.
      by rewrite (proj2 (String.eqb_neq _ _)) by congruence.
  - intros ->. simpl. split_and!; [done..|].
    apply (foldl_inv _ (fun pre m => forall k, is_Some (m !! k) <->
      exists lbt, lbt ∈ pre /\ tt_ClusterKey lbt = k)).
    + intros k. rewrite lookup_empty. split; [by intros []|set_solver].
    + intros pre a post m _ IH k. rewrite lookup_insert_is_Some, IH. split.
      * intros [<-|[_ (t & ? & ?)]]; [exists a|exists t]; set_solver.
      * intros (t & [Ht| ->%list_elem_of_singleton]%elem_of_app & Hk); [|by left].
        destruct (decide (tt_ClusterKey a = k)); [by left|right]. eauto.
  - intros H1 H2. rewrite (proj2 (String.eqb_neq _ _)) by done.
    by rewrite (proj2 (String.eqb_neq _ _)).
Qed.

(** ** Target ports *)

Definition serves (clusterKeys : gmap string Z) (e : SIEndpoint) : Prop :=
  clusterKeys = ∅ \/ is_Some (clusterKeys !! sie_ClusterKey e).

Lemma add_target_ports_spec aa keys m port tp b :
  (forall t c, m !! t = Some c -> c = aa) ->
  add_target_ports aa keys m port !! tp = Some b <->
  b = aa /\ (is_Some (m !! tp) \/
    exists e, e ∈ sip_Endpoints port /\ serves keys e /\ tp = uint16(tgt_Port (sie_Target e))).
Proof.
  intros Hm. revert tp b. unfold add_target_ports.
  apply (foldl_inv _ (fun pre m' => forall tp b, m' !! tp = Some b <->
    b = aa /\ (is_Some (m !! tp) \/
      exists e, e ∈ pre /\ serves keys e /\ tp = uint16(tgt_Port (sie_Target e))))).
  - intros tp b. split.
    + intros H. split; [by eapply Hm|left; by eexists].
    + intros [-> [[c Hc]|(e & []%not_elem_of_nil & _)]]. rewrite Hc. f_equal. by eapply Hm.
  - intros pre e post m' _ IH tp b.
    destruct (decide (serves keys e)) as [Hs|Hs].
    + replace (bool_decide (keys = ∅) || bool_decide (is_Some (keys !! sie_ClusterKey e)))
        with true by (destruct Hs as [->|Hs]; [by rewrite bool_decide_true by done|];
                      rewrite (bool_decide_true _ Hs); by rewrite orb_true_r).
      rewrite lookup_insert_Some, IH. split.
      { intros [[<- <-]|[? [-> [?|(e1 & ? & ?)]]]]; (split; [done|]); [right|by left|right]; eauto.
        - exists e. set_solver.
        - exists e1. set_solver. }
      intros [-> [Hi|(e' & He' & Hs' & ->)]].
      * destruct (decide (uint16(tgt_Port (sie_Target e)) = tp)); [by left|right]. eauto.
      * destruct (decide (uint16(tgt_Port (sie_Target e)) = uint16(tgt_Port (sie_Target e'))));
          [by left|right]. split; [done|]. split; [done|].
        apply elem_of_app in He' as [?| ->%list_elem_of_singleton]; [|done]. eauto.
    + replace (bool_decide (keys = ∅) || bool_decide (is_Some (keys !! sie_ClusterKey e)))
        with false by (symmetry; apply orb_false_iff; rewrite !bool_decide_eq_false;
                       unfold serves in Hs; tauto).
      rewrite IH. split; [set_solver|]. intros [-> [Hi|(e' & He' & Hs' & ->)]]; [by eauto|].
      split; [done|right]. exists e'. split; [|done].
      apply elem_of_app in He' as [?| ->%list_elem_of_singleton]; [done|]. done.
Qed.

(** What holds of a prefix's endpoint holds of the longer prefix. *)
Local Ltac grow_prefix :=
  intros [-> (p1 & e1 & ? & ?)]; split; [done|]; exists p1, e1; rewrite elem_of_app; tauto.

(** The target ports behind a service port are those of the imported
    endpoints of that port in the clusters the policy allows, all marked
    with whether the policy is active-active. *)
Theorem GetTargetPortForServicePort_spec (ic : InformerCollection) (nn : NamespacedName)
    (port : Z) (si : ServiceImport) :
  let svc := mkMeshService (nn_Namespace nn) (nn_Name nn) 0 0 "" "" in
  let lb := GetLbWeightForService ic svc in
  lb_lc lb = false ->
  hit (GetByKey (ic_ServiceImport ic) (NamespacedKey svc)) = Some si ->
  EqualFold (si_Name si) (nn_Name nn) = true ->
  forall tp b, GetTargetPortForServicePort ic nn port !! tp = Some b <->
    b = lb_aa lb /\
    exists p e, p ∈ si_Ports si /\ uint16(sip_Port p) = port /\ e ∈ sip_Endpoints p /\
      serves (lb_clusterKeys lb) e /\ tp = uint16(tgt_Port (sie_Target e)).
Proof.
  intros svc lb Hlc Hsi Hname. unfold GetTargetPortForServicePort. fold svc. fold lb.
  rewrite Hlc, Hsi, Hname. simpl.
  apply (foldl_inv _ (fun pre m => forall tp b, m !! tp = Some b <->
    b = lb_aa lb /\ exists p e, p ∈ pre /\ uint16(sip_Port p) = port /\ e ∈ sip_Endpoints p /\
      serves (lb_clusterKeys lb) e /\ tp = uint16(tgt_Port (sie_Target e)))).
  - intros tp b. rewrite lookup_empty. split; [done|set_solver].
  - intros pre p post m _ IH tp b.
    destruct (Z.eqb_spec uint16(sip_Port p) port) as [Hp|Hp]; simpl.
    + destruct (sip_Endpoints p) as [|e0 es] eqn:Hes; simpl.
      { rewrite IH. split; [grow_prefix|]. intros [-> (p' & e & Hp' & Hport & He & Hrest)].
        split; [done|]. exists p', e. split; [|done].
        apply elem_of_app in Hp' as [?| ->%list_elem_of_singleton]; [done|].
        rewrite Hes in He. by apply not_elem_of_nil in He. }
      rewrite add_target_ports_spec by (intros t c; rewrite IH; tauto). split.
      * intros [-> [[c Hc]|(e & He & Hs & ->)]]; split; try done.
        -- apply IH in Hc as [_ (p' & e & ? & ?)]. exists p', e. set_solver.
        -- exists p, e. set_solver.
      * intros [-> (p' & e & [Hp'| ->%list_elem_of_singleton]%elem_of_app & Hport & He & Hs & ->)];
          split; try done; [left|right; eauto].
        exists (lb_aa lb). apply IH. eauto 10.
    + rewrite IH. split; [grow_prefix|].
      intros [-> (p' & e & [Hp'| ->%list_elem_of_singleton]%elem_of_app & Hport & Hrest)];
        [|done]. eauto 10.
Qed.

(** ** Annotations *)

(** The four annotation keys have one shape. *)
Definition annotation_key (kind ip : string) (port : Z) : string :=
  "flomesh.io/ServiceImport/" +:+ kind +:+ String "/" (ip +:+ String "/" (fmt_d port)).

Lemma annotation_key_inj kind1 ip1 port1 kind2 ip2 port2 :
  free_of is_slash kind1 -> free_of is_slash kind2 ->
  free_of is_slash ip1 -> free_of is_slash ip2 ->
  annotation_key kind1 ip1 port1 = annotation_key kind2 ip2 port2 ->
  kind1 = kind2 /\ ip1 = ip2 /\ port1 = port2.
Proof.
  intros Hk1 Hk2 Hi1 Hi2 E. unfold annotation_key in E. simpl in E.
  assert (kind1 +:+ String "/" (ip1 +:+ String "/" (fmt_d port1)) =
          kind2 +:+ String "/" (ip2 +:+ String "/" (fmt_d port2))) as E'
    by (injection E; done).
  clear E. apply (f_equal (split_by is_slash)) in E'.
  assert (forall z, free_of is_slash (fmt_d z)) as Hd.
  { intros z. destruct (decide (0 <= z)) as [Hz|Hz].
    - apply digits_free_of; [|done]. intros c. unfold is_slash. intros ->%Ascii.eqb_eq. done.
    - unfold fmt_d, pretty, pretty_Z. destruct z as [|q|q]; [lia|lia|].
      apply (free_of_app is_slash "-"). split; [done|].
      apply (digits_free_of is_slash (Z.pos q)); [|lia].
      intros c. unfold is_slash. intros ->%Ascii.eqb_eq. done. }
  rewrite !split_by_sep, !split_by_free in E' by done. injection E' as -> -> E2.
  by apply (inj pretty) in E2.
Qed.

(** What the annotations say of an endpoint that was not filtered out. *)
Definition annotated (lbType : string) (w : Z) (e : SIEndpoint) (m : gmap string string) : Prop :=
  let t := sie_Target e in
  m !! ServiceImportLBWeightAnnotation (tgt_IP t) (tgt_Port t) = Some (fmt_d w) /\
  m !! ServiceImportLBTypeAnnotation (tgt_IP t) (tgt_Port t) = Some lbType /\
  m !! ServiceImportContextPathAnnotation (tgt_IP t) (tgt_Port t) = Some (tgt_Path t) /\
  m !! ServiceImportClusterKeyAnnotation (tgt_IP t) (tgt_Port t) = Some (sie_ClusterKey e).

Definition address_key (e : SIEndpoint) : string * Z :=
  (tgt_IP (sie_Target e), tgt_Port (sie_Target e)).

Lemma annotation_kinds ip port :
  ServiceImportLBWeightAnnotation ip port = annotation_key "LBWeight" ip port /\
  ServiceImportLBTypeAnnotation ip port = annotation_key "LBType" ip port /\
  ServiceImportContextPathAnnotation ip port = annotation_key "ContextPath" ip port /\
  ServiceImportClusterKeyAnnotation ip port = annotation_key "ClusterKey" ip port.
Proof. by repeat split. Qed.

(** Two annotation keys of different kinds, or of different addresses. *)
Local Ltac annotation_neq :=
  intros E; apply annotation_key_inj in E as (? & ? & ?); [|done..]; simplify_eq/=; congruence.

Lemma annotated_self lbType w e m :
  free_of is_slash (tgt_IP (sie_Target e)) ->
  annotated lbType w e (import_annotations lbType w e m).
Proof.
  intros Hip. unfold annotated, import_annotations.
  destruct (annotation_kinds (tgt_IP (sie_Target e)) (tgt_Port (sie_Target e)))
    as (-> & -> & -> & ->).
  split_and!; repeat first [by rewrite lookup_insert_eq | rewrite lookup_insert_ne by annotation_neq].
Qed.

Lemma annotated_other lbType w w' e e' m :
  free_of is_slash (tgt_IP (sie_Target e)) -> free_of is_slash (tgt_IP (sie_Target e')) ->
  address_key e <> address_key e' ->
  annotated lbType w e m -> annotated lbType w e (import_annotations lbType w' e' m).
Proof.
  unfold annotated, import_annotations, address_key. intros Hip Hip' Hne.
  destruct (annotation_kinds (tgt_IP (sie_Target e)) (tgt_Port (sie_Target e)))
    as (-> & -> & -> & ->).
  destruct (annotation_kinds (tgt_IP (sie_Target e')) (tgt_Port (sie_Target e')))
    as (-> & -> & -> & ->).
  intros (? & ? & ? & ?).
  split_and!; repeat (rewrite lookup_insert_ne by annotation_neq); done.
Qed.

(** The endpoints built from the endpoints of a port: one subset for each
    endpoint that passes the filters, in order, and its annotations. *)
Lemma import_endpoints_spec lbType keys svc port es eps0 :
  Forall (fun e => free_of is_slash (tgt_IP (sie_Target e))) es ->
  NoDup (address_key <$> es) ->
  let eps := foldl (add_import_endpoint lbType keys svc port) eps0 es in
  eps_Subsets eps = eps_Subsets eps0 ++
    (import_subset port <$> List.filter (fun e => bool_decide (is_Some (endpoint_weight keys svc e))) es) /\
  (forall e w, e ∈ es -> endpoint_weight keys svc e = Some w ->
     annotated lbType w e (eps_Annotations eps)).
Proof.
  intros Hip Hnd. apply (foldl_inv _ (fun pre eps =>
    eps_Subsets eps = eps_Subsets eps0 ++
      (import_subset port <$> List.filter (fun e => bool_decide (is_Some (endpoint_weight keys svc e))) pre) /\
    (forall e w, e ∈ pre -> endpoint_weight keys svc e = Some w ->
       annotated lbType w e (eps_Annotations eps)))).
  - split; [by rewrite app_nil_r|]. by intros e w []%not_elem_of_nil.
  - intros pre a post eps -> [IHs IHa]. unfold add_import_endpoint.
    rewrite List.filter_app, fmap_app, app_assoc, <- IHs. simpl.
    destruct (endpoint_weight keys svc a) as [w|] eqn:Ew.
    + rewrite bool_decide_true by (by eexists). split; [done|]. simpl.
      intros e w' [He| ->%list_elem_of_singleton]%elem_of_app He'.
      * rewrite Forall_app, Forall_cons in Hip. destruct Hip as (Hpre & Ha & _).
        apply annotated_other; [by eapply Forall_forall in Hpre|done| |by apply IHa].
        rewrite fmap_app, fmap_cons in Hnd. apply NoDup_app in Hnd as (_ & Hd & _).
        intros Heq. apply (Hd (address_key e)); [by apply list_elem_of_fmap_2|].
        rewrite Heq. apply list_elem_of_here.
      * rewrite Ew in He'. injection He' as <-. apply annotated_self.
        rewrite Forall_app, Forall_cons in Hip. by destruct Hip as (_ & Ha & _).
    + rewrite bool_decide_false by (by intros []). rewrite app_nil_r. split; [done|].
      intros e w' [He| ->%list_elem_of_singleton]%elem_of_app He'; [by apply IHa|congruence].
Qed.

(** ** Example *)

Definition example_import : ServiceImport :=
  mkServiceImport "default" "web" "uid-1"
    [mkSIServicePort "http-web" "TCP" None 80
       [mkSIEndpoint (mkTarget "a.example" "10.1.0.1" 8080 "/a") "cluster-a";
        mkSIEndpoint (mkTarget "b.example" "10.1.0.2" 8081 "/b") "cluster-b";
        mkSIEndpoint (mkTarget "c.example" "10.1.0.3" 8080 "/c") "cluster-c"]] "*".

Definition example_policy (lbType : string) : GlobalTrafficPolicy :=
  mkGlobalTrafficPolicy "default" "web" lbType
    [mkTrafficTarget "cluster-a" (Some 30); mkTrafficTarget "cluster-b" None].

Definition example_mc_informers (lbType : string) : InformerCollection :=
  mkInformerCollection "ecnet" None None None None None None
    (Some (map_store {["default/web" := example_import]}))
    (Some (map_store {["default/web" := example_policy lbType]})).

Lemma locality_hides_import_witness :
  GetEndpoints (example_mc_informers LocalityLbType)
    (mkMeshService "default" "web" 80 0 "http" "cluster-a") = (None, None).
Proof.
  apply locality_hides_import. intros p E. vm_compute in E. injection E as <-. reflexivity.
Defined.

Lemma GetTargetPortForServicePort_spec_witness :
  GetTargetPortForServicePort (example_mc_informers FailOverLbType)
    (mkNamespacedName "default" "web") 80 !! 8081 = Some false <->
  false = false /\
    exists p e, p ∈ si_Ports example_import /\ uint16(sip_Port p) = 80 /\ e ∈ sip_Endpoints p /\
      serves (lb_clusterKeys (GetLbWeightForService (example_mc_informers FailOverLbType)
                (mkMeshService "default" "web" 0 0 "" ""))) e /\
      8081 = uint16(tgt_Port (sie_Target e)).
Proof.
  apply (GetTargetPortForServicePort_spec (example_mc_informers FailOverLbType)
           (mkNamespacedName "default" "web") 80 example_import); vm_compute; reflexivity.
Defined.
