(* ===== verification/Provider.v ===== *)
(** * The provider interfaces ([pkg/ecnet/service/service.go],
    [pkg/ecnet/service/endpoint/types.go])

    The catalog only sees providers through these two interfaces. The class
    [LawfulEndpointProvider] is what it may rely on; the providers discharge
    it. *)

From Stdlib Require Import String.
From S2P Require Import Prelude GoStrings NetIP MeshService.

Definition Endpoint : Type := MeshService.Endpoint IP.

(** An endpoint of which only the address is known. *)
Definition plain_endpoint (ip : IP) (port : Z) : Endpoint := mkEndpoint ip port 0 0 "" "" "" "".

Record ServiceProvider := mkServiceProvider {
  sprov_ID : string;
  sprov_ListServices : list MeshService
}.

Record EndpointProvider := mkEndpointProvider {
  eprov_ID : string;
  eprov_ListEndpointsForService : MeshService -> list Endpoint;
  eprov_GetResolvableEndpointsForService : MeshService -> list Endpoint
}.

(** The endpoints a provider lists for a service with a known target port
    are all on that port; ports and weights fit 32 bits; and a cluster key
    on a resolvable endpoint marks an imported service. *)
Class LawfulEndpointProvider (p : EndpointProvider) : Prop := {
  eprov_target_port : forall svc ep,
    fits 16 (ms_TargetPort svc) -> ms_TargetPort svc <> 0 ->
    ep ∈ eprov_ListEndpointsForService p svc -> ep_Port ep = ms_TargetPort svc;
  eprov_fits : forall svc ep,
    ep ∈ eprov_ListEndpointsForService p svc -> fits 32 (ep_Port ep) /\ fits 32 (ep_Weight ep)
}.
