(* ===== verification/KubeProvider.v ===== *)
(** * The Kubernetes provider ([pkg/ecnet/service/providers/kube]) *)

From Stdlib Require Import String.
From S2P Require Import Prelude GoStrings NetIP Constants MeshService ApiTypes Informers Kube.
From S2P Require Import Provider.

Definition providerName : string := "kubernetes".

Section KubeClient.
Context (kubeController : Controller).

Definition ListEndpointsForService (svc : MeshService) : list Endpoint :=
  match ctl_GetEndpoints kubeController svc with
  | (Some kubernetesEndpoints, None) =>
      kubernetesEndpoint ← eps_Subsets kubernetesEndpoints;
      port ← sub_Ports kubernetesEndpoint;
      if negb (Z.eqb (ms_TargetPort svc) 0) && negb (Z.eqb (eport_Port port) (ms_TargetPort svc))
      then []
      else
        address ← sub_Addresses kubernetesEndpoint;
        if negb (String.eqb (Subdomain svc) "")
           && negb (String.eqb (Subdomain svc) (ea_Hostname address)) then []
        else match ParseIP (ea_IP address) with
             | None => []
             | Some ip => [plain_endpoint ip uint32(eport_Port port)]
             end
  | _ => []
  end.

Definition GetResolvableEndpointsForService (svc : MeshService) : list Endpoint :=
  match ctl_GetService kubeController svc with
  | None => []
  | Some kubeService =>
      if String.eqb (svc_ClusterIP kubeService) ""
         || String.eqb (svc_ClusterIP kubeService) ClusterIPNone
      then ListEndpointsForService svc
      else match ParseIP (svc_ClusterIP kubeService) with
           | None => []
           | Some ip =>
               map (fun svcPort => plain_endpoint ip uint32(sp_Port svcPort)) (svc_Ports kubeService)
           end
  end.

Definition ListServices : list MeshService :=
  svc ← ctl_ListServices kubeController; ServiceToMeshServices kubeController svc.

Definition kube_service_provider : ServiceProvider := mkServiceProvider providerName ListServices.

Definition kube_endpoint_provider : EndpointProvider :=
  mkEndpointProvider providerName ListEndpointsForService GetResolvableEndpointsForService.

Lemma kube_ListEndpointsForService_elem svc ep :
  ep ∈ ListEndpointsForService svc ->
  exists port ip, ep = plain_endpoint ip uint32(eport_Port port) /\
    (ms_TargetPort svc = 0 \/ eport_Port port = ms_TargetPort svc).
Proof.
  unfold ListEndpointsForService.
  destruct (ctl_GetEndpoints kubeController svc) as [[eps|] [err|]]; try by intros []%not_elem_of_nil.
  intros (sub & H & _)%list_elem_of_bind. apply list_elem_of_bind in H as (port & H & _).
  case_match eqn:Hport; [by apply not_elem_of_nil in H|].
  apply list_elem_of_bind in H as (addr & H & _).
  case_match; [by apply not_elem_of_nil in H|]. case_match; [|by apply not_elem_of_nil in H].
  apply list_elem_of_singleton in H as ->. eexists _, _. split; [done|].
  destruct (Z.eqb_spec (ms_TargetPort svc) 0); [by left|right].
  by destruct (Z.eqb_spec (eport_Port port) (ms_TargetPort svc)).
Qed.

(** The Kubernetes provider keeps the interface's promises. *)
#[global] Instance kube_provider_lawful : LawfulEndpointProvider kube_endpoint_provider.
Proof.
  split; simpl.
  - intros svc ep [H0 H1] Hne (port & ip & -> & [?|Hp])%kube_ListEndpointsForService_elem; [done|].
    simpl. rewrite Hp. apply uint_id. split; [done|]. lia.
  - intros svc ep (port & ip & -> & _)%kube_ListEndpointsForService_elem. simpl.
    split; [by apply uint_bound|]. by split.
Qed.

(** A service with a cluster IP resolves to that address alone, once for
    each port of the service; a headless one resolves to its endpoints. *)
Theorem kube_resolvable_endpoints (svc : MeshService) (k : KService) :
  ctl_GetService kubeController svc = Some k ->
  (IsHeadlessService k = true ->
     GetResolvableEndpointsForService svc = ListEndpointsForService svc) /\
  (IsHeadlessService k = false -> forall ip, ParseIP (svc_ClusterIP k) = Some ip ->
     Forall (fun ep => ep_IP ep = ip /\ ep_ClusterKey ep = "") (GetResolvableEndpointsForService svc) /\
     map (fun ep => ep_Port ep) (GetResolvableEndpointsForService svc) =
       map (fun p => uint32(sp_Port p)) (svc_Ports k)).
Proof.
  intros E. unfold GetResolvableEndpointsForService, IsHeadlessService. rewrite E. split.
  - by intros ->.
  - intros -> ip ->. split.
    + apply Forall_forall. intros ep (p & <- & _)%list_elem_of_In%in_map_iff. done.
    + by rewrite map_map.
Qed.

End KubeClient.
