(* ===== verification/FsmProvider.v ===== *)
(** * The multi-cluster provider ([pkg/ecnet/service/providers/fsm]) *)

From Stdlib Require Import String.
From S2P Require Import Prelude GoStrings NetIP Constants MeshService ApiTypes Informers Kube.
From S2P Require Import Multicluster Provider.

Definition ProviderName : string := "flomesh".

Section FsmClient.
Context (multiclusterController : MulticlusterController).

Definition ListEndpointsForService (svc : MeshService) : list Endpoint :=
  match mcc_GetEndpoints multiclusterController svc with
  | (Some kubernetesEndpoints, None) =>
      let annotation key := map_get (eps_Annotations kubernetesEndpoints) key in
      kubernetesEndpoint ← eps_Subsets kubernetesEndpoints;
      port ← sub_Ports kubernetesEndpoint;
      if negb (Z.eqb (ms_TargetPort svc) 0) && negb (Z.eqb (eport_Port port) (ms_TargetPort svc))
      then []
      else
        address ← sub_Addresses kubernetesEndpoint;
        if negb (String.eqb (Subdomain svc) "")
           && negb (String.eqb (Subdomain svc) (ea_Hostname address)) then []
        else match ParseIP (ea_IP address) with
             | None => []
             | Some ip =>
                 let weight := (ParseUint (annotation
                   (ServiceImportLBWeightAnnotation (ea_IP address) (eport_Port port))) 32).1 in
                 [mkEndpoint ip uint32(eport_Port port) uint32(weight) 0 ""
                    (annotation (ServiceImportClusterKeyAnnotation (ea_IP address) (eport_Port port)))
                    (annotation (ServiceImportLBTypeAnnotation (ea_IP address) (eport_Port port)))
                    (annotation (ServiceImportContextPathAnnotation (ea_IP address) (eport_Port port)))]
             end
  | _ => []
  end.

Definition GetResolvableEndpointsForService (svc : MeshService) : list Endpoint :=
  match mcc_GetService multiclusterController svc with
  | None => []
  | Some kubeService =>
      if String.eqb (svc_ClusterIP kubeService) ""
         || String.eqb (svc_ClusterIP kubeService) ClusterIPNone
      then ListEndpointsForService svc
      else match ParseIP (svc_ClusterIP kubeService) with
           | None => []
           | Some ip =>
               map (fun svcPort => mkEndpoint ip uint32(sp_Port svcPort) 0 0 "" ProviderName "" "")
                 (svc_Ports kubeService)
           end
  end.

(** The body of the loop over [svc.Spec.Ports]. *)
Definition import_port_to_mesh_services (svc : KService) (portSpec : KServicePort)
  : list MeshService :=
  let protocol := protocol_of_port_name (sp_Name portSpec) in
  let meshSvc := mkMeshService (svc_Namespace svc) (svc_Name svc) uint16(sp_Port portSpec) 0
                   (default protocol (sp_AppProtocol portSpec)) (svc_UID svc) in
  match (mcc_GetEndpoints multiclusterController meshSvc).1 with
  | None => []
  | Some endpoints =>
      subset ← eps_Subsets endpoints;
      port ← sub_Ports subset;
      [mkMeshService (ms_Namespace meshSvc) (ms_Name meshSvc) (ms_Port meshSvc)
         uint16(eport_Port port) (ms_Protocol meshSvc) (ms_ServiceImportUID meshSvc)]
  end.

Definition ServiceToMeshServices (svc : KService) : list MeshService :=
  portSpec ← svc_Ports svc; import_port_to_mesh_services svc portSpec.

Definition ListServices : list MeshService :=
  svc ← mcc_ListServices multiclusterController; ServiceToMeshServices svc.

Definition fsm_service_provider : ServiceProvider := mkServiceProvider ProviderName ListServices.

Definition fsm_endpoint_provider : EndpointProvider :=
  mkEndpointProvider ProviderName ListEndpointsForService GetResolvableEndpointsForService.

End FsmClient.

Lemma fsm_ListEndpointsForService_elem mcc svc ep :
  ep ∈ ListEndpointsForService mcc svc ->
  exists port w, ep_Port ep = uint32(eport_Port port) /\ ep_Weight ep = uint32(w) /\
    (ms_TargetPort svc = 0 \/ eport_Port port = ms_TargetPort svc).
Proof.
  unfold ListEndpointsForService.
  destruct (mcc_GetEndpoints mcc svc) as [[eps|] [err|]]; try by intros []%not_elem_of_nil.
  intros (sub & H & _)%list_elem_of_bind. apply list_elem_of_bind in H as (port & H & _).
  case_match eqn:Hport; [by apply not_elem_of_nil in H|].
  apply list_elem_of_bind in H as (addr & H & _).
  case_match; [by apply not_elem_of_nil in H|]. case_match; [|by apply not_elem_of_nil in H].
  apply list_elem_of_singleton in H as ->. eexists _, _. split; [done|]. split; [done|].
  destruct (Z.eqb_spec (ms_TargetPort svc) 0); [by left|right].
  by destruct (Z.eqb_spec (eport_Port port) (ms_TargetPort svc)).
Qed.

(** The multi-cluster provider keeps the interface's promises. *)
#[global] Instance fsm_provider_lawful mcc : LawfulEndpointProvider (fsm_endpoint_provider mcc).
Proof.
  split; simpl.
  - intros svc ep [H0 H1] Hne (port & w & -> & _ & [?|Hp])%fsm_ListEndpointsForService_elem; [done|].
    rewrite Hp. apply uint_id. split; [done|]. lia.
  - intros svc ep (port & w & -> & -> & _)%fsm_ListEndpointsForService_elem.
    split; by apply uint_bound.
Qed.

(** ** The endpoints of a service import, end to end *)

(** What the API server admits in the endpoint of a service import. *)
Definition endpoint_ok (e : SIEndpoint) : Prop :=
  free_of is_slash (tgt_IP (sie_Target e)) /\ fits 16 (tgt_Port (sie_Target e)).

#[global] Instance endpoint_ok_dec e : Decision (endpoint_ok e).
Proof. unfold endpoint_ok. apply _. Defined.

(** The weight a policy gives the endpoints of a cluster: a policy without
    targets admits every cluster with weight 0, one with targets admits the
    clusters among them, with the weight of the last target of the cluster,
    0 if it has none. *)
Definition policy_weight (p : GlobalTrafficPolicy) (cluster : string) : option Z :=
  match gtp_LoadBalanceTarget p with
  | [] => Some 0
  | targets => default 0 ∘ tt_Weight <$> last (filter (fun t => tt_ClusterKey t = cluster) targets)
  end.

(** The endpoint the provider is to list for one endpoint of an import: an
    endpoint on another port than the target port of the service, when that
    is known, one of a cluster the policy does not admit, and one whose
    address does not parse are left out. *)
Definition import_endpoint (p : GlobalTrafficPolicy) (svc : MeshService) (e : SIEndpoint)
  : option Endpoint :=
  let t := sie_Target e in
  if decide (ms_TargetPort svc = 0 \/ tgt_Port t = ms_TargetPort svc) then
    ip ← ParseIP (tgt_IP t);
    w ← policy_weight p (sie_ClusterKey e);
    Some (mkEndpoint ip (tgt_Port t) w 0 "" (sie_ClusterKey e) (gtp_LbType p) (tgt_Path t))
  else None.

(** The table of cluster weights the code builds. *)
Lemma traffic_policy_keys ic svc p :
  hit (GetByKey (ic_GlobalTrafficPolicy ic) (NamespacedKey svc)) = Some p ->
  exists keys, getServiceTrafficPolicy ic svc = (gtp_LbType p, keys) /\
    (forall e, ms_TargetPort svc = 0 \/ fits 16 (ms_TargetPort svc) -> fits 16 (tgt_Port (sie_Target e)) ->
       endpoint_weight keys svc e =
         if decide (ms_TargetPort svc = 0 \/ tgt_Port (sie_Target e) = ms_TargetPort svc)
         then policy_weight p (sie_ClusterKey e) else None).
Proof.
  intros Hp. unfold getServiceTrafficPolicy, getGlobalTrafficPolicy. rewrite Hp. eexists. split; [done|].
  assert (forall k l, foldl (fun m lbt => <[tt_ClusterKey lbt := default 0 (tt_Weight lbt)]> m)
              (∅ : gmap string Z) l !! k =
            (default 0 ∘ tt_Weight <$> last (filter (fun t => tt_ClusterKey t = k) l))) as Hkeys.
  { intros k l. induction l as [|t l IH] using rev_ind; [apply lookup_empty|].
    rewrite foldl_snoc, filter_app, filter_cons, filter_nil.
    destruct (decide (tt_ClusterKey t = k)) as [<-|Hne].
    - by rewrite lookup_insert_eq, last_snoc.
    - by rewrite lookup_insert_ne, app_nil_r. }
  intros e Htp Hfit. unfold endpoint_weight, policy_weight. rewrite (uint_id 16 (tgt_Port _)) by done.
  assert (Z.ltb 0 (ms_TargetPort svc) && negb (Z.eqb (ms_TargetPort svc) (tgt_Port (sie_Target e))) =
          negb (bool_decide (ms_TargetPort svc = 0 \/ tgt_Port (sie_Target e) = ms_TargetPort svc))) as ->.
  { destruct (Z.ltb_spec 0 (ms_TargetPort svc)), (Z.eqb_spec (ms_TargetPort svc) (tgt_Port (sie_Target e)));
      case_bool_decide; simpl; try done; destruct Htp as [?|[? _]]; lia. }
  case_decide as Hd; [rewrite bool_decide_true by done|by rewrite bool_decide_false]. cbn [negb].
  destruct (gtp_LoadBalanceTarget p) as [|t l] eqn:El; [by rewrite bool_decide_true|].
  cbn [nonempty]. rewrite <- Hkeys, bool_decide_false; [done|].
  intros Hempty. pose proof (Hkeys (tt_ClusterKey t) (t :: l)) as Hk. rewrite Hempty, lookup_empty in Hk.
  rewrite filter_cons, decide_True in Hk by done.
  destruct (last (_ :: _)) eqn:E; [done|]. by apply last_None in E.
Qed.

Lemma bind_filter_omap {A B C} (g : A -> B) (f : A -> bool) (h : B -> list C) (k : A -> option C) l :
  (forall a, a ∈ l -> (if f a then h (g a) else []) = option_list (k a)) ->
  (g <$> List.filter f l) ≫= h = omap k l.
Proof.
  induction l as [|a l IH]; intros H; [done|].
  assert (omap k (a :: l) = option_list (k a) ++ omap k l) as -> by (simpl; by destruct (k a)).
  rewrite <- IH by (intros x Hx; apply H; by apply list_elem_of_further).
  rewrite <- (H a (list_elem_of_here _ _)). simpl. by destruct (f a).
Qed.

Lemma annotated_get lbType w e m :
  annotated lbType w e m ->
  let t := sie_Target e in
  map_get m (ServiceImportLBWeightAnnotation (tgt_IP t) (tgt_Port t)) = fmt_d w /\
  map_get m (ServiceImportLBTypeAnnotation (tgt_IP t) (tgt_Port t)) = lbType /\
  map_get m (ServiceImportContextPathAnnotation (tgt_IP t) (tgt_Port t)) = tgt_Path t /\
  map_get m (ServiceImportClusterKeyAnnotation (tgt_IP t) (tgt_Port t)) = sie_ClusterKey e.
Proof.
  unfold annotated, map_get. intros (-> & -> & -> & ->). done.
Qed.

Lemma policy_weight_fits p k w :
  (forall t w, t ∈ gtp_LoadBalanceTarget p -> tt_Weight t = Some w -> fits 32 w) ->
  policy_weight p k = Some w -> fits 32 w.
Proof.
  unfold policy_weight. intros Hw. destruct (gtp_LoadBalanceTarget p) as [|t l]; [by intros [= <-]|].
  intros (t' & Ht' & ->)%fmap_Some. apply last_Some_elem_of, list_elem_of_filter in Ht' as [_ Ht'].
  simpl. destruct (tt_Weight t') as [w'|] eqn:E; [|done]. by eapply Hw.
Qed.

(** C17: The endpoints listed for an imported service are exactly those
    endpoints of the first port of the import with the service's port number
    whose address parses, that are on the service's target port (any, if
    that is not known) and whose cluster the traffic policy admits: all
    clusters if it names no target, with weight 0, and otherwise those of
    its targets with the weight of the (last) target. Each comes, in order,
    with its address, port, cluster key and path and the load balancing type
    of the policy: nothing is lost through the annotations. The policy is
    not of type [Locality]; the import has the name of the service, which
    has no subdomain and a port; the endpoints have no slash in their
    addresses, ports of 16 bits and pairwise different addresses and ports,
    and the weights fit 32 bits. *)
Theorem fsm_endpoints_of_import (ic : InformerCollection) (svc : MeshService)
    (p : GlobalTrafficPolicy) (si : ServiceImport)
    (pre post : list SIServicePort) (port : SIServicePort) :
  hit (GetByKey (ic_GlobalTrafficPolicy ic) (NamespacedKey svc)) = Some p ->
  gtp_LbType p <> LocalityLbType ->
  hit (GetByKey (ic_ServiceImport ic) (NamespacedKey svc)) = Some si ->
  EqualFold (si_Name si) (ms_Name svc) = true ->
  Subdomain svc = "" ->
  fits 16 (ms_TargetPort svc) ->
  si_Ports si = pre ++ port :: post ->
  Forall (fun p => uint16(sip_Port p) <> ms_Port svc) pre ->
  uint16(sip_Port port) = ms_Port svc -> ms_Port svc <> 0 ->
  sip_Endpoints port <> [] ->
  Forall endpoint_ok (sip_Endpoints port) ->
  NoDup (address_key <$> sip_Endpoints port) ->
  (forall t w, t ∈ gtp_LoadBalanceTarget p -> tt_Weight t = Some w -> fits 32 w) ->
  ListEndpointsForService (multicluster_controller ic) svc =
    omap (import_endpoint p svc) (sip_Endpoints port).
Proof.
  intros Hp Hlb Hsi Hname Hsub Htp Hports Hpre Hport Hport0 Hne Hok Hnd Hw.
  destruct (traffic_policy_keys ic svc p Hp) as (keys & Hpol & Hweight).
  unfold ListEndpointsForService. simpl. unfold GetEndpoints. rewrite Hpol.
  rewrite (proj2 (String.eqb_neq _ _) Hlb), Hsi.
  erewrite (proj2 (first_some_Some _ _ _)); cycle 1.
  { exists pre, port, post. split; [done|]. split.
    - by rewrite Hname, Hport, Z.eqb_refl, orb_true_r, (proj2 (nonempty_true _) Hne).
    - eapply Forall_impl; [exact Hpre|]. intros q Hq. simpl.
      rewrite (proj2 (Z.eqb_neq _ _) Hport0), (proj2 (Z.eqb_neq (ms_Port svc) _)) by congruence.
      by rewrite andb_false_r. }
  destruct (import_endpoints_spec (gtp_LbType p) keys svc port (sip_Endpoints port)
              (mkKEndpoints (si_Namespace si) (si_Name si) ∅ [])) as [-> Hann]; [|done|].
  { eapply Forall_impl; [exact Hok|]. by intros e []. }
  simpl. apply bind_filter_omap. intros e He.
  pose proof (proj1 (Forall_forall _ _) Hok e He) as [Hslash Hfit].
  specialize (Hweight e (or_intror Htp) Hfit). unfold import_endpoint.
  destruct (decide (ms_TargetPort svc = 0 \/ tgt_Port (sie_Target e) = ms_TargetPort svc)) as [Hd|Hd];
    [|by rewrite Hweight].
  destruct (policy_weight p (sie_ClusterKey e)) as [w|] eqn:Ew; rewrite Hweight; simpl;
    [|by destruct (ParseIP (tgt_IP (sie_Target e)))].
  destruct (annotated_get _ _ _ _ (Hann e w He Hweight)) as (-> & -> & -> & ->). rewrite Hsub. simpl.
  assert (negb (Z.eqb (ms_TargetPort svc) 0) &&
          negb (Z.eqb (tgt_Port (sie_Target e)) (ms_TargetPort svc)) = false) as ->.
  { destruct Hd as [->| ->]; [done|]. by rewrite Z.eqb_refl, andb_false_r. }
  assert (fits 32 w) as Hw32 by (by eapply policy_weight_fits).
  rewrite !app_nil_r, ParseUint_fmt_d by done. simpl.
  rewrite (uint_id 32 w), (uint_id 32 (tgt_Port _)) by (done || (destruct Hfit; split; lia)).
  by destruct (ParseIP (tgt_IP (sie_Target e))).
Qed.

Lemma fsm_endpoints_of_import_witness :
  ListEndpointsForService (multicluster_controller (example_mc_informers ActiveActiveLbType))
    (mkMeshService "default" "web" 80 8080 "http" "cluster-a") =
  [mkEndpoint (IPv4 10 1 0 1) 8080 30 0 "" "cluster-a" ActiveActiveLbType "/a"].
Proof.
  rewrite (fsm_endpoints_of_import (example_mc_informers ActiveActiveLbType)
    (mkMeshService "default" "web" 80 8080 "http" "cluster-a") (example_policy ActiveActiveLbType)
    example_import [] []
    (default (mkSIServicePort "" "" None 0 []) (head (si_Ports example_import)))).
  - vm_compute. reflexivity.
  - vm_compute. reflexivity.
  - done.
  - vm_compute. reflexivity.
  - vm_compute. reflexivity.
  - vm_compute. reflexivity.
  - by vm_compute.
  - done.
  - done.
  - done.
  - done.
  - done.
  - by apply (bool_decide_unpack _).
  - by apply (bool_decide_unpack _).
  - intros t w Ht. repeat (apply elem_of_cons in Ht as [->|Ht]; [by intros [= <-]|]).
    by apply not_elem_of_nil in Ht.
Defined.
