(* ===== verification/Policy.v ===== *)
(** * Traffic policies ([pkg/ecnet/service/policy])

    A slice or map field that [reflect.DeepEqual] compares is an [option]:
    nil and empty are different there. *)

From Stdlib Require Import String.
From S2P Require Import Prelude GoStrings MapSet Constants MeshService.

Inductive PathMatchType := PathMatchRegex | PathMatchExact | PathMatchPrefix.

#[global] Instance PathMatchType_eq_dec : EqDecision PathMatchType.
Proof. solve_decision. Defined.

Record HTTPRouteMatch := mkHTTPRouteMatch {
  hrm_Path : string;
  hrm_PathMatchType : PathMatchType;
  hrm_Methods : option (list string);
  hrm_Headers : option (gmap string string)
}.

#[global] Instance HTTPRouteMatch_eq_dec : EqDecision HTTPRouteMatch.
Proof. solve_decision. Defined.

(** [WildCardRouteMatch]: any path, any method, no header. *)
Definition WildCardRouteMatch : HTTPRouteMatch :=
  mkHTTPRouteMatch RegexMatchAll PathMatchRegex (Some [WildcardHTTPMethod]) None.

Record HTTPRouteMatchWithWeightedClusters := mkHTTPRouteMatchWithWeightedClusters {
  hrw_UpstreamClusters : list WeightedCluster;
  hrw_RouteMatches : list HTTPRouteMatch;
  hrw_HasSplitMatches : bool
}.

Record MeshClusterConfig := mkMeshClusterConfig {
  mcc_Name : string;
  mcc_Service : MeshService;
  mcc_Address : string;
  mcc_Port : Z
}.

Record TrafficMatch := mkTrafficMatch {
  tm_DestinationPort : Z;
  tm_DestinationProtocol : string;
  tm_ServerNames : list string;
  tm_Cluster : string;
  tm_Name : string;
  tm_WeightedClusters : list WeightedCluster
}.

(** A plugin; the priority is in the units of [PluginChainSpec]. *)
Record Plugin := mkPlugin {
  plugin_Name : string;
  plugin_Priority : Z;
  plugin_Script : string;
  plugin_BuildIn : bool
}.

Section Routes.
Context `{!MapSet WeightedCluster}.

Record RouteWeightedClusters := mkRouteWeightedClusters {
  rwc_HTTPRouteMatch : HTTPRouteMatch;
  rwc_WeightedClusters : mset WeightedCluster
}.

Record OutboundTrafficPolicy := mkOutboundTrafficPolicy {
  otp_Name : string;
  otp_Hostnames : list string;
  otp_Routes : list RouteWeightedClusters
}.

Record OutboundMeshTrafficPolicy := mkOutboundMeshTrafficPolicy {
  omtp_TrafficMatches : list TrafficMatch;
  omtp_HTTPRouteConfigsPerPort : gmap Z (list OutboundTrafficPolicy);
  omtp_ClustersConfigs : list MeshClusterConfig;
  omtp_ServicesResolvableSet : gmap string (list string)
}.

Definition NewOutboundTrafficPolicy (name : string) (hostnames : list string)
  : OutboundTrafficPolicy := mkOutboundTrafficPolicy name hostnames [].

(** The sum is a Go [int]. *)
Definition TotalClustersWeight (rwc : RouteWeightedClusters) : Z :=
  foldl (fun totalWeight cluster => sint 64 (totalWeight + wc_Weight cluster)) 0
    (Iter (rwc_WeightedClusters rwc)).

(** [AddRoute] updates the policy in place and returns an error or nil; the
    [%v] renderings of the two routes are left out of the error text. *)
Definition AddRoute (out : OutboundTrafficPolicy) (httpRouteMatch : HTTPRouteMatch)
    (weightedClusters : list WeightedCluster) : OutboundTrafficPolicy * option string :=
  let wc := set_of weightedClusters in
  match first_some
          (fun existingRoute =>
             if bool_decide (rwc_HTTPRouteMatch existingRoute = httpRouteMatch)
             then Some existingRoute else None) (otp_Routes out) with
  | Some existingRoute =>
      if Equal (rwc_WeightedClusters existingRoute) wc then (out, None)
      else (out, Some ("Route for HTTP Route Match: already exists for outbound traffic policy: "
                       +:+ otp_Name out))
  | None =>
      (mkOutboundTrafficPolicy (otp_Name out) (otp_Hostnames out)
         (otp_Routes out ++ [mkRouteWeightedClusters httpRouteMatch wc]), None)
  end.

(** ** Lemmas *)

Lemma foldr_add_start (l : list Z) z a : foldr Z.add (z + a) l = a + foldr Z.add z l.
Proof. induction l as [|x l IH]; simpl; lia. Qed.

Lemma sum_wraps l z :
  foldl (fun t (c : WeightedCluster) => sint 64 (t + wc_Weight c)) (sint 64 z) l =
  sint 64 (foldr Z.add z (wc_Weight <$> l)).
Proof.
  revert z. induction l as [|c l IH]; intros z; [done|]. simpl.
  rewrite sint_add_l by lia. rewrite IH. f_equal. apply foldr_add_start.
Qed.

Lemma foldr_add_perm (l1 l2 : list Z) z : l1 ≡ₚ l2 -> foldr Z.add z l1 = foldr Z.add z l2.
Proof. induction 1; simpl; lia. Qed.

(** The total weight is the sum of the weights, wrapped to 64 bits, in
    whatever order the set is iterated. *)
Theorem TotalClustersWeight_sum (rwc : RouteWeightedClusters) (l : list WeightedCluster) :
  Iter (rwc_WeightedClusters rwc) ≡ₚ l ->
  TotalClustersWeight rwc = sint 64 (foldr Z.add 0 (wc_Weight <$> l)).
Proof.
  intros Hl. unfold TotalClustersWeight. change 0 with (sint 64 0) at 1.
  rewrite sum_wraps. f_equal. apply foldr_add_perm. by rewrite Hl.
Qed.

(** No two routes of a policy have the same match. *)
Definition routes_distinct (out : OutboundTrafficPolicy) : Prop :=
  NoDup (rwc_HTTPRouteMatch <$> otp_Routes out).

(** [AddRoute] keeps the matches of a policy distinct. It adds the route
    exactly when the match is new; for a match already there it fails
    exactly when the clusters differ; it never changes a route. *)
Theorem AddRoute_spec (out : OutboundTrafficPolicy) (m : HTTPRouteMatch)
    (clusters : list WeightedCluster) :
  routes_distinct out ->
  let '(out', err) := AddRoute out m clusters in
  routes_distinct out' /\
  (forall r, r ∈ otp_Routes out -> rwc_HTTPRouteMatch r = m ->
     out' = out /\
     (err = None <-> forall c, c ∈ Iter (rwc_WeightedClusters r) <-> c ∈ clusters)) /\
  (m ∉ rwc_HTTPRouteMatch <$> otp_Routes out ->
     err = None /\ otp_Name out' = otp_Name out /\ otp_Hostnames out' = otp_Hostnames out /\
     otp_Routes out' = otp_Routes out ++ [mkRouteWeightedClusters m (set_of clusters)]).
Proof.
  intros Hd. unfold AddRoute.
  match goal with |- context [first_some ?f ?l] => destruct (first_some f l) as [r0|] eqn:E end.
  - apply first_some_Some in E as (pre & r & post & Hr & Hf & _).
    case_bool_decide as Hm; [|done]. injection Hf as <-.
    assert (r ∈ otp_Routes out) as Hin by (rewrite Hr; set_solver).
    assert (forall r', r' ∈ otp_Routes out -> rwc_HTTPRouteMatch r' = m -> r' = r) as Huniq.
    { intros r' Hr' Hm'. unfold routes_distinct in Hd. clear Hr.
      induction (otp_Routes out) as [|x l IH]; [by apply not_elem_of_nil in Hin|].
      rewrite fmap_cons in Hd. apply NoDup_cons in Hd as [Hx Hd].
      apply elem_of_cons in Hin as [->|Hin], Hr' as [->|Hr']; [done| | |by apply IH].
      - destruct Hx. rewrite Hm, <- Hm'. by apply list_elem_of_fmap_2.
      - destruct Hx. rewrite Hm', <- Hm. by apply list_elem_of_fmap_2. }
    assert (Equal (rwc_WeightedClusters r) (set_of clusters) = true <->
            forall c, c ∈ Iter (rwc_WeightedClusters r) <-> c ∈ clusters) as Heq.
    { rewrite equal_spec. by setoid_rewrite elem_of_set_of. }
    destruct (Equal (rwc_WeightedClusters r) (set_of clusters)).
    all: split; [done|]; split;
      [intros r' Hr' Hm'; rewrite (Huniq r' Hr' Hm'); naive_solver|].
    all: intros Hn; destruct Hn; rewrite <- Hm; by apply list_elem_of_fmap_2.
  - apply first_some_None in E. rewrite Forall_forall in E. simpl.
    assert (m ∉ rwc_HTTPRouteMatch <$> otp_Routes out) as Hn.
    { intros (r & -> & Hr)%list_elem_of_fmap. specialize (E r Hr). by case_bool_decide. }
    split; [|split; [|done]].
    + unfold routes_distinct. simpl. rewrite fmap_app. apply NoDup_app. split; [done|].
      split; [|apply NoDup_singleton]. intros x Hx ->%list_elem_of_singleton. done.
    + intros r Hr <-. destruct Hn. by apply list_elem_of_fmap_2.
Qed.

End Routes.

Lemma AddRoute_spec_witness :
  (AddRoute (MapSet0:=gset_MapSet)
     (NewOutboundTrafficPolicy "web.default.svc.cluster.local" []) WildCardRouteMatch
     [mkWeightedCluster "default/web|8080" 100]).2 = None.
Proof.
  destruct (AddRoute (MapSet0:=gset_MapSet)
     (NewOutboundTrafficPolicy "web.default.svc.cluster.local" []) WildCardRouteMatch
     [mkWeightedCluster "default/web|8080" 100]) as [out' err] eqn:E.
  pose proof (AddRoute_spec (MapSet0:=gset_MapSet)
     (NewOutboundTrafficPolicy "web.default.svc.cluster.local" []) WildCardRouteMatch
     [mkWeightedCluster "default/web|8080" 100] (NoDup_nil_2)) as H.
  rewrite E in H. apply H. apply not_elem_of_nil.
Defined.

Lemma TotalClustersWeight_sum_witness :
  TotalClustersWeight (MapSet0:=gset_MapSet)
    (mkRouteWeightedClusters (MapSet0:=gset_MapSet) WildCardRouteMatch
       (set_of (MapSet0:=gset_MapSet) [mkWeightedCluster "a" 70; mkWeightedCluster "b" 30])) = 100.
Proof.
  rewrite (TotalClustersWeight_sum (MapSet0:=gset_MapSet) _
             [mkWeightedCluster "a" 70; mkWeightedCluster "b" 30]); [reflexivity|].
  apply NoDup_Permutation; [apply NoDup_elements|by apply (bool_decide_unpack _)|].
  intros x. apply (elem_of_set_of (MapSet0:=gset_MapSet)).
Defined.
