(* ===== verification/Catalog.v ===== *)
(** * The mesh catalog ([pkg/ecnet/catalog])

    The services the bridge routes to, and the outbound mesh traffic policy
    computed from them. *)

From Stdlib Require Import String.
From S2P Require Import Prelude GoStrings MapSet NetIP Constants MeshService ApiTypes Informers.
From S2P Require Import Kube Multicluster Provider KubeProvider FsmProvider Policy.

Record MeshCatalog := mkMeshCatalog {
  mc_serviceProviders : list ServiceProvider;
  mc_endpointsProviders : list EndpointProvider;
  mc_multiclusterController : MulticlusterController
}.

Section Catalog.
Context (mc : MeshCatalog).

(** ** [service.go] *)

(** The two loops: first the multi-cluster services, then those of the
    other providers that a multi-cluster service shares its name with. *)
Definition listMeshServices : list MeshService :=
  let is_fsm p := String.eqb (sprov_ID p) ProviderName in
  let mcServices :=
    p ← List.filter is_fsm (mc_serviceProviders mc); sprov_ListServices p in
  let otherProviders := List.filter (fun p => negb (is_fsm p)) (mc_serviceProviders mc) in
  if nonempty mcServices then
    mcServices ++
    (provider ← otherProviders;
     List.filter
       (fun svc => existsb (fun mcSvc =>
                     String.eqb (ms_Name svc) (ms_Name mcSvc)
                     && String.eqb (ms_Namespace svc) (ms_Namespace mcSvc)) mcServices)
       (sprov_ListServices provider))
  else mcServices.

(** ** [endpoint.go] *)

Definition listEndpointsForService (svc : MeshService) : list Endpoint :=
  provider ← mc_endpointsProviders mc; eprov_ListEndpointsForService provider svc.

Definition getDNSResolvableServiceEndpoints (svc : MeshService) : list Endpoint :=
  provider ← mc_endpointsProviders mc; eprov_GetResolvableEndpointsForService provider svc.

Definition ListUpstreamEndpointsForService (upstreamSvc : MeshService) : list Endpoint :=
  listEndpointsForService upstreamSvc.

(** ** [outbound_traffic_policies.go] *)

Definition ListOutboundServices : list MeshService := listMeshServices.

Definition mergeUpstreamClusters (meshSvc : MeshService) (upstreamClusters : list WeightedCluster)
  : list WeightedCluster :=
  let weight :=
    if IsMultiClusterService meshSvc then
      let lb := mcc_GetLbWeightForService (mc_multiclusterController mc) meshSvc in
      if lb_aa lb && Z.ltb 0 (lb_weight lb) then lb_weight lb
      else if lb_fo lb then ClusterWeightFailOver
      else ClusterWeightAcceptAll
    else ClusterWeightAcceptAll in
  upstreamClusters ++ [mkWeightedCluster (ClusterName meshSvc) weight].

(** One upstream cluster, unless its name was seen. *)
Definition add_upstream (weight : WeightedCluster -> Z)
    (st : list WeightedCluster * gset string) (c : WeightedCluster)
  : list WeightedCluster * gset string :=
  let '(upstreamClusters, upstreamClusterMap) := st in
  if decide (wc_ClusterName c ∈ upstreamClusterMap) then st
  else (upstreamClusters ++ [mkWeightedCluster (wc_ClusterName c) (weight c)],
        {[wc_ClusterName c]} ∪ upstreamClusterMap).

Definition getWildCardRouteUpstreamClusters (hasTrafficSplitWildCard : bool)
    (routeMatches : list HTTPRouteMatchWithWeightedClusters) : list WeightedCluster :=
  if hasTrafficSplitWildCard then
    (foldl (fun st routeMatch =>
              if hrw_HasSplitMatches routeMatch then st
              else foldl (add_upstream wc_Weight) st (hrw_UpstreamClusters routeMatch))
       ([], ∅) routeMatches).1
  else
    (foldl (fun st routeMatch =>
              foldl (add_upstream (fun _ => ClusterWeightAcceptAll)) st
                (hrw_UpstreamClusters routeMatch))
       ([], ∅) routeMatches).1.

Section Outbound.
Context `{!MapSet WeightedCluster} `{!MapSet string} (trustDomain : string).

(** The IP addresses published for a service with multi-cluster
    endpoints. *)
Definition resolvable_ips (meshSvc : MeshService) : option (list string) :=
  let endpoints := getDNSResolvableServiceEndpoints meshSvc in
  if existsb (fun endp => negb (String.eqb (ep_ClusterKey endp) "")) endpoints then
    let resolvableIPSet := set_of (map (fun endp => IP_String (ep_IP endp)) endpoints) in
    if Z.ltb 0 (Cardinality resolvableIPSet) then Some (ToSlice resolvableIPSet) else None
  else None.

(** The local variables of the loop. *)
Record outbound_state := mkOutboundState {
  os_trafficMatches : list TrafficMatch;
  os_clusterConfigs : list MeshClusterConfig;
  os_routeConfigPerPort : gmap Z (list OutboundTrafficPolicy);
  os_servicesResolvableSet : gmap string (list string)
}.

(** The routes of a service: the loop over the route matches, whose errors
    are logged, then the wildcard route if none had its path. [None] is the
    [continue] of a failed wildcard route. *)
Definition add_routes (outboundTrafficPolicy : OutboundTrafficPolicy)
    (routeMatches : list HTTPRouteMatchWithWeightedClusters) : option OutboundTrafficPolicy :=
  let '(otp, hasWildCardRoute) :=
    foldl (fun st routeMatch =>
             foldl (fun '(otp, hasWildCardRoute) route =>
                      ((AddRoute otp route (hrw_UpstreamClusters routeMatch)).1,
                       hasWildCardRoute || String.eqb (hrm_Path route) RegexMatchAll))
               st (hrw_RouteMatches routeMatch))
      (outboundTrafficPolicy, false) routeMatches in
  if hasWildCardRoute then Some otp
  else match AddRoute otp WildCardRouteMatch (getWildCardRouteUpstreamClusters true routeMatches) with
       | (otp', None) => Some otp'
       | (_, Some _) => None
       end.

(** The body of the loop over the outbound services. *)
Definition outbound_step (st : outbound_state) (meshSvc : MeshService) : outbound_state :=
  let servicesResolvableSet :=
    match resolvable_ips meshSvc with
    | Some ips => <[FQDN meshSvc := ips]> (os_servicesResolvableSet st)
    | None => os_servicesResolvableSet st
    end in
  let clusterConfigs :=
    os_clusterConfigs st ++ [mkMeshClusterConfig (ClusterName meshSvc) meshSvc "" 0] in
  let routeMatches :=
    [mkHTTPRouteMatchWithWeightedClusters (mergeUpstreamClusters meshSvc []) [] false] in
  let trafficMatches :=
    os_trafficMatches st ++
    map (fun routeMatch =>
           mkTrafficMatch (ms_Port meshSvc) (ms_Protocol meshSvc) [] ""
             (OutboundTrafficMatchName meshSvc) (hrw_UpstreamClusters routeMatch)) routeMatches in
  let routeConfigPerPort :=
    if String.eqb (ms_Protocol meshSvc) ProtocolTCP
       || String.eqb (ms_Protocol meshSvc) ProtocolTCPServerFirst
    then os_routeConfigPerPort st
    else
      match add_routes (NewOutboundTrafficPolicy (FQDN meshSvc)
                          (GetHostnamesForService trustDomain meshSvc false)) routeMatches with
      | None => os_routeConfigPerPort st
      | Some otp =>
          <[ms_Port meshSvc := default [] (os_routeConfigPerPort st !! ms_Port meshSvc) ++ [otp]]>
            (os_routeConfigPerPort st)
      end in
  mkOutboundState trafficMatches clusterConfigs routeConfigPerPort servicesResolvableSet.

Definition GetOutboundMeshTrafficPolicy : OutboundMeshTrafficPolicy :=
  let st := foldl outbound_step (mkOutboundState [] [] ∅ ∅) ListOutboundServices in
  mkOutboundMeshTrafficPolicy (os_trafficMatches st) (os_routeConfigPerPort st)
    (os_clusterConfigs st) (os_servicesResolvableSet st).

End Outbound.
End Catalog.

(** ** The services of the mesh *)

(** C6: The services of the mesh are exactly those of the multicluster
    providers and, of the services of the other providers, those that share
    name and namespace with one of these. *)
Theorem listMeshServices_spec (mc : MeshCatalog) (svc : MeshService) :
  svc ∈ listMeshServices mc <->
  exists p, p ∈ mc_serviceProviders mc /\ svc ∈ sprov_ListServices p /\
    (sprov_ID p = ProviderName \/
     exists q mcSvc, q ∈ mc_serviceProviders mc /\ sprov_ID q = ProviderName /\
       mcSvc ∈ sprov_ListServices q /\
       ms_Name svc = ms_Name mcSvc /\ ms_Namespace svc = ms_Namespace mcSvc).
Proof.
  unfold listMeshServices.
  set (mcs := List.filter (fun p => String.eqb (sprov_ID p) ProviderName) (mc_serviceProviders mc)
                ≫= sprov_ListServices).
  assert (forall s, s ∈ mcs <-> exists q, q ∈ mc_serviceProviders mc /\
            sprov_ID q = ProviderName /\ s ∈ sprov_ListServices q) as Hmcs.
  { intros s. unfold mcs. rewrite list_elem_of_bind.
    setoid_rewrite elem_of_lfilter. setoid_rewrite String.eqb_eq.
    split; intros (p & ? & ?); exists p; tauto. }
  assert (svc ∈ mcs ++ (List.filter (fun p => negb (String.eqb (sprov_ID p) ProviderName))
              (mc_serviceProviders mc) ≫= fun provider =>
            List.filter (fun svc => existsb (fun mcSvc =>
                     String.eqb (ms_Name svc) (ms_Name mcSvc)
                     && String.eqb (ms_Namespace svc) (ms_Namespace mcSvc)) mcs)
              (sprov_ListServices provider)) <->
          svc ∈ mcs \/ exists p, p ∈ mc_serviceProviders mc /\ sprov_ID p <> ProviderName /\
            svc ∈ sprov_ListServices p /\ exists mcSvc, mcSvc ∈ mcs /\
            ms_Name svc = ms_Name mcSvc /\ ms_Namespace svc = ms_Namespace mcSvc) as Happ.
  { rewrite elem_of_app, list_elem_of_bind.
    setoid_rewrite elem_of_lfilter. setoid_rewrite negb_true_iff. setoid_rewrite String.eqb_neq.
    setoid_rewrite existsb_elem. setoid_rewrite andb_true_iff. setoid_rewrite String.eqb_eq.
    split; (intros [?|(p & Hp)]; [by left|right; exists p; tauto]). }
  destruct (nonempty mcs) eqn:Hne.
  - rewrite Happ, Hmcs. setoid_rewrite Hmcs. split.
    + intros [(p & ? & ? & ?)|(p & ? & ? & ? & s & (q & ? & ? & ?) & ? & ?)]; exists p;
        (split; [done|split; [done|]]); [by left|right]. by exists q, s.
    + intros (p & Hp & Hs & [Hid|(q & s & Hq & Hqid & Hqs & ? & ?)]); [left; by exists p|].
      destruct (decide (sprov_ID p = ProviderName)); [left; by exists p|].
      right. exists p. split; [done|]. split; [done|]. split; [done|].
      exists s. split; [by exists q|done].
  - assert (mcs = []) as E by (by destruct mcs). rewrite Hmcs. split.
    + intros (p & ? & ? & ?). exists p. split; [done|]. split; [done|by left].
    + intros (p & Hp & Hs & [Hid|(q & s & Hq & Hqid & Hqs & ?)]); [by exists p|].
      exfalso. apply (not_elem_of_nil s). rewrite <- E. apply Hmcs. by exists q.
Qed.

(** Every endpoint of a service with a known target port is on that port,
    whatever the lawful providers. *)
Theorem upstream_endpoints_on_target_port (mc : MeshCatalog) (svc : MeshService) (ep : Endpoint) :
  Forall LawfulEndpointProvider (mc_endpointsProviders mc) ->
  fits 16 (ms_TargetPort svc) -> ms_TargetPort svc <> 0 ->
  ep ∈ ListUpstreamEndpointsForService mc svc ->
  ep_Port ep = ms_TargetPort svc /\ fits 32 (ep_Weight ep).
Proof.
  intros Hl Hfit Hne (p & Hep & Hp)%list_elem_of_bind.
  assert (LawfulEndpointProvider p) as Hlp by (by eapply Forall_forall in Hl).
  split; [by eapply eprov_target_port|]. by eapply eprov_fits.
Qed.

(** ** The outbound policy *)

(** The weight of a service's cluster. *)
Definition upstream_cluster (mc : MeshCatalog) (meshSvc : MeshService) : WeightedCluster :=
  default (mkWeightedCluster "" 0) (head (mergeUpstreamClusters mc meshSvc [])).

Lemma mergeUpstreamClusters_one mc meshSvc :
  mergeUpstreamClusters mc meshSvc [] = [upstream_cluster mc meshSvc].
Proof. done. Qed.

(** The weight table: a local service always weighs 100; an imported one
    weighs what an active-active policy gives its cluster, but 100 where
    that is zero or nothing, 0 under fail-over, and 100 otherwise. *)
Theorem upstream_cluster_weight (ic : InformerCollection) (sps : list ServiceProvider)
    (eps : list EndpointProvider) (meshSvc : MeshService) :
  let mc := mkMeshCatalog sps eps (multicluster_controller ic) in
  wc_ClusterName (upstream_cluster mc meshSvc) = ClusterName meshSvc /\
  wc_Weight (upstream_cluster mc meshSvc) =
    if String.eqb (ms_ServiceImportUID meshSvc) "" then 100
    else match getGlobalTrafficPolicy ic meshSvc with
    | None => 100
    | Some p =>
        if String.eqb (gtp_LbType p) ActiveActiveLbType then
          match gtp_LoadBalanceTarget p with
          | [] => 100
          | targets =>
              let w := default 0 (first_some
                (fun lbt => if String.eqb (ms_ServiceImportUID meshSvc) (tt_ClusterKey lbt)
                            then Some (default 0 (tt_Weight lbt)) else None) targets) in
              if Z.ltb 0 w then w else 100
          end
        else if String.eqb (gtp_LbType p) FailOverLbType then 0 else 100
    end.
Proof.
  intros mc. split; [done|].
  assert (forall l, first_some
            (fun lbt => if String.eqb (ms_ServiceImportUID meshSvc) (tt_ClusterKey lbt)
                        then Some (default 0 (tt_Weight lbt)) else None) l =
          (fun lbt => default 0 (tt_Weight lbt)) <$> first_some
            (fun lbt => if String.eqb (ms_ServiceImportUID meshSvc) (tt_ClusterKey lbt)
                        then Some lbt else None) l) as Hfs.
  { intros l. induction l as [|t l IH]; [done|]. simpl. rewrite IH. by destruct (String.eqb _ _). }
  unfold upstream_cluster, mergeUpstreamClusters, IsMultiClusterService.
  change (mcc_GetLbWeightForService (mc_multiclusterController mc) meshSvc)
    with (GetLbWeightForService ic meshSvc).
  destruct (String.eqb (ms_ServiceImportUID meshSvc) "") eqn:Huid; [done|].
  unfold GetLbWeightForService. destruct (getGlobalTrafficPolicy ic meshSvc) as [p|]; [|done].
  destruct (String.eqb (gtp_LbType p) ActiveActiveLbType).
  - destruct (gtp_LoadBalanceTarget p) as [|t l]; [done|]. rewrite Hfs.
    by destruct (first_some _ (t :: l)).
  - by destruct (String.eqb (gtp_LbType p) FailOverLbType).
Qed.

(** A service whose traffic is routed as HTTP. *)
Definition http_service (meshSvc : MeshService) : bool :=
  negb (String.eqb (ms_Protocol meshSvc) ProtocolTCP
        || String.eqb (ms_Protocol meshSvc) ProtocolTCPServerFirst).

Section OutboundSpec.
Context `{!MapSet WeightedCluster} `{!MapSet string} (mc : MeshCatalog) (trustDomain : string).

(** The route configuration of a service: its host names, and one wildcard
    route to its own cluster. *)
Definition service_routes (meshSvc : MeshService) : OutboundTrafficPolicy :=
  mkOutboundTrafficPolicy (FQDN meshSvc) (GetHostnamesForService trustDomain meshSvc false)
    [mkRouteWeightedClusters WildCardRouteMatch (set_of [upstream_cluster mc meshSvc])].

Definition service_match (meshSvc : MeshService) : TrafficMatch :=
  mkTrafficMatch (ms_Port meshSvc) (ms_Protocol meshSvc) [] "" (OutboundTrafficMatchName meshSvc)
    [upstream_cluster mc meshSvc].

(** The abstract policy of a list of services. *)
Record policy_of (services : list MeshService) (p : OutboundMeshTrafficPolicy) : Prop := {
  po_matches : omtp_TrafficMatches p = map service_match services;
  po_clusters : omtp_ClustersConfigs p =
    map (fun ms => mkMeshClusterConfig (ClusterName ms) ms "" 0) services;
  po_routes : forall port,
    omtp_HTTPRouteConfigsPerPort p !! port =
      let routed := List.filter (fun ms => http_service ms && Z.eqb (ms_Port ms) port) services in
      if nonempty routed then Some (map service_routes routed) else None;
  po_resolvable : forall host,
    omtp_ServicesResolvableSet p !! host =
      last (omap (fun ms => if decide (FQDN ms = host) then resolvable_ips mc ms else None) services)
}.

Lemma add_routes_service meshSvc :
  add_routes (NewOutboundTrafficPolicy (FQDN meshSvc) (GetHostnamesForService trustDomain meshSvc false))
    [mkHTTPRouteMatchWithWeightedClusters (mergeUpstreamClusters mc meshSvc []) [] false] =
  Some (service_routes meshSvc).
Proof. reflexivity. Qed.

Lemma outbound_step_policy pre meshSvc st :
  policy_of pre (mkOutboundMeshTrafficPolicy (os_trafficMatches st) (os_routeConfigPerPort st)
                   (os_clusterConfigs st) (os_servicesResolvableSet st)) ->
  let st' := outbound_step mc trustDomain st meshSvc in
  policy_of (pre ++ [meshSvc])
    (mkOutboundMeshTrafficPolicy (os_trafficMatches st') (os_routeConfigPerPort st')
       (os_clusterConfigs st') (os_servicesResolvableSet st')).
Proof.
  intros [Hm Hc Hr Hs]; simpl in Hm, Hc, Hr, Hs.
  unfold outbound_step. rewrite add_routes_service. split; simpl.
  - by rewrite Hm, map_app.
  - by rewrite Hc, map_app.
  - intros port. rewrite List.filter_app. simpl. unfold http_service at 2 4.
    destruct (_ || _) eqn:Htcp; simpl; [by rewrite app_nil_r|].
    destruct (Z.eqb_spec (ms_Port meshSvc) port) as [->|Hport].
    + rewrite lookup_insert_eq, Hr.
      match goal with |- context [nonempty (?l ++ _)] => destruct l eqn:E end; simpl; [done|].
      by rewrite map_app.
    + rewrite lookup_insert_ne by done. by rewrite app_nil_r.
  - intros host. rewrite omap_app. simpl.
    destruct (resolvable_ips mc meshSvc) as [ips|] eqn:E; destruct (decide (FQDN meshSvc = host)) as [<-|Hh].
    + by rewrite lookup_insert_eq, last_snoc.
    + rewrite lookup_insert_ne by done. by rewrite app_nil_r.
    + by rewrite app_nil_r.
    + by rewrite app_nil_r.
Qed.

Lemma outbound_policy_of :
  policy_of (ListOutboundServices mc) (GetOutboundMeshTrafficPolicy mc trustDomain).
Proof.
  unfold GetOutboundMeshTrafficPolicy. simpl.
  apply (foldl_inv _ (fun pre st => policy_of pre
    (mkOutboundMeshTrafficPolicy (os_trafficMatches st) (os_routeConfigPerPort st)
       (os_clusterConfigs st) (os_servicesResolvableSet st)))).
  - split; done.
  - intros pre a post st _ IH. by apply outbound_step_policy.
Qed.


End OutboundSpec.

Lemma upstream_endpoints_on_target_port_witness :
  let ep := mkEndpoint (IPv4 10 1 0 1) 8080 30 0 "" "cluster-a" ActiveActiveLbType "/a" in
  ep_Port ep = 8080 /\ fits 32 (ep_Weight ep).
Proof.
  apply (upstream_endpoints_on_target_port
           (mkMeshCatalog []
              [fsm_endpoint_provider (multicluster_controller (example_mc_informers ActiveActiveLbType))]
              (multicluster_controller (example_mc_informers ActiveActiveLbType)))
           (mkMeshService "default" "web" 80 8080 "http" "cluster-a")).
  - apply Forall_singleton. apply fsm_provider_lawful.
  - by vm_compute.
  - done.
  - apply list_elem_of_In. vm_compute. by left.
Defined.
