(* ===== verification/PipyConf.v ===== *)
(** * The proxy configuration ([pkg/ecnet/bridge/ctrlplane/server],
    [types.go] and [policy.go])

    Traffic matches are shared: [namedTrafficMatches] and [TrafficMatches]
    hold pointers to the same objects. The objects live in [ot_heap] and the
    two maps hold their positions. A map that is created by its first
    insertion is nil exactly when it is empty, so it is a [gmap];
    [HTTPServiceRouteRules] may be created empty and is an [option]. *)

From Stdlib Require Import Ascii String.
From S2P Require Import Prelude GoStrings GoSort Constants ApiTypes.

(** ** [types.go] *)

Definition URIMatchRegex : string := "Regex".
Definition URIMatchExact : string := "Exact".
Definition URIMatchPrefix : string := "Prefix".

Record HTTPMatchRule := mkHTTPMatchRule {
  hmr_Path : string;
  hmr_Type : string;
  hmr_Headers : gmap string string;
  hmr_Methods : list string;
  hmr_allowedAnyMethod : bool
}.

#[global] Instance HTTPMatchRule_eq_dec : EqDecision HTTPMatchRule.
Proof. solve_decision. Defined.

Definition new_HTTPMatchRule : HTTPMatchRule := mkHTTPMatchRule "" "" ∅ [] false.

Record OutboundHTTPRouteRule := mkOutboundHTTPRouteRule {
  rule_Match : HTTPMatchRule;
  rule_TargetClusters : gmap string Z
}.

Record OutboundTrafficMatch := mkOutboundTrafficMatch {
  otm_Port : Z;
  otm_Protocol : string;
  otm_HTTPHostPort2Service : gmap string string;
  otm_HTTPServiceRouteRules : option (gmap string (list OutboundHTTPRouteRule));
  otm_TCPServiceRouteRules : option (gmap string Z)
}.

Definition new_OutboundTrafficMatch : OutboundTrafficMatch :=
  mkOutboundTrafficMatch 0 "" ∅ None None.

Record WeightedZoneEndpoint := mkWeightedZoneEndpoint {
  wze_Weight : Z;
  wze_Cluster : string;
  wze_LBType : string;
  wze_ContextPath : string
}.

(** The endpoints of a cluster, by [host:port]. *)
Notation ClusterConfigs := (gmap string WeightedZoneEndpoint).

Record OutboundTrafficPolicy := mkOutboundTrafficPolicy {
  ot_heap : list OutboundTrafficMatch;
  ot_namedTrafficMatches : gmap string nat;
  ot_TrafficMatches : gmap Z (list nat);
  ot_ClustersConfigs : gmap string ClusterConfigs
}.

Definition new_OutboundTrafficPolicy : OutboundTrafficPolicy := mkOutboundTrafficPolicy [] ∅ ∅ ∅.

Record PipyConf := mkPipyConf {
  pc_Ts : option Z;
  pc_Version : option string;
  pc_SidecarLogLevel : string;
  pc_Outbound : option OutboundTrafficPolicy;
  pc_Chains : option (gmap string (list string));
  pc_DNSResolveDB : gmap string (list string)
}.

Definition new_PipyConf : PipyConf := mkPipyConf None None "" None None ∅.

Definition set_Outbound (p : PipyConf) (o : option OutboundTrafficPolicy) : PipyConf :=
  mkPipyConf (pc_Ts p) (pc_Version p) (pc_SidecarLogLevel p) o (pc_Chains p) (pc_DNSResolveDB p).

(** ** [policy.go] *)

(** The new configuration and whether it was updated. *)
Definition setSidecarLogLevel (p : PipyConf) (sidecarLogLevel : string) : PipyConf * bool :=
  let update := negb (EqualFold (pc_SidecarLogLevel p) sidecarLogLevel) in
  (if update
   then mkPipyConf (pc_Ts p) (pc_Version p) sidecarLogLevel (pc_Outbound p) (pc_Chains p)
          (pc_DNSResolveDB p)
   else p, update).

(** The outbound policy, created on first use. *)
Definition newOutboundTrafficPolicy (p : PipyConf) : OutboundTrafficPolicy :=
  default new_OutboundTrafficPolicy (pc_Outbound p).

(** The new weight of an endpoint. *)
Definition rebalanced_weight (hasLocalEndpoints : bool) (wze : WeightedZoneEndpoint) : Z :=
  if negb (String.eqb (wze_Cluster wze) "") then
    if String.eqb FailOverLbType (wze_LBType wze) then
      if hasLocalEndpoints then ClusterWeightFailOver else ClusterWeightAcceptAll
    else if String.eqb ActiveActiveLbType (wze_LBType wze) then
      if Z.eqb (wze_Weight wze) 0 then ClusterWeightAcceptAll else wze_Weight wze
    else wze_Weight wze
  else if Z.eqb (wze_Weight wze) 0 then ClusterWeightAcceptAll else wze_Weight wze.

Definition set_weight (wze : WeightedZoneEndpoint) (w : Z) : WeightedZoneEndpoint :=
  mkWeightedZoneEndpoint w (wze_Cluster wze) (wze_LBType wze) (wze_ContextPath wze).

Definition has_local_endpoints (weightedEndpoints : ClusterConfigs) : bool :=
  existsb (fun '(_, wze) => String.eqb (wze_Cluster wze) "") (map_to_list weightedEndpoints).

(** Every endpoint of the map is updated in place; the order does not
    matter, since an update only reads its own endpoint and the clusters,
    which do not change. *)
Definition rebalance_cluster (weightedEndpoints : ClusterConfigs) : ClusterConfigs :=
  let hasLocalEndpoints := has_local_endpoints weightedEndpoints in
  (fun wze => set_weight wze (rebalanced_weight hasLocalEndpoints wze)) <$> weightedEndpoints.

Definition set_ClustersConfigs (o : OutboundTrafficPolicy) (c : gmap string ClusterConfigs)
  : OutboundTrafficPolicy :=
  mkOutboundTrafficPolicy (ot_heap o) (ot_namedTrafficMatches o) (ot_TrafficMatches o) c.

Definition rebalancedOutboundClusters (p : PipyConf) : PipyConf :=
  match pc_Outbound p with
  | None => p
  | Some o => set_Outbound p (Some (set_ClustersConfigs o (rebalance_cluster <$> ot_ClustersConfigs o)))
  end.

Definition setPort (otm : OutboundTrafficMatch) (port : Z) : OutboundTrafficMatch :=
  mkOutboundTrafficMatch port (otm_Protocol otm) (otm_HTTPHostPort2Service otm)
    (otm_HTTPServiceRouteRules otm) (otm_TCPServiceRouteRules otm).

Definition setProtocol (otm : OutboundTrafficMatch) (protocol : string) : OutboundTrafficMatch :=
  let protocol := ToLower protocol in
  mkOutboundTrafficMatch (otm_Port otm)
    (if String.eqb ProtocolTCPServerFirst protocol then ProtocolTCP else protocol)
    (otm_HTTPHostPort2Service otm) (otm_HTTPServiceRouteRules otm) (otm_TCPServiceRouteRules otm).

(** The TCP rules of a match, created on first use, then updated. *)
Definition set_TCPServiceRouteRules (otm : OutboundTrafficMatch) (r : gmap string Z)
  : OutboundTrafficMatch :=
  mkOutboundTrafficMatch (otm_Port otm) (otm_Protocol otm) (otm_HTTPHostPort2Service otm)
    (otm_HTTPServiceRouteRules otm) (Some r).

Definition newTCPServiceRouteRules (otm : OutboundTrafficMatch) : gmap string Z :=
  default ∅ (otm_TCPServiceRouteRules otm).

(** [addWeightedCluster], the same code on TCP rules and on HTTP rules. *)
Definition addWeightedCluster (clusterName : string) (weight : Z) (targets : gmap string Z)
  : gmap string Z := <[clusterName := weight]> targets.

Definition addHTTPHostPort2Service (otm : OutboundTrafficMatch) (hostPort ruleName : string)
  : OutboundTrafficMatch :=
  mkOutboundTrafficMatch (otm_Port otm) (otm_Protocol otm)
    (<[hostPort := ruleName]> (otm_HTTPHostPort2Service otm))
    (otm_HTTPServiceRouteRules otm) (otm_TCPServiceRouteRules otm).

Definition set_HTTPServiceRouteRules (otm : OutboundTrafficMatch)
    (r : gmap string (list OutboundHTTPRouteRule)) : OutboundTrafficMatch :=
  mkOutboundTrafficMatch (otm_Port otm) (otm_Protocol otm) (otm_HTTPHostPort2Service otm)
    (Some r) (otm_TCPServiceRouteRules otm).

(** The match with the rules of [httpRouteRuleName] created, and whether
    the returned pointer is not nil. *)
Definition newHTTPServiceRouteRules (otm : OutboundTrafficMatch) (httpRouteRuleName : string)
  : OutboundTrafficMatch * bool :=
  let rulesMap := default ∅ (otm_HTTPServiceRouteRules otm) in
  if String.eqb httpRouteRuleName "" then (set_HTTPServiceRouteRules otm rulesMap, false)
  else match rulesMap !! httpRouteRuleName with
       | Some _ => (set_HTTPServiceRouteRules otm rulesMap, true)
       | None => (set_HTTPServiceRouteRules otm (<[httpRouteRuleName := []]> rulesMap), true)
       end.

(** The policy, the pointer of the match and whether it existed. *)
Definition newTrafficMatch (otp : OutboundTrafficPolicy) (port : Z) (name : string)
  : OutboundTrafficPolicy * nat * bool :=
  let namedPort := fmt_d port +:+ "=" +:+ name in
  match ot_namedTrafficMatches otp !! namedPort with
  | Some trafficMatch => (otp, trafficMatch, true)
  | None =>
      let trafficMatch := length (ot_heap otp) in
      (mkOutboundTrafficPolicy (ot_heap otp ++ [new_OutboundTrafficMatch])
         (<[namedPort := trafficMatch]> (ot_namedTrafficMatches otp))
         (<[port := default [] (ot_TrafficMatches otp !! port) ++ [trafficMatch]]>
            (ot_TrafficMatches otp))
         (ot_ClustersConfigs otp),
       trafficMatch, false)
  end.

(** The position of the first rule with a match. *)
Fixpoint find_rule (matchRule : HTTPMatchRule) (rules : list OutboundHTTPRouteRule) : option nat :=
  match rules with
  | [] => None
  | r :: rules' =>
      if decide (matchRule = rule_Match r) then Some 0%nat else S <$> find_rule matchRule rules'
  end.

(** The rules, the position of the returned rule and whether it is a
    duplicate. *)
Definition newHTTPServiceRouteRule (rules : list OutboundHTTPRouteRule) (matchRule : HTTPMatchRule)
  : list OutboundHTTPRouteRule * nat * bool :=
  match find_rule matchRule rules with
  | Some i => (rules, i, true)
  | None => (rules ++ [mkOutboundHTTPRouteRule matchRule ∅], length rules, false)
  end.

Definition addHeaderMatch (hmr : HTTPMatchRule) (header headerRegexp : string) : HTTPMatchRule :=
  mkHTTPMatchRule (hmr_Path hmr) (hmr_Type hmr) (<[header := headerRegexp]> (hmr_Headers hmr))
    (hmr_Methods hmr) (hmr_allowedAnyMethod hmr).

Definition addMethodMatch (hmr : HTTPMatchRule) (method : string) : HTTPMatchRule :=
  if hmr_allowedAnyMethod hmr then hmr
  else if String.eqb "*" method
  then mkHTTPMatchRule (hmr_Path hmr) (hmr_Type hmr) (hmr_Headers hmr) [] true
  else mkHTTPMatchRule (hmr_Path hmr) (hmr_Type hmr) (hmr_Headers hmr)
         (hmr_Methods hmr ++ [method]) false.

(** The configuration of a cluster, created on first use. *)
Definition newClusterConfigs (otp : OutboundTrafficPolicy) (clusterName : string)
  : OutboundTrafficPolicy :=
  match ot_ClustersConfigs otp !! clusterName with
  | Some _ => otp
  | None => set_ClustersConfigs otp (<[clusterName := ∅]> (ot_ClustersConfigs otp))
  end.

(** The regular expression [:\d+$]: the address ends with a colon and at
    least one digit. *)
Definition addrWithPort (address : string) : bool :=
  match last (Split address ":") with
  | Some f => Nat.ltb 1 (length (Split address ":")) && negb (String.eqb f "")
              && string_forall is_digit f
  | None => false
  end.

Definition addWeightedZoneEndpoint (wes : ClusterConfigs) (address : string) (port weight : Z)
    (cluster lbType contextPath : string) : ClusterConfigs :=
  let httpHostPort := if addrWithPort address then address
                      else address +:+ ":" +:+ fmt_d port in
  <[httpHostPort := mkWeightedZoneEndpoint weight cluster lbType contextPath]> wes.

(** [Less] of a rule slice. *)
Definition rule_less (a b : OutboundHTTPRouteRule) : bool :=
  if String.eqb (hmr_Path (rule_Match a)) RegexMatchAll then false
  else Z.eqb (Compare (hmr_Path (rule_Match a)) (hmr_Path (rule_Match b))) (-1).

Definition sort_rules `{!SortSort} (hrrs : list OutboundHTTPRouteRule) : list OutboundHTTPRouteRule :=
  if Nat.ltb 1 (length hrrs) then sort_Sort rule_less hrrs else hrrs.

(** ** Rebalancing *)

Lemma has_local_endpoints_true c :
  has_local_endpoints c = true <-> exists h wze, c !! h = Some wze /\ wze_Cluster wze = "".
Proof.
  unfold has_local_endpoints. rewrite existsb_elem. split.
  - intros ([h wze] & Hin & Hc). apply elem_of_map_to_list in Hin. bool_props. eauto.
  - intros (h & wze & Hin & Hc). exists (h, wze).
    split; [by apply elem_of_map_to_list|]. by apply String.eqb_eq.
Qed.

Lemma has_local_endpoints_rebalance c :
  has_local_endpoints (rebalance_cluster c) = has_local_endpoints c.
Proof.
  apply Bool.eq_iff_eq_true. rewrite !has_local_endpoints_true. unfold rebalance_cluster.
  setoid_rewrite lookup_fmap_Some. split.
  - intros (h & ? & (wze & <- & Hw) & Hc). eauto.
  - intros (h & wze & Hw & Hc). eauto 10.
Qed.

Lemma rebalanced_weight_idemp b wze :
  rebalanced_weight b (set_weight wze (rebalanced_weight b wze)) = rebalanced_weight b wze.
Proof.
  unfold rebalanced_weight, set_weight. cbn [wze_Weight wze_Cluster wze_LBType].
  destruct (negb (String.eqb (wze_Cluster wze) "")), (String.eqb FailOverLbType (wze_LBType wze)),
    (String.eqb ActiveActiveLbType (wze_LBType wze)), b,
    (Z.eqb (wze_Weight wze) 0) eqn:E; rewrite ?E; reflexivity.
Qed.

(** Rebalancing twice changes nothing more. *)
Theorem rebalance_idempotent (p : PipyConf) :
  rebalancedOutboundClusters (rebalancedOutboundClusters p) = rebalancedOutboundClusters p.
Proof.
  unfold rebalancedOutboundClusters. destruct p as [ts v l [o|] ch db]; [|done].
  unfold set_Outbound, set_ClustersConfigs. simpl. do 3 f_equal.
  rewrite <- map_fmap_compose. apply map_fmap_ext. intros h c _. simpl.
  unfold rebalance_cluster at 1. rewrite has_local_endpoints_rebalance.
  unfold rebalance_cluster. rewrite <- map_fmap_compose. apply map_fmap_ext.
  intros h' wze _. simpl. rewrite rebalanced_weight_idemp. done.
Qed.

(** C16: After rebalancing: a local endpoint and an active-active one have a
    weight, the configured one unless it was zero; a fail-over endpoint
    takes traffic exactly when its cluster has no local endpoint. So a
    cluster with endpoints of these types has one that takes traffic. *)
Theorem rebalanced_cluster_weights (c : ClusterConfigs) :
  (forall h wze, c !! h = Some wze ->
     exists wze', rebalance_cluster c !! h = Some wze' /\
       wze_Cluster wze' = wze_Cluster wze /\ wze_LBType wze' = wze_LBType wze /\
       wze_ContextPath wze' = wze_ContextPath wze /\
       (wze_Cluster wze = "" \/ wze_LBType wze = ActiveActiveLbType ->
          wze_Weight wze' = if decide (wze_Weight wze = 0) then 100 else wze_Weight wze) /\
       (wze_Cluster wze <> "" -> wze_LBType wze = FailOverLbType ->
          (wze_Weight wze' = 100 \/ wze_Weight wze' = 0) /\
          (wze_Weight wze' = 0 <-> exists h' l, c !! h' = Some l /\ wze_Cluster l = ""))) /\
  (c <> ∅ ->
   (forall h wze, c !! h = Some wze -> wze_Cluster wze = "" \/
      wze_LBType wze = ActiveActiveLbType \/ wze_LBType wze = FailOverLbType) ->
   exists h wze, rebalance_cluster c !! h = Some wze /\ wze_Weight wze <> 0).
Proof.
  assert (forall h wze, c !! h = Some wze -> rebalance_cluster c !! h =
            Some (set_weight wze (rebalanced_weight (has_local_endpoints c) wze))) as Hlk.
  { intros h wze H. unfold rebalance_cluster. by rewrite lookup_fmap, H. }
  split.
  - intros h wze H. eexists. split; [by apply Hlk|]. simpl. split_and!; [done..| |].
    + unfold rebalanced_weight. intros [->| ->]; simpl; [by case_decide; case_match; bool_props|].
      by case_decide; repeat case_match; bool_props.
    + intros Hc Hlb. unfold rebalanced_weight. rewrite Hlb.
      rewrite (proj2 (String.eqb_neq _ _) Hc). simpl.
      destruct (has_local_endpoints c) eqn:E; (split; [by auto|]).
      * split; [|done]. intros _. by apply has_local_endpoints_true.
      * split; [done|]. intros Hl. apply has_local_endpoints_true in Hl. congruence.
  - intros Hne Htypes. destruct (has_local_endpoints c) eqn:E.
    + apply has_local_endpoints_true in E as E'. destruct E' as (h & wze & H & Hc).
      exists h. eexists. split; [by apply Hlk|]. simpl. unfold rebalanced_weight.
      rewrite Hc. simpl. case_match; bool_props; done.
    + apply map_choose in Hne as (h & wze & H). exists h. eexists. split; [by apply Hlk|].
      simpl. unfold rebalanced_weight.
      destruct (Htypes h wze H) as [Hc|[Hlb|Hlb]].
      * rewrite Hc. simpl. case_match; bool_props; done.
      * rewrite Hlb. simpl. repeat case_match; bool_props; done.
      * rewrite Hlb. simpl. repeat case_match; bool_props; done.
Qed.

(** ** Endpoint addresses *)

(** An endpoint is keyed by address and port, except an address that
    already ends in a colon and digits. That test is meant for addresses
    that carry a port and also holds of IPv6 addresses whose last group is
    decimal, whose port is lost. *)
Theorem endpoint_key (wes : ClusterConfigs) (address : string) (port weight : Z)
    (cluster lbType path : string) :
  (free_of (fun c => Ascii.eqb c ":") address ->
   addWeightedZoneEndpoint wes address port weight cluster lbType path =
     <[address +:+ ":" +:+ fmt_d port := mkWeightedZoneEndpoint weight cluster lbType path]> wes) /\
  (forall host z, 0 <= z -> address = host +:+ ":" +:+ fmt_d z ->
   addWeightedZoneEndpoint wes address port weight cluster lbType path =
     <[address := mkWeightedZoneEndpoint weight cluster lbType path]> wes).
Proof.
  unfold addWeightedZoneEndpoint, addrWithPort, Split. split.
  - intros H. by rewrite split_by_free.
  - intros host z Hz ->. change (":" +:+ fmt_d z) with (String ":" (fmt_d z)).
    assert (free_of (fun c => Ascii.eqb c ":") (fmt_d z)) as Hd.
    { apply digits_free_of; [|done]. by intros c ->%Ascii.eqb_eq. }
    rewrite split_by_last, split_by_free by done. simpl.
    rewrite fmt_d_digits by done. rewrite (proj2 (String.eqb_neq _ _) (fmt_d_nonempty z Hz)).
    assert (Nat.ltb 1 (length (split_by (fun c => Ascii.eqb c ":") (host +:+ String ":" (fmt_d z))))
            = true) as ->; [|done].
    apply Nat.ltb_lt. clear Hd. induction host as [|c host IH]; simpl.
    + pose proof (split_by_nonnil (fun c => Ascii.eqb c ":") (fmt_d z)).
      destruct (split_by _ (fmt_d z)); [done|]. simpl. lia.
    + destruct (Ascii.eqb c ":"); simpl; [lia|].
      destruct (split_by _ (host +:+ String ":" (fmt_d z))); simpl in *; lia.
Qed.

Lemma endpoint_key_witness :
  addWeightedZoneEndpoint ∅ "fd00::12" 8080 0 "" "" "" =
    {["fd00::12" := mkWeightedZoneEndpoint 0 "" "" ""]} /\
  addWeightedZoneEndpoint ∅ "10.1.0.1" 8080 0 "" "" "" =
    {["10.1.0.1:8080" := mkWeightedZoneEndpoint 0 "" "" ""]}.
Proof.
  split.
  - apply (proj2 (endpoint_key ∅ "fd00::12" 8080 0 "" "" "") "fd00:" 12); [lia|reflexivity].
  - apply (proj1 (endpoint_key ∅ "10.1.0.1" 8080 0 "" "" "")). reflexivity.
Defined.

Lemma rebalanced_cluster_weights_witness :
  exists h wze,
    rebalance_cluster {["10.1.0.1:80" := mkWeightedZoneEndpoint 0 "c1" FailOverLbType "/"]} !! h
      = Some wze /\ wze_Weight wze <> 0.
Proof.
  apply rebalanced_cluster_weights; [done|]. intros h wze. rewrite lookup_singleton_Some.
  intros [_ <-]. by right; right.
Defined.

(** ** Sorting *)

Definition path_of (r : OutboundHTTPRouteRule) : string := hmr_Path (rule_Match r).

Lemma string_compare_lt_trans a b c :
  String.compare a c = Lt -> String.compare a b = Lt \/ String.compare b c = Lt.
Proof.
  revert b c. induction a as [|x a IH]; intros [|y b] [|z c]; simpl; try done; try by auto.
  unfold Ascii.compare.
  destruct (N.compare_spec (N_of_ascii x) (N_of_ascii z)) as [E|L|G]; [|intros _|done].
  - rewrite E. destruct (N.compare_spec (N_of_ascii z) (N_of_ascii y)) as [E'|L|G].
    + rewrite E', N.compare_refl. apply IH.
    + by left.
    + right. by rewrite (proj2 (N.compare_lt_iff _ _) G).
  - destruct (N.compare_spec (N_of_ascii x) (N_of_ascii y)) as [E|L'|G]; [|by left|].
    + right. by rewrite <- E, (proj2 (N.compare_lt_iff _ _) L).
    + right. rewrite (proj2 (N.compare_lt_iff _ _)) by lia. done.
Qed.

Lemma rule_less_lt a b :
  path_of a <> RegexMatchAll ->
  rule_less a b = true <-> String.compare (path_of a) (path_of b) = Lt.
Proof.
  intros Ha. unfold rule_less, Compare. fold (path_of a). fold (path_of b).
  rewrite (proj2 (String.eqb_neq _ _) Ha).
  by destruct (String.compare (path_of a) (path_of b)).
Qed.

(** The comparison where no rule is the wildcard. *)
Definition path_less (a b : OutboundHTTPRouteRule) : bool :=
  Z.eqb (Compare (path_of a) (path_of b)) (-1).

Lemma path_less_lt a b :
  path_less a b = true <-> String.compare (path_of a) (path_of b) = Lt.
Proof.
  unfold path_less, Compare. by destruct (String.compare (path_of a) (path_of b)).
Qed.

Lemma path_less_order : strict_weak_order path_less.
Proof.
  split.
  - intros a b H%path_less_lt. apply not_true_iff_false. rewrite path_less_lt.
    rewrite String.compare_antisym, H. done.
  - intros a b c. rewrite !path_less_lt. apply string_compare_lt_trans.
Qed.

Lemma insertionSort_ext {A} (f g : A -> A -> bool) l :
  (forall a b, a ∈ l -> b ∈ l -> f a b = g a b) -> insertionSort f l = insertionSort g l.
Proof.
  intros H. unfold insertionSort. f_equal.
  cut (foldl (fun r x => insert_left f x r) [] l = foldl (fun r x => insert_left g x r) [] l /\
       foldl (fun r x => insert_left f x r) [] l ≡ₚ l); [by intros []|].
  apply (foldl_inv (fun r x => insert_left f x r) (fun pre r =>
    r = foldl (fun r x => insert_left g x r) [] pre /\ r ≡ₚ pre)); [done|].
  intros pre a post r Hl [Hr Hp]. split.
  - rewrite foldl_app. simpl. rewrite <- Hr. clear Hr.
    assert (forall x, x ∈ r -> f a x = g a x) as Hx.
    { intros x. rewrite Hp. intros Hx. apply H; rewrite Hl; set_solver. }
    clear Hp. induction r as [|y r IH]; [done|]. simpl.
    rewrite Hx by apply list_elem_of_here. case_match; [|done]. f_equal. apply IH.
    intros x Hin. apply Hx. by apply list_elem_of_further.
  - rewrite insert_left_perm, Hp. apply Permutation_cons_append.
Qed.

(** Sorting permutes the rules; up to twelve rules without a wildcard end
    in the order of their paths. With a wildcard [Less] is not an order:
    [".*"] sorts before every path starting with a slash if it was there
    before, although it would match first. *)
Theorem sort_rules_spec `{!SortSort} (rules : list OutboundHTTPRouteRule) :
  sort_rules rules ≡ₚ rules /\
  (Forall (fun r => path_of r <> RegexMatchAll) rules -> (length rules <= 12)%nat ->
     sorted_by path_less (sort_rules rules)) /\
  (forall w r, path_of w = RegexMatchAll -> HasPrefix (path_of r) "/" = true ->
     sort_rules [w; r] = [w; r]).
Proof.
  split; [|split].
  - unfold sort_rules. case_match; [apply sort_perm|done].
  - intros Hw Hlen. unfold sort_rules. case_match eqn:E.
    + rewrite sort_small by done. rewrite (insertionSort_ext _ path_less).
      * apply insertionSort_sorted, path_less_order.
      * intros a b Ha _. rewrite Forall_forall in Hw. specialize (Hw a Ha). simpl in Hw.
        apply Bool.eq_iff_eq_true. by rewrite rule_less_lt, path_less_lt.
    + apply Nat.ltb_ge in E. destruct rules as [|r [|? ?]]; simpl in *; [| |lia].
      * constructor.
      * by repeat constructor.
  - intros w r Hw Hr. unfold sort_rules. simpl. rewrite sort_small by (simpl; lia).
    unfold insertionSort. simpl.
    assert (rule_less r w = false) as ->; [|done].
    unfold rule_less, Compare. fold (path_of r). fold (path_of w). rewrite Hw.
    case_match; [done|]. unfold HasPrefix in Hr.
    destruct (path_of r) as [|c s]; cbn [String.prefix] in Hr; [done|].
    destruct (ascii_dec "/" c) as [<-|]; [|done].
    done.
Qed.

Lemma sort_rules_spec_witness :
  let rule p := mkOutboundHTTPRouteRule (mkHTTPMatchRule p URIMatchRegex ∅ [] true) ∅ in
  sort_rules (H:=insertion_sort_Sort) [rule ".*"; rule "/admin"] = [rule ".*"; rule "/admin"].
Proof. intros rule. by apply (sort_rules_spec (H:=insertion_sort_Sort) []). Defined.
