(* ===== verification/Configurator.v ===== *)
(** * The configurator ([pkg/ecnet/configurator])

    The [EcnetConfig] resource of the control plane, read through the
    informer cache, with the defaults the accessors apply. *)

From Stdlib Require Import String.
From S2P Require Import Prelude GoStrings Constants ApiTypes Informers Policy.

Record ConfiguratorClient := mkConfiguratorClient {
  cc_informers : InformerCollection;
  cc_ecnetNamespace : string;
  cc_ecnetConfigName : string
}.

Section Configurator.
Context (c : ConfiguratorClient).

(** [os.Getenv]: the empty string when the variable is not set. *)
Context (Getenv : string -> string).

Definition getEcnetConfigCacheKey : string :=
  cc_ecnetNamespace c +:+ "/" +:+ cc_ecnetConfigName c.

Definition getEcnetConfig : EcnetConfig :=
  match GetByKey (ic_EcnetConfig (cc_informers c)) getEcnetConfigCacheKey with
  | (_, _, Some _) => zero_EcnetConfig
  | (_, false, None) => zero_EcnetConfig
  | (item, true, None) => default zero_EcnetConfig item
  end.

Definition GetEcnetNamespace : string := cc_ecnetNamespace c.

Definition GetEcnetConfig : EcnetConfig := getEcnetConfig.

(** [json.MarshalIndent] is a parameter. *)
Definition marshalConfigToJSON (MarshalIndent : EcnetConfigSpec -> string + string) (config : EcnetConfigSpec)
  : string + string :=
  MarshalIndent config.

Definition GetEcnetConfigJSON (MarshalIndent : EcnetConfigSpec -> string + string) : string + string :=
  marshalConfigToJSON MarshalIndent (ec_Spec getEcnetConfig).

Definition GetSidecarLogLevel : string :=
  let logLevel := sc_LogLevel (cfg_Sidecar (ec_Spec getEcnetConfig)) in
  if negb (String.eqb logLevel "") then logLevel else DefaultSidecarLogLevel.

Definition GetProxyServerPort : Z := sc_ProxyServerPort (cfg_Sidecar (ec_Spec getEcnetConfig)).

Definition GetRepoServerIPAddr : string :=
  let ipAddr := Getenv "ECNET_REPO_SERVER_IPADDR" in
  let ipAddr := if String.eqb ipAddr "" then rs_IPAddr (cfg_RepoServer (ec_Spec getEcnetConfig))
                else ipAddr in
  if String.eqb ipAddr "" then "127.0.0.1" else ipAddr.

Definition GetRepoServerCodebase : string :=
  let codebase := Getenv "ECNET_REPO_SERVER_CODEBASE" in
  let codebase := if String.eqb codebase ""
                  then rs_Codebase (cfg_RepoServer (ec_Spec getEcnetConfig)) else codebase in
  let codebase := if negb (String.eqb codebase "") && HasSuffix codebase "/"
                  then TrimSuffix codebase "/" else codebase in
  if negb (String.eqb codebase "") && HasPrefix codebase "/"
  then TrimPrefix codebase "/" else codebase.

(** [ParseDuration] is [time.ParseDuration]; [None] is its error. *)
Definition GetConfigResyncInterval (ParseDuration : string -> option Z) : Z :=
  default 0 (ParseDuration (sc_ConfigResyncInterval (cfg_Sidecar (ec_Spec getEcnetConfig)))).

(** One of the four loops over a chain. *)
Definition enabled_plugins (chain : list PluginChainSpec) : list Plugin :=
  map (fun plugin => mkPlugin (pcs_Plugin plugin) (pcs_Priority plugin) "" true)
    (List.filter (fun plugin => negb (pcs_Disable plugin)) chain).

Definition GetGlobalPluginChains : gmap string (list Plugin) :=
  let pluginChainSpec := cfg_PluginChains (ec_Spec getEcnetConfig) in
  <["outbound-http" := enabled_plugins (default [] (OutboundHTTPChains pluginChainSpec))]>
  (<["outbound-tcp" := enabled_plugins (default [] (OutboundTCPChains pluginChainSpec))]>
  (<["inbound-http" := enabled_plugins (default [] (InboundHTTPChains pluginChainSpec))]>
  {["inbound-tcp" := enabled_plugins (default [] (InboundTCPChains pluginChainSpec))]})).

(** The mount points and their chains in the spec. *)
Definition chain_of (mountPoint : string) : option (list PluginChainSpec) :=
  let spec := cfg_PluginChains (ec_Spec getEcnetConfig) in
  if String.eqb mountPoint "inbound-tcp" then Some (default [] (InboundTCPChains spec))
  else if String.eqb mountPoint "inbound-http" then Some (default [] (InboundHTTPChains spec))
  else if String.eqb mountPoint "outbound-tcp" then Some (default [] (OutboundTCPChains spec))
  else if String.eqb mountPoint "outbound-http" then Some (default [] (OutboundHTTPChains spec))
  else None.

Lemma GetGlobalPluginChains_lookup mountPoint :
  GetGlobalPluginChains !! mountPoint = enabled_plugins <$> chain_of mountPoint.
Proof.
  unfold GetGlobalPluginChains, chain_of.
  repeat case_match; bool_props; subst; by simplify_map_eq.
Qed.

(** A missing or unreadable configuration reads as the zero value: the
    accessors fall back to their defaults. *)
Theorem missing_config_defaults :
  hit (GetByKey (ic_EcnetConfig (cc_informers c)) getEcnetConfigCacheKey) = None ->
  Getenv "ECNET_REPO_SERVER_IPADDR" = "" -> Getenv "ECNET_REPO_SERVER_CODEBASE" = "" ->
  GetSidecarLogLevel = "error" /\ GetProxyServerPort = 0 /\
  GetRepoServerIPAddr = "127.0.0.1" /\ GetRepoServerCodebase = "" /\
  (forall mountPoint, default [] (GetGlobalPluginChains !! mountPoint) = []).
Proof.
  intros Hhit Hip Hcb.
  assert (getEcnetConfig = zero_EcnetConfig) as E.
  { unfold getEcnetConfig, hit in *. by repeat case_match; simplify_eq/=. }
  unfold GetSidecarLogLevel, GetProxyServerPort, GetRepoServerIPAddr, GetRepoServerCodebase.
  rewrite E, Hip, Hcb. split_and!; [done..|].
  intros mp. rewrite GetGlobalPluginChains_lookup. unfold chain_of. rewrite E.
  by repeat case_match.
Qed.

End Configurator.

Lemma missing_config_defaults_witness :
  GetRepoServerIPAddr
    (mkConfiguratorClient (mkInformerCollection "ecnet" None None None None None None None None)
       "ecnet-system" "ecnet-config") (fun _ => "") = "127.0.0.1".
Proof. apply missing_config_defaults; reflexivity. Defined.
