(* ===== verification/PipyGen.v ===== *)
(** * Generating the proxy configuration
    ([pkg/ecnet/bridge/ctrlplane/server], [util.go], [plugin.go] and the
    pure part of [jobs.go])

    The outbound mesh traffic policy of the catalog becomes the traffic
    matches, route rules and cluster configurations of a [PipyConf]. *)

From Stdlib Require Import Ascii String.
From S2P Require Import Prelude GoStrings GoSort MapSet NetIP Constants MeshService ApiTypes.
From S2P Require Import Informers Kube Multicluster Provider KubeProvider FsmProvider Policy.
From S2P Require Import Catalog Configurator PipyConf.

(** ** Names *)

Definition cluster_sep (c : ascii) : bool := Ascii.eqb c "/" || Ascii.eqb c "|".

Definition clusterToMeshSvc (cluster : string) : MeshService + string :=
  match FieldsFunc cluster cluster_sep with
  | [ns; name; p] =>
      match ParseUint p 16 with
      | (port, None) => inl (mkMeshService ns name 0 uint16(port) "" "")
      | (_, Some _) => inr ("Invalid cluster port " +:+ p +:+ ", expected int value")
      end
  | _ => inr ("Invalid cluster name. Expected: <namespace>/<name>|<port>, got: " +:+ cluster)
  end.

Definition trafficMatchToMeshSvc (trafficMatch : TrafficMatch) : option MeshService :=
  match FieldsFunc (tm_Name trafficMatch) is_underscore with
  | [_; chunk1; _; _] =>
      match NamespacedNameFrom chunk1 with
      | inl namespacedName =>
          Some (mkMeshService (nn_Namespace namespacedName) (nn_Name namespacedName) 0
                  uint16(tm_DestinationPort trafficMatch)
                  (ToLower (tm_DestinationProtocol trafficMatch)) "")
      | inr _ => None
      end
  | _ => None
  end.

Definition matchType (t : PathMatchType) : string :=
  match t with
  | PathMatchExact => URIMatchExact
  | PathMatchPrefix => URIMatchPrefix
  | PathMatchRegex => URIMatchRegex
  end.

Definition getMeshClusterConfigs (clustersConfigs : list MeshClusterConfig) (clusterName : string)
  : option MeshClusterConfig :=
  first_some (fun c => if String.eqb clusterName (mcc_Name c) then Some c else None) clustersConfigs.

Definition getUpstreamEndpoints (meshCatalog : MeshCatalog) (clusterName : string) : list Endpoint :=
  match clusterToMeshSvc clusterName with
  | inl dstSvc => ListUpstreamEndpointsForService meshCatalog dstSvc
  | inr _ => []
  end.

(** [util.go]'s map from cluster names to the clusters routes depend on. *)
Definition add_dependency (dependClusters : gmap string WeightedCluster) (c : WeightedCluster)
  : gmap string WeightedCluster :=
  match dependClusters !! wc_ClusterName c with
  | Some _ => dependClusters
  | None => <[wc_ClusterName c := c]> dependClusters
  end.

Definition http_like (protocol : string) : bool :=
  String.eqb protocol ProtocolHTTP || String.eqb protocol ProtocolGRPC.

Definition tcp_like (protocol : string) : bool :=
  String.eqb protocol ProtocolTCP || String.eqb protocol ProtocolTCPServerFirst.

(** Writing through the pointer of a traffic match. *)
Definition update_match (otp : OutboundTrafficPolicy) (ptr : nat)
    (f : OutboundTrafficMatch -> OutboundTrafficMatch) : OutboundTrafficPolicy :=
  PipyConf.mkOutboundTrafficPolicy (alter f ptr (ot_heap otp)) (ot_namedTrafficMatches otp)
    (ot_TrafficMatches otp) (ot_ClustersConfigs otp).

Section Generator.
Context `{!RangeOrder} `{!SortSort} `{!MapSet WeightedCluster} `{!MapSet string}.

Definition arrayEqual (a : list WeightedCluster) (set : mset WeightedCluster) : bool :=
  let b := Iter set in
  let same ca cb := String.eqb (wc_ClusterName ca) (wc_ClusterName cb)
                    && Z.eqb (wc_Weight ca) (wc_Weight cb) in
  Nat.eqb (length a) (length b)
  && forallb (fun ca => existsb (fun cb => same ca cb) b) a
  && forallb (fun cb => existsb (fun ca => same cb ca) a) b.

Definition getOutboundHTTPRouteConfigs
    (httpRouteConfigsPerPort : gmap Z (list Policy.OutboundTrafficPolicy)) (targetPort : Z)
    (upstreamSvcFQDN : string) (weightedClusters : list WeightedCluster)
  : list Policy.OutboundTrafficPolicy :=
  match httpRouteConfigsPerPort !! targetPort with
  | None => []
  | Some trafficPolicies =>
      List.filter
        (fun trafficPolicy =>
           String.eqb (otp_Name trafficPolicy) upstreamSvcFQDN
           && existsb (fun route => arrayEqual weightedClusters (rwc_WeightedClusters route))
                (otp_Routes trafficPolicy))
        trafficPolicies
  end.

(** The match rule of a route. *)
Definition http_match_of (m : HTTPRouteMatch) : HTTPMatchRule :=
  let type := matchType (hrm_PathMatchType m) in
  let hm0 := mkHTTPMatchRule (if String.eqb (hrm_Path m) "" then RegexMatchAll else hrm_Path m)
               (if String.eqb type "" then URIMatchRegex else type) ∅ [] false in
  let hm1 := foldl (fun hm '(k, v) => addHeaderMatch hm k v) hm0
               (range (default ∅ (hrm_Headers m))) in
  match default [] (hrm_Methods m) with
  | [] => addMethodMatch hm1 "*"
  | methods => foldl addMethodMatch hm1 methods
  end.

(** One cluster of a route: recorded, and added to the rule at [i]. *)
Definition add_route_cluster (i : nat)
    (st : list OutboundHTTPRouteRule * gmap string WeightedCluster) (c : WeightedCluster)
  : list OutboundHTTPRouteRule * gmap string WeightedCluster :=
  let '(rules, dependClusters) := st in
  (alter (fun r => mkOutboundHTTPRouteRule (rule_Match r)
                     (addWeightedCluster (wc_ClusterName c) uint32(wc_Weight c)
                        (rule_TargetClusters r))) i rules,
   add_dependency dependClusters c).

(** The body of the loop over the routes of a route configuration. *)
Definition route_step (st : list OutboundHTTPRouteRule * gmap string WeightedCluster)
    (route : RouteWeightedClusters) : list OutboundHTTPRouteRule * gmap string WeightedCluster :=
  let '(rules, dependClusters) := st in
  let '(rules', i, _) := newHTTPServiceRouteRule rules (http_match_of (rwc_HTTPRouteMatch route)) in
  foldl (add_route_cluster i) (rules', dependClusters) (Iter (rwc_WeightedClusters route)).

(** The body of the loop over the route configurations of a match. The
    rules of a configuration without a name are a nil pointer. *)
Definition http_config_step (st : OutboundTrafficMatch * gmap string WeightedCluster)
    (httpRouteConfig : Policy.OutboundTrafficPolicy)
  : outcome (OutboundTrafficMatch * gmap string WeightedCluster) :=
  let '(tm, dependClusters) := st in
  let ruleName := otp_Name httpRouteConfig in
  let '(tm1, ok) := newHTTPServiceRouteRules tm ruleName in
  let tm2 := foldl (fun t hostname => addHTTPHostPort2Service t hostname ruleName) tm1
               (otp_Hostnames httpRouteConfig) in
  if ok then
    let rulesMap := default ∅ (otm_HTTPServiceRouteRules tm2) in
    let '(rules, depend') := foldl route_step (default [] (rulesMap !! ruleName), dependClusters)
                               (otp_Routes httpRouteConfig) in
    Ret (set_HTTPServiceRouteRules tm2 (<[ruleName := rules]> rulesMap), depend')
  else match otp_Routes httpRouteConfig with
       | [] => Ret (tm2, dependClusters)
       | _ => Panic
       end.

(** A cluster of a TCP route. *)
Definition add_tcp_cluster (st : gmap string Z * gmap string WeightedCluster) (c : WeightedCluster)
  : gmap string Z * gmap string WeightedCluster :=
  let '(targets, dependClusters) := st in
  (addWeightedCluster (wc_ClusterName c) uint32(wc_Weight c) targets,
   add_dependency dependClusters c).

Definition tcp_match (tm : OutboundTrafficMatch) (dependClusters : gmap string WeightedCluster)
    (clusters : list WeightedCluster) : OutboundTrafficMatch * gmap string WeightedCluster :=
  let '(targets, depend') :=
    foldl add_tcp_cluster (newTCPServiceRouteRules tm, dependClusters) clusters in
  (set_TCPServiceRouteRules tm targets, depend').

(** The branches on the destination protocol, which update the match. *)
Definition match_routes (outboundPolicy : OutboundMeshTrafficPolicy) (trafficMatch : TrafficMatch)
    (tm : OutboundTrafficMatch) (dependClusters : gmap string WeightedCluster)
  : outcome (OutboundTrafficMatch * gmap string WeightedCluster) :=
  let destinationProtocol := ToLower (tm_DestinationProtocol trafficMatch) in
  let configs upstreamSvc :=
    getOutboundHTTPRouteConfigs (omtp_HTTPRouteConfigsPerPort outboundPolicy)
      (ms_TargetPort upstreamSvc) (FQDN upstreamSvc) (tm_WeightedClusters trafficMatch) in
  if http_like destinationProtocol then
    upstreamSvc ← deref (trafficMatchToMeshSvc trafficMatch);
    for_range http_config_step (tm, dependClusters) (configs upstreamSvc)
  else if tcp_like destinationProtocol then
    Ret (tcp_match tm dependClusters (tm_WeightedClusters trafficMatch))
  else if String.eqb destinationProtocol ProtocolHTTPS then
    upstreamSvc ← deref (trafficMatchToMeshSvc trafficMatch);
    match configs upstreamSvc with
    | [] => Ret (tm, dependClusters)
    | cs => Ret (tcp_match tm dependClusters
                   (c ← cs; route ← otp_Routes c; Iter (rwc_WeightedClusters route)))
    end
  else Ret (tm, dependClusters).

(** The body of the loop over the traffic matches. *)
Definition traffic_match_step (outboundPolicy : OutboundMeshTrafficPolicy)
    (st : OutboundTrafficPolicy * gmap string WeightedCluster) (trafficMatch : TrafficMatch)
  : outcome (OutboundTrafficPolicy * gmap string WeightedCluster) :=
  let '(otp, dependClusters) := st in
  let destinationProtocol := ToLower (tm_DestinationProtocol trafficMatch) in
  let trafficMatchName :=
    if http_like destinationProtocol then ProtocolHTTP else tm_Name trafficMatch in
  let port := uint16(tm_DestinationPort trafficMatch) in
  let '(otp1, ptr, existed) := newTrafficMatch otp port trafficMatchName in
  let tm0 := default new_OutboundTrafficMatch (ot_heap otp1 !! ptr) in
  let tm1 := if existed then tm0 else setPort (setProtocol tm0 destinationProtocol) port in
  '(tm2, depend') ← match_routes outboundPolicy trafficMatch tm1 dependClusters;
  Ret (update_match otp1 ptr (fun _ => tm2), depend').

Definition generatePipyOutboundTrafficRoutePolicy (pipyConf : PipyConf)
    (outboundPolicy : OutboundMeshTrafficPolicy)
  : outcome (PipyConf * gmap string WeightedCluster) :=
  match omtp_TrafficMatches outboundPolicy with
  | [] => Ret (pipyConf, ∅)
  | trafficMatches =>
      '(otp, dependClusters) ← for_range (traffic_match_step outboundPolicy)
                                 (newOutboundTrafficPolicy pipyConf, ∅) trafficMatches;
      Ret (set_Outbound pipyConf (Some otp), dependClusters)
  end.

(** The address and port of an upstream endpoint. *)
Definition upstream_port (svc : MeshService) (upstreamEndpoint : Endpoint) : Z :=
  if negb (String.eqb (ep_ClusterKey upstreamEndpoint) "") && Z.ltb 0 uint16(ms_TargetPort svc)
  then uint16(ms_TargetPort svc) else uint16(ms_Port svc).

Definition add_upstream_endpoint (svc : MeshService) (c : ClusterConfigs) (e : Endpoint)
  : ClusterConfigs :=
  addWeightedZoneEndpoint c (IP_String (ep_IP e)) (upstream_port svc e) uint32(ep_Weight e)
    (ep_ClusterKey e) (ep_LBType e) (ep_Path e).

(** The body of the loop over the clusters. *)
Definition balance_step (meshCatalog : MeshCatalog) (outboundPolicy : OutboundMeshTrafficPolicy)
    (st : OutboundTrafficPolicy * bool) (cluster : WeightedCluster)
  : OutboundTrafficPolicy * bool :=
  let '(otp, ready) := st in
  let name := wc_ClusterName cluster in
  match getMeshClusterConfigs (omtp_ClustersConfigs outboundPolicy) name with
  | None => (otp, false)
  | Some clusterConfig =>
      let otp1 := newClusterConfigs otp name in
      match getUpstreamEndpoints meshCatalog name with
      | [] => (otp1, false)
      | upstreamEndpoints =>
          (set_ClustersConfigs otp1
             (alter (fun c => foldl (add_upstream_endpoint (mcc_Service clusterConfig)) c
                                upstreamEndpoints)
                name (ot_ClustersConfigs otp1)), ready)
      end
  end.

Definition generatePipyOutboundTrafficBalancePolicy (meshCatalog : MeshCatalog)
    (pipyConf : PipyConf) (outboundPolicy : OutboundMeshTrafficPolicy)
    (dependClusters : gmap string WeightedCluster) : PipyConf * bool :=
  let '(otp, ready) :=
    foldl (balance_step meshCatalog outboundPolicy) (newOutboundTrafficPolicy pipyConf, true)
      (range dependClusters).*2 in
  (set_Outbound pipyConf (Some otp), ready).

(** ** [jobs.go] *)

Definition balance (pipyConf : PipyConf) : PipyConf := rebalancedOutboundClusters pipyConf.

(** Sort the rules of one match in place. *)
Definition sort_match (tm : OutboundTrafficMatch) : OutboundTrafficMatch :=
  match otm_HTTPServiceRouteRules tm with
  | None => tm
  | Some rules => set_HTTPServiceRouteRules tm (sort_rules <$> rules)
  end.

Definition reorder (pipyConf : PipyConf) : PipyConf :=
  match pc_Outbound pipyConf with
  | None => pipyConf
  | Some otp =>
      set_Outbound pipyConf
        (Some (foldl (fun o ptr => update_match o ptr sort_match) otp
                 ((range (ot_TrafficMatches otp)).*2 ≫= id)))
  end.

(** The configuration, the result, and whether a retry is asked for. *)
Definition outbound (cataloger : MeshCatalog) (trustDomain : string) (pipyConf : PipyConf)
  : outcome (PipyConf * bool) :=
  let outboundTrafficPolicy := GetOutboundMeshTrafficPolicy cataloger trustDomain in
  let resolvable := omtp_ServicesResolvableSet outboundTrafficPolicy in
  let conf1 :=
    if bool_decide (resolvable = ∅) then pipyConf
    else mkPipyConf (pc_Ts pipyConf) (pc_Version pipyConf) (pc_SidecarLogLevel pipyConf)
           (pc_Outbound pipyConf) (pc_Chains pipyConf) resolvable in
  '(conf2, dependClusters) ← generatePipyOutboundTrafficRoutePolicy conf1 outboundTrafficPolicy;
  if bool_decide (dependClusters = ∅) then Ret (conf2, true)
  else Ret (generatePipyOutboundTrafficBalancePolicy cataloger conf2 outboundTrafficPolicy
              dependClusters).

Definition getPluginURI (name : string) : string := "plugins/" +:+ name +:+ ".js".

Definition plugin_less (a b : Plugin) : bool := Z.ltb (plugin_Priority b) (plugin_Priority a).

(** The slice is sorted in place, so the loop sees the sorted items. *)
Definition plugin_uris (pluginItems : list Plugin) : list string :=
  map (fun pluginItem =>
         if plugin_BuildIn pluginItem then plugin_Name pluginItem +:+ ".js"
         else getPluginURI (plugin_Name pluginItem)) (sort_Sort plugin_less pluginItems).

Definition set_Chains (p : PipyConf) (c : option (gmap string (list string))) : PipyConf :=
  mkPipyConf (pc_Ts p) (pc_Version p) (pc_SidecarLogLevel p) (pc_Outbound p) c (pc_DNSResolveDB p).

Definition setSidecarChain (cfg : ConfiguratorClient) (pipyConf : PipyConf) : PipyConf :=
  set_Chains pipyConf
    (Some (foldl (fun chains '(mountPoint, pluginItems) =>
                    if nonempty pluginItems
                    then <[mountPoint := plugin_uris pluginItems]> chains else chains)
             ∅ (range (GetGlobalPluginChains cfg)))).

(** The configuration and the (empty) plugin set version. *)
Definition plugin (cfg : ConfiguratorClient) (pipyConf : PipyConf) : PipyConf * string :=
  (setSidecarChain cfg (set_Chains pipyConf None), "").

Definition features (cfg : ConfiguratorClient) (pipyConf : PipyConf) : PipyConf :=
  (setSidecarLogLevel pipyConf (sc_LogLevel (cfg_Sidecar (ec_Spec (getEcnetConfig cfg))))).1.

(** The part of [Run] before publishing. *)
Definition generate_conf (cfg : ConfiguratorClient) (cataloger : MeshCatalog) (trustDomain : string)
  : outcome (PipyConf * string * bool) :=
  let conf1 := features cfg new_PipyConf in
  let '(conf2, pluginSetV) := plugin cfg conf1 in
  '(conf3, ready) ← outbound cataloger trustDomain conf2;
  Ret (reorder (balance conf3), pluginSetV, ready).

End Generator.
