(* ===== verification/PipyNames.v ===== *)
(** * Names survive the pipeline

    Cluster names and traffic match names are built by the catalog and
    parsed back by the generator. *)

From Stdlib Require Import Ascii String.
From S2P Require Import Prelude GoStrings Constants MeshService Kube Policy PipyGen.

Lemma FieldsFunc_cons p s c t :
  free_of p s -> s <> EmptyString -> p c = true ->
  FieldsFunc (s +:+ String c t) p = s :: FieldsFunc t p.
Proof.
  intros Hf Hne Hc. unfold FieldsFunc. rewrite split_by_sep by done. simpl.
  by rewrite (proj2 (String.eqb_neq _ _) Hne).
Qed.

Lemma FieldsFunc_last p s : free_of p s -> s <> EmptyString -> FieldsFunc s p = [s].
Proof.
  intros Hf Hne. unfold FieldsFunc. rewrite split_by_free by done. simpl.
  by rewrite (proj2 (String.eqb_neq _ _) Hne).
Qed.

Lemma cluster_sep_not_dns c : cluster_sep c = true -> dns_char c = false.
Proof.
  unfold cluster_sep. intros [->%Ascii.eqb_eq| ->%Ascii.eqb_eq]%orb_true_iff; done.
Qed.

Lemma cluster_sep_not_digit c : cluster_sep c = true -> is_digit c = false.
Proof.
  unfold cluster_sep. intros [->%Ascii.eqb_eq| ->%Ascii.eqb_eq]%orb_true_iff; done.
Qed.

(** A cluster name is parsed back to its namespace, name and target port. *)
Theorem clusterToMeshSvc_ClusterName (ms : MeshService) :
  mesh_service_ok ms ->
  clusterToMeshSvc (ClusterName ms) =
    inl (mkMeshService (ms_Namespace ms) (ms_Name ms) 0 (ms_TargetPort ms) "" "").
Proof.
  intros (Hns & Hn & _ & Htp & _). destruct (Htp) as [Htp0 _].
  unfold clusterToMeshSvc, ClusterName. simpl.
  rewrite FieldsFunc_cons;
    [|by eapply dns_name_free; [apply cluster_sep_not_dns|]|by destruct Hns|done].
  rewrite FieldsFunc_cons;
    [|by eapply dns_name_free; [apply cluster_sep_not_dns|]|by destruct Hn|done].
  rewrite FieldsFunc_last by (by apply fmt_d_nonempty || by apply digits_free_of, Htp0; apply cluster_sep_not_digit).
  rewrite ParseUint_fmt_d by done. by rewrite uint_id.
Qed.

Lemma clusterToMeshSvc_ClusterName_witness :
  clusterToMeshSvc (ClusterName (mkMeshService "default" "web" 80 8080 "http" "")) =
    inl (mkMeshService "default" "web" 0 8080 "" "").
Proof. apply clusterToMeshSvc_ClusterName. by apply (bool_decide_unpack _). Defined.

(** The name of a traffic match is parsed back to the service it was made
    for, with the port and protocol of the match. *)
Lemma parse_traffic_match_name (ms : MeshService) (tm : TrafficMatch) :
  mesh_service_ok ms -> tm_Name tm = OutboundTrafficMatchName ms ->
  trafficMatchToMeshSvc tm =
    Some (mkMeshService (ms_Namespace ms) (ms_Name ms) 0 uint16(tm_DestinationPort tm)
            (ToLower (tm_DestinationProtocol tm)) "").
Proof.
  intros (Hns & Hn & [Hp0 _] & _ & Hpr & Hprf) Hname.
  unfold trafficMatchToMeshSvc. rewrite Hname.
  change (OutboundTrafficMatchName ms) with
    ("outbound" +:+ String "_" (MeshService_String ms +:+ String "_"
       (fmt_d (ms_Port ms) +:+ String "_" (ms_Protocol ms)))).
  assert (free_of is_underscore (MeshService_String ms)) as Hs.
  { unfold MeshService_String. rewrite !free_of_app. split_and!; [by auto with ecnet|done|by auto with ecnet]. }
  assert (MeshService_String ms <> "") as Hs0.
  { unfold MeshService_String. apply string_app_nonempty_l. by destruct Hns. }
  rewrite (FieldsFunc_cons is_underscore "outbound") by done.
  rewrite FieldsFunc_cons by done.
  rewrite FieldsFunc_cons;
    [|apply digits_free_of; [apply underscore_not_digit|done]|by apply fmt_d_nonempty|done].
  rewrite FieldsFunc_last by done.
  unfold NamespacedNameFrom, Split, MeshService_String.
  change ("/" +:+ ms_Name ms) with (String "/" (ms_Name ms)).
  rewrite split_by_sep, split_by_free; [done|by apply dns_name_no_slash|by apply dns_name_no_slash|done].
Qed.

(** The name of a traffic match is parsed back to the namespace, the name
    and the protocol in lower case of its service; its port comes back as
    the target port. *)
Theorem trafficMatchToMeshSvc_name (ms : MeshService) :
  mesh_service_ok ms ->
  trafficMatchToMeshSvc
    (mkTrafficMatch (ms_Port ms) (ms_Protocol ms) [] "" (OutboundTrafficMatchName ms) []) =
  Some (mkMeshService (ms_Namespace ms) (ms_Name ms) 0 (ms_Port ms) (ToLower (ms_Protocol ms)) "").
Proof.
  intros Hok. rewrite (parse_traffic_match_name ms) by done. simpl.
  rewrite uint_id; [done|]. by destruct Hok as (_ & _ & ? & _).
Qed.

Lemma trafficMatchToMeshSvc_name_witness :
  trafficMatchToMeshSvc (mkTrafficMatch 80 "HTTP" [] "" "outbound_default/web_80_HTTP" []) =
    Some (mkMeshService "default" "web" 0 80 "http" "").
Proof.
  apply (trafficMatchToMeshSvc_name (mkMeshService "default" "web" 80 8080 "HTTP" "")).
  by apply (bool_decide_unpack _).
Defined.
