(* ===== verification/PipyRoutes.v ===== *)
(** * The routes of the proxy configuration

    What [generatePipyOutboundTrafficRoutePolicy] computes from the policy
    of the catalog: it does not panic, and the target clusters of every
    route rule are those of the services behind its name and port. *)

From Stdlib Require Import Ascii String.
From S2P Require Import Prelude GoStrings GoSort MapSet NetIP Constants MeshService ApiTypes.
From S2P Require Import Informers Kube Multicluster Provider Policy Catalog Configurator.
From S2P Require Import PipyConf PipyGen PipyNames.

(** ** Traffic matches on the heap *)

Definition match_key (port : Z) (name : string) : string := fmt_d port +:+ "=" +:+ name.

Definition is_equals (c : ascii) : bool := Ascii.eqb c "=".

Lemma match_key_inj port1 name1 port2 name2 :
  0 <= port1 -> 0 <= port2 -> match_key port1 name1 = match_key port2 name2 ->
  port1 = port2 /\ name1 = name2.
Proof.
  unfold match_key. intros H1 H2 E.
  assert (forall z, 0 <= z -> free_of is_equals (fmt_d z)) as Hf.
  { intros z Hz. apply digits_free_of; [|done]. unfold is_equals. by intros c ->%Ascii.eqb_eq. }
  change ("=" +:+ name1) with (String "=" name1) in E.
  change ("=" +:+ name2) with (String "=" name2) in E.
  pose proof (f_equal (fun s => head (split_by is_equals s)) E) as E0. simpl in E0.
  rewrite !split_by_sep in E0 by auto. injection E0 as E0.
  apply (inj pretty) in E0 as ->. split; [done|].
  revert E. generalize (fmt_d port2). induction s as [|c s IH]; simpl; intros [=]; auto.
Qed.

(** The two maps point at the same objects: the named matches of a port are
    those listed under it, and no two names share one. *)
Record heap_ok (o : OutboundTrafficPolicy) : Prop := {
  ho_bound : forall k ptr, ot_namedTrafficMatches o !! k = Some ptr -> (ptr < length (ot_heap o))%nat;
  ho_inj : forall k1 k2 ptr, ot_namedTrafficMatches o !! k1 = Some ptr ->
    ot_namedTrafficMatches o !! k2 = Some ptr -> k1 = k2;
  ho_listed : forall port ptr, 0 <= port ->
    ptr ∈ default [] (ot_TrafficMatches o !! port) <->
    exists name, ot_namedTrafficMatches o !! match_key port name = Some ptr
}.

Lemma heap_ok_new : heap_ok new_OutboundTrafficPolicy.
Proof.
  split; simpl; [by intros ? ?; rewrite lookup_empty..|].
  intros port ptr _. rewrite lookup_empty. simpl. split; [by intros []%not_elem_of_nil|].
  intros [name H]. by rewrite lookup_empty in H.
Qed.

(** What [newTrafficMatch] does to the heap. *)
Lemma newTrafficMatch_spec o port name o' ptr existed :
  heap_ok o -> 0 <= port -> newTrafficMatch o port name = (o', ptr, existed) ->
  heap_ok o' /\
  ot_namedTrafficMatches o' !! match_key port name = Some ptr /\
  (forall k p, ot_namedTrafficMatches o' !! k = Some p ->
     ot_namedTrafficMatches o !! k = Some p \/ (k = match_key port name /\ p = ptr)) /\
  (forall k p, ot_namedTrafficMatches o !! k = Some p ->
     ot_namedTrafficMatches o' !! k = Some p /\ ot_heap o' !! p = ot_heap o !! p) /\
  (ot_namedTrafficMatches o !! match_key port name = None ->
     ot_heap o' !! ptr = Some new_OutboundTrafficMatch) /\
  ot_ClustersConfigs o' = ot_ClustersConfigs o.
Proof.
  intros [Hb Hi Hl] Hport. unfold newTrafficMatch. fold (match_key port name).
  destruct (ot_namedTrafficMatches o !! match_key port name) as [p|] eqn:E; intros [= <- <- <-].
  { split; [done|]. split; [done|]. split_and!; [by left|by split|done|done]. }
  assert (forall k p, ot_namedTrafficMatches o !! k = Some p -> p <> length (ot_heap o)) as Hnew.
  { intros k p Hk. apply Hb in Hk. lia. }
  split; [split|]; simpl.
  - intros k p. rewrite lookup_insert_Some, length_app. simpl.
    intros [[_ <-]|[_ Hk%Hb]]; lia.
  - intros k1 k2 p. rewrite !lookup_insert_Some.
    intros [[<- <-]|[_ Hk1]] [[<- Hp]|[_ Hk2]];
      [done|by apply Hnew in Hk2|subst; by apply Hnew in Hk1|]. by eapply Hi.
  - intros port' p Hport'. destruct (decide (port = port')) as [<-|Hne].
    + rewrite lookup_insert_eq. simpl. rewrite elem_of_app, Hl, list_elem_of_singleton by done. split.
      * intros [[n Hn]| ->]; [|by exists name; rewrite lookup_insert_eq].
        exists n. rewrite lookup_insert_ne; [done|]. intros Heq. rewrite <- Heq in Hn. congruence.
      * intros [n Hn]. apply lookup_insert_Some in Hn as [[_ ->]|[_ Hn]]; [by right|left; eauto].
    + rewrite lookup_insert_ne by done. rewrite Hl by done. split; intros [n Hn].
      * exists n. rewrite lookup_insert_ne; [done|]. intros Heq.
        apply match_key_inj in Heq as [? _]; done.
      * exists n. apply lookup_insert_Some in Hn as [[Heq _]|[_ Hn]]; [|done].
        apply match_key_inj in Heq as [? _]; done.
  - split_and!; [by rewrite lookup_insert_eq| | | |done].
    + intros k p. rewrite lookup_insert_Some. intros [[<- <-]|[_ ?]]; [by right|by left].
    + intros k p Hk. rewrite lookup_insert_ne by (intros <-; congruence). split; [done|].
      rewrite lookup_app_l; [done|]. by eapply Hb.
    + intros _. by rewrite lookup_app_r, Nat.sub_diag by lia.
Qed.

Lemma heap_ok_update o ptr f : heap_ok o -> heap_ok (update_match o ptr f).
Proof.
  intros [Hb Hi Hl]. split; simpl; [|done..]. intros k p Hk. rewrite length_alter. by eapply Hb.
Qed.

(** ** Targets of a match *)

(** Some rule under [fqdn] sends traffic to [cluster] with weight [w]. *)
Definition rules_target (rules : list OutboundHTTPRouteRule) (cluster : string) (w : Z) : Prop :=
  exists rule, rule ∈ rules /\ rule_TargetClusters rule !! cluster = Some w.

Definition match_target (tm : OutboundTrafficMatch) (fqdn cluster : string) (w : Z) : Prop :=
  exists rules, default ∅ (otm_HTTPServiceRouteRules tm) !! fqdn = Some rules /\
    rules_target rules cluster w.

(** [new] has the host names [hosts] on top of those of [old], all under
    [fqdn]. *)
Definition hosts_added (hosts : list string) (fqdn : string) (old new : OutboundTrafficMatch) : Prop :=
  forall h, otm_HTTPHostPort2Service new !! h =
    if bool_decide (h ∈ hosts) then Some fqdn else otm_HTTPHostPort2Service old !! h.

(** [new] sends to [cluster] under [fqdn] with weight [w], on top of
    [old]. *)
Record target_added (fqdn cluster : string) (w : Z) (old new : OutboundTrafficMatch) : Prop := {
  ta_new : match_target new fqdn cluster w;
  ta_sound : forall f c v, match_target new f c v ->
    match_target old f c v \/ (f = fqdn /\ c = cluster /\ v = w);
  ta_keep : forall f c v, match_target old f c v -> exists v', match_target new f c v'
}.

Lemma find_rule_Some m rules i :
  find_rule m rules = Some i -> exists r, rules !! i = Some r /\ rule_Match r = m.
Proof.
  revert i. induction rules as [|r rules IH]; intros i; simpl; [done|].
  case_decide; [intros [= <-]; by exists r|].
  destruct (find_rule m rules) as [j|]; intros [= <-]. by apply IH.
Qed.

Lemma newHTTPServiceRouteRule_spec rules m rules' i dup :
  newHTTPServiceRouteRule rules m = (rules', i, dup) ->
  (exists r, rules' !! i = Some r /\ rule_Match r = m) /\
  (forall c w, rules_target rules' c w <-> rules_target rules c w).
Proof.
  unfold newHTTPServiceRouteRule.
  destruct (find_rule m rules) as [j|] eqn:E; intros [= <- <- <-].
  - split; [by apply find_rule_Some|done].
  - split.
    + eexists. by rewrite lookup_app_r, Nat.sub_diag by lia.
    + intros c w. unfold rules_target. split.
      * intros (r & [Hr| ->%list_elem_of_singleton]%elem_of_app & Hc); [eauto|].
        simpl in Hc. by rewrite lookup_empty in Hc.
      * intros (r & Hr & Hc). exists r. rewrite elem_of_app. auto.
Qed.

Lemma elem_of_alter {A} (f : A -> A) i (l : list A) x r :
  l !! i = Some r -> x ∈ alter f i l -> x = f r \/ x ∈ l.
Proof.
  intros Hi (j & Hj)%list_elem_of_lookup. destruct (decide (i = j)) as [<-|Hne].
  - rewrite list_lookup_alter_eq, Hi in Hj. injection Hj as <-. by left.
  - rewrite list_lookup_alter_ne in Hj by done. right. by eapply list_elem_of_lookup_2.
Qed.

Section Routes.
Context `{!RangeOrder} `{!SortSort} `{!MapSet WeightedCluster} `{!MapSet string}.

(** ** One route configuration *)

(** A configuration with some host names and one route, to one cluster. *)
Definition single_route (cfg : Policy.OutboundTrafficPolicy) (fqdn : string) (hosts : list string)
    (c : WeightedCluster) : Prop :=
  otp_Name cfg = fqdn /\ otp_Hostnames cfg = hosts /\
  exists m, otp_Routes cfg = [mkRouteWeightedClusters m (set_of [c])].

Lemma route_step_single rules dep m c rules' dep' :
  route_step (rules, dep) (mkRouteWeightedClusters m (set_of [c])) = (rules', dep') ->
  dep' = add_dependency dep c /\
  rules_target rules' (wc_ClusterName c) uint32(wc_Weight c) /\
  (forall k v, rules_target rules' k v ->
     rules_target rules k v \/ (k = wc_ClusterName c /\ v = uint32(wc_Weight c))) /\
  (forall k v, rules_target rules k v -> exists v', rules_target rules' k v').
Proof.
  unfold route_step. simpl.
  destruct (newHTTPServiceRouteRule rules (http_match_of m)) as [[rules1 i] dup] eqn:E.
  apply newHTTPServiceRouteRule_spec in E as [(r & Hr & _) Ht].
  rewrite iter_singleton. simpl. intros [= <- <-]. split; [done|].
  set (f := fun r0 => mkOutboundHTTPRouteRule (rule_Match r0)
              (addWeightedCluster (wc_ClusterName c) uint32(wc_Weight c) (rule_TargetClusters r0))).
  assert (f r ∈ alter f i rules1) as Hfr.
  { apply list_elem_of_lookup. exists i. by rewrite list_lookup_alter_eq, Hr. }
  split_and!.
  - exists (f r). split; [done|]. simpl. apply lookup_insert_eq.
  - intros k v (r' & Hr' & Hk). apply (elem_of_alter f i rules1 r' r Hr) in Hr' as [->|Hr'].
    + unfold f, addWeightedCluster in Hk. simpl in Hk. apply lookup_insert_Some in Hk as [[<- <-]|[_ Hk]]; [by right|left].
      apply Ht. exists r. split; [by eapply list_elem_of_lookup_2|done].
    + left. apply Ht. by exists r'.
  - intros k v Hk%Ht. destruct Hk as (r' & (j & Hj)%list_elem_of_lookup & Hk).
    destruct (decide (i = j)) as [<-|Hij].
    + assert (r' = r) as -> by congruence.
      destruct (decide (wc_ClusterName c = k)) as [<-|Hne].
      * eexists. exists (f r). split; [done|]. apply lookup_insert_eq.
      * exists v. exists (f r). split; [done|]. simpl. unfold addWeightedCluster.
        by rewrite lookup_insert_ne.
    + exists v. exists r'. split; [|done]. apply list_elem_of_lookup. exists j.
      by rewrite list_lookup_alter_ne.
Qed.

Lemma add_hosts_rules tm hosts name :
  otm_HTTPServiceRouteRules (foldl (fun t h => addHTTPHostPort2Service t h name) tm hosts) =
  otm_HTTPServiceRouteRules tm.
Proof. revert tm. induction hosts as [|h hosts IH]; intros tm; [done|]. simpl. by rewrite IH. Qed.

Lemma add_hosts_table tm hosts name :
  hosts_added hosts name tm (foldl (fun t h => addHTTPHostPort2Service t h name) tm hosts).
Proof.
  revert tm. induction hosts as [|h0 hosts IH]; intros tm h; [done|]. cbn [foldl]. rewrite IH.
  cbn [addHTTPHostPort2Service otm_HTTPHostPort2Service]. case_bool_decide as Hh.
  - by rewrite bool_decide_eq_true_2 by (by right).
  - destruct (decide (h0 = h)) as [->|Hne].
    + rewrite lookup_insert_eq, bool_decide_eq_true_2; [done|left].
    + rewrite lookup_insert_ne, bool_decide_eq_false_2; [done| |done]. by intros [->|]%elem_of_cons.
Qed.

Lemma hosts_added_twice hosts fqdn tm0 tm1 tm2 :
  hosts_added hosts fqdn tm0 tm1 -> hosts_added hosts fqdn tm1 tm2 -> hosts_added hosts fqdn tm0 tm2.
Proof. intros H1 H2 h. rewrite H2, H1. by case_bool_decide. Qed.

Lemma newHTTPServiceRouteRules_spec tm name :
  name <> "" ->
  exists tm1, newHTTPServiceRouteRules tm name = (tm1, true) /\
    otm_HTTPHostPort2Service tm1 = otm_HTTPHostPort2Service tm /\
    otm_HTTPServiceRouteRules tm1 =
      Some (<[name := default [] (default ∅ (otm_HTTPServiceRouteRules tm) !! name)]>
              (default ∅ (otm_HTTPServiceRouteRules tm))).
Proof.
  intros Hne. unfold newHTTPServiceRouteRules. rewrite (proj2 (String.eqb_neq _ _) Hne).
  destruct (default ∅ (otm_HTTPServiceRouteRules tm) !! name) as [rules|] eqn:E.
  - eexists. split; [done|]. split; [done|]. simpl. by rewrite insert_id.
  - by eexists.
Qed.

(** A named configuration with one route to one cluster is processed
    without panic, registers its host names and adds that target. *)
Lemma http_config_step_single tm dep cfg fqdn hosts c :
  fqdn <> "" -> single_route cfg fqdn hosts c ->
  exists tm', http_config_step (tm, dep) cfg = Ret (tm', add_dependency dep c) /\
    hosts_added hosts fqdn tm tm' /\
    target_added fqdn (wc_ClusterName c) uint32(wc_Weight c) tm tm'.
Proof.
  intros Hne (Hname & Hhosts & m & Hroutes). unfold http_config_step. rewrite Hname, Hhosts, Hroutes.
  destruct (newHTTPServiceRouteRules_spec tm fqdn Hne) as (tm1 & -> & Hh1 & Htm1).
  pose proof (add_hosts_table tm1 hosts fqdn) as Htable. unfold hosts_added in Htable. rewrite Hh1 in Htable.
  rewrite add_hosts_rules, Htm1. cbn [from_option id foldl].
  rewrite lookup_insert_eq. cbn [from_option id].
  set (rulesMap := default ∅ (otm_HTTPServiceRouteRules tm)).
  set (rules := default [] (rulesMap !! fqdn)).
  destruct (route_step (rules, dep) (mkRouteWeightedClusters m (set_of [c]))) as [rules' dep'] eqn:E.
  cbn beta iota. apply route_step_single in E as (-> & Hnew & Hsound & Hkeep).
  eexists. split; [done|]. split; [exact Htable|].
  assert (forall f k v, rulesMap !! f = None -> match_target tm f k v -> False) as Hnone.
  { intros f k v Hf (rs & Hrs & _). unfold rulesMap in Hf. congruence. }
  split; unfold match_target; simpl.
  - exists rules'. by rewrite lookup_insert_eq.
  - intros f k v (rs & Hrs & Hk). destruct (decide (fqdn = f)) as [<-|Hf].
    + rewrite lookup_insert_eq in Hrs. injection Hrs as <-.
      apply Hsound in Hk as [Hk|[-> ->]]; [left|by right].
      fold rulesMap. unfold rules in Hk. destruct (rulesMap !! fqdn) as [rs|]; [by exists rs|].
      destruct Hk as (r & []%not_elem_of_nil & _).
    + rewrite !lookup_insert_ne in Hrs by done. left. by exists rs.
  - fold rulesMap. intros f k v (rs & Hrs & Hk). destruct (decide (fqdn = f)) as [<-|Hf].
    + unfold rules in Hkeep. rewrite Hrs in Hkeep. destruct (Hkeep k v Hk) as [v' Hv'].
      exists v', rules'. by rewrite lookup_insert_eq.
    + exists v, rs. by rewrite !lookup_insert_ne.
Qed.

Lemma add_dependency_idem dep c : add_dependency (add_dependency dep c) c = add_dependency dep c.
Proof.
  unfold add_dependency. destruct (dep !! wc_ClusterName c) eqn:E; [by rewrite E|].
  by rewrite lookup_insert_eq.
Qed.

(** The loop over several such configurations of one service. *)
Lemma http_config_loop tm dep cfgs fqdn hosts c :
  fqdn <> "" -> cfgs <> [] -> Forall (fun cfg => single_route cfg fqdn hosts c) cfgs ->
  exists tm', for_range http_config_step (tm, dep) cfgs = Ret (tm', add_dependency dep c) /\
    hosts_added hosts fqdn tm tm' /\
    target_added fqdn (wc_ClusterName c) uint32(wc_Weight c) tm tm'.
Proof.
  intros Hne Hcs Hall.
  destruct (for_range_inv http_config_step (fun pre st =>
    (pre = [] -> st = (tm, dep)) /\
    (pre <> [] -> st.2 = add_dependency dep c /\ hosts_added hosts fqdn tm st.1 /\
       target_added fqdn (wc_ClusterName c) uint32(wc_Weight c) tm st.1)) (tm, dep) cfgs)
    as ([tm' dep'] & Hrun & _ & Hi); [by split|..].
  - intros pre cfg post [tm1 dep1] Hl [Hnil Hcons].
    assert (single_route cfg fqdn hosts c) as Hcfg by (rewrite Forall_forall in Hall; apply Hall; set_solver).
    destruct (http_config_step_single tm1 dep1 cfg fqdn hosts c Hne Hcfg)
      as (tm2 & -> & Hh & [Hn Hs Hk]).
    eexists. split; [done|]. split; [by destruct pre|]. intros _. simpl.
    destruct pre as [|x pre].
    + by injection (Hnil eq_refl) as -> ->.
    + destruct (Hcons ltac:(done)) as (Hd & Hh1 & [Hn1 Hs1 Hk1]). simpl in *. subst dep1.
      split; [apply add_dependency_idem|]. split; [by eapply hosts_added_twice|]. split; [done|..].
      * intros f k v [Ha|Ha]%Hs; [by apply Hs1|by right].
      * intros f k v [v1 Hv1]%Hk1. by eapply Hk.
  - destruct (Hi Hcs) as (Hd & Hh & Ht). simpl in *. subst. by exists tm'.
Qed.

(** ** The configurations of a service *)

Lemma same_cluster (a b : WeightedCluster) :
  String.eqb (wc_ClusterName a) (wc_ClusterName b) && Z.eqb (wc_Weight a) (wc_Weight b) = true <->
  a = b.
Proof.
  rewrite andb_true_iff, String.eqb_eq, Z.eqb_eq. destruct a, b; simpl. naive_solver.
Qed.

(** [arrayEqual] compares a slice with a set: same number of elements, and
    the same elements. *)
Lemma arrayEqual_true a (s : mset WeightedCluster) :
  arrayEqual a s = true <->
  length a = length (Iter s) /\ forall c, c ∈ a <-> c ∈ Iter s.
Proof.
  unfold arrayEqual. rewrite !andb_true_iff, Nat.eqb_eq, !forallb_forall.
  assert (forall l1 l2 : list WeightedCluster,
    (forall x, In x l1 -> existsb (fun y => String.eqb (wc_ClusterName x) (wc_ClusterName y)
       && Z.eqb (wc_Weight x) (wc_Weight y)) l2 = true) <-> (forall x, x ∈ l1 -> x ∈ l2)) as Hsub.
  { intros l1 l2. setoid_rewrite <- list_elem_of_In. setoid_rewrite existsb_elem.
    setoid_rewrite same_cluster. split.
    - intros Hx x [y [Hy ->]]%Hx. done.
    - intros Hx x Hin. exists x. auto. }
  rewrite !Hsub. split; [intros [[? ?] ?]; split; [done|]; split; auto|].
  intros [? Hc]. split; [split; [done|]|]; intros c; apply Hc.
Qed.

Lemma arrayEqual_single a b : arrayEqual [a] (set_of [b]) = true <-> a = b.
Proof.
  rewrite arrayEqual_true, iter_singleton. split; [|by intros ->].
  intros [_ H1]. specialize (H1 a). set_solver.
Qed.

Context (mc : MeshCatalog) (trustDomain : string).
Context (services : list MeshService) (p : OutboundMeshTrafficPolicy).
Context (Hpolicy : policy_of mc trustDomain services p).
Context (Hservices : Forall mesh_service_ok services).

Lemma service_routes_single ms fqdn c :
  String.eqb (otp_Name (service_routes mc trustDomain ms)) fqdn
  && existsb (fun route => arrayEqual [c] (rwc_WeightedClusters route))
       (otp_Routes (service_routes mc trustDomain ms)) = true <->
  FQDN ms = fqdn /\ c = upstream_cluster mc ms.
Proof.
  cbn [service_routes otp_Name otp_Routes existsb rwc_WeightedClusters].
  rewrite orb_false_r, andb_true_iff, String.eqb_eq, arrayEqual_single. done.
Qed.

Lemma FQDN_nonempty ms : FQDN ms <> "".
Proof. unfold FQDN. by destruct (ms_Name ms). Qed.

(** Services of one cluster and port have the same host names. *)
Lemma same_service_hosts ms ms' :
  ms ∈ services -> ms' ∈ services -> ms_Port ms' = ms_Port ms -> ClusterName ms = ClusterName ms' ->
  GetHostnamesForService trustDomain ms' false = GetHostnamesForService trustDomain ms false.
Proof.
  rewrite Forall_forall in Hservices. intros Hin Hin' Hport Hc.
  pose proof (clusterToMeshSvc_ClusterName ms (Hservices _ Hin)) as H1.
  pose proof (clusterToMeshSvc_ClusterName ms' (Hservices _ Hin')) as H2.
  rewrite Hc, H2 in H1. injection H1 as Hns Hn _. unfold GetHostnamesForService. by rewrite Hns, Hn, Hport.
Qed.

(** The route configurations found for an HTTP service: at least its own,
    all with its host names and one route to its cluster. *)
Lemma service_configs ms :
  ms ∈ services -> http_service ms = true ->
  let cfgs := getOutboundHTTPRouteConfigs (omtp_HTTPRouteConfigsPerPort p) (ms_Port ms) (FQDN ms)
                [upstream_cluster mc ms] in
  cfgs <> [] /\ Forall (fun cfg => single_route cfg (FQDN ms)
    (GetHostnamesForService trustDomain ms false) (upstream_cluster mc ms)) cfgs.
Proof.
  intros Hin Hhttp. unfold getOutboundHTTPRouteConfigs. rewrite (po_routes _ _ _ _ Hpolicy). cbn zeta.
  set (routed := List.filter (fun ms0 => http_service ms0 && Z.eqb (ms_Port ms0) (ms_Port ms)) services).
  assert (ms ∈ routed) as Hr.
  { apply elem_of_lfilter. split; [done|]. by rewrite Hhttp, Z.eqb_refl. }
  assert (nonempty routed = true) as -> by (apply nonempty_true; by intros ->; apply not_elem_of_nil in Hr).
  cbn zeta iota. split.
  - intros Hnil. apply (not_elem_of_nil (service_routes mc trustDomain ms)). rewrite <- Hnil.
    apply elem_of_lfilter. split; [apply list_elem_of_In, in_map; by apply list_elem_of_In|].
    by apply service_routes_single.
  - apply Forall_forall. intros cfg [Hcfg Hf]%elem_of_lfilter.
    apply list_elem_of_In, in_map_iff in Hcfg as (ms' & <- & Hr'%list_elem_of_In).
    apply elem_of_lfilter in Hr' as [Hin' [_ Hport%Z.eqb_eq]%andb_true_iff].
    apply service_routes_single in Hf as [Hn Hc]. split; [done|].
    split; [|exists WildCardRouteMatch; by rewrite Hc].
    apply same_service_hosts; [by auto..|done|]. by injection Hc.
Qed.

(** ** One traffic match *)

Definition protocol_of (ms : MeshService) : string := ToLower (ms_Protocol ms).

(** The protocols the generator routes. *)
Definition routed (ms : MeshService) : bool :=
  http_like (protocol_of ms) || tcp_like (protocol_of ms)
  || String.eqb (protocol_of ms) ProtocolHTTPS.

Lemma http_service_of_lower ms l :
  protocol_of ms = l -> l <> ProtocolTCP -> l <> ProtocolTCPServerFirst -> http_service ms = true.
Proof.
  unfold protocol_of, http_service. intros <- H1 H2.
  destruct (String.eqb_spec (ms_Protocol ms) ProtocolTCP) as [E|_]; [by rewrite E in H1|].
  destruct (String.eqb_spec (ms_Protocol ms) ProtocolTCPServerFirst) as [E|_]; [by rewrite E in H2|].
  done.
Qed.

Lemma foldl_tcp_targets (cs : list WeightedCluster) c targets dep :
  cs <> [] -> Forall (fun x => x = c) cs ->
  (foldl add_tcp_cluster (targets, dep) cs).2 = add_dependency dep c.
Proof.
  intros Hne Hall. destruct cs as [|x cs]; [done|]. apply Forall_cons in Hall as [-> Hall].
  simpl. clear Hne. generalize (addWeightedCluster (wc_ClusterName c) uint32(wc_Weight c) targets).
  induction Hall as [|x cs -> Hall IH]; intros t; [done|]. simpl.
  rewrite add_dependency_idem. apply IH.
Qed.

Lemma tcp_match_single tm dep cs c :
  cs <> [] -> Forall (fun x => x = c) cs ->
  exists tm', tcp_match tm dep cs = (tm', add_dependency dep c) /\
    otm_HTTPServiceRouteRules tm' = otm_HTTPServiceRouteRules tm /\
    otm_HTTPHostPort2Service tm' = otm_HTTPHostPort2Service tm.
Proof.
  intros Hne Hall. unfold tcp_match.
  pose proof (foldl_tcp_targets cs c (newTCPServiceRouteRules tm) dep Hne Hall) as Hdep.
  destruct (foldl add_tcp_cluster _ cs) as [targets dep']. simpl in Hdep. subst dep'.
  by eexists.
Qed.

(** The match [tm0] of a service after its routes were added. *)
Definition match_updated (ms : MeshService) (tm0 tm2 : OutboundTrafficMatch) : Prop :=
  if http_like (protocol_of ms)
  then hosts_added (GetHostnamesForService trustDomain ms false) (FQDN ms) tm0 tm2 /\
    target_added (FQDN ms) (ClusterName ms) uint32(wc_Weight (upstream_cluster mc ms)) tm0 tm2
  else otm_HTTPServiceRouteRules tm2 = otm_HTTPServiceRouteRules tm0 /\
    otm_HTTPHostPort2Service tm2 = otm_HTTPHostPort2Service tm0.

Lemma match_routes_service ms tm dep :
  ms ∈ services ->
  exists tm', match_routes p (service_match mc ms) tm dep =
      Ret (tm', if routed ms then add_dependency dep (upstream_cluster mc ms) else dep) /\
    match_updated ms tm tm'.
Proof.
  intros Hin. assert (mesh_service_ok ms) as Hok by (rewrite Forall_forall in Hservices; auto).
  unfold match_updated, match_routes. cbn [service_match tm_DestinationProtocol tm_WeightedClusters].
  fold (protocol_of ms). unfold routed.
  assert (trafficMatchToMeshSvc (service_match mc ms) =
          Some (mkMeshService (ms_Namespace ms) (ms_Name ms) 0 (ms_Port ms) (protocol_of ms) "")) as Hsvc.
  { rewrite (parse_traffic_match_name ms) by done. cbn. rewrite uint_id; [done|].
    by destruct Hok as (_ & _ & ? & _). }
  rewrite Hsvc. cbn [deref ms_TargetPort].
  change (FQDN (mkMeshService (ms_Namespace ms) (ms_Name ms) 0 (ms_Port ms) (protocol_of ms) ""))
    with (FQDN ms).
  destruct (http_like (protocol_of ms)) eqn:Hh; [|destruct (tcp_like (protocol_of ms)) eqn:Ht;
    [|destruct (String.eqb_spec (protocol_of ms) ProtocolHTTPS) as [Hs|Hs]]]; cbn [orb].
  - assert (http_service ms = true) as Hhttp.
    { unfold http_like in Hh. apply orb_true_iff in Hh as [E|E]; bool_props;
        by eapply http_service_of_lower. }
    destruct (service_configs ms Hin Hhttp) as [Hne Hall].
    apply (http_config_loop tm dep _ (FQDN ms) _ (upstream_cluster mc ms)); [|done..].
    apply FQDN_nonempty.
  - destruct (tcp_match_single tm dep [upstream_cluster mc ms] (upstream_cluster mc ms))
      as (tm' & -> & Hrules); [done|by repeat constructor|]. by exists tm'.
  - assert (http_service ms = true) as Hhttp by (by eapply http_service_of_lower).
    destruct (service_configs ms Hin Hhttp) as [Hne Hall]. cbn [mbind outcome_bind].
    destruct (getOutboundHTTPRouteConfigs _ _ _ _) as [|cfg cfgs] eqn:Ecfg; [done|].
    destruct (tcp_match_single tm dep
      ((cfg :: cfgs) ≫= fun c => otp_Routes c ≫= fun route => Iter (rwc_WeightedClusters route))
      (upstream_cluster mc ms)) as (tm' & E & Hrules).
    + apply Forall_cons in Hall as [(_ & _ & m & Hm) _].
      rewrite bind_cons, Hm, bind_cons. cbn [rwc_WeightedClusters]. by rewrite iter_singleton.
    + apply Forall_forall. intros x (c & Hx & Hc)%list_elem_of_bind.
      rewrite Forall_forall in Hall. destruct (Hall c Hc) as (_ & _ & m & Hm). rewrite Hm in Hx.
      rewrite bind_cons in Hx. cbn [rwc_WeightedClusters] in Hx. rewrite iter_singleton in Hx.
      set_solver.
    + exists tm'. split; [|done]. exact (f_equal Ret E).
  - by exists tm.
Qed.

(** ** The loop over the services *)

(** The service a host name on a port belongs to: the last HTTP or gRPC
    service of that port with that host name. *)
Definition claims_host (port : Z) (host : string) (ms : MeshService) : bool :=
  http_like (protocol_of ms) && Z.eqb (ms_Port ms) port
  && bool_decide (host ∈ service_hosts trustDomain ms).

Definition host_owner (svcs : list MeshService) (port : Z) (host : string) : option MeshService :=
  last (List.filter (claims_host port host) svcs).

(** The same by the key of the match. *)
Definition owner_at (svcs : list MeshService) (key host : string) : option MeshService :=
  last (List.filter (fun ms => http_like (protocol_of ms)
                               && String.eqb (match_key (ms_Port ms) ProtocolHTTP) key
                               && bool_decide (host ∈ service_hosts trustDomain ms)) svcs).

Lemma owner_at_port svcs port host :
  0 <= port -> Forall mesh_service_ok svcs ->
  owner_at svcs (match_key port ProtocolHTTP) host = host_owner svcs port host.
Proof.
  intros Hport Hok. unfold owner_at, host_owner. f_equal. apply filter_ext_in.
  intros ms Hin%list_elem_of_In. rewrite Forall_forall in Hok.
  destruct (Hok ms Hin) as (_ & _ & [Hp _] & _). unfold claims_host. do 2 f_equal.
  apply eq_true_iff_eq. rewrite String.eqb_eq, Z.eqb_eq. split; [|by intros ->].
  by intros [? _]%match_key_inj.
Qed.

Lemma owner_at_snoc svcs ms key host :
  owner_at (svcs ++ [ms]) key host =
  if http_like (protocol_of ms) && String.eqb (match_key (ms_Port ms) ProtocolHTTP) key
     && bool_decide (host ∈ service_hosts trustDomain ms)
  then Some ms else owner_at svcs key host.
Proof.
  unfold owner_at. rewrite List.filter_app. cbn [List.filter]. destruct (_ && _ && _).
  - by rewrite last_snoc.
  - by rewrite app_nil_r.
Qed.

Lemma owner_at_in svcs key host ms :
  owner_at svcs key host = Some ms ->
  ms ∈ svcs /\ http_like (protocol_of ms) = true /\ match_key (ms_Port ms) ProtocolHTTP = key.
Proof.
  intros [Hin Hf]%last_Some_elem_of%elem_of_lfilter. bool_props. done.
Qed.

(** What holds after the services [pre]. *)
Record gen_inv (pre : list MeshService) (o : OutboundTrafficPolicy)
    (dep : gmap string WeightedCluster) : Prop := {
  gi_heap : heap_ok o;
  gi_complete : forall ms, ms ∈ pre -> http_like (protocol_of ms) = true ->
    exists ptr tm w, ot_namedTrafficMatches o !! match_key (ms_Port ms) ProtocolHTTP = Some ptr /\
      ot_heap o !! ptr = Some tm /\ match_target tm (FQDN ms) (ClusterName ms) w;
  gi_sound : forall k ptr tm f c w, ot_namedTrafficMatches o !! k = Some ptr ->
    ot_heap o !! ptr = Some tm -> match_target tm f c w ->
    exists ms, ms ∈ pre /\ http_like (protocol_of ms) = true /\
      k = match_key (ms_Port ms) ProtocolHTTP /\ FQDN ms = f /\ ClusterName ms = c /\
      w = uint32(wc_Weight (upstream_cluster mc ms));
  gi_hosts : forall k ptr tm h, ot_namedTrafficMatches o !! k = Some ptr ->
    ot_heap o !! ptr = Some tm -> otm_HTTPHostPort2Service tm !! h = FQDN <$> owner_at pre k h;
  gi_depends : forall c wc, dep !! c = Some wc ->
    exists ms, ms ∈ pre /\ routed ms = true /\ ClusterName ms = c /\ wc = upstream_cluster mc ms;
  gi_covers : forall ms, ms ∈ pre -> routed ms = true -> is_Some (dep !! ClusterName ms)
}.

Lemma gen_inv_nil : gen_inv [] new_OutboundTrafficPolicy ∅.
Proof.
  split; [apply heap_ok_new|by intros ? []%not_elem_of_nil|..].
  - intros k ptr tm f c w Hk. simpl in Hk. by rewrite lookup_empty in Hk.
  - intros k ptr tm h Hk. simpl in Hk. by rewrite lookup_empty in Hk.
  - intros c wc Hc. by rewrite lookup_empty in Hc.
  - by intros ? []%not_elem_of_nil.
Qed.

Lemma add_dependency_lookup dep c k wc :
  add_dependency dep c !! k = Some wc <->
  dep !! k = Some wc \/ (dep !! k = None /\ k = wc_ClusterName c /\ wc = c).
Proof.
  unfold add_dependency. destruct (dep !! wc_ClusterName c) eqn:E.
  - split; [by left|]. intros [?|(? & -> & ->)]; congruence.
  - rewrite lookup_insert_Some. destruct (decide (wc_ClusterName c = k)) as [<-|Hne]; naive_solver.
Qed.

(** The dependencies after one more service. *)
Lemma depends_step pre ms dep :
  (forall c wc, dep !! c = Some wc -> exists s, s ∈ pre /\ routed s = true /\
     ClusterName s = c /\ wc = upstream_cluster mc s) ->
  (forall s, s ∈ pre -> routed s = true -> is_Some (dep !! ClusterName s)) ->
  let dep' := if routed ms then add_dependency dep (upstream_cluster mc ms) else dep in
  (forall c wc, dep' !! c = Some wc -> exists s, s ∈ pre ++ [ms] /\ routed s = true /\
     ClusterName s = c /\ wc = upstream_cluster mc s) /\
  (forall s, s ∈ pre ++ [ms] -> routed s = true -> is_Some (dep' !! ClusterName s)).
Proof.
  intros Hd Hc. simpl. split.
  - intros c wc Hl. assert (dep !! c = Some wc \/
      (routed ms = true /\ c = ClusterName ms /\ wc = upstream_cluster mc ms)) as [Ho|(Hr & -> & ->)].
    { destruct (routed ms); [|by left].
      apply add_dependency_lookup in Hl as [?|(_ & -> & ->)]; [by left|by right]. }
    + apply Hd in Ho as (s & Hs & Hrest). exists s. rewrite elem_of_app. auto.
    + exists ms. rewrite elem_of_app. set_solver.
  - intros s [Hs| ->%list_elem_of_singleton]%elem_of_app Hr.
    + destruct (Hc s Hs Hr) as [wc Hwc]. destruct (routed ms); [|by eexists].
      exists wc. apply add_dependency_lookup. by left.
    + rewrite Hr. destruct (dep !! ClusterName ms) as [wc|] eqn:E.
      * exists wc. apply add_dependency_lookup. by left.
      * eexists. apply add_dependency_lookup. by right.
Qed.

(** The name a service's match is kept under. *)
Definition stored_name (ms : MeshService) : string :=
  if http_like (protocol_of ms) then ProtocolHTTP else OutboundTrafficMatchName ms.

Lemma traffic_match_step_unfold ms o dep :
  mesh_service_ok ms ->
  traffic_match_step p (o, dep) (service_match mc ms) =
  let '(o1, ptr, existed) := newTrafficMatch o (ms_Port ms) (stored_name ms) in
  let tm0 := default new_OutboundTrafficMatch (ot_heap o1 !! ptr) in
  let tm1 := if existed then tm0 else setPort (setProtocol tm0 (protocol_of ms)) (ms_Port ms) in
  '(tm2, depend') ← match_routes p (service_match mc ms) tm1 dep;
  Ret (update_match o1 ptr (fun _ => tm2), depend').
Proof.
  intros (_ & _ & Hp & _). unfold traffic_match_step.
  cbn [service_match tm_DestinationProtocol tm_DestinationPort tm_Name].
  rewrite (uint_id 16 (ms_Port ms)) by done. done.
Qed.

(** [o1] is [o] with the match at [key] present, at [ptr], as [tm0]. *)
Record match_opened (o : OutboundTrafficPolicy) (key : string) (o1 : OutboundTrafficPolicy)
    (ptr : nat) (tm0 : OutboundTrafficMatch) : Prop := {
  mo_heap : heap_ok o1;
  mo_named : ot_namedTrafficMatches o1 !! key = Some ptr;
  mo_back : forall k q, ot_namedTrafficMatches o1 !! k = Some q ->
    ot_namedTrafficMatches o !! k = Some q \/ (k = key /\ q = ptr);
  mo_fwd : forall k q, ot_namedTrafficMatches o !! k = Some q ->
    ot_namedTrafficMatches o1 !! k = Some q /\ ot_heap o1 !! q = ot_heap o !! q;
  mo_tm : ot_heap o1 !! ptr = Some tm0;
  mo_old : (ot_namedTrafficMatches o !! key = Some ptr /\ ot_heap o !! ptr = Some tm0) \/
    (ot_namedTrafficMatches o !! key = None /\ tm0 = new_OutboundTrafficMatch)
}.

Lemma newTrafficMatch_opened o port name o1 ptr existed :
  heap_ok o -> 0 <= port -> newTrafficMatch o port name = (o1, ptr, existed) ->
  exists tm0, match_opened o (match_key port name) o1 ptr tm0.
Proof.
  intros Hheap Hport Enew.
  apply newTrafficMatch_spec in Enew as (Hheap1 & Hptr & Hback & Hfwd & Hfresh & _); [|done..].
  destruct (lookup_lt_is_Some_2 (ot_heap o1) ptr) as [tm0 Htm0]; [by eapply ho_bound|].
  exists tm0. split; [done..|].
  destruct (ot_namedTrafficMatches o !! match_key port name) as [q|] eqn:Eq.
  - apply Hfwd in Eq as [Eq1 Eq2]. assert (q = ptr) as -> by congruence. left.
    split; [done|congruence].
  - right. split; [done|]. specialize (Hfresh eq_refl). congruence.
Qed.

(** Whatever the opened match sends to, it did before. *)
Lemma match_opened_old o key o1 ptr tm0 f c v :
  match_opened o key o1 ptr tm0 -> match_target tm0 f c v ->
  ot_namedTrafficMatches o !! key = Some ptr /\ ot_heap o !! ptr = Some tm0.
Proof.
  intros Hopen (rs & Hrs & _). destruct (mo_old _ _ _ _ _ Hopen) as [?|[_ ->]]; [done|].
  simpl in Hrs. by rewrite lookup_empty in Hrs.
Qed.

Lemma match_target_ext tm tm' f c w :
  otm_HTTPServiceRouteRules tm' = otm_HTTPServiceRouteRules tm ->
  match_target tm f c w -> match_target tm' f c w.
Proof. intros E (rs & Hrs & Ht). exists rs. by rewrite E. Qed.

Lemma match_updated_keep ms tm0 tm2 f c w :
  match_updated ms tm0 tm2 -> match_target tm0 f c w -> exists w', match_target tm2 f c w'.
Proof.
  unfold match_updated. destruct (http_like (protocol_of ms)); intros Hu Ht.
  - by eapply (ta_keep _ _ _ _ _ (proj2 Hu)).
  - exists w. eapply match_target_ext; [apply Hu|done].
Qed.

Lemma match_updated_sound ms tm0 tm2 f c w :
  match_updated ms tm0 tm2 -> match_target tm2 f c w ->
  match_target tm0 f c w \/
  (http_like (protocol_of ms) = true /\ f = FQDN ms /\ c = ClusterName ms /\
   w = uint32(wc_Weight (upstream_cluster mc ms))).
Proof.
  unfold match_updated. destruct (http_like (protocol_of ms)); intros Hu Ht.
  - apply (ta_sound _ _ _ _ _ (proj2 Hu)) in Ht as [?|(-> & -> & ->)]; [by left|by right].
  - left. eapply match_target_ext; [symmetry; apply Hu|done].
Qed.

Section Step.
Context (pre : list MeshService) (ms : MeshService) (o o1 : OutboundTrafficPolicy) (ptr : nat)
  (dep : gmap string WeightedCluster) (tm0 tm2 : OutboundTrafficMatch).
Context (Hinv : gen_inv pre o dep)
  (Hopen : match_opened o (match_key (ms_Port ms) (stored_name ms)) o1 ptr tm0)
  (Hupd : match_updated ms tm0 tm2).

Lemma updated_lookup q :
  ot_heap (update_match o1 ptr (fun _ => tm2)) !! q =
  if decide (q = ptr) then Some tm2 else ot_heap o1 !! q.
Proof.
  simpl. case_decide as Hq; [|by rewrite list_lookup_alter_ne].
  subst q. by rewrite list_lookup_alter_eq, (mo_tm _ _ _ _ _ Hopen).
Qed.

Lemma step_complete s :
  s ∈ pre ++ [ms] -> http_like (protocol_of s) = true ->
  exists q tm w, ot_namedTrafficMatches o1 !! match_key (ms_Port s) ProtocolHTTP = Some q /\
    ot_heap (update_match o1 ptr (fun _ => tm2)) !! q = Some tm /\
    match_target tm (FQDN s) (ClusterName s) w.
Proof.
  intros [Hs| ->%list_elem_of_singleton]%elem_of_app Hhttp.
  - destruct (gi_complete _ _ _ Hinv s Hs Hhttp) as (q & tm & w & Hq & Htm & Ht).
    destruct (mo_fwd _ _ _ _ _ Hopen _ _ Hq) as [Hq1 Hq2]. exists q. rewrite updated_lookup.
    case_decide as Hne; [|by exists tm, w; rewrite Hq2].
    subst q. rewrite (mo_tm _ _ _ _ _ Hopen), Htm in Hq2. injection Hq2 as ->.
    destruct (match_updated_keep _ _ _ _ _ _ Hupd Ht) as [w' Hw']. by exists tm2, w'.
  - exists ptr, tm2. rewrite updated_lookup, decide_True by done.
    pose proof (mo_named _ _ _ _ _ Hopen) as Hn. unfold stored_name in Hn. rewrite Hhttp in Hn.
    pose proof Hupd as Hu. unfold match_updated in Hu. rewrite Hhttp in Hu.
    eexists. split; [done|]. split; [done|]. apply (proj2 Hu).
Qed.

Lemma step_sound k q tm f c w :
  ot_namedTrafficMatches o1 !! k = Some q ->
  ot_heap (update_match o1 ptr (fun _ => tm2)) !! q = Some tm -> match_target tm f c w ->
  exists s, s ∈ pre ++ [ms] /\ http_like (protocol_of s) = true /\
    k = match_key (ms_Port s) ProtocolHTTP /\ FQDN s = f /\ ClusterName s = c /\
    w = uint32(wc_Weight (upstream_cluster mc s)).
Proof.
  intros Hk Htm Ht. rewrite updated_lookup in Htm.
  assert (forall k' tm', ot_namedTrafficMatches o !! k' = Some q -> ot_heap o !! q = Some tm' ->
    match_target tm' f c w -> exists s, s ∈ pre ++ [ms] /\ http_like (protocol_of s) = true /\
      k' = match_key (ms_Port s) ProtocolHTTP /\ FQDN s = f /\ ClusterName s = c /\
      w = uint32(wc_Weight (upstream_cluster mc s))) as Hold.
  { intros k' tm' Hk' Htm' Ht'.
    destruct (gi_sound _ _ _ Hinv _ _ _ _ _ _ Hk' Htm' Ht') as (s & Hs & Hrest).
    exists s. rewrite elem_of_app. auto. }
  case_decide as Hne.
  - subst q. injection Htm as <-.
    assert (k = match_key (ms_Port ms) (stored_name ms)) as ->
      by (eapply (ho_inj o1); [apply Hopen|done|apply Hopen]).
    apply (match_updated_sound ms tm0) in Ht as [Ho|(Hh & -> & -> & ->)]; [| |done].
    + destruct (match_opened_old _ _ _ _ _ _ _ _ Hopen Ho) as [Hk' Htm']. by eapply Hold.
    + exists ms. unfold stored_name. rewrite Hh, elem_of_app, list_elem_of_singleton. auto 10.
  - destruct (mo_back _ _ _ _ _ Hopen _ _ Hk) as [Hk'|[_ ->]]; [|done].
    destruct (mo_fwd _ _ _ _ _ Hopen _ _ Hk') as [_ Heq]. rewrite Heq in Htm. by eapply Hold.
Qed.

(** The host names of the match of the service. *)
Lemma step_hosts_own h :
  otm_HTTPHostPort2Service tm2 !! h =
  FQDN <$> owner_at (pre ++ [ms]) (match_key (ms_Port ms) (stored_name ms)) h.
Proof.
  assert (otm_HTTPHostPort2Service tm0 !! h =
          FQDN <$> owner_at pre (match_key (ms_Port ms) (stored_name ms)) h) as Hown.
  { destruct (mo_old _ _ _ _ _ Hopen) as [[Hn Ht]|[Hn ->]]; [by eapply (gi_hosts _ _ _ Hinv)|].
    destruct (owner_at _ _ _) as [s|] eqn:E; [|apply lookup_empty].
    apply owner_at_in in E as (Hs & Hh & Hkey). exfalso.
    destruct (gi_complete _ _ _ Hinv s Hs Hh) as (q & _ & _ & Hq & _). congruence. }
  rewrite owner_at_snoc. pose proof Hupd as Hu. unfold match_updated in Hu. unfold stored_name in *.
  destruct (http_like (protocol_of ms)); cbn [andb].
  - rewrite String.eqb_refl. destruct Hu as [Hh _]. rewrite Hh. cbn [andb].
    rewrite (bool_decide_ext _ _ (elem_of_GetHostnamesForService trustDomain ms h)).
    by case_bool_decide.
  - destruct Hu as [_ ->]. exact Hown.
Qed.

Lemma step_hosts k q tm h :
  ot_namedTrafficMatches o1 !! k = Some q ->
  ot_heap (update_match o1 ptr (fun _ => tm2)) !! q = Some tm ->
  otm_HTTPHostPort2Service tm !! h = FQDN <$> owner_at (pre ++ [ms]) k h.
Proof.
  intros Hk Htm. rewrite updated_lookup in Htm. case_decide as Hne.
  - subst q. injection Htm as <-.
    assert (k = match_key (ms_Port ms) (stored_name ms)) as ->
      by (eapply (ho_inj o1); [apply Hopen|done|apply Hopen]). apply step_hosts_own.
  - destruct (mo_back _ _ _ _ _ Hopen _ _ Hk) as [Hk'|[_ ->]]; [|done].
    destruct (mo_fwd _ _ _ _ _ Hopen _ _ Hk') as [_ Heq]. rewrite Heq in Htm.
    rewrite (gi_hosts _ _ _ Hinv _ _ _ h Hk' Htm), owner_at_snoc.
    destruct (http_like (protocol_of ms)) eqn:Hh; [|done].
    destruct (String.eqb_spec (match_key (ms_Port ms) ProtocolHTTP) k) as [<-|]; [|done].
    pose proof (mo_named _ _ _ _ _ Hopen) as Hn. unfold stored_name in Hn. rewrite Hh in Hn. congruence.
Qed.

End Step.

Lemma gen_inv_step pre ms o dep :
  ms ∈ services -> gen_inv pre o dep ->
  exists st', traffic_match_step p (o, dep) (service_match mc ms) = Ret st' /\
    gen_inv (pre ++ [ms]) st'.1 st'.2.
Proof.
  intros Hin Hinv.
  assert (mesh_service_ok ms) as Hok by (rewrite Forall_forall in Hservices; auto).
  rewrite traffic_match_step_unfold by done.
  destruct (newTrafficMatch o (ms_Port ms) (stored_name ms)) as [[o1 ptr] existed] eqn:Enew.
  apply newTrafficMatch_opened in Enew as [tm0 Hopen];
    [|apply Hinv|by destruct Hok as (_ & _ & [? _] & _)].
  rewrite (mo_tm _ _ _ _ _ Hopen). cbn [from_option id].
  set (tm1 := if existed then tm0 else setPort (setProtocol tm0 (protocol_of ms)) (ms_Port ms)).
  assert (otm_HTTPServiceRouteRules tm1 = otm_HTTPServiceRouteRules tm0) as Hrules
    by (by destruct existed).
  assert (otm_HTTPHostPort2Service tm1 = otm_HTTPHostPort2Service tm0) as Htable
    by (by destruct existed).
  destruct (match_routes_service ms tm1 dep Hin) as (tm2 & Hrun & Htm2).
  cbn zeta iota. rewrite Hrun. eexists. split; [done|]. cbn [fst snd].
  assert (match_updated ms tm0 tm2) as Hupd.
  { unfold match_updated in *. destruct (http_like (protocol_of ms)); [|intuition congruence].
    destruct Htm2 as [Hh [H1 H2 H3]]. split; [intros h; by rewrite Hh, Htable|]. split; [done|..].
    - intros f c v [?|?]%H2; [left|by right]. by eapply match_target_ext.
    - intros f c v Ht. eapply H3. by eapply match_target_ext. }
  destruct (depends_step pre ms dep (gi_depends _ _ _ Hinv) (gi_covers _ _ _ Hinv)) as [Hdeps Hcov].
  split; [apply heap_ok_update, Hopen| | | |done|done].
  - exact (step_complete pre ms o o1 ptr dep tm0 tm2 Hinv Hopen Hupd).
  - exact (step_sound pre ms o o1 ptr dep tm0 tm2 Hinv Hopen Hupd).
  - exact (step_hosts pre ms o o1 ptr dep tm0 tm2 Hinv Hopen Hupd).
Qed.

(** ** The theorem *)

(** Some match of [port] has a rule under [fqdn] that sends traffic to
    [cluster] with weight [w]. *)
Definition conf_target (conf : PipyConf) (port : Z) (fqdn cluster : string) (w : Z) : Prop :=
  exists o ptr tm, pc_Outbound conf = Some o /\
    ptr ∈ default [] (ot_TrafficMatches o !! port) /\ ot_heap o !! ptr = Some tm /\
    match_target tm fqdn cluster w.

(** The configuration sends traffic for [host] on [port] to [cluster] with
    weight [w]: some match of the port has the host name in its table, and
    under the name found there a rule to the cluster. *)
Definition conf_route (conf : PipyConf) (port : Z) (host cluster : string) (w : Z) : Prop :=
  exists o ptr tm fqdn, pc_Outbound conf = Some o /\
    ptr ∈ default [] (ot_TrafficMatches o !! port) /\ ot_heap o !! ptr = Some tm /\
    otm_HTTPHostPort2Service tm !! host = Some fqdn /\ match_target tm fqdn cluster w.

Lemma gen_inv_run conf :
  pc_Outbound conf = None ->
  exists o dep,
    generatePipyOutboundTrafficRoutePolicy conf p =
      Ret (if nonempty services then set_Outbound conf (Some o) else conf, dep) /\
    gen_inv services o dep.
Proof.
  intros Hconf. unfold generatePipyOutboundTrafficRoutePolicy.
  rewrite (po_matches _ _ _ _ Hpolicy).
  destruct (map (service_match mc) services) as [|tm0 tms] eqn:Em.
  { apply map_eq_nil in Em. rewrite Em. eexists _, _. split; [done|]. apply gen_inv_nil. }
  rewrite <- Em, for_range_map. unfold newOutboundTrafficPolicy. rewrite Hconf.
  assert (nonempty services = true) as -> by (apply nonempty_true; by intros ->).
  destruct (for_range_inv (fun s a => traffic_match_step p s (service_match mc a))
    (fun pre st => gen_inv pre st.1 st.2) (new_OutboundTrafficPolicy, ∅) services)
    as ([o dep] & Hrun & Hinv).
  - apply gen_inv_nil.
  - intros pre ms post [o dep] Hl Hi. apply gen_inv_step; [|done]. rewrite Hl. set_solver.
  - exists o, dep. split; [|done]. cbn [from_option id]. by rewrite Hrun.
Qed.

End Routes.

(** What a relation between ports, host names, clusters and weights must be
    to route the services of a catalog: a host name on a port leads to the
    clusters of the HTTP and gRPC services of that port with the same FQDN
    as the owner of the host name, and the weight is one the catalog gave
    the cluster. *)
Record routes_services (mc : MeshCatalog) (trustDomain : string)
    (route : Z -> string -> string -> Z -> Prop) : Prop := {
  rs_routes : forall port host cluster, 0 <= port ->
    (exists w, route port host cluster w) <->
    exists owner ms, host_owner trustDomain (ListOutboundServices mc) port host = Some owner /\
      ms ∈ ListOutboundServices mc /\ http_like (protocol_of ms) = true /\ ms_Port ms = port /\
      FQDN ms = FQDN owner /\ ClusterName ms = cluster;
  rs_weights : forall port host cluster w, 0 <= port -> route port host cluster w ->
    exists ms, ms ∈ ListOutboundServices mc /\ ms_Port ms = port /\ ClusterName ms = cluster /\
      w = uint32(wc_Weight (upstream_cluster mc ms))
}.

(** The same for the rules by FQDN. *)
Record rules_services (mc : MeshCatalog) (target : Z -> string -> string -> Z -> Prop) : Prop := {
  rl_rules : forall port fqdn cluster, 0 <= port ->
    (exists w, target port fqdn cluster w) <->
    exists ms, ms ∈ ListOutboundServices mc /\ http_like (protocol_of ms) = true /\
      ms_Port ms = port /\ FQDN ms = fqdn /\ ClusterName ms = cluster;
  rl_weights : forall port fqdn cluster w, 0 <= port -> target port fqdn cluster w ->
    exists ms, ms ∈ ListOutboundServices mc /\ ms_Port ms = port /\ FQDN ms = fqdn /\
      ClusterName ms = cluster /\ w = uint32(wc_Weight (upstream_cluster mc ms))
}.

Lemma routes_services_ext mc trustDomain (r1 r2 : Z -> string -> string -> Z -> Prop) :
  (forall port host cluster w, r2 port host cluster w <-> r1 port host cluster w) ->
  routes_services mc trustDomain r1 -> routes_services mc trustDomain r2.
Proof.
  intros E [H1 H2]. split.
  - intros port host cluster Hp. setoid_rewrite E. by apply H1.
  - intros port host cluster w Hp. rewrite E. by apply H2.
Qed.

Lemma rules_services_ext mc (r1 r2 : Z -> string -> string -> Z -> Prop) :
  (forall port fqdn cluster w, r2 port fqdn cluster w <-> r1 port fqdn cluster w) ->
  rules_services mc r1 -> rules_services mc r2.
Proof.
  intros E [H1 H2]. split.
  - intros port fqdn cluster Hp. setoid_rewrite E. by apply H1.
  - intros port fqdn cluster w Hp. rewrite E. by apply H2.
Qed.

(** Every HTTP or gRPC service has its host names, so each of them is
    routed. *)
Lemma host_owner_exists trustDomain svcs ms host :
  ms ∈ svcs -> http_like (protocol_of ms) = true -> host ∈ service_hosts trustDomain ms ->
  is_Some (host_owner trustDomain svcs (ms_Port ms) host).
Proof.
  intros Hin Hh Hhost. unfold host_owner. apply last_is_Some. intros E.
  apply (not_elem_of_nil ms). rewrite <- E. apply elem_of_lfilter. split; [done|].
  unfold claims_host. by rewrite Hh, Z.eqb_refl, bool_decide_eq_true_2.
Qed.

Section Theorems.
Context `{!RangeOrder} `{!SortSort} `{!MapSet WeightedCluster} `{!MapSet string}.

Section Run.
Context (mc : MeshCatalog) (trustDomain : string) (conf : PipyConf).
Context (Hok : Forall mesh_service_ok (ListOutboundServices mc)) (Hconf : pc_Outbound conf = None).
Context (o : OutboundTrafficPolicy) (dep : gmap string WeightedCluster).
Context (Hinv : gen_inv mc trustDomain (ListOutboundServices mc) o dep).

Notation services := (ListOutboundServices mc).
Notation conf' := (if nonempty services then set_Outbound conf (Some o) else conf).

(** The matches of a port are those of the run, under a key of the port. *)
Lemma run_match o' port ptr :
  0 <= port -> pc_Outbound conf' = Some o' -> ptr ∈ default [] (ot_TrafficMatches o' !! port) ->
  o' = o /\ exists name, ot_namedTrafficMatches o !! match_key port name = Some ptr.
Proof.
  intros Hport Ho' Hptr. destruct (nonempty services); [|congruence]. injection Ho' as <-.
  split; [done|]. by apply (ho_listed o (gi_heap _ _ _ _ _ Hinv)).
Qed.

(** What a match of a port sends to. *)
Lemma run_target_sound port name ptr tm f c w :
  0 <= port -> ot_namedTrafficMatches o !! match_key port name = Some ptr ->
  ot_heap o !! ptr = Some tm -> match_target tm f c w ->
  name = ProtocolHTTP /\
  exists ms, ms ∈ services /\ http_like (protocol_of ms) = true /\ ms_Port ms = port /\
    FQDN ms = f /\ ClusterName ms = c /\ w = uint32(wc_Weight (upstream_cluster mc ms)).
Proof.
  intros Hport Hname Htm Ht.
  destruct (gi_sound _ _ _ _ _ Hinv _ _ _ _ _ _ Hname Htm Ht) as (ms & Hin & Hh & Hk & Hrest).
  apply match_key_inj in Hk as [-> ->]; [split; [done|]; eauto 10|done|].
  rewrite Forall_forall in Hok. by destruct (Hok ms Hin) as (_ & _ & [? _] & _).
Qed.

(** The match of an HTTP or gRPC service. *)
Lemma run_target_complete ms :
  ms ∈ services -> http_like (protocol_of ms) = true ->
  exists ptr tm w, pc_Outbound conf' = Some o /\
    ptr ∈ default [] (ot_TrafficMatches o !! ms_Port ms) /\ ot_heap o !! ptr = Some tm /\
    match_target tm (FQDN ms) (ClusterName ms) w /\
    forall host, otm_HTTPHostPort2Service tm !! host =
      FQDN <$> host_owner trustDomain services (ms_Port ms) host.
Proof.
  intros Hin Hh. assert (0 <= ms_Port ms) as Hport
    by (rewrite Forall_forall in Hok; by destruct (Hok ms Hin) as (_ & _ & [? _] & _)).
  destruct (gi_complete _ _ _ _ _ Hinv ms Hin Hh) as (ptr & tm & w & Hn & Htm & Ht).
  exists ptr, tm, w. rewrite (proj2 (nonempty_true services))
    by (intros E; rewrite E in Hin; by apply not_elem_of_nil in Hin).
  split; [done|]. split; [by apply (ho_listed o (gi_heap _ _ _ _ _ Hinv)); eauto|].
  split; [done|]. split; [done|]. intros host.
  by rewrite (gi_hosts _ _ _ _ _ Hinv _ _ _ host Hn Htm), owner_at_port.
Qed.

Lemma run_rules : rules_services mc (conf_target conf').
Proof.
  assert (forall port fqdn cluster w, 0 <= port -> conf_target conf' port fqdn cluster w ->
    exists ms, ms ∈ services /\ http_like (protocol_of ms) = true /\ ms_Port ms = port /\
      FQDN ms = fqdn /\ ClusterName ms = cluster /\
      w = uint32(wc_Weight (upstream_cluster mc ms))) as Hsound.
  { intros port fqdn cluster w Hport (o' & ptr & tm & Ho' & Hptr & Htm & Ht).
    destruct (run_match o' port ptr Hport Ho' Hptr) as [-> (name & Hname)].
    by destruct (run_target_sound port name ptr tm _ _ _ Hport Hname Htm Ht) as [_ ?]. }
  split.
  - intros port fqdn cluster Hport. split.
    + intros (w & (ms & ? & ? & ? & ? & ? & _)%Hsound); [eauto 10|done].
    + intros (ms & Hin & Hh & <- & <- & <-).
      destruct (run_target_complete ms Hin Hh) as (ptr & tm & w & ? & ? & ? & ? & _).
      exists w, o, ptr, tm. done.
  - intros port fqdn cluster w Hport (ms & ? & _ & ?)%Hsound; eauto 10.
Qed.

Lemma run_routes : routes_services mc trustDomain (conf_route conf').
Proof.
  split.
  - intros port host cluster Hport. split.
    + intros (w & o' & ptr & tm & f & Ho' & Hptr & Htm & Hhost & Ht).
      destruct (run_match o' port ptr Hport Ho' Hptr) as [-> (name & Hname)].
      destruct (run_target_sound port name ptr tm _ _ _ Hport Hname Htm Ht)
        as [-> (ms & ? & ? & ? & Hf & ? & _)].
      rewrite (gi_hosts _ _ _ _ _ Hinv _ _ _ host Hname Htm), owner_at_port in Hhost by done.
      apply fmap_Some in Hhost as (owner & Hown & Hfq). exists owner, ms. by rewrite Hf, <- Hfq.
    + intros (owner & ms & Hown & Hin & Hh & <- & Hf & <-).
      destruct (run_target_complete ms Hin Hh) as (ptr & tm & w & ? & ? & ? & Ht & Hhosts).
      rewrite Hf in Ht. exists w, o, ptr, tm, (FQDN owner). rewrite Hhosts, Hown. done.
  - intros port host cluster w Hport (o' & ptr & tm & f & Ho' & Hptr & Htm & Hhost & Ht).
    destruct (run_match o' port ptr Hport Ho' Hptr) as [-> (name & Hname)].
    destruct (run_target_sound port name ptr tm _ _ _ Hport Hname Htm Ht)
      as [_ (ms & ? & _ & ? & _ & ? & ?)]. eauto.
Qed.

End Run.

Lemma outbound_routes_lemma (mc : MeshCatalog) (trustDomain : string) (conf : PipyConf) :
  Forall mesh_service_ok (ListOutboundServices mc) ->
  pc_Outbound conf = None ->
  exists conf' dep,
    generatePipyOutboundTrafficRoutePolicy conf (GetOutboundMeshTrafficPolicy mc trustDomain)
      = Ret (conf', dep) /\
    rules_services mc (conf_target conf') /\
    routes_services mc trustDomain (conf_route conf') /\
    (forall cluster, is_Some (dep !! cluster) <->
       exists ms, ms ∈ ListOutboundServices mc /\ routed ms = true /\ ClusterName ms = cluster).
Proof.
  intros Hok Hconf.
  destruct (gen_inv_run mc trustDomain (ListOutboundServices mc) _ (outbound_policy_of mc trustDomain)
    Hok conf Hconf) as (o & dep & Hrun & Hinv).
  eexists _, dep. split; [exact Hrun|]. split; [by apply run_rules with trustDomain dep|].
  split; [by apply run_routes with dep|]. intros cluster. split.
  - intros [wc Hwc]. destruct (gi_depends _ _ _ _ _ Hinv _ _ Hwc) as (ms & ? & ? & ? & _). eauto.
  - intros (ms & Hin & Hr & <-). by apply (gi_covers _ _ _ _ _ Hinv).
Qed.

(** C3: From the policy of a catalog whose services have names, ports and
    protocols as Kubernetes admits them, and a configuration without an
    outbound part, the generator computes the routes without panicking. A
    host name on a port, looked up in the host table of a match of the port
    and then in its rules, leads to a cluster exactly when the port has an
    HTTP or gRPC service with that cluster and the FQDN of the last such
    service with that host name; the host names of a service are
    [name.namespace], [name.namespace.svc] and the latter followed by
    labels of the trust domain, with and without port. The rules by FQDN
    are those of the HTTP and gRPC services too, the weights are those the
    catalog gave the clusters, and the clusters to be configured are exactly
    those of the routed services. *)
Theorem outbound_routes_correct (mc : MeshCatalog) (trustDomain : string) (conf : PipyConf) :
  Forall mesh_service_ok (ListOutboundServices mc) ->
  pc_Outbound conf = None ->
  exists conf' dep,
    generatePipyOutboundTrafficRoutePolicy conf (GetOutboundMeshTrafficPolicy mc trustDomain)
      = Ret (conf', dep) /\
    rules_services mc (conf_target conf') /\
    routes_services mc trustDomain (conf_route conf') /\
    (forall cluster, is_Some (dep !! cluster) <->
       exists ms, ms ∈ ListOutboundServices mc /\ routed ms = true /\ ClusterName ms = cluster).
Proof. apply outbound_routes_lemma. Qed.

(** A cluster the generator depends on always has a cluster configuration
    in the catalog's policy. *)
Lemma cluster_config_of_service (mc : MeshCatalog) trustDomain ms :
  ms ∈ ListOutboundServices mc ->
  is_Some (getMeshClusterConfigs
    (omtp_ClustersConfigs (GetOutboundMeshTrafficPolicy mc trustDomain)) (ClusterName ms)).
Proof.
  intros Hin. rewrite (po_clusters _ _ _ _ (outbound_policy_of mc trustDomain)).
  unfold getMeshClusterConfigs. destruct (first_some _ _) eqn:E; [by eexists|].
  apply first_some_None in E. rewrite Forall_forall in E.
  specialize (E (mkMeshClusterConfig (ClusterName ms) ms "" 0)). simpl in E.
  rewrite String.eqb_refl in E. discriminate E.
  apply list_elem_of_In, in_map_iff. exists ms. by rewrite <- list_elem_of_In.
Qed.

(** ** Endpoints *)

Lemma balance_step_ready mc p o ready c :
  (balance_step mc p (o, ready) c).2 =
  ready && bool_decide (is_Some (getMeshClusterConfigs (omtp_ClustersConfigs p) (wc_ClusterName c)))
  && nonempty (getUpstreamEndpoints mc (wc_ClusterName c)).
Proof.
  unfold balance_step. destruct (getMeshClusterConfigs _ _); simpl;
    [|by rewrite andb_false_r].
  destruct (getUpstreamEndpoints _ _); simpl; by rewrite ?andb_false_r, ?andb_true_r.
Qed.

Lemma balance_loop_ready mc p o ready cs :
  (foldl (balance_step mc p) (o, ready) cs).2 =
  ready && forallb (fun c => bool_decide (is_Some (getMeshClusterConfigs (omtp_ClustersConfigs p)
                                                     (wc_ClusterName c)))
                             && nonempty (getUpstreamEndpoints mc (wc_ClusterName c))) cs.
Proof.
  revert o ready. induction cs as [|c cs IH]; intros o ready;
    cbn [foldl forallb]; [by rewrite andb_true_r|].
  pose proof (balance_step_ready mc p o ready c) as Hr.
  destruct (balance_step mc p (o, ready) c) as [o' r']. simpl in Hr. rewrite IH, Hr.
  by rewrite !andb_assoc.
Qed.


End Theorems.

(** ** Example *)

Definition example_catalog : MeshCatalog :=
  let mcc := multicluster_controller (example_mc_informers ActiveActiveLbType) in
  mkMeshCatalog [FsmProvider.fsm_service_provider mcc] [FsmProvider.fsm_endpoint_provider mcc] mcc.

Definition example_service_a : MeshService :=
  mkMeshService "default" "web" 80 8080 "http" "cluster-a".

Lemma example_services_ok : Forall mesh_service_ok (ListOutboundServices example_catalog).
Proof. apply (bool_decide_unpack _). vm_compute. exact I. Defined.

Lemma example_service_a_listed : example_service_a ∈ ListOutboundServices example_catalog.
Proof. apply list_elem_of_In. vm_compute. by left. Defined.

(** The host names of the example service, and who owns them. *)
Lemma example_host_owner :
  exists owner, host_owner "cluster.local" (ListOutboundServices example_catalog) 80
    "web.default.svc.cluster:80" = Some owner /\ FQDN owner = FQDN example_service_a.
Proof. eexists. split; vm_compute; reflexivity. Defined.

Lemma outbound_routes_correct_witness :
  exists conf' dep,
    generatePipyOutboundTrafficRoutePolicy (H:=any_order) (MapSet0:=gset_MapSet) new_PipyConf
      (GetOutboundMeshTrafficPolicy (MapSet0:=gset_MapSet) (MapSet1:=gset_MapSet)
         example_catalog "cluster.local") = Ret (conf', dep) /\
    exists w, conf_route conf' 80 "web.default.svc.cluster:80" "default/web|8080" w.
Proof.
  destruct (outbound_routes_correct (H:=any_order)
    (MapSet0:=gset_MapSet) (MapSet1:=gset_MapSet) example_catalog "cluster.local" new_PipyConf
    example_services_ok eq_refl) as (conf' & dep & Hrun & _ & [Hiff _] & _).
  exists conf', dep. split; [exact Hrun|]. apply Hiff; [lia|].
  destruct example_host_owner as (owner & Hown & Hf). exists owner, example_service_a.
  split; [exact Hown|]. split; [apply example_service_a_listed|].
  split; [reflexivity|]. split; [reflexivity|]. split; [symmetry; exact Hf|reflexivity].
Defined.

