(* ===== verification/PipyJob.v ===== *)
(** * The generation job, end to end

    [Run] up to publishing: features, plugins, outbound policy, balancing
    and reordering. The later stages keep the routes of the earlier ones. *)

From Stdlib Require Import Ascii String Sorting.Sorted.
From S2P Require Import Prelude GoStrings GoSort MapSet NetIP Constants MeshService ApiTypes.
From S2P Require Import Informers Kube Multicluster Provider Policy Catalog Configurator.
From S2P Require Import PipyConf PipyGen PipyNames PipyRoutes.

(** ** Stages that keep the routes *)

(** Two matches with the same host names and rules, up to the order of the
    rules. *)
Definition same_match (tm tm' : OutboundTrafficMatch) : Prop :=
  otm_HTTPHostPort2Service tm' = otm_HTTPHostPort2Service tm /\
  forall f c w, match_target tm' f c w <-> match_target tm f c w.

#[global] Instance same_match_preorder : PreOrder same_match.
Proof.
  split; [by split|]. intros t1 t2 t3 [E1 H1] [E2 H2]. split; [congruence|].
  intros. by rewrite H2, H1.
Qed.

(** Two outbound policies with such matches. *)
Definition same_routes (o o' : OutboundTrafficPolicy) : Prop :=
  ot_TrafficMatches o' = ot_TrafficMatches o /\
  forall ptr, option_Forall2 same_match (ot_heap o !! ptr) (ot_heap o' !! ptr).

#[global] Instance same_routes_preorder : PreOrder same_routes.
Proof.
  split; [intros o; split; [done|reflexivity]|].
  intros o1 o2 o3 [E1 H1] [E2 H2]. split; [congruence|]. intros ptr. etrans; [apply H1|apply H2].
Qed.

(** The outbound policies of two configurations, if any. *)
Definition same_outbound (conf conf' : PipyConf) : Prop :=
  option_Forall2 same_routes (pc_Outbound conf) (pc_Outbound conf').

Lemma same_outbound_match conf conf' :
  same_outbound conf conf' ->
  (forall port tm,
     (exists o ptr, pc_Outbound conf = Some o /\ ptr ∈ default [] (ot_TrafficMatches o !! port) /\
        ot_heap o !! ptr = Some tm) ->
     exists tm' o ptr, pc_Outbound conf' = Some o /\
       ptr ∈ default [] (ot_TrafficMatches o !! port) /\ ot_heap o !! ptr = Some tm' /\
       same_match tm tm') /\
  (forall port tm',
     (exists o ptr, pc_Outbound conf' = Some o /\ ptr ∈ default [] (ot_TrafficMatches o !! port) /\
        ot_heap o !! ptr = Some tm') ->
     exists tm o ptr, pc_Outbound conf = Some o /\
       ptr ∈ default [] (ot_TrafficMatches o !! port) /\ ot_heap o !! ptr = Some tm /\
       same_match tm tm').
Proof.
  unfold same_outbound. intros Hs. split; intros port tm (o & ptr & Ho & Hp & Htm); rewrite Ho in Hs.
  - inversion Hs as [x o' [Em Hr] Ex Ey|]; subst. specialize (Hr ptr). rewrite Htm in Hr.
    inversion Hr as [y tm' Hm|]; subst. exists tm', o', ptr. by rewrite Em.
  - inversion Hs as [o' x [Em Hr] Ex Ey|]; subst. specialize (Hr ptr). rewrite Htm in Hr.
    inversion Hr as [tm' y Hm|]; subst. exists tm', o', ptr. by rewrite <- Em.
Qed.

Lemma conf_target_same conf conf' port f c w :
  same_outbound conf conf' -> conf_target conf' port f c w <-> conf_target conf port f c w.
Proof.
  intros [Hf Hb]%same_outbound_match. unfold conf_target. split.
  - intros (o & ptr & tm & Ho & Hp & Htm & Ht).
    destruct (Hb port tm) as (tm0 & o0 & ptr0 & ? & ? & ? & [_ E]); [eauto|].
    exists o0, ptr0, tm0. by rewrite <- E.
  - intros (o & ptr & tm & Ho & Hp & Htm & Ht).
    destruct (Hf port tm) as (tm0 & o0 & ptr0 & ? & ? & ? & [_ E]); [eauto|].
    exists o0, ptr0, tm0. by rewrite E.
Qed.

Lemma conf_route_same conf conf' port h c w :
  same_outbound conf conf' -> conf_route conf' port h c w <-> conf_route conf port h c w.
Proof.
  intros [Hf Hb]%same_outbound_match. unfold conf_route. split.
  - intros (o & ptr & tm & fqdn & Ho & Hp & Htm & Hh & Ht).
    destruct (Hb port tm) as (tm0 & o0 & ptr0 & ? & ? & ? & [Eh E]); [eauto|].
    exists o0, ptr0, tm0, fqdn. by rewrite <- E, <- Eh.
  - intros (o & ptr & tm & fqdn & Ho & Hp & Htm & Hh & Ht).
    destruct (Hf port tm) as (tm0 & o0 & ptr0 & ? & ? & ? & [Eh E]); [eauto|].
    exists o0, ptr0, tm0, fqdn. by rewrite E, Eh.
Qed.

Lemma same_routes_clusters o cs : same_routes o (set_ClustersConfigs o cs).
Proof. split; [done|reflexivity]. Qed.

Section Job.
Context `{!RangeOrder} `{!SortSort} `{!MapSet WeightedCluster} `{!MapSet string}.

Lemma sort_rules_perm rules : sort_rules rules ≡ₚ rules.
Proof. unfold sort_rules. case_match; [apply sort_perm|done]. Qed.

Lemma sort_match_target tm f c w : match_target (sort_match tm) f c w <-> match_target tm f c w.
Proof.
  unfold match_target, sort_match.
  destruct (otm_HTTPServiceRouteRules tm) as [rules|] eqn:E; simpl; [|by rewrite E].
  setoid_rewrite lookup_fmap_Some. unfold rules_target. split.
  - intros (rs & (rs0 & <- & Hrs) & (r & Hr & Hc)). exists rs0. split; [done|].
    exists r. by rewrite <- (sort_rules_perm rs0).
  - intros (rs & Hrs & (r & Hr & Hc)). exists (sort_rules rs). split; [by exists rs|].
    exists r. by rewrite (sort_rules_perm rs).
Qed.

Lemma same_match_sort tm : same_match tm (sort_match tm).
Proof.
  split; [unfold sort_match; by case_match|]. intros. apply sort_match_target.
Qed.

Lemma same_routes_sort o ptr : same_routes o (update_match o ptr sort_match).
Proof.
  split; [done|]. intros q. simpl. destruct (decide (ptr = q)) as [<-|Hne].
  - rewrite list_lookup_alter_eq. destruct (ot_heap o !! ptr); constructor. apply same_match_sort.
  - by rewrite list_lookup_alter_ne.
Qed.

Lemma same_routes_reorder o ptrs :
  same_routes o (foldl (fun o ptr => update_match o ptr sort_match) o ptrs).
Proof.
  apply (foldl_inv (fun o ptr => update_match o ptr sort_match) (fun _ o' => same_routes o o'));
    [done|]. intros pre ptr post o' _ IH. etrans; [exact IH|]. apply same_routes_sort.
Qed.

Lemma same_routes_balance_step mc p o ready c :
  same_routes o (balance_step mc p (o, ready) c).1.
Proof.
  unfold balance_step, newClusterConfigs. repeat case_match; simpl; try done; apply same_routes_clusters.
Qed.

Lemma same_routes_balance mc p o ready cs :
  same_routes o (foldl (balance_step mc p) (o, ready) cs).1.
Proof.
  revert o ready. induction cs as [|c cs IH]; intros o ready; [done|].
  change (foldl (balance_step mc p) (o, ready) (c :: cs))
    with (foldl (balance_step mc p) (balance_step mc p (o, ready) c) cs).
  pose proof (same_routes_balance_step mc p o ready c) as Hs.
  destruct (balance_step mc p (o, ready) c) as [o1 r1]. simpl in Hs. by rewrite Hs.
Qed.

(** Balancing weights and sorting rules keeps the routes. *)
Lemma reorder_balance_same conf : same_outbound conf (reorder (balance conf)).
Proof.
  unfold same_outbound, reorder, balance, rebalancedOutboundClusters.
  destruct (pc_Outbound conf) as [o|] eqn:E; simpl; rewrite ?E; constructor.
  etrans; [apply same_routes_clusters|]. apply same_routes_reorder.
Qed.

(** So does adding the cluster configurations, which may create an outbound
    policy without matches. *)
Lemma balance_policy_same mc conf p dep :
  let conf' := (generatePipyOutboundTrafficBalancePolicy mc conf p dep).1 in
  same_outbound conf conf' \/
  (pc_Outbound conf = None /\ exists o, pc_Outbound conf' = Some o /\ ot_TrafficMatches o = ∅).
Proof.
  unfold generatePipyOutboundTrafficBalancePolicy, same_outbound.
  pose proof (same_routes_balance mc p (newOutboundTrafficPolicy conf) true (range dep).*2) as Hs.
  destruct (foldl _ _ _) as [o1 ready]. simpl in *. unfold newOutboundTrafficPolicy in Hs.
  destruct (pc_Outbound conf) as [o|]; simpl in Hs; [left; by constructor|].
  right. split; [done|]. exists o1. split; [done|]. by destruct Hs as [-> _].
Qed.

Lemma balance_policy_target mc conf p dep port f c w :
  conf_target (generatePipyOutboundTrafficBalancePolicy mc conf p dep).1 port f c w <->
  conf_target conf port f c w.
Proof.
  destruct (balance_policy_same mc conf p dep) as [Hs|(Hn & o & Ho & He)]; [by apply conf_target_same|].
  unfold conf_target. rewrite Hn, Ho. split; [|by intros (? & ? & ? & ? & _)].
  intros (o' & ptr & tm & [= <-] & Hp & _). rewrite He, lookup_empty in Hp.
  by apply not_elem_of_nil in Hp.
Qed.

Lemma balance_policy_route mc conf p dep port h c w :
  conf_route (generatePipyOutboundTrafficBalancePolicy mc conf p dep).1 port h c w <->
  conf_route conf port h c w.
Proof.
  destruct (balance_policy_same mc conf p dep) as [Hs|(Hn & o & Ho & He)]; [by apply conf_route_same|].
  unfold conf_route. rewrite Hn, Ho. split; [|by intros (? & ? & ? & ? & ? & _)].
  intros (o' & ptr & tm & fqdn & [= <-] & Hp & _). rewrite He, lookup_empty in Hp.
  by apply not_elem_of_nil in Hp.
Qed.

(** ** Plugin chains *)

Lemma plugin_less_order : strict_weak_order plugin_less.
Proof.
  unfold plugin_less. split.
  - intros a b. rewrite Z.ltb_lt, Z.ltb_ge. lia.
  - intros a b c. rewrite !Z.ltb_lt. lia.
Qed.

(** The chain of a mount point holds exactly the enabled plugins of its
    spec, in descending order of priority; a mount point without enabled
    plugins has no chain. *)
Theorem plugin_chains_spec (cfg : ConfiguratorClient) (conf : PipyConf) (mountPoint : string) :
  exists chains, pc_Chains (plugin cfg conf).1 = Some chains /\
    match chain_of cfg mountPoint with
    | None => chains !! mountPoint = None
    | Some spec =>
        exists ps, ps ≡ₚ enabled_plugins spec /\
          StronglySorted (fun a b => plugin_Priority b <= plugin_Priority a) ps /\
          chains !! mountPoint =
            if nonempty ps then Some (map (fun pl => plugin_Name pl +:+ ".js") ps) else None
    end.
Proof.
  eexists. split; [reflexivity|]. rewrite range_build, GetGlobalPluginChains_lookup.
  destruct (chain_of cfg mountPoint) as [spec|]; simpl; [|done].
  exists (sort_Sort plugin_less (enabled_plugins spec)). split; [apply sort_perm|]. split.
  - eapply StronglySorted_weaken; [|apply (sort_sorted plugin_less), plugin_less_order].
    intros a b Hab. unfold plugin_less in Hab. simpl in Hab. apply Z.ltb_ge in Hab. done.
  - pose proof (sort_perm plugin_less (enabled_plugins spec)) as Hp.
    destruct (nonempty (enabled_plugins spec)) eqn:E.
    + rewrite (proj2 (nonempty_true (sort_Sort _ _))).
      * f_equal. unfold plugin_uris. apply map_ext_in. intros pl Hpl.
        apply list_elem_of_In in Hpl. rewrite Hp in Hpl. unfold enabled_plugins in Hpl.
        apply list_elem_of_In, in_map_iff in Hpl as (s & <- & _). done.
      * intros Hnil. rewrite Hnil in Hp. apply Permutation_nil in Hp. by rewrite Hp in E.
    + assert (enabled_plugins spec = []) as Hnil by (by destruct (enabled_plugins spec)).
      rewrite Hnil in *. symmetry in Hp. apply Permutation_nil in Hp. by rewrite Hp.
Qed.

(** ** The whole job *)

Lemma features_outbound cfg conf : pc_Outbound (features cfg conf) = pc_Outbound conf.
Proof. unfold features, setSidecarLogLevel. by case_match. Qed.

Lemma outbound_targets mc trustDomain conf :
  Forall mesh_service_ok (ListOutboundServices mc) -> pc_Outbound conf = None ->
  exists conf' ready, outbound mc trustDomain conf = Ret (conf', ready) /\
    rules_services mc (conf_target conf') /\ routes_services mc trustDomain (conf_route conf').
Proof.
  intros Hok Hconf. unfold outbound.
  match goal with |- context [generatePipyOutboundTrafficRoutePolicy ?c _] => set (conf1 := c) end.
  assert (pc_Outbound conf1 = None) as Hconf1 by (unfold conf1; by case_match).
  destruct (outbound_routes_lemma mc trustDomain conf1 Hok Hconf1)
    as (conf2 & dep & -> & Hrules & Hroutes & Hdep). cbn [mbind outcome_bind].
  case_bool_decide as Hd; [by exists conf2, true|].
  destruct (generatePipyOutboundTrafficBalancePolicy _ _ _ _) as [conf3 ready] eqn:E.
  exists conf3, ready. split; [done|]. replace conf3 with (conf3, ready).1 by done. rewrite <- E. split.
  - eapply rules_services_ext; [|exact Hrules]. intros. apply balance_policy_target.
  - eapply routes_services_ext; [|exact Hroutes]. intros. apply balance_policy_route.
Qed.

(** The configuration the job generates: for the services of the catalog it
    is generated without a panic, and after balancing and reordering its
    host tables and rules are those of the HTTP and gRPC services. *)
Theorem generate_conf_routes (cfg : ConfiguratorClient) (mc : MeshCatalog) (trustDomain : string) :
  Forall mesh_service_ok (ListOutboundServices mc) ->
  exists conf pluginSetV ready,
    generate_conf cfg mc trustDomain = Ret (conf, pluginSetV, ready) /\
    rules_services mc (conf_target conf) /\ routes_services mc trustDomain (conf_route conf).
Proof.
  intros Hok. unfold generate_conf, plugin, setSidecarChain.
  match goal with |- context [outbound mc trustDomain ?c] => set (conf2 := c) end.
  assert (pc_Outbound conf2 = None) as Hconf2 by apply features_outbound.
  destruct (outbound_targets mc trustDomain conf2 Hok Hconf2) as (conf3 & ready & -> & Hrules & Hroutes).
  cbn [mbind outcome_bind]. eexists _, _, _. split; [done|]. split.
  - eapply rules_services_ext; [|exact Hrules]. intros. apply conf_target_same, reorder_balance_same.
  - eapply routes_services_ext; [|exact Hroutes]. intros. apply conf_route_same, reorder_balance_same.
Qed.

End Job.

Definition example_config : ConfiguratorClient :=
  mkConfiguratorClient (example_mc_informers ActiveActiveLbType) "ecnet-system" "ecnet-config".

Lemma generate_conf_routes_witness :
  exists conf pluginSetV ready,
    generate_conf (H:=any_order) (H0:=insertion_sort_Sort) (MapSet0:=gset_MapSet)
      (MapSet1:=gset_MapSet) example_config example_catalog "cluster.local"
      = Ret (conf, pluginSetV, ready) /\
    exists w, conf_route conf 80 "web.default.svc.cluster:80" "default/web|8080" w.
Proof.
  destruct (generate_conf_routes (H:=any_order) (H0:=insertion_sort_Sort) (MapSet0:=gset_MapSet)
    (MapSet1:=gset_MapSet) example_config example_catalog "cluster.local" example_services_ok)
    as (conf & v & ready & Hrun & _ & [Hiff _]).
  exists conf, v, ready. split; [exact Hrun|]. apply Hiff; [lia|].
  destruct example_host_owner as (owner & Hown & Hf). exists owner, example_service_a.
  split; [exact Hown|]. split; [apply example_service_a_listed|].
  split; [reflexivity|]. split; [reflexivity|]. split; [symmetry; exact Hf|reflexivity].
Defined.
