(* ===== verification/RepoClient.v ===== *)
(** * The Pipy repo client ([pkg/ecnet/pipy/repo/client]) and publishing
    ([publishSidecarConf] of [jobs.go], [pkg/ecnet/pipy/util/hash.go])

    The repo server, reached through resty, is not part of the sources: it
    is a function from a state and a request to a state and a response, and
    the client is a state monad over it whose code may panic. [RepoLaws]
    says what a server that stores codebases does. *)

From Stdlib Require Import Ascii String.
From S2P Require Import Prelude GoStrings Constants PipyConf.

Record Codebase := mkCodebase {
  cb_Version : string;
  cb_Base : string
}.

Record BatchItem := mkBatchItem {
  bi_Obsolete : bool;
  bi_Path : string;
  bi_Filename : string;
  bi_Content : string
}.

Record Batch := mkBatch {
  batch_Basepath : string;
  batch_Items : list BatchItem
}.

Inductive Request :=
| Get (uri : string)
| Post (uri : string) (body : Codebase)
| PostContent (uri : string) (contentType content : string)
| Patch (uri : string) (body : Codebase)
| Delete (uri : string).

(** A response: its status and, for a request with a result, the decoded
    codebase. *)
Record Response := mkResponse {
  resp_StatusCode : Z;
  resp_Result : Codebase
}.

Definition IsSuccess (r : Response) : bool :=
  Z.ltb 199 (resp_StatusCode r) && Z.ltb (resp_StatusCode r) 300.

Definition relativeProgPath : string := "program".
Definition relativeRepoPath : string := "repo".
Definition relativeRepoFilePath : string := "repo-files".

Definition baseURI (serverAddr : string) (serverPort : Z) : string :=
  "http://" +:+ serverAddr +:+ ":" +:+ fmt_d serverPort +:+ "/api/v1".

(** ** [hash.go]: FNV-1, 64 bits *)

Definition fnv_offset64 : Z := 14695981039346656037.
Definition fnv_prime64 : Z := 1099511628211.

Fixpoint fnv1 (h : Z) (s : string) : Z :=
  match s with
  | EmptyString => h
  | String c s' => fnv1 (Z.lxor uint64(h * fnv_prime64) (Z.of_N (N_of_ascii c))) s'
  end.

(** Writing to an FNV hash never fails. *)
Definition HashFromString (s : string) : Z * option string := (fnv1 fnv_offset64 s, None).

Definition Hash (bytes : string) : Z := (HashFromString bytes).1.

(** ** The monad *)

Section Client.
Context {Server : Type} (serve : Server -> Request -> Server * (Response + string)).

Definition client (A : Type) : Type := Server -> outcome (Server * A).

#[local] Instance client_ret : MRet client := fun A a s => Ret (s, a).
#[local] Instance client_bind : MBind client :=
  fun A B f m s => match m s with Ret (s', a) => f a s' | Panic => Panic end.

Definition do_request (r : Request) : client (Response + string) := fun s => Ret (serve s r).

(** ** [client.go] *)

(** The named results [(success, codebase, err)]. *)
Definition found_codebase : Type := bool * option Codebase * option string.

Definition isCodebaseExists (codebaseName : string) : client found_codebase :=
  resp ← do_request (Get (relativeRepoPath +:+ "/" +:+ codebaseName));
  match resp with
  | inl r => mret (true, if Z.eqb (resp_StatusCode r) 200 then Some (resp_Result r) else None, None)
  | inr err => mret (false, None, Some err)
  end.

Definition GetCodebase (codebaseName : string) : client found_codebase :=
  let codebaseURI :=
    if Nat.ltb 1 (String.length codebaseName) then relativeRepoPath +:+ "/" +:+ codebaseName
    else relativeRepoPath +:+ "/" in
  resp ← do_request (Get codebaseURI);
  match resp with
  | inl r => mret (true, if Z.eqb (resp_StatusCode r) 200 then Some (resp_Result r) else None, None)
  | inr err => mret (false, None, Some err)
  end.

Definition created (r : Response) : bool :=
  Z.eqb (resp_StatusCode r) 200 || Z.eqb (resp_StatusCode r) 201.

Definition createCodebase (version codebaseName : string) : client found_codebase :=
  resp ← do_request (Post (relativeRepoPath +:+ "/" +:+ codebaseName) (mkCodebase version ""));
  match resp with
  | inl r =>
      if created r then GetCodebase codebaseName
      else mret (false, None, Some ("error happened while creating Codebase[" +:+ codebaseName
                                    +:+ "], status: " +:+ fmt_d (resp_StatusCode r)))
  | inr err => mret (false, None, Some err)
  end.

Definition deriveCodebase (codebaseName base : string) (version : Z) : client found_codebase :=
  resp ← do_request (Post (relativeRepoPath +:+ "/" +:+ codebaseName)
                       (mkCodebase (fmt_d version) base));
  match resp with
  | inl r =>
      if created r then GetCodebase codebaseName
      else mret (true, None, Some ("error happened while deriving Codebase[" +:+ codebaseName
                                   +:+ "] base[" +:+ base +:+ "], reason: "
                                   +:+ fmt_d (resp_StatusCode r)))
  | inr err => mret (false, None, Some err)
  end.

Definition RunCodebase (codebaseName : string) : client (option string) :=
  resp ← do_request (PostContent relativeProgPath "text/plain" ("/" +:+ codebaseName));
  match resp with inl _ => mret None | inr err => mret (Some err) end.

(** The common tail: success exactly on a 2xx status. *)
Definition expect_success (what : string) (resp : Response + string)
  : client (bool * option string) :=
  match resp with
  | inl r =>
      if IsSuccess r then mret (true, None)
      else mret (false, Some ("error happened while " +:+ what +:+ ", reason: "
                              +:+ fmt_d (resp_StatusCode r)))
  | inr err => mret (false, Some err)
  end.

Definition upsertFile (path content : string) : client (bool * option string) :=
  let contentType := if HasSuffix path ".json" then "application/json" else "text/plain" in
  resp ← do_request (PostContent (relativeRepoFilePath +:+ "/" +:+ path) contentType content);
  expect_success ("upserting file[" +:+ path +:+ "]") resp.

Definition DeleteCodebase (codebaseName : string) : client (bool * option string) :=
  resp ← do_request (Delete (relativeRepoPath +:+ "/" +:+ codebaseName));
  expect_success ("deleting codebase[" +:+ codebaseName +:+ "]") resp.

Definition deleteFile (fileName : string) : client (bool * option string) :=
  resp ← do_request (Delete (relativeRepoFilePath +:+ "/" +:+ fileName));
  expect_success ("deleting codebase[" +:+ fileName +:+ "]") resp.

Definition parse_error_string (e : parse_error) : string :=
  match e with ErrSyntax => "invalid syntax" | ErrRange => "value out of range" end.

Definition commit (codebaseName version : string) : client (bool * option string) :=
  match ParseUint version 64 with
  | (_, Some e) => mret (false, Some (parse_error_string e))
  | (etag, None) =>
      resp ← do_request (Patch (relativeRepoPath +:+ "/" +:+ codebaseName)
                           (mkCodebase (fmt_d uint64(etag + 1)) ""));
      expect_success ("committing codebase[" +:+ codebaseName +:+ "]") resp
  end.

(** The loop over the items of a batch; [inl] is the early return. *)
Fixpoint upload_items (basepath : string) (success : bool) (err : option string)
    (items : list BatchItem) : client (bool * option string + bool * option string) :=
  match items with
  | [] => mret (inr (success, err))
  | item :: items' =>
      let fullPath := basepath +:+ bi_Path item +:+ "/" +:+ bi_Filename item in
      if bi_Obsolete item then
        res ← deleteFile fullPath;
        upload_items basepath success res.2 items'
      else
        res ← upsertFile fullPath (bi_Content item);
        if bool_decide (res.2 <> None) || negb res.1 then mret (inl res)
        else upload_items basepath res.1 res.2 items'
  end.

(** Create or find the codebase, upload the items, commit. *)
Definition batch_one (version : string) (batch : Batch)
  : client (bool * option string + bool * option string) :=
  exists_ ← isCodebaseExists (batch_Basepath batch);
  match exists_ with
  | (success, _, Some err) => mret (inl (success, Some err))
  | (success, codebase, None) =>
      opened ← match codebase with
               | Some cb => mret (inr cb)
               | None =>
                   created_ ← createCodebase version (batch_Basepath batch);
                   match created_ with
                   | (true, Some cb, None) => mret (inr cb)
                   | (success, _, err) => mret (inl (success, err))
                   end
               end;
      match opened with
      | inl res => mret (inl res)
      | inr cb =>
          uploaded ← upload_items (batch_Basepath batch) true None (batch_Items batch);
          match uploaded with
          | inl res => mret (inl res)
          | inr _ =>
              res ← commit (batch_Basepath batch) (cb_Version cb);
              if bool_decide (res.2 <> None) || negb res.1 then mret (inl res) else mret (inr res)
          end
      end
  end.

Fixpoint batch_loop (version : string) (res : bool * option string) (batches : list Batch)
  : client (bool * option string) :=
  match batches with
  | [] => mret res
  | batch :: batches' =>
      r ← batch_one version batch;
      match r with
      | inl res => mret res
      | inr res => batch_loop version res batches'
      end
  end.

Definition Batch_ (version : string) (batches : list Batch) : client (bool * option string) :=
  batch_loop version (false, None) batches.

(** [codebase.Version] panics when the derived codebase could not be read
    back. *)
Definition DeriveCodebase (codebaseName base : string) (version : Z)
  : client (bool * option string) :=
  exists_ ← isCodebaseExists codebaseName;
  match exists_ with
  | (success, _, Some err) => mret (success, Some err)
  | (success, Some _, None) => mret (success, None)
  | (_, None, None) =>
      derived ← deriveCodebase codebaseName base version;
      match derived with
      | (success, _, Some err) => mret (success, Some err)
      | (_, Some cb, None) => commit codebaseName (cb_Version cb)
      | (_, None, None) => fun _ => Panic
      end
  end.

Definition IsRepoUp : client (bool * option string) :=
  r ← GetCodebase "/"; mret (r.1.1, r.2).

(** ** [publishSidecarConf] *)

Context (ecnetProxyCodebase ecnetCodebaseRepo : string).

(** [json.Marshal] (whose error is [None]) and [json.MarshalIndent]. *)
Context (Marshal : PipyConf -> option string) (MarshalIndent : PipyConf -> string).

Definition set_TsVersion (p : PipyConf) (ts : option Z) (version : option string) : PipyConf :=
  mkPipyConf ts version (pc_SidecarLogLevel p) (pc_Outbound p) (pc_Chains p) (pc_DNSResolveDB p).

Definition EcnetCodebaseConfig : string := "config.json".

Definition proxyCodebase : string := ecnetProxyCodebase +:+ "/proxy.bridge.ecnet".

(** Uploading the configuration to the derived codebase: the error that
    decides about the ETag. *)
Definition push_config (now codebaseCurV : Z) (pipyConf : PipyConf) (derived : bool * option string)
  : client (option string) :=
  if derived.1 then
    let conf := set_TsVersion pipyConf (Some now) (Some (fmt_d codebaseCurV)) in
    res ← Batch_ (fmt_d uint64(codebaseCurV - 1))
            [mkBatch proxyCodebase
               [mkBatchItem false "" EcnetCodebaseConfig (MarshalIndent conf)]];
    mret res.2
  else mret derived.2.

(** The ETag of the proxy afterwards; [now] is the clock. *)
Definition publishSidecarConf (now : Z) (etag : Z) (pipyConf : PipyConf) (pluginSetV : string)
  : client Z :=
  match Marshal (set_TsVersion pipyConf None None) with
  | None => mret etag
  | Some bytes =>
      let codebaseCurV := Hash (bytes +:+ pluginSetV) in
      if Z.eqb codebaseCurV etag then mret etag
      else
        derived ← DeriveCodebase proxyCodebase ecnetCodebaseRepo uint64(codebaseCurV - 2);
        err ← push_config now codebaseCurV pipyConf derived;
        match err with
        | Some _ => DeleteCodebase proxyCodebase ≫= fun _ => mret etag
        | None => mret codebaseCurV
        end
  end.

End Client.

(** ** Hashes *)

Lemma lxor_fits w a b : 0 <= w -> fits w a -> fits w b -> fits w (Z.lxor a b).
Proof.
  intros Hw [Ha Ha'] [Hb Hb']. split; [by apply Z.lxor_nonneg|].
  destruct (decide (Z.lxor a b <= 0)) as [H|H]; [pose proof (Z.pow_pos_nonneg 2 w); lia|].
  assert (0 < w) as Hw0.
  { destruct (decide (w = 0)) as [->|]; [|lia]. change (2 ^ 0) with 1 in *.
    replace a with 0 in H by lia. by replace b with 0 in H by lia. }
  assert (forall x, 0 <= x -> x < 2 ^ w -> Z.log2 x < w) as Hlog.
  { intros x Hx Hx'. destruct (decide (x = 0)) as [->|Hne]; [done|]. apply Z.log2_lt_pow2; lia. }
  apply Z.log2_lt_pow2; [lia|]. pose proof (Z.log2_lxor a b Ha Hb) as Hl.
  specialize (Hlog a Ha Ha') as Hla. specialize (Hlog b Hb Hb') as Hlb. lia.
Qed.

Lemma Hash_fits s : fits 64 (Hash s).
Proof.
  unfold Hash. simpl. assert (fits 64 fnv_offset64) as H by (by apply (bool_decide_unpack _)).
  revert H. generalize fnv_offset64. induction s as [|c s IH]; intros h Hh; [done|]. simpl.
  apply IH, lxor_fits; [lia|by apply uint_bound|]. pose proof (N_ascii_bounded c). split; lia.
Qed.

(** ** A server that stores codebases *)

Record RepoLaws {Server : Type} (serve : Server -> Request -> Server * (Response + string))
    (codebases : Server -> gmap string Codebase) (files : Server -> gmap string string) : Prop := {
  rl_get : forall s x, exists s' r, serve s (Get (relativeRepoPath +:+ "/" +:+ x)) = (s', inl r) /\
    codebases s' = codebases s /\ files s' = files s /\
    match codebases s !! x with
    | Some cb => resp_StatusCode r = 200 /\ resp_Result r = cb
    | None => resp_StatusCode r = 404
    end;
  rl_post : forall s x cb, exists s' r,
    serve s (Post (relativeRepoPath +:+ "/" +:+ x) cb) = (s', inl r) /\ created r = true /\
    codebases s' = <[x := cb]> (codebases s) /\ files s' = files s;
  rl_patch : forall s x cb cb', codebases s !! x = Some cb -> exists s' r,
    serve s (Patch (relativeRepoPath +:+ "/" +:+ x) cb') = (s', inl r) /\ IsSuccess r = true /\
    codebases s' = <[x := mkCodebase (cb_Version cb') (cb_Base cb)]> (codebases s) /\
    files s' = files s;
  rl_upload : forall s path ct content, exists s' r,
    serve s (PostContent (relativeRepoFilePath +:+ "/" +:+ path) ct content) = (s', inl r) /\
    IsSuccess r = true /\ codebases s' = codebases s /\ files s' = <[path := content]> (files s)
}.

Section Publish.
Context {Server : Type} (serve : Server -> Request -> Server * (Response + string))
  (codebases : Server -> gmap string Codebase) (files : Server -> gmap string string)
  (laws : RepoLaws serve codebases files).

Lemma isCodebaseExists_law s x :
  exists s', isCodebaseExists serve x s = Ret (s', (true, codebases s !! x, None)) /\
    codebases s' = codebases s /\ files s' = files s.
Proof.
  destruct (rl_get _ _ _ laws s x) as (s' & r & Hs & Hc & Hf & Hr). exists s'.
  split; [|done]. unfold isCodebaseExists, mbind, client_bind, do_request. rewrite Hs.
  destruct (codebases s !! x) as [cb|].
  - destruct Hr as [-> ->]. done.
  - by rewrite Hr.
Qed.

Lemma GetCodebase_law s x :
  (1 < String.length x)%nat ->
  exists s', GetCodebase serve x s = Ret (s', (true, codebases s !! x, None)) /\
    codebases s' = codebases s /\ files s' = files s.
Proof.
  intros Hlen. unfold GetCodebase. rewrite (proj2 (Nat.ltb_lt _ _) Hlen). apply isCodebaseExists_law.
Qed.

Lemma commit_law s x cb v :
  codebases s !! x = Some cb -> fits 64 v ->
  exists s', commit serve x (fmt_d v) s = Ret (s', (true, None)) /\
    codebases s' = <[x := mkCodebase (fmt_d uint64(v + 1)) (cb_Base cb)]> (codebases s) /\
    files s' = files s.
Proof.
  intros Hx Hv. unfold commit. rewrite ParseUint_fmt_d by done.
  destruct (rl_patch _ _ _ laws s x cb (mkCodebase (fmt_d uint64(v + 1)) "") Hx)
    as (s' & r & Hs & Hr & Hc & Hf). exists s'. split; [|done].
  unfold mbind, client_bind, do_request. rewrite Hs. unfold expect_success. by rewrite Hr.
Qed.

Lemma upsertFile_law s path content :
  exists s', upsertFile serve path content s = Ret (s', (true, None)) /\
    codebases s' = codebases s /\ files s' = <[path := content]> (files s).
Proof.
  destruct (rl_upload _ _ _ laws s path
              (if HasSuffix path ".json" then "application/json" else "text/plain") content)
    as (s' & r & Hs & Hr & Hc & Hf). exists s'. split; [|done].
  unfold upsertFile, mbind, client_bind, do_request. rewrite Hs. unfold expect_success. by rewrite Hr.
Qed.

(** One file uploaded to an existing codebase: stored, and the version
    counted up. *)
Lemma Batch_law s x cb v version name content :
  codebases s !! x = Some cb -> cb_Version cb = fmt_d v -> fits 64 v ->
  exists s', Batch_ serve version [mkBatch x [mkBatchItem false "" name content]] s
      = Ret (s', (true, None)) /\
    codebases s' = <[x := mkCodebase (fmt_d uint64(v + 1)) (cb_Base cb)]> (codebases s) /\
    files s' = <[x +:+ "/" +:+ name := content]> (files s).
Proof.
  intros Hx Hver Hv. unfold Batch_, batch_loop, batch_one. cbn [batch_Basepath batch_Items].
  destruct (isCodebaseExists_law s x) as (s1 & E1 & Hc1 & Hf1).
  destruct (upsertFile_law s1 (x +:+ "/" +:+ name) content) as (s2 & E2 & Hc2 & Hf2).
  destruct (commit_law s2 x cb v) as (s3 & E3 & Hc3 & Hf3); [by rewrite Hc2, Hc1|done|].
  exists s3. split; [|by rewrite Hc3, Hc2, Hc1, Hf3, Hf2, Hf1].
  unfold mbind, client_bind. rewrite E1, Hx. cbn [upload_items bi_Obsolete bi_Path bi_Filename bi_Content].
  cbn [mret client_ret]. unfold mbind, client_bind.
  change ("" +:+ "/" +:+ name) with ("/" +:+ name). rewrite E2. cbn. rewrite Hver, E3. done.
Qed.

Lemma DeriveCodebase_exists s x base v cb :
  codebases s !! x = Some cb ->
  exists s', DeriveCodebase serve x base v s = Ret (s', (true, None)) /\
    codebases s' = codebases s /\ files s' = files s.
Proof.
  intros Hx. destruct (isCodebaseExists_law s x) as (s1 & E1 & Hc & Hf). exists s1.
  split; [|done]. unfold DeriveCodebase, mbind, client_bind. by rewrite E1, Hx.
Qed.

(** A codebase that does not exist is derived and committed once. *)
Lemma DeriveCodebase_new s x base v :
  codebases s !! x = None -> (1 < String.length x)%nat -> fits 64 v ->
  exists s', DeriveCodebase serve x base v s = Ret (s', (true, None)) /\
    codebases s' = <[x := mkCodebase (fmt_d uint64(v + 1)) base]> (codebases s) /\
    files s' = files s.
Proof.
  intros Hx Hlen Hv. destruct (isCodebaseExists_law s x) as (s1 & E1 & Hc1 & Hf1).
  destruct (rl_post _ _ _ laws s1 x (mkCodebase (fmt_d v) base)) as (s2 & r & E2 & Hr & Hc2 & Hf2).
  destruct (GetCodebase_law s2 x Hlen) as (s3 & E3 & Hc3 & Hf3).
  destruct (commit_law s3 x (mkCodebase (fmt_d v) base) v) as (s4 & E4 & Hc4 & Hf4);
    [by rewrite Hc3, Hc2, lookup_insert_eq|done|].
  exists s4. split; [|by rewrite Hc4, Hc3, Hc2, Hc1, insert_insert_eq, Hf4, Hf3, Hf2, Hf1].
  unfold DeriveCodebase, deriveCodebase, mbind, client_bind, do_request.
  rewrite E1, Hx, E2, Hr, E3, Hc2, lookup_insert_eq. exact E4.
Qed.

Context (ecnetProxyCodebase ecnetCodebaseRepo : string)
  (Marshal : PipyConf -> option string) (MarshalIndent : PipyConf -> string).

Lemma proxyCodebase_long : (1 < String.length (proxyCodebase ecnetProxyCodebase))%nat.
Proof. unfold proxyCodebase. destruct ecnetProxyCodebase as [|c [|? ?]]; simpl; lia. Qed.

(** Uploading through [push_config] to a codebase at version [v]. *)
Lemma push_config_law s cb v now h conf :
  codebases s !! proxyCodebase ecnetProxyCodebase = Some cb -> cb_Version cb = fmt_d v ->
  fits 64 v ->
  exists s', push_config serve ecnetProxyCodebase MarshalIndent now h conf (true, None) s
      = Ret (s', None) /\
    codebases s' !! proxyCodebase ecnetProxyCodebase =
      Some (mkCodebase (fmt_d uint64(v + 1)) (cb_Base cb)) /\
    files s' !! (proxyCodebase ecnetProxyCodebase +:+ "/" +:+ EcnetCodebaseConfig) =
      Some (MarshalIndent (set_TsVersion conf (Some now) (Some (fmt_d h)))).
Proof.
  intros Hcb Hver Hv. unfold push_config. cbn [fst].
  destruct (Batch_law s _ cb v (fmt_d uint64(h - 1)) EcnetCodebaseConfig
    (MarshalIndent (set_TsVersion conf (Some now) (Some (fmt_d h)))) Hcb Hver Hv)
    as (s' & E & Hc & Hf).
  exists s'. unfold mbind, client_bind. rewrite E. split; [done|].
  by rewrite Hc, Hf, !lookup_insert_eq.
Qed.

(** The codebase the configuration is uploaded to, and its version: two
    below the new version plus the commit when it is derived. *)
Lemma derive_law s x h :
  fits 64 h ->
  (forall cb, codebases s !! x = Some cb -> exists v, cb_Version cb = fmt_d v /\ fits 64 v) ->
  (1 < String.length x)%nat ->
  exists s1 cb v, DeriveCodebase serve x ecnetCodebaseRepo uint64(h - 2) s = Ret (s1, (true, None)) /\
    codebases s1 !! x = Some cb /\ cb_Version cb = fmt_d v /\ fits 64 v /\
    match codebases s !! x with
    | None => cb_Base cb = ecnetCodebaseRepo /\ uint64(v + 1) = h
    | Some cb0 => cb = cb0
    end.
Proof.
  intros Hh Hver Hlen. destruct (codebases s !! x) as [cb|] eqn:Ex.
  - destruct (Hver cb eq_refl) as (v & Hv & Hfit).
    destruct (DeriveCodebase_exists s x ecnetCodebaseRepo uint64(h - 2) cb Ex)
      as (s1 & E1 & Hc & _). exists s1, cb, v. by rewrite Hc.
  - destruct (DeriveCodebase_new s x ecnetCodebaseRepo uint64(h - 2) Ex Hlen)
      as (s1 & E1 & Hc & _); [by apply uint_bound|].
    eexists s1, _, uint64(uint64(h - 2) + 1). rewrite Hc, lookup_insert_eq.
    split; [done|]. split; [done|]. split; [done|]. split; [by apply uint_bound|].
    split; [done|]. rewrite uint_add_l, <- Z.add_assoc, uint_add_l.
    replace (h - 2 + (1 + 1)) with h by lia. by apply uint_id.
Qed.

(** Publishing a changed configuration. *)
Lemma publish_changed (s : Server) (now etag : Z) (conf : PipyConf) (bytes : string) :
  Marshal (set_TsVersion conf None None) = Some bytes ->
  Hash bytes <> etag ->
  (forall cb, codebases s !! proxyCodebase ecnetProxyCodebase = Some cb ->
     exists v, cb_Version cb = fmt_d v /\ fits 64 v) ->
  exists s',
    publishSidecarConf serve ecnetProxyCodebase ecnetCodebaseRepo Marshal MarshalIndent now etag
      conf "" s = Ret (s', Hash bytes) /\
    files s' !! (proxyCodebase ecnetProxyCodebase +:+ "/" +:+ EcnetCodebaseConfig) =
      Some (MarshalIndent (set_TsVersion conf (Some now) (Some (fmt_d (Hash bytes))))) /\
    match codebases s !! proxyCodebase ecnetProxyCodebase with
    | None => codebases s' !! proxyCodebase ecnetProxyCodebase =
        Some (mkCodebase (fmt_d (Hash bytes)) ecnetCodebaseRepo)
    | Some cb => forall v, cb_Version cb = fmt_d v -> fits 64 v ->
        codebases s' !! proxyCodebase ecnetProxyCodebase =
          Some (mkCodebase (fmt_d uint64(v + 1)) (cb_Base cb))
    end.
Proof.
  intros Hm Hne Hver. set (x := proxyCodebase ecnetProxyCodebase) in *. set (h := Hash bytes) in *.
  assert (fits 64 h) as Hh by apply Hash_fits.
  unfold publishSidecarConf. rewrite Hm, string_app_nil_r. fold h. fold x.
  rewrite (proj2 (Z.eqb_neq _ _) Hne).
  destruct (derive_law s x h) as (s1 & cb & v & E1 & Hcb & Hv & Hfit & Hold);
    [done|done|apply proxyCodebase_long|].
  destruct (push_config_law s1 cb v now h conf Hcb Hv Hfit) as (s2 & E2 & Hc2 & Hf2).
  exists s2. unfold mbind, client_bind. rewrite E1, E2. split; [done|]. split; [done|].
  destruct (codebases s !! x) as [cb0|].
  - intros v' Hv' _. subst cb. rewrite Hv in Hv'. unfold fmt_d in Hv'. apply (inj pretty) in Hv' as ->.
    exact Hc2.
  - destruct Hold as [Hbase Hv1]. fold x in Hc2. by rewrite Hc2, Hbase, Hv1.
Qed.

(** Publishing a changed configuration to a server that stores codebases:
    the proxy's ETag becomes the hash of the configuration, the
    configuration file is stored with that hash as its version, and the
    codebase is committed at that version when it had to be derived. An
    existing codebase only counts its version up by one. *)
Theorem publish_installs_config (s : Server) (now etag : Z) (conf : PipyConf) (bytes : string) :
  Marshal (set_TsVersion conf None None) = Some bytes ->
  Hash bytes <> etag ->
  (forall cb, codebases s !! proxyCodebase ecnetProxyCodebase = Some cb ->
     exists v, cb_Version cb = fmt_d v /\ fits 64 v) ->
  exists s',
    publishSidecarConf serve ecnetProxyCodebase ecnetCodebaseRepo Marshal MarshalIndent now etag
      conf "" s = Ret (s', Hash bytes) /\
    files s' !! (proxyCodebase ecnetProxyCodebase +:+ "/" +:+ EcnetCodebaseConfig) =
      Some (MarshalIndent (set_TsVersion conf (Some now) (Some (fmt_d (Hash bytes))))) /\
    match codebases s !! proxyCodebase ecnetProxyCodebase with
    | None => codebases s' !! proxyCodebase ecnetProxyCodebase =
        Some (mkCodebase (fmt_d (Hash bytes)) ecnetCodebaseRepo)
    | Some cb => forall v, cb_Version cb = fmt_d v -> fits 64 v ->
        codebases s' !! proxyCodebase ecnetProxyCodebase =
          Some (mkCodebase (fmt_d uint64(v + 1)) (cb_Base cb))
    end.
Proof. apply publish_changed. Qed.

(** A configuration with the hash of the last one is not published. *)
Lemma publish_unchanged (s : Server) (now etag : Z) (conf : PipyConf) (bytes v : string) :
  Marshal (set_TsVersion conf None None) = Some bytes -> Hash (bytes +:+ v) = etag ->
  publishSidecarConf serve ecnetProxyCodebase ecnetCodebaseRepo Marshal MarshalIndent now etag conf v s
    = Ret (s, etag).
Proof.
  intros Hm Hh. unfold publishSidecarConf. by rewrite Hm, Hh, Z.eqb_refl.
Qed.

End Publish.

(** ** A repo in memory *)

Record MemRepo := mkMemRepo {
  mem_codebases : gmap string Codebase;
  mem_files : gmap string string
}.

Definition strip (prefix s : string) : option string :=
  if HasPrefix s prefix then Some (TrimPrefix s prefix) else None.

Definition mem_serve (s : MemRepo) (r : Request) : MemRepo * (Response + string) :=
  let ok cb := inl (mkResponse 200 cb) in
  let none := inl (mkResponse 404 (mkCodebase "" "")) in
  match r with
  | Get uri =>
      (s, match strip "repo/" uri ≫= (mem_codebases s !!.) with Some cb => ok cb | None => none end)
  | Post uri cb =>
      match strip "repo/" uri with
      | Some x => (mkMemRepo (<[x := cb]> (mem_codebases s)) (mem_files s), ok cb)
      | None => (s, none)
      end
  | PostContent uri _ content =>
      match strip "repo-files/" uri with
      | Some x => (mkMemRepo (mem_codebases s) (<[x := content]> (mem_files s)), ok (mkCodebase "" ""))
      | None => (s, none)
      end
  | Patch uri cb =>
      match strip "repo/" uri with
      | Some x =>
          match mem_codebases s !! x with
          | Some old => (mkMemRepo (<[x := mkCodebase (cb_Version cb) (cb_Base old)]> (mem_codebases s))
                           (mem_files s), ok cb)
          | None => (s, none)
          end
      | None => (s, none)
      end
  | Delete uri =>
      match strip "repo/" uri with
      | Some x => (mkMemRepo (delete x (mem_codebases s)) (mem_files s), ok (mkCodebase "" ""))
      | None => (s, none)
      end
  end.

Lemma substring_drop p s : String.substring (String.length p) (String.length s) (p +:+ s) = s.
Proof.
  induction p as [|c p IH]; simpl; [|done]. induction s as [|c s IH]; simpl; [done|]. by rewrite IH.
Qed.

Lemma length_append p s : String.length (p +:+ s) = (String.length p + String.length s)%nat.
Proof. induction p as [|c p IH]; simpl; [done|]. by rewrite IH. Qed.

Lemma strip_app p s : strip p (p +:+ s) = Some s.
Proof.
  unfold strip, TrimPrefix. rewrite HasPrefix_app, length_append.
  replace (String.length p + String.length s - String.length p)%nat with (String.length s) by lia.
  by rewrite substring_drop.
Qed.

Lemma strip_uri x :
  strip "repo/" (relativeRepoPath +:+ "/" +:+ x) = Some x /\
  strip "repo-files/" (relativeRepoFilePath +:+ "/" +:+ x) = Some x.
Proof. split; [exact (strip_app "repo/" x)|exact (strip_app "repo-files/" x)]. Qed.

Lemma mem_laws : RepoLaws mem_serve mem_codebases mem_files.
Proof.
  split.
  - intros s x. unfold mem_serve. rewrite (proj1 (strip_uri x)). simpl.
    destruct (mem_codebases s !! x); by eexists _, _.
  - intros s x cb. eexists _, _. unfold mem_serve. by rewrite (proj1 (strip_uri x)).
  - intros s x cb cb' Hx. eexists _, _. unfold mem_serve. by rewrite (proj1 (strip_uri x)), Hx.
  - intros s x ct content. eexists _, _. unfold mem_serve. by rewrite (proj2 (strip_uri x)).
Qed.

(** ** What an unreliable server does *)

(** A server that answers from a script and logs the requests. *)
Definition scripted (s : list (Response + string) * list Request) (r : Request)
  : (list (Response + string) * list Request) * (Response + string) :=
  match s.1 with
  | [] => (([], s.2 ++ [r]), inr "connection refused")
  | resp :: rest => ((rest, s.2 ++ [r]), resp)
  end.

Definition answer (code : Z) : Response + string := inl (mkResponse code (mkCodebase "1" "")).

(** C39: When the codebase disappears between deriving and uploading and cannot
    be read back after it was created again, the upload is skipped without
    an error, and the ETag of a configuration that was never uploaded is
    recorded. *)
Theorem etag_recorded_without_upload (ecnetProxyCodebase ecnetCodebaseRepo : string)
    (Marshal : PipyConf -> option string) (MarshalIndent : PipyConf -> string)
    (now etag : Z) (conf : PipyConf) (bytes v : string) :
  Marshal (set_TsVersion conf None None) = Some bytes -> Hash (bytes +:+ v) <> etag ->
  exists log,
    publishSidecarConf scripted ecnetProxyCodebase ecnetCodebaseRepo Marshal MarshalIndent now etag
      conf v ([answer 200; answer 404; answer 200; answer 404], []) =
      Ret (([], log), Hash (bytes +:+ v)) /\
    Forall (fun r => forall uri ct content, r <> PostContent uri ct content) log.
Proof.
  intros Hm Hne. unfold publishSidecarConf. rewrite Hm, (proj2 (Z.eqb_neq _ _) Hne).
  pose proof (proxyCodebase_long ecnetProxyCodebase) as Hlen.
  eexists. split.
  - unfold mbind, client_bind, DeriveCodebase, isCodebaseExists, push_config, Batch_, batch_loop,
      batch_one, createCodebase, GetCodebase, mbind, client_bind, do_request.
    cbn [batch_Basepath]. rewrite (proj2 (Nat.ltb_lt _ _) Hlen). reflexivity.
  - repeat constructor; congruence.
Qed.

(** Deriving a codebase that cannot be read back afterwards panics. *)
Theorem derive_unreadable_panics (name base : string) (version : Z) (log : list Request) :
  DeriveCodebase scripted name base version ([answer 404; answer 201; answer 404], log) = Panic.
Proof.
  unfold DeriveCodebase, isCodebaseExists, deriveCodebase, GetCodebase, mbind, client_bind, do_request.
  cbn. by destruct (Nat.ltb 1 (String.length name)).
Qed.

Lemma publish_installs_config_witness :
  exists s',
    publishSidecarConf mem_serve "ecnet" "/ecnet/base" (fun _ => Some "{}") (fun _ => "{ }") 7 0
      new_PipyConf "" (mkMemRepo ∅ ∅) = Ret (s', Hash "{}") /\
    mem_codebases s' !! "ecnet/proxy.bridge.ecnet" =
      Some (mkCodebase (fmt_d (Hash "{}")) "/ecnet/base").
Proof.
  destruct (publish_installs_config mem_serve mem_codebases mem_files mem_laws "ecnet" "/ecnet/base"
    (fun _ => Some "{}") (fun _ => "{ }") (mkMemRepo ∅ ∅) 7 0 new_PipyConf "{}" eq_refl)
    as (s' & Hrun & _ & Hcb).
  - by vm_compute.
  - intros cb Hcb. simpl in Hcb. by rewrite lookup_empty in Hcb.
  - exists s'. split; [exact Hrun|exact Hcb].
Defined.

Lemma publish_unchanged_witness :
  publishSidecarConf mem_serve "ecnet" "/ecnet/base" (fun _ => Some "{}") (fun _ => "{ }") 7
    (Hash "{}") new_PipyConf "" (mkMemRepo ∅ ∅) = Ret (mkMemRepo ∅ ∅, Hash "{}").
Proof. apply (publish_unchanged mem_serve) with "{}"; reflexivity. Defined.

Lemma etag_recorded_without_upload_witness :
  exists log,
    publishSidecarConf scripted "ecnet" "/ecnet/base" (fun _ => Some "{}") (fun _ => "{ }") 7 0
      new_PipyConf "" ([answer 200; answer 404; answer 200; answer 404], []) =
      Ret (([], log), Hash "{}") /\
    Forall (fun r => forall uri ct content, r <> PostContent uri ct content) log.
Proof.
  apply (etag_recorded_without_upload "ecnet" "/ecnet/base" (fun _ => Some "{}") (fun _ => "{ }") 7 0
    new_PipyConf "{}" ""); [reflexivity|by vm_compute].
Defined.
