(* ===== verification/PipyJson.v ===== *)
(** * The configuration as JSON ([pkg/ecnet/bridge/ctrlplane/server/types.go])

    What [json.Marshal] makes of a [PipyConf]: the names come from the
    struct tags, embedded structs are flattened, unexported and [-] fields
    are left out, nil maps, slices and pointers are [null], [omitempty]
    fields are absent when empty, and the entries of a map are sorted by
    their keys, so that the order in which Go visits the map does not show.
    [stamp] is the text of a time in the process's time zone. *)

From Stdlib Require Import Ascii String Sorting.Sorted.
From stdpp Require Import sorting.
From S2P Require Import Prelude GoStrings GoIO GoJson GoSort MapSet Constants ApiTypes Policy.
From S2P Require Import PipyConf PipyGen PipyNames PipyRoutes.

(** ** Maps and optional values *)

Definition key_le (a b : string * json) : Prop := String.le a.1 b.1.

#[global] Instance key_le_dec : RelDecision key_le.
Proof. intros a b. unfold key_le. apply _. Defined.

#[global] Instance key_le_total : Total key_le.
Proof. intros a b. unfold key_le. apply total, _. Qed.

#[global] Instance key_le_trans : Transitive key_le.
Proof. intros a b c. unfold key_le. apply transitivity. Qed.

Section Encode.
Context {RO : RangeOrder} (stamp : Z -> string).

(** A map that is not nil. *)
Definition json_map {K V} `{Countable K} (key : K -> string) (val : V -> json) (m : gmap K V) : json :=
  JObj (merge_sort key_le (map (fun kv => (key kv.1, val kv.2)) (range m))).

(** A map that is nil when it is empty, and a slice that is. *)
Definition json_nil_map {K V} `{Countable K} (key : K -> string) (val : V -> json) (m : gmap K V)
  : json :=
  if bool_decide (m = ∅) then JNull else json_map key val m.

Definition json_nil_slice {V} (val : V -> json) (l : list V) : json :=
  match l with [] => JNull | _ => JArr (map val l) end.

Definition json_pointer {V} (val : V -> json) (p : option V) : json :=
  match p with Some v => val v | None => JNull end.

(** An [omitempty] field. *)
Definition json_omitempty (name : string) (empty : bool) (j : json) : list (string * json) :=
  if empty then [] else [(name, j)].

Definition json_uint (z : Z) : json := JNum (Z.to_N z).

(** ** The types *)

Definition WeightedClusters_json (targets : gmap string Z) : json := json_nil_map id json_uint targets.

Definition OutboundHTTPRouteRule_json (r : OutboundHTTPRouteRule) : json :=
  JObj [("Path", JStr (hmr_Path (rule_Match r)));
        ("Type", JStr (hmr_Type (rule_Match r)));
        ("Headers", json_nil_map id JStr (hmr_Headers (rule_Match r)));
        ("Methods", json_nil_slice JStr (hmr_Methods (rule_Match r)));
        ("TargetClusters", WeightedClusters_json (rule_TargetClusters r))].

Definition OutboundHTTPRouteRules_json (rules : list OutboundHTTPRouteRule) : json :=
  JObj [("RouteRules", json_nil_slice OutboundHTTPRouteRule_json rules)].

Definition OutboundTCPServiceRouteRules_json (targets : gmap string Z) : json :=
  JObj [("TargetClusters", WeightedClusters_json targets)].

Definition OutboundTrafficMatch_json (tm : OutboundTrafficMatch) : json :=
  JObj [("Port", json_uint (otm_Port tm));
        ("Protocol", JStr (otm_Protocol tm));
        ("HttpHostPort2Service", json_nil_map id JStr (otm_HTTPHostPort2Service tm));
        ("HttpServiceRouteRules",
          json_pointer (json_map id OutboundHTTPRouteRules_json) (otm_HTTPServiceRouteRules tm));
        ("TcpServiceRouteRules",
          json_pointer OutboundTCPServiceRouteRules_json (otm_TCPServiceRouteRules tm))].

Definition WeightedZoneEndpoint_json (wze : WeightedZoneEndpoint) : json :=
  JObj (("Weight", json_uint (wze_Weight wze))
        :: json_omitempty "Key" (String.eqb (wze_Cluster wze) "") (JStr (wze_Cluster wze))
        ++ json_omitempty "Path" (String.eqb (wze_ContextPath wze) "") (JStr (wze_ContextPath wze))).

Definition ClusterConfigs_json (c : ClusterConfigs) : json :=
  JObj [("Endpoints", json_nil_map id WeightedZoneEndpoint_json c)].

(** The matches of a port, through their pointers. *)
Definition traffic_matches_json (o : OutboundTrafficPolicy) (ptrs : list nat) : json :=
  json_nil_slice (fun ptr => json_pointer OutboundTrafficMatch_json (ot_heap o !! ptr)) ptrs.

Definition OutboundTrafficPolicy_json (o : OutboundTrafficPolicy) : json :=
  JObj [("TrafficMatches", json_nil_map fmt_d (traffic_matches_json o) (ot_TrafficMatches o));
        ("ClustersConfigs", json_nil_map id ClusterConfigs_json (ot_ClustersConfigs o))].

Definition EcnetConfigSpec_json (sidecarLogLevel : string) : json :=
  JObj [("SidecarLogLevel", JStr sidecarLogLevel); ("Probes", JObj [])].

(** The slices of the resolvable names are made by [ToSlice] and never
    nil. *)
Definition PipyConf_json (p : PipyConf) : json :=
  let chains := default ∅ (pc_Chains p) in
  JObj ([("Ts", json_pointer (fun ts => JStr (stamp ts)) (pc_Ts p));
         ("Version", json_pointer JStr (pc_Version p));
         ("Spec", EcnetConfigSpec_json (pc_SidecarLogLevel p));
         ("Outbound", json_pointer OutboundTrafficPolicy_json (pc_Outbound p))]
        ++ json_omitempty "Chains" (bool_decide (chains = ∅)) (json_map id (json_nil_slice JStr) chains)
        ++ json_omitempty "DNSResolveDB" (bool_decide (pc_DNSResolveDB p = ∅))
             (json_map id (fun ips => JArr (map JStr ips)) (pc_DNSResolveDB p))).

(** [json.Marshal(pipyConf)], which has no value that cannot be encoded,
    and [json.MarshalIndent(pipyConf, "", " ")]. *)
Definition Marshal (p : PipyConf) : option string := Some (json_Marshal (PipyConf_json p)).
Definition MarshalIndent (p : PipyConf) : string := json_MarshalIndent (PipyConf_json p).

End Encode.

(** ** Reading a document *)

Fixpoint assoc (k : string) (l : list (string * json)) : option json :=
  match l with
  | [] => None
  | (k', v) :: l' => if String.eqb k k' then Some v else assoc k l'
  end.

Definition obj_get (k : string) (j : json) : option json :=
  match j with JObj l => assoc k l | _ => None end.

(** [j.k1.k2...], where a missing member ends the path. *)
Definition at_path (ks : list string) (j : json) : option json :=
  foldl (fun o k => o ≫= obj_get k) (Some j) ks.

(** The elements of an array; a missing one or [null] has none. *)
Definition json_elems (j : option json) : list json :=
  match j with Some (JArr l) => l | _ => [] end.

(** The rule [r] of the match [m] under [fqdn] sends traffic to [cluster]
    with weight [w]. *)
Definition json_rule (m : json) (fqdn cluster : string) (w : N) : Prop :=
  exists r, r ∈ json_elems (at_path ["HttpServiceRouteRules"; fqdn; "RouteRules"] m) /\
    at_path ["TargetClusters"; cluster] r = Some (JNum w).

(** The document sends traffic for [host] on [port] to [cluster] with weight
    [w], the way the proxy reads it: a match of the port maps the host name
    to a service name ([HttpHostPort2Service]), whose rules
    ([HttpServiceRouteRules]) have the cluster among their targets. *)
Definition json_target (doc : json) (port : Z) (host cluster : string) (w : N) : Prop :=
  exists m fqdn,
    m ∈ json_elems (at_path ["Outbound"; "TrafficMatches"; fmt_d port] doc) /\
    at_path ["HttpHostPort2Service"; host] m = Some (JStr fqdn) /\
    json_rule m fqdn cluster w.

(** The weight of an endpoint of a cluster. *)
Definition json_endpoint (doc : json) (cluster hostPort : string) : option json :=
  at_path ["Outbound"; "ClustersConfigs"; cluster; "Endpoints"; hostPort; "Weight"] doc.

(** ** Lookup in the entries of a map *)

Lemma assoc_Some k l v :
  NoDup l.*1 -> assoc k l = Some v <-> (k, v) ∈ l.
Proof.
  induction l as [|[k' v'] l IH]; simpl; [by intros; split; [|intros []%not_elem_of_nil]|].
  intros [Hk Hl]%NoDup_cons. rewrite elem_of_cons.
  destruct (String.eqb_spec k k') as [->|Hne].
  - split; [intros [= ->]; by left|]. intros [[= ->]|Hin]; [done|].
    exfalso. apply Hk. apply list_elem_of_fmap. by exists (k', v).
  - rewrite IH by done. split; [by right|]. intros [[= -> ->]|?]; done.
Qed.

Section Maps.
Context {K V : Type} `{Countable K} (key : K -> string) `{!Inj (=) (=) key} (val : V -> json).

Definition map_entries {RO : RangeOrder} (m : gmap K V) : list (string * json) :=
  map (fun kv => (key kv.1, val kv.2)) (range m).

Lemma map_entries_perm {RO : RangeOrder} (m : gmap K V) :
  map_entries m ≡ₚ map (fun kv => (key kv.1, val kv.2)) (map_to_list m).
Proof. unfold map_entries. by rewrite range_perm. Qed.

Lemma map_entries_NoDup {RO : RangeOrder} (m : gmap K V) : NoDup (map_entries m).*1.
Proof.
  rewrite map_entries_perm. change (map ?f ?l) with (f <$> l). rewrite <- list_fmap_compose.
  change ((fst ∘ _) <$> ?l) with ((key ∘ fst) <$> l). rewrite list_fmap_compose.
  apply NoDup_fmap_2; [done|]. apply NoDup_fst_map_to_list.
Qed.

Lemma elem_of_map_entries {RO : RangeOrder} (m : gmap K V) k j :
  (key k, j) ∈ map_entries m <-> val <$> m !! k = Some j.
Proof.
  rewrite map_entries_perm. change (map ?f ?l) with (f <$> l). rewrite list_elem_of_fmap. split.
  - intros ([k' v] & [= E ->] & Hin%elem_of_map_to_list). apply (inj key) in E as ->. by rewrite Hin.
  - intros (v & Hv & ->)%fmap_Some. exists (k, v). by rewrite elem_of_map_to_list.
Qed.

(** The members of an encoded map are its entries. *)
Lemma obj_get_map {RO : RangeOrder} (m : gmap K V) k : obj_get (key k) (json_map key val m) = val <$> m !! k.
Proof.
  apply option_eq. intros j. cbn [obj_get json_map]. fold (map_entries m).
  rewrite assoc_Some by (rewrite merge_sort_Permutation; apply map_entries_NoDup).
  rewrite merge_sort_Permutation. apply elem_of_map_entries.
Qed.

Lemma obj_get_nil_map {RO : RangeOrder} (m : gmap K V) k :
  obj_get (key k) (json_nil_map key val m) = val <$> m !! k.
Proof.
  unfold json_nil_map. case_bool_decide as Hm; [|apply obj_get_map]. subst. by rewrite lookup_empty.
Qed.

(** The text does not depend on the order in which the map is visited. *)
Lemma json_map_order (RO1 RO2 : RangeOrder) (m : gmap K V) :
  json_map (RO:=RO1) key val m = json_map (RO:=RO2) key val m.
Proof.
  unfold json_map. f_equal. fold (map_entries (RO:=RO1) m) (map_entries (RO:=RO2) m).
  apply (StronglySorted_unique_strong key_le);
    [|apply StronglySorted_merge_sort; apply _..|by rewrite !merge_sort_Permutation, !map_entries_perm].
  intros [k1 j1] [k2 j2]. rewrite !merge_sort_Permutation.
  rewrite (map_entries_perm (RO:=RO2)), <- (map_entries_perm (RO:=RO1)).
  intros H1 H2 Hle Hge. assert (k1 = k2) as -> by (by apply (anti_symm String.le)).
  pose proof (map_entries_NoDup (RO:=RO1) m) as Hnd. apply (assoc_Some k2) in H1, H2; [|done..].
  congruence.
Qed.

Lemma json_nil_map_order (RO1 RO2 : RangeOrder) (m : gmap K V) :
  json_nil_map (RO:=RO1) key val m = json_nil_map (RO:=RO2) key val m.
Proof. unfold json_nil_map. by rewrite (json_map_order RO1 RO2). Qed.

End Maps.

(** Maps of values that are themselves encoded in some order. *)
Lemma json_map_ext {K V} `{Countable K} (key : K -> string) `{!Inj (=) (=) key} (val1 val2 : V -> json)
    (RO1 RO2 : RangeOrder) (m : gmap K V) :
  (forall v, val1 v = val2 v) -> json_map (RO:=RO1) key val1 m = json_map (RO:=RO2) key val2 m.
Proof.
  intros Hv. rewrite (json_map_order key val1 RO1 RO2). unfold json_map. do 2 f_equal.
  apply map_ext. intros [k v]. simpl. by rewrite Hv.
Qed.

Lemma json_nil_map_ext {K V} `{Countable K} (key : K -> string) `{!Inj (=) (=) key}
    (val1 val2 : V -> json) (RO1 RO2 : RangeOrder) (m : gmap K V) :
  (forall v, val1 v = val2 v) -> json_nil_map (RO:=RO1) key val1 m = json_nil_map (RO:=RO2) key val2 m.
Proof. intros Hv. unfold json_nil_map. by rewrite (json_map_ext key val1 val2 RO1 RO2 m Hv). Qed.

Lemma json_nil_slice_ext {V} (val1 val2 : V -> json) l :
  (forall v, val1 v = val2 v) -> json_nil_slice val1 l = json_nil_slice val2 l.
Proof. intros Hv. unfold json_nil_slice. destruct l; [done|]. f_equal. by apply map_ext. Qed.

Lemma json_pointer_ext {V} (val1 val2 : V -> json) p :
  (forall v, val1 v = val2 v) -> json_pointer val1 p = json_pointer val2 p.
Proof. intros Hv. destruct p; simpl; auto. Qed.

(** The same structure, with maps visited in another order. *)
Ltac json_order :=
  repeat first
    [ reflexivity
    | apply json_nil_map_ext; [apply _|intros ?]
    | apply json_map_ext; [apply _|intros ?]
    | apply json_nil_slice_ext; intros ?
    | apply json_pointer_ext; intros ?
    | progress f_equal ].

#[global] Instance fmt_d_inj : Inj (=) (=) fmt_d.
Proof. unfold fmt_d. apply _. Qed.

(** The document does not depend on the order in which Go visits the
    maps. *)
Lemma PipyConf_json_order (RO1 RO2 : RangeOrder) stamp p :
  PipyConf_json (RO:=RO1) stamp p = PipyConf_json (RO:=RO2) stamp p.
Proof.
  unfold PipyConf_json, OutboundTrafficPolicy_json, traffic_matches_json, OutboundTrafficMatch_json,
    ClusterConfigs_json, OutboundTCPServiceRouteRules_json, OutboundHTTPRouteRules_json,
    OutboundHTTPRouteRule_json, WeightedClusters_json.
  json_order.
Qed.

(** ** Paths *)

Lemma at_path_cons k ks j : at_path (k :: ks) j = obj_get k j ≫= at_path ks.
Proof.
  unfold at_path. simpl. destruct (obj_get k j) as [v|]; [done|].
  simpl. induction ks; [done|]. by simpl.
Qed.

Lemma elem_of_nil_slice {V} (val : V -> json) l x :
  x ∈ json_elems (Some (json_nil_slice val l)) <-> exists v, v ∈ l /\ x = val v.
Proof.
  unfold json_nil_slice. destruct l as [|v l]; simpl.
  - split; [intros []%not_elem_of_nil|by intros (v & []%not_elem_of_nil & _)].
  - change (val v :: map val l) with (val <$> (v :: l)). rewrite list_elem_of_fmap.
    split; intros (y & ? & ?); eauto.
Qed.

Section Read.
Context {RO : RangeOrder} (stamp : Z -> string).

Lemma obj_get_string_map {V} (val : V -> json) (m : gmap string V) k :
  obj_get k (json_map id val m) = val <$> m !! k.
Proof. exact (obj_get_map id val m k). Qed.

Lemma obj_get_string_nil_map {V} (val : V -> json) (m : gmap string V) k :
  obj_get k (json_nil_map id val m) = val <$> m !! k.
Proof. exact (obj_get_nil_map id val m k). Qed.

(** Following a path through a struct. *)
Lemma field_first name j l ks : at_path (name :: ks) (JObj ((name, j) :: l)) = at_path ks j.
Proof. rewrite at_path_cons. simpl. by rewrite String.eqb_refl. Qed.

Lemma field_next name name' j l ks :
  String.eqb name name' = false ->
  at_path (name :: ks) (JObj ((name', j) :: l)) = at_path (name :: ks) (JObj l).
Proof. intros Hn. rewrite !at_path_cons. simpl. by rewrite Hn. Qed.

Lemma path_map {V} (val : V -> json) (m : gmap string V) k ks :
  at_path (k :: ks) (json_map id val m) = m !! k ≫= fun v => at_path ks (val v).
Proof. rewrite at_path_cons, obj_get_string_map. by destruct (m !! k). Qed.

Lemma path_nil_map {V} (val : V -> json) (m : gmap string V) k ks :
  at_path (k :: ks) (json_nil_map id val m) = m !! k ≫= fun v => at_path ks (val v).
Proof. rewrite at_path_cons, obj_get_string_nil_map. by destruct (m !! k). Qed.

Lemma path_port_map {V} (val : V -> json) (m : gmap Z V) k ks :
  at_path (fmt_d k :: ks) (json_nil_map fmt_d val m) = m !! k ≫= fun v => at_path ks (val v).
Proof. rewrite at_path_cons, (obj_get_nil_map fmt_d). by destruct (m !! k). Qed.

Ltac field := repeat (rewrite field_next by reflexivity); rewrite field_first.

Lemma rule_target_json r cluster w :
  at_path ["TargetClusters"; cluster] (OutboundHTTPRouteRule_json r) = Some (JNum w) <->
  exists v, rule_TargetClusters r !! cluster = Some v /\ w = Z.to_N v.
Proof.
  unfold OutboundHTTPRouteRule_json. field. unfold WeightedClusters_json. rewrite path_nil_map.
  unfold json_uint. split.
  - destruct (rule_TargetClusters r !! cluster) as [v|]; [intros [= <-]; by exists v|done].
  - by intros (v & -> & ->).
Qed.

Lemma match_rules_json tm fqdn r :
  r ∈ json_elems (at_path ["HttpServiceRouteRules"; fqdn; "RouteRules"] (OutboundTrafficMatch_json tm)) <->
  exists rules rule, default ∅ (otm_HTTPServiceRouteRules tm) !! fqdn = Some rules /\ rule ∈ rules /\
    r = OutboundHTTPRouteRule_json rule.
Proof.
  unfold OutboundTrafficMatch_json. field.
  destruct (otm_HTTPServiceRouteRules tm) as [m|]; cbn [json_pointer from_option id].
  - rewrite path_map. destruct (m !! fqdn) as [rules|]; cbn [mbind option_bind].
    + unfold OutboundHTTPRouteRules_json. field. change (at_path [] ?j) with (Some j).
      rewrite elem_of_nil_slice. split; [intros (v & ? & ->); eauto|].
      intros (rs & rule & [= <-] & ? & ->). eauto.
    + split; [intros []%not_elem_of_nil|naive_solver].
  - split; [intros []%not_elem_of_nil|]. intros (? & ? & E & _). by rewrite lookup_empty in E.
Qed.

Lemma doc_outbound p ks :
  at_path ("Outbound" :: ks) (PipyConf_json stamp p) =
  at_path ks (json_pointer OutboundTrafficPolicy_json (pc_Outbound p)).
Proof. unfold PipyConf_json. cbn [app]. by field. Qed.

Lemma doc_matches p port m :
  m ∈ json_elems (at_path ["Outbound"; "TrafficMatches"; fmt_d port] (PipyConf_json stamp p)) <->
  exists o ptr, pc_Outbound p = Some o /\ ptr ∈ default [] (ot_TrafficMatches o !! port) /\
    m = json_pointer OutboundTrafficMatch_json (ot_heap o !! ptr).
Proof.
  rewrite doc_outbound. destruct (pc_Outbound p) as [o|]; cbn [json_pointer].
  - unfold OutboundTrafficPolicy_json. field. rewrite path_port_map.
    destruct (ot_TrafficMatches o !! port) as [ptrs|] eqn:E; cbn [mbind option_bind].
    + change (at_path [] ?j) with (Some j). unfold traffic_matches_json. rewrite elem_of_nil_slice.
      split; [intros (ptr & ? & ->); exists o, ptr; by rewrite E|].
      intros (o' & ptr & [= <-] & Hp & ->). rewrite E in Hp. eauto.
    + split; [intros []%not_elem_of_nil|]. intros (o' & ptr & [= <-] & Hp & _).
      rewrite E in Hp. by apply not_elem_of_nil in Hp.
  - split; [intros []%not_elem_of_nil|naive_solver].
Qed.

Lemma match_hosts_json tm host fqdn :
  at_path ["HttpHostPort2Service"; host] (OutboundTrafficMatch_json tm) = Some (JStr fqdn) <->
  otm_HTTPHostPort2Service tm !! host = Some fqdn.
Proof.
  unfold OutboundTrafficMatch_json. field. rewrite path_nil_map. change (at_path [] ?j) with (Some j).
  destruct (otm_HTTPHostPort2Service tm !! host); cbn [mbind option_bind]; naive_solver.
Qed.

Lemma json_rule_match tm fqdn cluster w :
  json_rule (OutboundTrafficMatch_json tm) fqdn cluster w <->
  exists v, match_target tm fqdn cluster v /\ w = Z.to_N v.
Proof.
  unfold json_rule. setoid_rewrite match_rules_json. split.
  - intros (r & (rules & rule & Hrules & Hrule & ->) & (v & Hv & ->)%rule_target_json).
    exists v. split; [|done]. exists rules. split; [done|]. by exists rule.
  - intros (v & (rules & Hrules & rule & Hrule & Hv) & ->).
    exists (OutboundHTTPRouteRule_json rule). split; [eauto|]. apply rule_target_json. eauto.
Qed.

(** The routes of the document are the routes of the configuration. *)
Lemma json_target_conf p port host cluster w :
  json_target (PipyConf_json stamp p) port host cluster w <->
  exists v, conf_route p port host cluster v /\ w = Z.to_N v.
Proof.
  unfold json_target. setoid_rewrite doc_matches. split.
  - intros (m & fqdn & (o & ptr & Ho & Hp & ->) & Hh & Hr).
    destruct (ot_heap o !! ptr) as [tm|] eqn:Htm; cbn [json_pointer] in Hh, Hr; [|done].
    apply match_hosts_json in Hh. apply json_rule_match in Hr as (v & Ht & ->).
    exists v. split; [|done]. by exists o, ptr, tm, fqdn.
  - intros (v & (o & ptr & tm & fqdn & Ho & Hp & Htm & Hh & Ht) & ->).
    eexists _, fqdn. split; [eauto|]. rewrite Htm. cbn [json_pointer].
    split; [by apply match_hosts_json|]. apply json_rule_match. eauto.
Qed.

(** The endpoints of the document are those of the configuration. *)
Lemma json_endpoint_conf p cluster hostPort :
  json_endpoint (PipyConf_json stamp p) cluster hostPort =
  o ← pc_Outbound p; c ← ot_ClustersConfigs o !! cluster; wze ← c !! hostPort;
  Some (json_uint (wze_Weight wze)).
Proof.
  unfold json_endpoint. rewrite doc_outbound. destruct (pc_Outbound p) as [o|]; [|done].
  cbn [json_pointer]. unfold OutboundTrafficPolicy_json. field. rewrite path_nil_map.
  cbn [mbind option_bind]. destruct (ot_ClustersConfigs o !! cluster) as [c|]; [|done].
  cbn [mbind option_bind]. unfold ClusterConfigs_json. field. rewrite path_nil_map.
  destruct (c !! hostPort) as [wze|]; [|done]. cbn [mbind option_bind].
  unfold WeightedZoneEndpoint_json. by field.
Qed.

End Read.
