(* ===== verification/PipySchema.v ===== *)
(** * The type of the configuration document

    A small type system for JSON documents, the type of the document a
    proxy receives, read off [types.go], and the proof that every document
    the job generates has it: ports fit 16 bits and weights 32, the ports
    that key the traffic matches are decimal numerals, every pointer leads
    to a match, and the type of a path match is one of the three. *)

From Stdlib Require Import Ascii String Sorting.Sorted.
From stdpp Require Import sorting.
From S2P Require Import Prelude GoStrings GoIO GoJson GoSort MapSet Constants MeshService ApiTypes Policy Catalog.
From S2P Require Import Configurator PipyConf PipyGen PipyNames PipyRoutes PipyJob RepoClient PipyJson.

#[local] Unset Elimination Schemes.

Inductive jtype :=
| JTString
| JTOneOf (l : list string)
| JTUint (w : Z)
| JTNullable (t : jtype)
| JTArray (t : jtype)
| JTMap (key : string -> bool) (t : jtype)
| JTStruct (fields : list (string * bool * jtype)).

#[local] Set Elimination Schemes.

(** The fields of a struct come in their order; one that may be omitted can
    be missing. *)
Fixpoint has_type (t : jtype) (j : json) {struct t} : bool :=
  match t, j with
  | JTString, JStr _ => true
  | JTOneOf l, JStr s => bool_decide (s ∈ l)
  | JTUint w, JNum n => bool_decide (fits w (Z.of_N n))
  | JTNullable _, JNull => true
  | JTNullable t, _ => has_type t j
  | JTArray t, JArr l => forallb (has_type t) l
  | JTMap key t, JObj l => forallb (fun kv => key kv.1 && has_type t kv.2) l
  | JTStruct fields, JObj l =>
      (fix fields_ok (fields : list (string * bool * jtype)) (l : list (string * json)) : bool :=
         match fields with
         | [] => match l with [] => true | _ => false end
         | (name, omit, t) :: fields' =>
             match l with
             | (k, v) :: l' =>
                 if String.eqb name k then has_type t v && fields_ok fields' l'
                 else omit && fields_ok fields' l
             | [] => omit && fields_ok fields' l
             end
         end) fields l
  | _, _ => false
  end.

Definition any_key : string -> bool := fun _ => true.

Definition port_key (s : string) : bool :=
  match ParseUint s 16 with (_, None) => true | _ => false end.

Definition WeightedClusters_type : jtype := JTNullable (JTMap any_key (JTUint 32)).

Definition OutboundHTTPRouteRule_type : jtype :=
  JTStruct [("Path", false, JTString);
            ("Type", false, JTOneOf [URIMatchRegex; URIMatchExact; URIMatchPrefix]);
            ("Headers", false, JTNullable (JTMap any_key JTString));
            ("Methods", false, JTNullable (JTArray JTString));
            ("TargetClusters", false, WeightedClusters_type)].

Definition OutboundTrafficMatch_type : jtype :=
  JTStruct [("Port", false, JTUint 16);
            ("Protocol", false, JTString);
            ("HttpHostPort2Service", false, JTNullable (JTMap any_key JTString));
            ("HttpServiceRouteRules", false, JTNullable (JTMap any_key
               (JTStruct [("RouteRules", false, JTNullable (JTArray OutboundHTTPRouteRule_type))])));
            ("TcpServiceRouteRules", false, JTNullable
               (JTStruct [("TargetClusters", false, WeightedClusters_type)]))].

Definition WeightedZoneEndpoint_type : jtype :=
  JTStruct [("Weight", false, JTUint 32); ("Key", true, JTString); ("Path", true, JTString)].

Definition OutboundTrafficPolicy_type : jtype :=
  JTStruct [("TrafficMatches", false, JTNullable (JTMap port_key (JTArray OutboundTrafficMatch_type)));
            ("ClustersConfigs", false, JTNullable (JTMap any_key
               (JTStruct [("Endpoints", false, JTNullable (JTMap any_key WeightedZoneEndpoint_type))])))].

Definition PipyConf_type : jtype :=
  JTStruct [("Ts", false, JTNullable JTString);
            ("Version", false, JTNullable JTString);
            ("Spec", false, JTStruct [("SidecarLogLevel", false, JTString); ("Probes", false, JTStruct [])]);
            ("Outbound", false, JTNullable OutboundTrafficPolicy_type);
            ("Chains", true, JTMap any_key (JTNullable (JTArray JTString)));
            ("DNSResolveDB", true, JTMap any_key (JTArray JTString))].

(** ** Typing rules *)

Section Typing.
Context {RO : RangeOrder}.

Lemma type_uint w z : fits w z -> has_type (JTUint w) (json_uint z) = true.
Proof. intros [H0 H1]. simpl. apply bool_decide_eq_true_2. rewrite Z2N.id by done. done. Qed.

Lemma type_nullable t j : has_type t j = true -> has_type (JTNullable t) j = true.
Proof. simpl. by destruct j. Qed.

Lemma type_pointer {V} t (val : V -> json) p :
  (forall v, p = Some v -> has_type t (val v) = true) ->
  has_type (JTNullable t) (json_pointer val p) = true.
Proof. intros H. destruct p as [v|]; [|done]. by apply type_nullable, H. Qed.

Lemma type_array {V} t (val : V -> json) l :
  Forall (fun v => has_type t (val v) = true) l -> has_type (JTArray t) (JArr (map val l)) = true.
Proof. intros H. simpl. apply forallb_forall. intros j (v & <- & Hv)%in_map_iff.
  rewrite Forall_forall in H. by apply H, list_elem_of_In. Qed.

Lemma type_nil_slice {V} t (val : V -> json) l :
  Forall (fun v => has_type t (val v) = true) l ->
  has_type (JTNullable (JTArray t)) (json_nil_slice val l) = true.
Proof. intros H. destruct l; [done|]. by apply type_nullable, type_array. Qed.

Lemma type_map {K V} `{Countable K} (key : K -> string) okey t (val : V -> json) (m : gmap K V) :
  map_Forall (fun k v => okey (key k) = true /\ has_type t (val v) = true) m ->
  has_type (JTMap okey t) (json_map key val m) = true.
Proof.
  intros Hm. simpl. apply forallb_forall. intros kv Hin. apply list_elem_of_In in Hin.
  rewrite merge_sort_Permutation, range_perm in Hin.
  change (map ?f ?l) with (f <$> l) in Hin.
  apply list_elem_of_fmap in Hin as ([k v] & -> & Hkv%elem_of_map_to_list). simpl.
  destruct (Hm k v Hkv) as [-> ->]. done.
Qed.

Lemma type_nil_map {K V} `{Countable K} (key : K -> string) okey t (val : V -> json) (m : gmap K V) :
  map_Forall (fun k v => okey (key k) = true /\ has_type t (val v) = true) m ->
  has_type (JTNullable (JTMap okey t)) (json_nil_map key val m) = true.
Proof.
  intros Hm. unfold json_nil_map. case_bool_decide; [done|]. by apply type_nullable, type_map.
Qed.

(** Structs, field by field. *)
Lemma type_field name omit t v fields l :
  has_type t v = true -> has_type (JTStruct fields) (JObj l) = true ->
  has_type (JTStruct ((name, omit, t) :: fields)) (JObj ((name, v) :: l)) = true.
Proof. intros Hv Hl. cbn. rewrite String.eqb_refl, Hv. exact Hl. Qed.

Lemma type_omitted name t empty v fields l :
  (empty = false -> has_type t v = true) ->
  (forall l1 k1 v1, l = (k1, v1) :: l1 -> String.eqb name k1 = false) ->
  has_type (JTStruct fields) (JObj l) = true ->
  has_type (JTStruct ((name, true, t) :: fields)) (JObj (json_omitempty name empty v ++ l)) = true.
Proof.
  intros Hv Hne Hl. destruct empty; cbn [json_omitempty app]; [|by apply type_field, Hl; auto].
  cbn. destruct l as [|[k1 v1] l]; [exact Hl|]. by rewrite (Hne l k1 v1 eq_refl).
Qed.

End Typing.

(** ** What the generator keeps *)

Definition weights_ok (m : gmap string Z) : Prop := map_Forall (fun _ w => fits 32 w) m.

Record rule_ok (r : OutboundHTTPRouteRule) : Prop := {
  ro_type : hmr_Type (rule_Match r) ∈ [URIMatchRegex; URIMatchExact; URIMatchPrefix];
  ro_targets : weights_ok (rule_TargetClusters r)
}.

Definition rules_ok (m : gmap string (list OutboundHTTPRouteRule)) : Prop :=
  map_Forall (fun _ rules => Forall rule_ok rules) m.

Record match_ok (tm : OutboundTrafficMatch) : Prop := {
  mo_port : fits 16 (otm_Port tm);
  mo_rules : rules_ok (default ∅ (otm_HTTPServiceRouteRules tm));
  mo_tcp : weights_ok (default ∅ (otm_TCPServiceRouteRules tm))
}.

Definition cluster_ok (c : ClusterConfigs) : Prop :=
  map_Forall (fun _ wze => fits 32 (wze_Weight wze)) c.

Record outbound_ok (o : OutboundTrafficPolicy) : Prop := {
  oo_heap : Forall match_ok (ot_heap o);
  oo_matches : map_Forall (fun port ptrs => fits 16 port /\ ptrs <> [] /\
    Forall (fun ptr => ptr < length (ot_heap o))%nat ptrs) (ot_TrafficMatches o);
  oo_named : map_Forall (fun _ ptr => ptr < length (ot_heap o))%nat (ot_namedTrafficMatches o);
  oo_clusters : map_Forall (fun _ c => cluster_ok c) (ot_ClustersConfigs o)
}.

Definition conf_ok (p : PipyConf) : Prop := forall o, pc_Outbound p = Some o -> outbound_ok o.

(** ** Configurations in range have well-typed documents *)

Section Document.
Context {RO : RangeOrder} (stamp : Z -> string).

Ltac fields := repeat (apply type_field); try done.

Lemma WeightedClusters_typed m :
  weights_ok m -> has_type WeightedClusters_type (WeightedClusters_json m) = true.
Proof.
  intros Hm. apply type_nil_map. intros k w Hk. split; [done|]. by apply type_uint, (Hm k).
Qed.

Lemma strings_typed (m : gmap string string) :
  has_type (JTNullable (JTMap any_key JTString)) (json_nil_map id JStr m) = true.
Proof. by apply type_nil_map. Qed.

Lemma rule_typed r : rule_ok r -> has_type OutboundHTTPRouteRule_type (OutboundHTTPRouteRule_json r) = true.
Proof.
  intros [Ht Hw]. unfold OutboundHTTPRouteRule_type, OutboundHTTPRouteRule_json. fields.
  - by apply bool_decide_eq_true_2.
  - apply strings_typed.
  - apply type_nil_slice. by apply Forall_true.
  - by apply WeightedClusters_typed.
Qed.

Lemma match_typed tm : match_ok tm -> has_type OutboundTrafficMatch_type (OutboundTrafficMatch_json tm) = true.
Proof.
  intros [Hp Hr Ht]. unfold OutboundTrafficMatch_type, OutboundTrafficMatch_json. fields.
  - by apply type_uint.
  - apply strings_typed.
  - apply type_pointer. intros m Hm. rewrite Hm in Hr. apply type_map. intros k rules Hk.
    split; [done|]. fields. apply type_nil_slice.
    eapply Forall_impl; [exact (Hr k rules Hk)|]. apply rule_typed.
  - apply type_pointer. intros m Hm. rewrite Hm in Ht. fields. by apply WeightedClusters_typed.
Qed.

Lemma cluster_typed c :
  cluster_ok c ->
  has_type (JTStruct [("Endpoints", false, JTNullable (JTMap any_key WeightedZoneEndpoint_type))])
    (ClusterConfigs_json c) = true.
Proof.
  intros Hc. unfold ClusterConfigs_json. fields. apply type_nil_map. intros k wze Hk. split; [done|].
  unfold WeightedZoneEndpoint_type, WeightedZoneEndpoint_json. apply type_field.
  { by apply type_uint, (Hc k). }
  apply type_omitted; [done| |].
  - intros l1 k1 v1. by destruct (String.eqb (wze_ContextPath wze) ""); intros [= <- <- <-].
  - rewrite <- (app_nil_r (json_omitempty "Path" _ _)). by apply type_omitted.
Qed.

Lemma port_key_fmt port : fits 16 port -> port_key (fmt_d port) = true.
Proof. intros Hp. unfold port_key. by rewrite ParseUint_fmt_d. Qed.

Lemma outbound_typed o :
  outbound_ok o -> has_type OutboundTrafficPolicy_type (OutboundTrafficPolicy_json o) = true.
Proof.
  intros [Hh Hm _ Hc]. unfold OutboundTrafficPolicy_type, OutboundTrafficPolicy_json. fields.
  - apply type_nil_map. intros port ptrs Hk. destruct (Hm port ptrs Hk) as (Hp & Hne & Hptrs).
    split; [by apply port_key_fmt|]. unfold traffic_matches_json, json_nil_slice.
    destruct ptrs as [|ptr ptrs]; [done|]. apply type_array.
    eapply Forall_impl; [exact Hptrs|]. intros q Hq. simpl in Hq.
    destruct (lookup_lt_is_Some_2 _ _ Hq) as [tm Htm]. rewrite Htm. apply match_typed.
    rewrite Forall_lookup in Hh. by eapply Hh.
  - apply type_nil_map. intros k c Hk. split; [done|]. by apply cluster_typed, (Hc k).
Qed.

Lemma document_typed p : conf_ok p -> has_type PipyConf_type (PipyConf_json stamp p) = true.
Proof.
  intros Hp. unfold PipyConf_type, PipyConf_json. cbn [app].
  apply type_field; [by apply type_pointer|]. apply type_field; [by apply type_pointer|].
  apply type_field; [done|]. apply type_field; [by apply type_pointer; auto using outbound_typed|].
  apply type_omitted.
  - intros _. apply type_map. intros k l _. split; [done|]. apply type_nil_slice. by apply Forall_true.
  - intros l1 k1 v1. by case_bool_decide; intros [= <- <- <-].
  - rewrite <- (app_nil_r (json_omitempty "DNSResolveDB" _ _)). apply type_omitted; [|done|done].
    intros _. apply type_map. intros k l _. split; [done|]. apply type_array. by apply Forall_true.
Qed.

End Document.

(** ** The generator stays in range *)

Lemma weights_ok_insert k w m : fits 32 w -> weights_ok m -> weights_ok (<[k := w]> m).
Proof. intros Hw Hm. by apply map_Forall_insert_2. Qed.

Lemma uint32_fits z : fits 32 uint32(z).
Proof. by apply uint_bound. Qed.

Lemma uint16_fits z : fits 16 uint16(z).
Proof. by apply uint_bound. Qed.

#[local] Hint Resolve weights_ok_insert uint32_fits uint16_fits : core.

Lemma Forall_alter {A} (P : A -> Prop) f i (l : list A) :
  Forall P l -> (forall x, P x -> P (f x)) -> Forall P (alter f i l).
Proof.
  intros Hl Hf. apply Forall_lookup. intros j x Hj. rewrite Forall_lookup in Hl.
  destruct (decide (i = j)) as [<-|Hne].
  - rewrite list_lookup_alter_eq in Hj. apply fmap_Some in Hj as (y & Hy & ->). eauto.
  - rewrite list_lookup_alter_ne in Hj by done. eauto.
Qed.

Section Generator.
Context {RO : RangeOrder} `{!SortSort} `{!MapSet WeightedCluster} `{!MapSet string}.

Lemma http_match_type m :
  hmr_Type (http_match_of m) ∈ [URIMatchRegex; URIMatchExact; URIMatchPrefix].
Proof.
  set (P := fun hm => hmr_Type hm ∈ [URIMatchRegex; URIMatchExact; URIMatchPrefix]).
  assert (forall l hm, P hm -> P (foldl addMethodMatch hm l)) as Hm.
  { intros l hm. apply foldl_keeps. intros st a Hst. unfold addMethodMatch. by repeat case_match. }
  unfold http_match_of. set (hm0 := foldl _ _ _).
  assert (P hm0) as H0.
  { apply foldl_keeps; [by intros st [k v]|]. unfold P. simpl. destruct (hrm_PathMatchType m); set_solver. }
  destruct (default [] (hrm_Methods m)) as [|x l]; [exact (Hm ["*"] hm0 H0)|by apply (Hm (x :: l))].
Qed.

Lemma route_step_ok st route : Forall rule_ok st.1 -> Forall rule_ok (route_step st route).1.
Proof.
  destruct st as [rules dep]. unfold route_step, newHTTPServiceRouteRule. simpl. intros Hr.
  assert (forall l i rs d, Forall rule_ok rs -> Forall rule_ok (foldl (add_route_cluster i) (rs, d) l).1)
    as Hadd.
  { intros l i rs d Hrs. apply (foldl_keeps (fun st => Forall rule_ok st.1)); [|done].
    intros [rs' d'] c Hrs'. simpl. apply Forall_alter; [done|]. intros r [Ht Hw].
    split; [done|]. by apply weights_ok_insert. }
  destruct (find_rule _ rules) as [i|]; apply Hadd; [done|].
  apply Forall_app. split; [done|]. constructor; [|done].
  split; [apply http_match_type|apply map_Forall_empty].
Qed.

Lemma http_config_step_ok st cfg st' :
  match_ok st.1 -> http_config_step st cfg = Ret st' -> match_ok st'.1.
Proof.
  destruct st as [tm dep]. unfold http_config_step. intros [Hp Hr Ht].
  destruct (newHTTPServiceRouteRules tm (otp_Name cfg)) as [tm1 ok] eqn:E.
  assert (match_ok tm1) as Hm1.
  { unfold newHTTPServiceRouteRules in E. destruct (String.eqb (otp_Name cfg) "").
    - injection E as <- <-. by split.
    - destruct (default ∅ (otm_HTTPServiceRouteRules tm) !! otp_Name cfg); injection E as <- <-;
        split; simpl; try done. by apply map_Forall_insert_2. }
  set (tm2 := foldl _ tm1 _).
  assert (match_ok tm2) as Hm2.
  { apply foldl_keeps; [|done]. by intros t h [? ? ?]. }
  destruct ok.
  - destruct (foldl route_step _ _) as [rules dep'] eqn:Ef. intros [= <-]. destruct Hm2 as [Hp2 Hr2 Ht2].
    split; simpl; [done| |done]. apply map_Forall_insert_2; [|done].
    change rules with (rules, dep').1. rewrite <- Ef.
    apply (foldl_keeps (fun st => Forall rule_ok st.1)); [intros; by apply route_step_ok|]. simpl.
    destruct (default ∅ (otm_HTTPServiceRouteRules tm2) !! otp_Name cfg) as [rs|] eqn:El; [|done].
    by apply (Hr2 _ _ El).
  - destruct (otp_Routes cfg); intros [= <-]. done.
Qed.

Lemma tcp_match_ok tm dep cs : match_ok tm -> match_ok (tcp_match tm dep cs).1.
Proof.
  intros [Hp Hr Ht]. unfold tcp_match, newTCPServiceRouteRules.
  destruct (foldl add_tcp_cluster _ cs) as [targets dep'] eqn:E. split; simpl; [done..|].
  change targets with (targets, dep').1. rewrite <- E.
  apply (foldl_keeps (fun st => weights_ok st.1)); [|done]. intros [t d] c Hst. simpl.
  by apply weights_ok_insert.
Qed.

Lemma match_routes_ok p trafficMatch tm dep tm' dep' :
  match_ok tm -> match_routes p trafficMatch tm dep = Ret (tm', dep') -> match_ok tm'.
Proof.
  intros Hm. unfold match_routes. destruct (http_like _).
  - destruct (trafficMatchToMeshSvc trafficMatch); [|done]. cbn [deref mbind outcome_bind].
    intros E. change tm' with (tm', dep').1. revert E.
    apply (for_range_keeps (fun st => match_ok st.1)); [|done]. apply http_config_step_ok.
  - destruct (tcp_like _); [intros [= E]; change tm' with (tm', dep').1; rewrite <- E; by apply tcp_match_ok|].
    destruct (String.eqb _ _); [|by intros [= <- _]].
    destruct (trafficMatchToMeshSvc trafficMatch); [|done]. cbn [deref mbind outcome_bind].
    case_match; [by intros [= <- _]|]. intros [= E]. change tm' with (tm', dep').1. rewrite <- E.
    by apply tcp_match_ok.
Qed.

(** *** The outbound policy *)

Lemma outbound_ok_new : outbound_ok new_OutboundTrafficPolicy.
Proof. split; simpl; [done|apply map_Forall_empty..]. Qed.

Lemma match_ok_new : match_ok new_OutboundTrafficMatch.
Proof. split; simpl; [done|apply map_Forall_empty..]. Qed.

Lemma newTrafficMatch_ok o port name o' ptr existed :
  outbound_ok o -> fits 16 port -> newTrafficMatch o port name = (o', ptr, existed) -> outbound_ok o'.
Proof.
  intros [Hh Hm Hn Hc] Hp. unfold newTrafficMatch.
  case_match; intros [= <- <- <-]; [by split|]. split; simpl; [| | |done].
  - apply Forall_app. split; [done|]. constructor; [apply match_ok_new|done].
  - apply map_Forall_insert_2.
    + split; [done|]. split; [by destruct (default [] _)|]. rewrite length_app. simpl.
      apply Forall_app. split; [|by repeat constructor; lia].
      destruct (ot_TrafficMatches o !! port) as [ptrs|] eqn:E; [|done].
      destruct (Hm port ptrs E) as (_ & _ & Hl). eapply Forall_impl; [exact Hl|]. simpl. lia.
    + eapply map_Forall_impl; [exact Hm|]. intros q ptrs (? & ? & Hl). split_and!; [done..|].
      rewrite length_app. eapply Forall_impl; [exact Hl|]. simpl. lia.
  - rewrite length_app. simpl. apply map_Forall_insert_2; [lia|].
    eapply map_Forall_impl; [exact Hn|]. simpl. lia.
Qed.

Lemma update_match_ok o ptr f :
  outbound_ok o -> (forall tm, match_ok tm -> match_ok (f tm)) -> outbound_ok (update_match o ptr f).
Proof.
  intros [Hh Hm Hn Hc] Hf. split; simpl; rewrite ?length_alter; [by apply Forall_alter|done..].
Qed.

Lemma traffic_match_step_ok p st trafficMatch st' :
  outbound_ok st.1 -> traffic_match_step p st trafficMatch = Ret st' -> outbound_ok st'.1.
Proof.
  destruct st as [o dep]. unfold traffic_match_step. intros Ho.
  destruct (newTrafficMatch _ _ _) as [[o1 ptr] existed] eqn:En.
  apply newTrafficMatch_ok in En; [|done|done].
  assert (match_ok (default new_OutboundTrafficMatch (ot_heap o1 !! ptr))) as Hd.
  { destruct (ot_heap o1 !! ptr) as [tm|] eqn:E; [|apply match_ok_new].
    destruct En as [Hh _ _ _]. rewrite Forall_lookup in Hh. by eapply Hh. }
  destruct (match_routes p trafficMatch _ dep) as [[tm2 dep']|] eqn:Em; [|done].
  intros [= <-]. apply update_match_ok; [done|]. intros _ _.
  eapply match_routes_ok; [|exact Em]. destruct existed; [done|]. destruct Hd as [_ Hr Ht].
  by split; simpl.
Qed.

Lemma route_policy_ok conf p conf' dep :
  conf_ok conf -> generatePipyOutboundTrafficRoutePolicy conf p = Ret (conf', dep) -> conf_ok conf'.
Proof.
  intros Hc. unfold generatePipyOutboundTrafficRoutePolicy.
  destruct (omtp_TrafficMatches p) as [|tm tms]; [by intros [= <- <-]|].
  destruct (for_range _ _ _) as [[o dep1]|] eqn:E; [|done]. intros [= <- <-] o' [= <-].
  change o with (o, dep1).1. revert E. apply (for_range_keeps (fun st => outbound_ok st.1)).
  - apply traffic_match_step_ok.
  - simpl. unfold newOutboundTrafficPolicy. destruct (pc_Outbound conf) as [o0|] eqn:Eo; [by apply Hc|].
    apply outbound_ok_new.
Qed.

Lemma set_clusters_ok o cs :
  outbound_ok o -> map_Forall (fun _ c => cluster_ok c) cs -> outbound_ok (set_ClustersConfigs o cs).
Proof. intros [Hh Hm Hn Hc] Hcs. by split. Qed.

Lemma newClusterConfigs_ok o name : outbound_ok o -> outbound_ok (newClusterConfigs o name).
Proof.
  intros Ho. unfold newClusterConfigs. case_match; [done|]. apply set_clusters_ok; [done|].
  apply map_Forall_insert_2; [apply map_Forall_empty|by destruct Ho].
Qed.

Lemma balance_step_ok mc p st cluster : outbound_ok st.1 -> outbound_ok (balance_step mc p st cluster).1.
Proof.
  destruct st as [o ready]. unfold balance_step. intros Ho. simpl in Ho.
  destruct (getMeshClusterConfigs _ _) as [cfg|]; [|done].
  pose proof (newClusterConfigs_ok o (wc_ClusterName cluster) Ho) as Ho1.
  destruct (getUpstreamEndpoints mc (wc_ClusterName cluster)) as [|e es]; [done|].
  apply set_clusters_ok; [done|]. intros k c Hk. destruct Ho1 as [_ _ _ Hc1].
  destruct (decide (wc_ClusterName cluster = k)) as [<-|Hne].
  - rewrite lookup_alter_eq in Hk. apply fmap_Some in Hk as (c0 & Hc0 & ->).
    apply foldl_keeps; [|by apply (Hc1 _ _ Hc0)]. intros c' e' Hc'.
    apply map_Forall_insert_2; [apply uint32_fits|done].
  - rewrite lookup_alter_ne in Hk by done. by apply (Hc1 _ _ Hk).
Qed.

Lemma balance_policy_ok mc conf p dep :
  conf_ok conf -> conf_ok (generatePipyOutboundTrafficBalancePolicy mc conf p dep).1.
Proof.
  intros Hc. unfold generatePipyOutboundTrafficBalancePolicy.
  destruct (foldl _ _ _) as [o ready] eqn:E. intros o' [= <-].
  change o with (o, ready).1. rewrite <- E.
  apply (foldl_keeps (fun st => outbound_ok st.1)); [intros; by apply balance_step_ok|]. simpl.
  unfold newOutboundTrafficPolicy. destruct (pc_Outbound conf) as [o0|] eqn:Eo; [by apply Hc|].
  apply outbound_ok_new.
Qed.

Lemma rebalanced_weight_fits b wze : fits 32 (wze_Weight wze) -> fits 32 (rebalanced_weight b wze).
Proof. intros Hw. unfold rebalanced_weight. by repeat case_match. Qed.

Lemma balance_ok conf : conf_ok conf -> conf_ok (balance conf).
Proof.
  intros Hc. unfold balance, rebalancedOutboundClusters.
  destruct (pc_Outbound conf) as [o|] eqn:E; [|done]. intros o' [= <-]. specialize (Hc o E).
  apply set_clusters_ok; [done|]. destruct Hc as [_ _ _ Hc].
  intros k c (c0 & <- & Hk)%lookup_fmap_Some. intros h wze (w0 & <- & Hh)%lookup_fmap_Some.
  apply rebalanced_weight_fits, (Hc k c0 Hk h w0 Hh).
Qed.

Lemma sort_match_ok tm : match_ok tm -> match_ok (sort_match tm).
Proof.
  intros [Hp Hr Ht]. unfold sort_match.
  destruct (otm_HTTPServiceRouteRules tm) as [m|] eqn:E; simpl in Hr; [|by split; rewrite ?E].
  split; simpl; [done| |done]. intros k rules (rs & <- & Hk)%lookup_fmap_Some.
  rewrite sort_rules_perm. by apply (Hr k).
Qed.

Lemma reorder_ok conf : conf_ok conf -> conf_ok (reorder conf).
Proof.
  intros Hc. unfold reorder. destruct (pc_Outbound conf) as [o|] eqn:E; [|done]. intros o' [= <-].
  apply foldl_keeps; [|by apply Hc]. intros o1 ptr Ho1. apply update_match_ok; [done|].
  apply sort_match_ok.
Qed.

Lemma outbound_conf_ok mc trustDomain conf conf' ready :
  conf_ok conf -> outbound mc trustDomain conf = Ret (conf', ready) -> conf_ok conf'.
Proof.
  intros Hc. unfold outbound.
  match goal with |- context [generatePipyOutboundTrafficRoutePolicy ?c _] => set (conf1 := c) end.
  assert (conf_ok conf1) as Hc1 by (unfold conf1; by case_match).
  destruct (generatePipyOutboundTrafficRoutePolicy conf1 _) as [[conf2 dep]|] eqn:E; [|done].
  apply route_policy_ok in E; [|done]. cbn [mbind outcome_bind].
  case_bool_decide; intros [= Er]; [by subst|].
  change conf' with (conf', ready).1. rewrite <- Er. by apply balance_policy_ok.
Qed.

(** Whatever the catalog, a generated configuration is in range. *)
Lemma generate_conf_ok cfg mc trustDomain conf v ready :
  generate_conf cfg mc trustDomain = Ret (conf, v, ready) -> conf_ok conf.
Proof.
  unfold generate_conf, plugin, setSidecarChain.
  match goal with |- context [outbound mc trustDomain ?c] => set (conf2 := c) end.
  assert (pc_Outbound conf2 = None) as Hconf2 by apply features_outbound.
  destruct (outbound mc trustDomain conf2) as [[conf3 r]|] eqn:E; [|done].
  apply outbound_conf_ok in E; [|intros o Ho; congruence]. intros [= <- _ _].
  by apply reorder_ok, balance_ok.
Qed.

(** Whatever the catalog, the document of the configuration the job
    generates, with any time and version, has the type of a proxy
    configuration: the fields come in order with their types, ports fit 16
    bits and weights 32, and of the fields only [Chains], [DNSResolveDB] and
    an endpoint's [Key] and [Path] may be missing. *)
Theorem generated_document_typed (stamp : Z -> string) (cfg : ConfiguratorClient) (mc : MeshCatalog)
    (trustDomain : string) (conf : PipyConf) (pluginSetV : string) (ready : bool)
    (ts : option Z) (version : option string) :
  generate_conf cfg mc trustDomain = Ret (conf, pluginSetV, ready) ->
  has_type PipyConf_type (PipyConf_json stamp (set_TsVersion conf ts version)) = true.
Proof.
  intros Hgen. apply document_typed. intros o Ho. exact (generate_conf_ok _ _ _ _ _ _ Hgen o Ho).
Qed.

End Generator.

Lemma generated_document_typed_witness :
  exists conf v ready,
    generate_conf (H:=any_order) (H0:=insertion_sort_Sort) (MapSet0:=gset_MapSet)
      (MapSet1:=gset_MapSet) example_config example_catalog "cluster.local" = Ret (conf, v, ready) /\
    has_type PipyConf_type (PipyConf_json (RO:=any_order) fmt_d (set_TsVersion conf (Some 7) (Some "3")))
      = true.
Proof.
  eexists _, _, _. split; [vm_compute; reflexivity|].
  apply (generated_document_typed (RO:=any_order) (H:=insertion_sort_Sort) (MapSet0:=gset_MapSet)
    (MapSet1:=gset_MapSet)) with example_config example_catalog "cluster.local" "" true.
  vm_compute. reflexivity.
Defined.
