(* ===== verification/PipyPublish.v ===== *)
(** * The generation job and what the proxy receives ([jobs.go])

    [Run] as a whole: the configuration is generated, encoded and published.
    The theorems follow the catalog to the file a repo server ends up with:
    reading it back as JSON gives a document of the configuration's type
    that routes each host name and port to the clusters of the catalog's
    services and lists the endpoints of every cluster with their balanced
    weights. *)

From Stdlib Require Import Ascii String.
From S2P Require Import Prelude GoStrings GoJson GoSort MapSet NetIP Constants MeshService ApiTypes.
From S2P Require Import Informers Kube Multicluster Provider Policy Catalog Configurator.
From S2P Require Import PipyConf PipyGen PipyNames PipyRoutes PipyJob RepoClient PipyJson PipySchema.

(** ** [Run] *)

Section Run.
Context {RO : RangeOrder} `{!SortSort} `{!MapSet WeightedCluster} `{!MapSet string}.
Context {Server : Type} (serve : Server -> Request -> Server * (Response + string)).
Context (ecnetProxyCodebase ecnetCodebaseRepo : string) (stamp : Z -> string).

(** The job of a proxy with an ETag: its new ETag and whether a retry was
    scheduled. A job without a proxy returns. *)
Definition Run (cfg : ConfiguratorClient) (cataloger : MeshCatalog) (trustDomain : string)
    (now : Z) (etag : option Z) (s : Server) : outcome (Server * (option Z * bool)) :=
  match etag with
  | None => Ret (s, (None, false))
  | Some etag =>
      '(conf, pluginSetV, ready) ← generate_conf cfg cataloger trustDomain;
      '(s', etag') ← publishSidecarConf serve ecnetProxyCodebase ecnetCodebaseRepo
                       (Marshal stamp) (MarshalIndent stamp) now etag conf pluginSetV s;
      Ret (s', (Some etag', negb ready))
  end.

End Run.

(** ** The cluster configurations *)

Section Clusters.
Context {RO : RangeOrder} `{!SortSort} `{!MapSet WeightedCluster} `{!MapSet string}.
Context (mc : MeshCatalog) (trustDomain : string).
Context (Hservices : Forall mesh_service_ok (ListOutboundServices mc)).

(** The endpoints of a cluster, at the port of the first service of that
    cluster. *)
Definition upstream_config (p : OutboundMeshTrafficPolicy) (name : string) : option ClusterConfigs :=
  cfg ← getMeshClusterConfigs (omtp_ClustersConfigs p) name;
  Some (foldl (add_upstream_endpoint (mcc_Service cfg)) ∅ (getUpstreamEndpoints mc name)).

Lemma balance_step_clusters p o ready c k :
  ot_ClustersConfigs o !! wc_ClusterName c = None ->
  ot_ClustersConfigs (balance_step mc p (o, ready) c).1 !! k =
  if decide (wc_ClusterName c = k) then upstream_config p k else ot_ClustersConfigs o !! k.
Proof.
  intros Hnew. unfold balance_step, upstream_config.
  destruct (decide (wc_ClusterName c = k)) as [<-|Hne].
  - destruct (getMeshClusterConfigs _ _) as [cfg|]; simpl; [|done].
    unfold newClusterConfigs. rewrite Hnew.
    destruct (getUpstreamEndpoints _ _) as [|e es]; simpl; [by rewrite lookup_insert_eq|].
    by rewrite lookup_alter_eq, lookup_insert_eq.
  - destruct (getMeshClusterConfigs _ _) as [cfg|]; simpl; [|done].
    unfold newClusterConfigs. rewrite Hnew.
    destruct (getUpstreamEndpoints _ _) as [|e es]; simpl;
      rewrite ?lookup_alter_ne, ?lookup_insert_ne by done; done.
Qed.

Lemma balance_loop_clusters p o ready cs k :
  NoDup (map wc_ClusterName cs) ->
  (forall c, c ∈ cs -> ot_ClustersConfigs o !! wc_ClusterName c = None) ->
  ot_ClustersConfigs (foldl (balance_step mc p) (o, ready) cs).1 !! k =
  if decide (k ∈ map wc_ClusterName cs) then upstream_config p k else ot_ClustersConfigs o !! k.
Proof.
  revert o ready. induction cs as [|c cs IH]; intros o ready; cbn [map foldl].
  { intros _ _. rewrite decide_False; [done|]. apply not_elem_of_nil. }
  intros [Hc Hnd]%NoDup_cons Hnew.
  pose proof (fun k => balance_step_clusters p o ready c k (Hnew c ltac:(left))) as Hstep.
  destruct (balance_step mc p (o, ready) c) as [o1 r1]. simpl in Hstep. rewrite IH; [|done|].
  - rewrite Hstep. destruct (decide (wc_ClusterName c = k)) as [<-|Hne].
    + rewrite decide_False by done. rewrite decide_True; [done|left].
    + destruct (decide (k ∈ map wc_ClusterName cs)).
      * rewrite decide_True; [done|by right].
      * rewrite decide_False; [done|]. by intros [->|]%elem_of_cons.
  - intros c' Hc'. rewrite Hstep, decide_False; [by apply Hnew; right|].
    intros E. apply Hc. rewrite E. apply list_elem_of_In, in_map. by apply list_elem_of_In.
Qed.

Lemma traffic_match_step_clusters p st tm st' :
  ot_ClustersConfigs st.1 = ∅ -> traffic_match_step p st tm = Ret st' -> ot_ClustersConfigs st'.1 = ∅.
Proof.
  destruct st as [o dep]. unfold traffic_match_step. intros Ho. simpl in Ho.
  destruct (newTrafficMatch _ _ _) as [[o1 ptr] existed] eqn:En.
  assert (ot_ClustersConfigs o1 = ∅) as Ho1.
  { unfold newTrafficMatch in En. by case_match; injection En as <- <- <-. }
  destruct (match_routes _ _ _ _) as [[tm2 dep']|]; [|done]. by intros [= <-].
Qed.

Lemma route_policy_clusters conf p conf' dep :
  pc_Outbound conf = None -> generatePipyOutboundTrafficRoutePolicy conf p = Ret (conf', dep) ->
  ot_ClustersConfigs (newOutboundTrafficPolicy conf') = ∅.
Proof.
  intros Hconf. unfold generatePipyOutboundTrafficRoutePolicy, newOutboundTrafficPolicy.
  destruct (omtp_TrafficMatches p) as [|tm tms]; [intros [= <- <-]; by rewrite Hconf|].
  destruct (for_range _ _ _) as [[o dep1]|] eqn:E; [|done]. intros [= <- <-]. simpl.
  change o with (o, dep1).1. revert E.
  apply (for_range_keeps (fun st => ot_ClustersConfigs st.1 = ∅)); [apply traffic_match_step_clusters|].
  by rewrite Hconf.
Qed.

Lemma cluster_names (dep : gmap string WeightedCluster) :
  (forall k c, dep !! k = Some c -> wc_ClusterName c = k) ->
  map wc_ClusterName (range dep).*2 = (range dep).*1.
Proof.
  intros Hdep. assert (forall kv, kv ∈ range dep -> wc_ClusterName kv.2 = kv.1) as Hall.
  { intros [k c] Hin. apply Hdep. by apply elem_of_range in Hin. }
  induction (range dep) as [|[k c] l IH]; [done|]. simpl. f_equal.
  - apply (Hall (k, c)). left.
  - apply IH. intros kv Hin. apply Hall. by right.
Qed.

(** The cluster configurations of a configuration. *)
Definition conf_cluster (conf : PipyConf) (cluster : string) : option ClusterConfigs :=
  pc_Outbound conf ≫= fun o => ot_ClustersConfigs o !! cluster.

(** Some service whose traffic is routed has the cluster. *)
Definition routed_cluster (cluster : string) : Prop :=
  exists ms, ms ∈ ListOutboundServices mc /\ routed ms = true /\ ClusterName ms = cluster.

Lemma outbound_clusters conf conf' ready :
  pc_Outbound conf = None -> outbound mc trustDomain conf = Ret (conf', ready) ->
  forall cluster c, conf_cluster conf' cluster = Some c <->
    routed_cluster cluster /\
    upstream_config (GetOutboundMeshTrafficPolicy mc trustDomain) cluster = Some c.
Proof.
  intros Hconf. unfold outbound. set (p := GetOutboundMeshTrafficPolicy mc trustDomain).
  match goal with |- context [generatePipyOutboundTrafficRoutePolicy ?c _] => set (conf1 := c) end.
  assert (pc_Outbound conf1 = None) as Hconf1 by (unfold conf1; by case_match).
  destruct (gen_inv_run mc trustDomain (ListOutboundServices mc) p (outbound_policy_of mc trustDomain)
    Hservices conf1 Hconf1) as (o & dep & Hrun & Hinv).
  pose proof (route_policy_clusters conf1 p _ dep Hconf1 Hrun) as Hempty.
  rewrite Hrun. cbn [mbind outcome_bind]. set (conf2 := if nonempty _ then _ else _) in *.
  assert (forall k, is_Some (dep !! k) <-> routed_cluster k) as Hdom.
  { intros k. split.
    - intros [wc Hwc]. destruct (gi_depends _ _ _ _ _ Hinv _ _ Hwc) as (ms & ? & ? & ? & _). by exists ms.
    - intros (ms & Hin & Hr & <-). by apply (gi_covers _ _ _ _ _ Hinv). }
  case_bool_decide as Hd.
  - intros [= <- <-] cluster c. unfold conf_cluster. split.
    + unfold newOutboundTrafficPolicy in Hempty. destruct (pc_Outbound conf2); simpl in *; [|done].
      by rewrite Hempty, lookup_empty.
    + intros [Hr _]. apply Hdom in Hr. rewrite Hd, lookup_empty in Hr. by destruct Hr.
  - unfold generatePipyOutboundTrafficBalancePolicy.
    assert (forall k c, dep !! k = Some c -> wc_ClusterName c = k) as Hkeys.
    { intros k wc Hwc. destruct (gi_depends _ _ _ _ _ Hinv _ _ Hwc) as (ms & _ & _ & <- & ->). done. }
    pose proof (cluster_names dep Hkeys) as Hnames.
    pose proof (balance_loop_clusters p (newOutboundTrafficPolicy conf2) true (range dep).*2) as Hloop.
    rewrite Hnames in Hloop. destruct (foldl _ _ _) as [o1 ready1]. intros [= <- <-] cluster c.
    unfold conf_cluster. cbn [set_Outbound pc_Outbound mbind option_bind].
    change o1 with (o1, ready1).1. rewrite Hloop.
    + rewrite Hempty, lookup_empty.
      assert (cluster ∈ (range dep).*1 <-> is_Some (dep !! cluster)) as Hin.
      { rewrite list_elem_of_fmap. split.
        - intros ([k wc] & -> & Hk%elem_of_range). by eexists.
        - intros [wc Hwc]. exists (cluster, wc). by rewrite elem_of_range. }
      rewrite <- Hdom, <- Hin. case_decide; naive_solver.
    + apply NoDup_range_fst.
    + intros wc _. by rewrite Hempty, lookup_empty.
Qed.

(** The first service of a cluster, whose ports its endpoints get. *)
Definition cluster_service (cluster : string) : option MeshService :=
  first_some (fun ms => if String.eqb cluster (ClusterName ms) then Some ms else None)
    (ListOutboundServices mc).

Definition balanced_endpoints (ms : MeshService) (cluster : string) : ClusterConfigs :=
  rebalance_cluster (foldl (add_upstream_endpoint ms) ∅ (getUpstreamEndpoints mc cluster)).

Lemma upstream_config_service cluster :
  rebalance_cluster <$> upstream_config (GetOutboundMeshTrafficPolicy mc trustDomain) cluster =
  (fun ms => balanced_endpoints ms cluster) <$> cluster_service cluster.
Proof.
  unfold upstream_config, getMeshClusterConfigs, cluster_service.
  rewrite (po_clusters _ _ _ _ (outbound_policy_of mc trustDomain)).
  clear Hservices. induction (ListOutboundServices mc) as [|ms l IH]; [done|]. simpl.
  by destruct (String.eqb cluster (ClusterName ms)).
Qed.

(** Balancing and reordering on the cluster configurations. *)
Lemma balance_reorder_clusters conf cluster :
  conf_cluster (reorder (balance conf)) cluster = rebalance_cluster <$> conf_cluster conf cluster.
Proof.
  unfold conf_cluster, reorder, balance, rebalancedOutboundClusters.
  destruct (pc_Outbound conf) as [o|] eqn:E; simpl; rewrite ?E; simpl; [|by rewrite ?E].
  match goal with |- context [foldl ?f ?o0 ?l] =>
    assert (ot_ClustersConfigs (foldl f o0 l) = ot_ClustersConfigs o0) as -> end.
  { by apply (foldl_keeps (fun o' => ot_ClustersConfigs o' = rebalance_cluster <$> ot_ClustersConfigs o)). }
  simpl. apply lookup_fmap.
Qed.

(** What a document must say about the catalog's services: a host name on a
    port leads, through the host table and the rules, to the clusters of the
    HTTP and gRPC services of the port with the FQDN of the last one that
    has the host name. *)
Record document_of_catalog (doc : json) : Prop := {
  dc_typed : has_type PipyConf_type doc = true;
  dc_routes : forall port host cluster, 0 <= port ->
    (exists w, json_target doc port host cluster w) <->
    exists owner ms, host_owner trustDomain (ListOutboundServices mc) port host = Some owner /\
      ms ∈ ListOutboundServices mc /\ http_like (protocol_of ms) = true /\ ms_Port ms = port /\
      FQDN ms = FQDN owner /\ ClusterName ms = cluster;
  dc_weights : forall port host cluster w, 0 <= port -> json_target doc port host cluster w ->
    exists ms, ms ∈ ListOutboundServices mc /\ ms_Port ms = port /\ ClusterName ms = cluster /\
      w = Z.to_N uint32(wc_Weight (upstream_cluster mc ms));
  dc_endpoints : forall cluster hostPort w,
    json_endpoint doc cluster hostPort = Some (JNum w) <->
    routed_cluster cluster /\
    exists ms wze, cluster_service cluster = Some ms /\
      balanced_endpoints ms cluster !! hostPort = Some wze /\ w = Z.to_N (wze_Weight wze)
}.

Lemma json_endpoint_cluster (stamp : Z -> string) conf cluster hostPort w :
  json_endpoint (PipyConf_json stamp conf) cluster hostPort = Some (JNum w) <->
  exists c wze, conf_cluster conf cluster = Some c /\ c !! hostPort = Some wze /\
    w = Z.to_N (wze_Weight wze).
Proof.
  rewrite json_endpoint_conf. unfold conf_cluster.
  destruct (pc_Outbound conf) as [o|]; cbn [mbind option_bind]; [|split; [done|naive_solver]].
  destruct (ot_ClustersConfigs o !! cluster) as [c|]; cbn [mbind option_bind]; [|split; [done|naive_solver]].
  unfold json_uint. split.
  - destruct (c !! hostPort) as [wze|] eqn:E; [|done]. intros [= <-]. by exists c, wze.
  - by intros (c' & wze & [= <-] & -> & ->).
Qed.

(** The job generates a configuration whose document, with any time and
    version, describes the catalog. *)
Lemma generate_conf_document (cfg : ConfiguratorClient) :
  exists conf ready, generate_conf cfg mc trustDomain = Ret (conf, "", ready) /\
    forall stamp ts version, document_of_catalog (PipyConf_json stamp (set_TsVersion conf ts version)).
Proof.
  set (conf2 := (plugin cfg (features cfg new_PipyConf)).1).
  assert (pc_Outbound conf2 = None) as Hconf2 by apply features_outbound.
  destruct (outbound_targets mc trustDomain conf2 Hservices Hconf2) as (conf3 & r & Ho & _ & Hroutes).
  assert (generate_conf cfg mc trustDomain = Ret (reorder (balance conf3), "", r)) as Hgen.
  { unfold generate_conf. change (plugin cfg (features cfg new_PipyConf)) with (conf2, "").
    cbn beta iota zeta. by rewrite Ho. }
  eexists _, _. split; [exact Hgen|]. intros stamp ts version.
  assert (routes_services mc trustDomain
            (conf_route (set_TsVersion (reorder (balance conf3)) ts version))) as [Hiff Hwt].
  { eapply routes_services_ext; [|exact Hroutes]. intros. apply conf_route_same, reorder_balance_same. }
  split.
  - apply document_typed. exact (generate_conf_ok _ _ _ _ _ _ Hgen).
  - intros port host cluster Hport. rewrite <- Hiff by done.
    setoid_rewrite json_target_conf. naive_solver.
  - intros port host cluster w Hport (x & Hx & ->)%json_target_conf.
    destruct (Hwt _ _ _ _ Hport Hx) as (ms & ? & ? & ? & ->). eauto 10.
  - intros cluster hostPort w. rewrite json_endpoint_cluster.
    change (conf_cluster (set_TsVersion ?c _ _) ?k) with (conf_cluster c k).
    rewrite balance_reorder_clusters.
    pose proof (outbound_clusters _ _ _ Hconf2 Ho cluster) as Hc.
    pose proof (upstream_config_service cluster) as Hu. split.
    + intros (c & wze & (c0 & Hc0 & ->)%fmap_Some & Hw & ->). apply Hc in Hc0 as [Hr Hup].
      rewrite Hup in Hu. symmetry in Hu. apply fmap_Some in Hu as (ms & Hms & E).
      split; [done|]. exists ms, wze. by rewrite <- E.
    + intros (Hr & ms & wze & Hms & Hw & ->). rewrite Hms in Hu.
      apply fmap_Some in Hu as (c0 & Hup & E). exists (balanced_endpoints ms cluster), wze.
      split; [|done]. apply fmap_Some. exists c0. split; [|done]. by apply Hc.
Qed.

End Clusters.

(** ** From the catalog to the file *)

Section Publish.
Context {RO : RangeOrder} `{!SortSort} `{!MapSet WeightedCluster} `{!MapSet string}.
Context {Server : Type} (serve : Server -> Request -> Server * (Response + string))
  (codebases : Server -> gmap string Codebase) (files : Server -> gmap string string)
  (laws : RepoLaws serve codebases files).
Context (ecnetProxyCodebase ecnetCodebaseRepo : string) (stamp : Z -> string).

(** The versions of the proxy's codebase are numbers of 64 bits. *)
Definition version_ok (s : Server) : Prop :=
  forall cb, codebases s !! proxyCodebase ecnetProxyCodebase = Some cb ->
    exists v, cb_Version cb = fmt_d v /\ fits 64 v.

(** The hash of a configuration: its version and the proxy's ETag. *)
Definition conf_hash (conf : PipyConf) : Z :=
  Hash (json_Marshal (PipyConf_json stamp (set_TsVersion conf None None))).

Definition config_path : string :=
  proxyCodebase ecnetProxyCodebase +:+ "/" +:+ EcnetCodebaseConfig.

(** One job: its result, and the file it leaves. *)
Lemma run_job (cfg : ConfiguratorClient) (mc : MeshCatalog) (trustDomain : string)
    (now etag : Z) (s : Server) conf ready :
  generate_conf cfg mc trustDomain = Ret (conf, "", ready) -> version_ok s ->
  exists s',
    Run serve ecnetProxyCodebase ecnetCodebaseRepo stamp cfg mc trustDomain now (Some etag) s =
      Ret (s', (Some (conf_hash conf), negb ready)) /\ version_ok s' /\
    if Z.eqb (conf_hash conf) etag then s' = s
    else files s' !! config_path = Some (MarshalIndent stamp
           (set_TsVersion conf (Some now) (Some (fmt_d (conf_hash conf))))) /\
      (codebases s !! proxyCodebase ecnetProxyCodebase = None ->
       codebases s' !! proxyCodebase ecnetProxyCodebase =
         Some (mkCodebase (fmt_d (conf_hash conf)) ecnetCodebaseRepo)).
Proof.
  intros Hgen Hver. unfold Run. rewrite Hgen. cbn [mbind outcome_bind].
  destruct (Z.eqb_spec (conf_hash conf) etag) as [E|E].
  - exists s. split; [|done].
    rewrite (publish_unchanged serve ecnetProxyCodebase ecnetCodebaseRepo _ _ s now etag conf
      _ "" eq_refl) by (by rewrite string_app_nil_r). cbn [mbind outcome_bind]. by rewrite E.
  - destruct (publish_changed serve codebases files laws ecnetProxyCodebase ecnetCodebaseRepo
      (Marshal stamp) (MarshalIndent stamp) s now etag conf _ eq_refl E Hver) as (s' & Hrun & Hf & Hcb).
    exists s'. rewrite Hrun. cbn [mbind outcome_bind]. split; [done|]. split.
    + intros cb' Hcb'. unfold version_ok in Hver.
      destruct (codebases s !! proxyCodebase ecnetProxyCodebase) as [cb|].
      * destruct (Hver cb eq_refl) as (v & Hv & Hfit). rewrite (Hcb v Hv Hfit) in Hcb'.
        injection Hcb' as <-. eexists. split; [done|]. by apply uint_bound.
      * rewrite Hcb in Hcb'. injection Hcb' as <-. eexists. split; [done|]. apply Hash_fits.
    + split; [exact Hf|]. intros Hnone. by rewrite Hnone in Hcb.
Qed.

Lemma run_spec (cfg : ConfiguratorClient) (mc : MeshCatalog) (trustDomain : string)
    (now etag : Z) (s : Server) :
  Forall mesh_service_ok (ListOutboundServices mc) -> version_ok s ->
  exists conf ready s',
    generate_conf cfg mc trustDomain = Ret (conf, "", ready) /\
    Run serve ecnetProxyCodebase ecnetCodebaseRepo stamp cfg mc trustDomain now (Some etag) s =
      Ret (s', (Some (conf_hash conf), negb ready)) /\
    if Z.eqb (conf_hash conf) etag then s' = s
    else exists text doc, files s' !! config_path = Some text /\
      json_Unmarshal text = Some doc /\ document_of_catalog mc trustDomain doc /\
      at_path ["Version"] doc = Some (JStr (fmt_d (conf_hash conf))) /\
      (codebases s !! proxyCodebase ecnetProxyCodebase = None ->
       codebases s' !! proxyCodebase ecnetProxyCodebase =
         Some (mkCodebase (fmt_d (conf_hash conf)) ecnetCodebaseRepo)).
Proof.
  intros Hok Hver.
  destruct (generate_conf_document mc trustDomain Hok cfg) as (conf & ready & Hgen & Hdoc).
  destruct (run_job cfg mc trustDomain now etag s conf ready Hgen Hver) as (s' & Hrun & _ & Hs').
  exists conf, ready, s'. split; [done|]. split; [done|].
  destruct (Z.eqb (conf_hash conf) etag); [done|]. destruct Hs' as [Hf Hcb].
  eexists _, _. split; [exact Hf|]. split; [apply json_Unmarshal_MarshalIndent|].
  split; [apply Hdoc|]. done.
Qed.


End Publish.

