(* ===== verification/PipyOrder.v ===== *)
(** * The order in which Go visits maps and sets

    The hash of a configuration decides whether it is published, so it
    should depend on nothing but the catalog. Go visits the entries of a
    map in any order: the generated configuration does not depend on it,
    and a job that runs again over the same catalog sends nothing. The
    addresses of the DNS records, however, are listed in the order of a
    set: two orders give two hashes, and the same configuration is
    published again. *)

From Stdlib Require Import Ascii String.
From S2P Require Import Prelude GoStrings GoJson GoSort MapSet NetIP Constants MeshService ApiTypes.
From S2P Require Import Informers Kube Multicluster Provider Policy Catalog Configurator.
From S2P Require Import PipyConf PipyGen PipyNames PipyRoutes PipyJob RepoClient PipyJson PipySchema.
From S2P Require Import PipyPublish.

(** ** Loops *)

Lemma foldl_ext {A S} (f g : S -> A -> S) s l :
  (forall s a, f s a = g s a) -> foldl f s l = foldl g s l.
Proof. intros H. revert s. induction l as [|a l IH]; intros s; [done|]. simpl. by rewrite H, IH. Qed.

Lemma for_range_ext {A S} (f g : S -> A -> outcome S) s l :
  (forall s a, f s a = g s a) -> for_range f s l = for_range g s l.
Proof.
  intros H. revert s. induction l as [|a l IH]; intros s; [done|]. simpl. rewrite H.
  destruct (g s a); [apply IH|done].
Qed.

Lemma foldl_perm {A S} (f : S -> A -> S) s l1 l2 :
  (forall s a b, f (f s a) b = f (f s b) a) -> l1 ≡ₚ l2 -> foldl f s l1 = foldl f s l2.
Proof.
  intros Hc Hp. revert s. induction Hp as [|a l1 l2 Hp IH|a b l|l1 l2 l3 H1 IH1 H2 IH2]; intros s; simpl.
  - done.
  - apply IH.
  - by rewrite Hc.
  - by rewrite IH1.
Qed.

Section Order.
Context `{!SortSort} `{!MapSet WeightedCluster} `{!MapSet string}.
Context (RO1 RO2 : RangeOrder).

Lemma http_match_order m : http_match_of (H:=RO1) m = http_match_of (H:=RO2) m.
Proof.
  unfold http_match_of.
  match goal with |- context [foldl ?f ?h (range _)] => set (add := f); set (hm := h) end.
  assert (forall RO : RangeOrder, foldl add hm (range (default ∅ (hrm_Headers m))) =
    mkHTTPMatchRule (hmr_Path hm) (hmr_Type hm) (default ∅ (hrm_Headers m)) (hmr_Methods hm)
      (hmr_allowedAnyMethod hm)) as E; [|by rewrite !E].
  intros RO. set (hs := default ∅ (hrm_Headers m)).
  assert (forall l h, foldl add h l = mkHTTPMatchRule (hmr_Path h) (hmr_Type h)
    (foldl (fun acc '(k, v) => if true then <[k := v]> acc else acc) (hmr_Headers h) l)
    (hmr_Methods h) (hmr_allowedAnyMethod h)) as Hfold.
  { intros l. induction l as [|[k v] l IH]; intros h; [by destruct h|]. simpl. by rewrite IH. }
  rewrite Hfold. f_equal. apply map_eq. intros k.
  change (hmr_Headers hm) with (∅ : gmap string string).
  rewrite (range_build hs (fun _ => true) (fun v => v)). by destruct (hs !! k).
Qed.

Lemma route_step_order st route : route_step (H:=RO1) st route = route_step (H:=RO2) st route.
Proof. unfold route_step. by rewrite http_match_order. Qed.

Lemma http_config_step_order st cfg :
  http_config_step (H:=RO1) st cfg = http_config_step (H:=RO2) st cfg.
Proof.
  unfold http_config_step. destruct st as [tm dep].
  destruct (newHTTPServiceRouteRules tm (otp_Name cfg)) as [tm1 ok]. destruct ok; [|done].
  by rewrite (foldl_ext _ _ _ _ route_step_order).
Qed.

Lemma match_routes_order p tm0 tm dep :
  match_routes (H:=RO1) p tm0 tm dep = match_routes (H:=RO2) p tm0 tm dep.
Proof.
  unfold match_routes. destruct (http_like _); [|done].
  destruct (trafficMatchToMeshSvc tm0); [|done]. cbn [deref mbind outcome_bind].
  apply for_range_ext, http_config_step_order.
Qed.

Lemma traffic_match_step_order p st tm :
  traffic_match_step (H:=RO1) p st tm = traffic_match_step (H:=RO2) p st tm.
Proof.
  unfold traffic_match_step. destruct st as [o dep]. destruct (newTrafficMatch _ _ _) as [[o1 ptr] ex].
  by rewrite match_routes_order.
Qed.

Lemma route_policy_order conf p :
  generatePipyOutboundTrafficRoutePolicy (H:=RO1) conf p =
  generatePipyOutboundTrafficRoutePolicy (H:=RO2) conf p.
Proof.
  unfold generatePipyOutboundTrafficRoutePolicy. destruct (omtp_TrafficMatches p); [done|].
  by rewrite (for_range_ext _ _ _ _ (traffic_match_step_order p)).
Qed.

Lemma plugin_order cfg conf : plugin (H:=RO1) cfg conf = plugin (H:=RO2) cfg conf.
Proof.
  unfold plugin, setSidecarChain. do 3 f_equal. apply map_eq. intros k. by rewrite !range_build.
Qed.

(** Sorting the matches of every port. *)
Lemma update_match_comm o a b :
  update_match (update_match o a sort_match) b sort_match =
  update_match (update_match o b sort_match) a sort_match.
Proof.
  unfold update_match. simpl. f_equal. destruct (decide (a = b)) as [<-|Hne]; [done|].
  apply list_alter_alter_ne. congruence.
Qed.

Lemma reorder_order conf : reorder (H:=RO1) conf = reorder (H:=RO2) conf.
Proof.
  unfold reorder. destruct (pc_Outbound conf) as [o|]; [|done]. do 2 f_equal.
  apply foldl_perm; [apply update_match_comm|]. by rewrite (range_perm (RangeOrder:=RO1)), (range_perm (RangeOrder:=RO2)).
Qed.

(** *** Balancing *)

Lemma balance_step_frame mc p o ready c :
  exists cs, (balance_step mc p (o, ready) c).1 = set_ClustersConfigs o cs.
Proof.
  unfold balance_step, newClusterConfigs. destruct o as [h n t cc].
  repeat case_match; eexists; unfold set_ClustersConfigs; simpl; reflexivity.
Qed.

Lemma balance_loop_frame mc p o ready cs :
  (foldl (balance_step mc p) (o, ready) cs).1 =
  set_ClustersConfigs o (ot_ClustersConfigs (foldl (balance_step mc p) (o, ready) cs).1).
Proof.
  revert o ready. induction cs as [|c cs IH]; intros o ready; [by destruct o|]. cbn [foldl].
  destruct (balance_step_frame mc p o ready c) as [cc Hcc].
  destruct (balance_step mc p (o, ready) c) as [o1 r1]. simpl in Hcc. subst. by rewrite IH at 1.
Qed.

Lemma forallb_perm {A} (f : A -> bool) l1 l2 : l1 ≡ₚ l2 -> forallb f l1 = forallb f l2.
Proof.
  intros Hp. apply eq_true_iff_eq. rewrite !forallb_forall. setoid_rewrite <- list_elem_of_In.
  by setoid_rewrite Hp.
Qed.

Lemma balance_policy_order mc conf p dep :
  (forall k c, dep !! k = Some c -> wc_ClusterName c = k) ->
  ot_ClustersConfigs (newOutboundTrafficPolicy conf) = ∅ ->
  generatePipyOutboundTrafficBalancePolicy (H:=RO1) mc conf p dep =
  generatePipyOutboundTrafficBalancePolicy (H:=RO2) mc conf p dep.
Proof.
  intros Hkeys Hempty. unfold generatePipyOutboundTrafficBalancePolicy.
  set (o := newOutboundTrafficPolicy conf) in *.
  assert (forall RO : RangeOrder, forall k,
    ot_ClustersConfigs (foldl (balance_step mc p) (o, true) (range dep).*2).1 !! k =
    if decide (is_Some (dep !! k)) then upstream_config mc p k else None) as Hcc.
  { intros RO k. rewrite balance_loop_clusters; rewrite ?cluster_names by done.
    - rewrite Hempty, lookup_empty, (decide_ext (k ∈ (range dep).*1) (is_Some (dep !! k))); [done|].
      by rewrite elem_of_range_keys, elem_of_dom.
    - apply NoDup_range_fst.
    - intros c _. by rewrite Hempty, lookup_empty. }
  assert ((range (RangeOrder:=RO1) dep).*2 ≡ₚ (range (RangeOrder:=RO2) dep).*2) as Hperm
    by (by rewrite (range_perm (RangeOrder:=RO1)), (range_perm (RangeOrder:=RO2))).
  rewrite (surjective_pairing (foldl _ _ (range (RangeOrder:=RO1) dep).*2)).
  rewrite (surjective_pairing (foldl _ _ (range (RangeOrder:=RO2) dep).*2)).
  rewrite !balance_loop_ready, (forallb_perm _ _ _ Hperm). do 3 f_equal.
  rewrite (balance_loop_frame mc p o true (range (RangeOrder:=RO1) dep).*2).
  rewrite (balance_loop_frame mc p o true (range (RangeOrder:=RO2) dep).*2).
  f_equal. apply map_eq. intros k. by rewrite !Hcc.
Qed.

(** *** The job *)

Context (mc : MeshCatalog) (trustDomain : string).
Context (Hservices : Forall mesh_service_ok (ListOutboundServices mc)).

Lemma outbound_order conf :
  pc_Outbound conf = None ->
  outbound (H:=RO1) mc trustDomain conf = outbound (H:=RO2) mc trustDomain conf.
Proof.
  intros Hconf. unfold outbound. set (p := GetOutboundMeshTrafficPolicy mc trustDomain).
  match goal with |- context [generatePipyOutboundTrafficRoutePolicy ?c _] => set (conf1 := c) end.
  assert (pc_Outbound conf1 = None) as Hconf1 by (unfold conf1; by case_match).
  rewrite route_policy_order.
  destruct (gen_inv_run (H:=RO2) mc trustDomain (ListOutboundServices mc) p
    (outbound_policy_of mc trustDomain) Hservices conf1 Hconf1) as (o & dep & Hrun & Hinv).
  pose proof (route_policy_clusters (RO:=RO2) conf1 p _ dep Hconf1 Hrun) as Hempty.
  rewrite Hrun. cbn [mbind outcome_bind]. case_bool_decide; [done|]. f_equal.
  apply balance_policy_order; [|done]. intros k wc Hwc.
  destruct (gi_depends _ _ _ _ _ Hinv _ _ Hwc) as (ms & _ & _ & <- & ->). done.
Qed.

Lemma generate_conf_order cfg :
  generate_conf (H:=RO1) cfg mc trustDomain = generate_conf (H:=RO2) cfg mc trustDomain.
Proof.
  unfold generate_conf. rewrite plugin_order. set (conf2 := plugin cfg _).
  assert (pc_Outbound conf2.1 = None) as Hconf2 by apply features_outbound.
  destruct conf2 as [c v]. rewrite outbound_order by done.
  destruct (outbound mc trustDomain c) as [[conf3 ready]|]; [|done]. cbn [mbind outcome_bind].
  by rewrite reorder_order.
Qed.

Context {Server : Type} (serve : Server -> Request -> Server * (Response + string))
  (codebases : Server -> gmap string Codebase) (files : Server -> gmap string string)
  (laws : RepoLaws serve codebases files).
Context (ecnetProxyCodebase ecnetCodebaseRepo : string) (stamp : Z -> string).

(** C7: A job that ran once, and runs again at any later time over the same
    services listed in the same order, sends no request and keeps the ETag,
    in whatever order the Go maps are visited in the two runs. Both runs
    visit the third-party sets in the same order; without that the job may
    publish again ([set_order_republishes]). The services have names, ports
    and protocols as Kubernetes admits them, the repo server follows its
    protocol, and the versions it stores are numbers of 64 bits. *)
Theorem job_rerun_silent (cfg : ConfiguratorClient) (now1 now2 etag : Z) (s : Server) :
  version_ok codebases ecnetProxyCodebase s ->
  exists s1 h retry,
    Run (RO:=RO1) serve ecnetProxyCodebase ecnetCodebaseRepo stamp cfg mc trustDomain now1 (Some etag) s
      = Ret (s1, (Some h, retry)) /\
    Run (RO:=RO2) serve ecnetProxyCodebase ecnetCodebaseRepo stamp cfg mc trustDomain now2 (Some h) s1
      = Ret (s1, (Some h, retry)).
Proof.
  intros Hver.
  destruct (run_spec (RO:=RO1) serve codebases files laws ecnetProxyCodebase ecnetCodebaseRepo stamp
    cfg mc trustDomain now1 etag s Hservices Hver) as (conf & ready & s1 & Hgen & Hrun & _).
  exists s1, (conf_hash (RO:=RO1) stamp conf), (negb ready). split; [exact Hrun|].
  unfold Run. rewrite <- generate_conf_order, Hgen. cbn [mbind outcome_bind].
  rewrite (publish_unchanged serve ecnetProxyCodebase ecnetCodebaseRepo _ _ s1 now2 _ conf _ "" eq_refl);
    [done|]. rewrite string_app_nil_r. unfold conf_hash. by rewrite (PipyConf_json_order RO1 RO2).
Qed.

End Order.

(** ** The order of sets *)

Section Reversed.
Context {A : Type} `{Countable A}.

Lemma rev_iter_new : reverse (elements (∅ : gset A)) = [].
Proof. by rewrite elements_empty. Qed.

Lemma rev_iter_add (x y : A) (s : gset A) :
  y ∈ reverse (elements ({[x]} ∪ s)) <-> y = x \/ y ∈ reverse (elements s).
Proof. rewrite !elem_of_reverse. set_solver. Qed.

Lemma rev_equal_spec (s t : gset A) :
  bool_decide (s = t) = true <-> (forall x, x ∈ reverse (elements s) <-> x ∈ reverse (elements t)).
Proof. setoid_rewrite elem_of_reverse. apply gset_equal_spec. Qed.

Lemma rev_nodup (s : gset A) : NoDup (reverse (elements s)).
Proof. rewrite reverse_Permutation. apply NoDup_elements. Qed.

(** The same sets, visited the other way round. *)
Definition reversed_MapSet : MapSet A := {|
  mset := gset A;
  NewSet := ∅;
  Add := fun x s => {[x]} ∪ s;
  Iter := fun s => reverse (elements s);
  ToSlice := fun s => reverse (elements s);
  Equal := fun s t => bool_decide (s = t);
  Cardinality := fun s => Z.of_nat (length (reverse (elements s)));
  iter_new := rev_iter_new;
  iter_add := rev_iter_add;
  iter_nodup := rev_nodup;
  toslice_perm := fun s => Permutation_refl (reverse (elements s));
  equal_spec := rev_equal_spec;
  cardinality_spec := fun s => eq_refl
|}.
End Reversed.

(** A service of this cluster that is imported from others too. *)
Definition two_clusters_informers : InformerCollection :=
  mkInformerCollection "ecnet" None
    (Some (map_store {["default/web" :=
       mkKService "default" "web" "uid-0" "ClusterIP" "10.96.0.7" ["10.96.0.7"] ∅
         [mkKServicePort "http-web" "TCP" None 80 8080]]})) None
    (Some (map_store {["default/web" :=
       mkKEndpoints "default" "web" ∅
         [mkEndpointSubset [mkEndpointAddress "10.0.0.5" ""]
            [mkEndpointPort "http-web" "TCP" None 8080]]]})) None None
    (Some (map_store {["default/web" := example_import]}))
    (Some (map_store {["default/web" := example_policy ActiveActiveLbType]})).

Definition two_clusters_catalog : MeshCatalog :=
  let kube := client_controller two_clusters_informers in
  let mcc := multicluster_controller two_clusters_informers in
  mkMeshCatalog [KubeProvider.kube_service_provider kube; FsmProvider.fsm_service_provider mcc]
    [FsmProvider.fsm_endpoint_provider mcc; KubeProvider.kube_endpoint_provider kube] mcc.

Definition two_clusters_run (sets : MapSet string) (now : Z) (etag : option Z) (s : MemRepo)
  : outcome (MemRepo * (option Z * bool)) :=
  Run (RO:=any_order) (H:=insertion_sort_Sort) (MapSet0:=gset_MapSet) (MapSet1:=sets) mem_serve
    "ecnet" "/ecnet/base" fmt_d example_config two_clusters_catalog "cluster.local" now etag s.

(** The addresses of a host name are listed in the order of a set. A job
    that runs again over the same catalog, when the set is visited in
    another order, publishes the configuration again under another
    version. *)
Theorem set_order_republishes :
  exists s1 h1 s2 h2,
    two_clusters_run gset_MapSet 1 (Some 0) (mkMemRepo ∅ ∅) = Ret (s1, (Some h1, false)) /\
    two_clusters_run reversed_MapSet 2 (Some h1) s1 = Ret (s2, (Some h2, false)) /\
    h1 <> h2 /\
    mem_codebases s1 !! "ecnet/proxy.bridge.ecnet" <> mem_codebases s2 !! "ecnet/proxy.bridge.ecnet".
Proof.
  eexists _, _, _, _. split; [vm_compute; reflexivity|]. split; [vm_compute; reflexivity|].
  split; [by vm_compute|]. by vm_compute.
Qed.

Lemma job_rerun_silent_witness :
  exists s1 h retry,
    Run (RO:=any_order) (H:=insertion_sort_Sort) (MapSet0:=gset_MapSet) (MapSet1:=gset_MapSet) mem_serve
      "ecnet" "/ecnet/base" fmt_d example_config example_catalog "cluster.local" 1 (Some 0)
      (mkMemRepo ∅ ∅) = Ret (s1, (Some h, retry)) /\
    Run (RO:=any_order) (H:=insertion_sort_Sort) (MapSet0:=gset_MapSet) (MapSet1:=gset_MapSet) mem_serve
      "ecnet" "/ecnet/base" fmt_d example_config example_catalog "cluster.local" 2 (Some h) s1
      = Ret (s1, (Some h, retry)).
Proof.
  apply (job_rerun_silent (H:=insertion_sort_Sort) (MapSet0:=gset_MapSet) (MapSet1:=gset_MapSet)
    any_order any_order example_catalog "cluster.local" example_services_ok mem_serve mem_codebases
    mem_files mem_laws).
  intros cb Hcb. simpl in Hcb. by rewrite lookup_empty in Hcb.
Defined.
