(* ===== verification/PipySystem.v ===== *)
(** * The control plane over time

    The catalog changes, and jobs run: on updates, on retries, on the
    resynchronisation, from two routines that may run the same job twice.
    Jobs of the proxy are serialised by its mutex. Whatever the history,
    once a job has run after the last change of the catalog, the file of
    the proxy describes that catalog. *)

From Stdlib Require Import Ascii String.
From S2P Require Import Prelude GoStrings GoJson GoSort MapSet Constants MeshService ApiTypes.
From S2P Require Import Informers Kube Multicluster Provider Policy Catalog Configurator.
From S2P Require Import PipyConf PipyGen PipyNames PipyRoutes PipyJob RepoClient PipyJson PipySchema.
From S2P Require Import PipyPublish.

(** Documents that agree without time and version agree with any. *)
Lemma document_TsVersion {RO : RangeOrder} stamp conf1 conf2 ts version :
  PipyConf_json stamp (set_TsVersion conf1 None None) = PipyConf_json stamp (set_TsVersion conf2 None None) ->
  PipyConf_json stamp (set_TsVersion conf1 ts version) = PipyConf_json stamp (set_TsVersion conf2 ts version).
Proof. unfold PipyConf_json. simpl. intros [=]. congruence. Qed.

Section System.
Context {RO : RangeOrder} `{!SortSort} `{!MapSet WeightedCluster} `{!MapSet string}.
Context {Server : Type} (serve : Server -> Request -> Server * (Response + string))
  (codebases : Server -> gmap string Codebase) (files : Server -> gmap string string)
  (laws : RepoLaws serve codebases files).
Context (ecnetProxyCodebase ecnetCodebaseRepo : string) (stamp : Z -> string).
Context (cfg : ConfiguratorClient) (trustDomain : string).

(** The catalog, the ETag of the proxy and the repo server. *)
Record ControlPlane := mkControlPlane {
  cp_catalog : MeshCatalog;
  cp_etag : Z;
  cp_server : Server
}.

Inductive cp_action :=
| CatalogChange (mc : MeshCatalog)
| ProxyJob (now : Z).

Definition cp_step (st : ControlPlane) (a : cp_action) : outcome ControlPlane :=
  match a with
  | CatalogChange mc => Ret (mkControlPlane mc (cp_etag st) (cp_server st))
  | ProxyJob now =>
      '(s', (etag', _)) ← Run serve ecnetProxyCodebase ecnetCodebaseRepo stamp cfg (cp_catalog st)
                            trustDomain now (Some (cp_etag st)) (cp_server st);
      Ret (mkControlPlane (cp_catalog st) (default 0 etag') s')
  end.

(** The configuration of a catalog. *)
Definition conf_of (mc : MeshCatalog) : PipyConf :=
  match generate_conf cfg mc trustDomain with Ret (conf, _, _) => conf | Panic => new_PipyConf end.

Definition doc_of (mc : MeshCatalog) : json :=
  PipyConf_json stamp (set_TsVersion (conf_of mc) None None).

(** The catalogs of a history. *)
Definition catalogs (mc : MeshCatalog) (actions : list cp_action) : list MeshCatalog :=
  mc :: omap (fun a => match a with CatalogChange mc => Some mc | _ => None end) actions.

(** Within a history the hash tells configurations apart, and is not the
    ETag of a proxy that has none. *)
Definition no_collisions (mcs : list MeshCatalog) : Prop :=
  (forall mc, mc ∈ mcs -> conf_hash stamp (conf_of mc) <> 0) /\
  (forall mc1 mc2, mc1 ∈ mcs -> mc2 ∈ mcs ->
     conf_hash stamp (conf_of mc1) = conf_hash stamp (conf_of mc2) -> doc_of mc1 = doc_of mc2).

(** The file of the proxy: the configuration of a catalog, published at
    some time. *)
Definition stored (s : Server) (mc : MeshCatalog) : Prop :=
  exists now, files s !! config_path ecnetProxyCodebase =
    Some (MarshalIndent stamp (set_TsVersion (conf_of mc) (Some now)
            (Some (fmt_d (conf_hash stamp (conf_of mc)))))).

(** What holds at any time: the ETag is the hash of the stored file. *)
Record cp_inv (mcs : list MeshCatalog) (st : ControlPlane) : Prop := {
  ci_version : version_ok codebases ecnetProxyCodebase (cp_server st);
  ci_catalog : cp_catalog st ∈ mcs;
  ci_stored : cp_etag st <> 0 ->
    exists mc, mc ∈ mcs /\ cp_etag st = conf_hash stamp (conf_of mc) /\ stored (cp_server st) mc
}.

Lemma generate_conf_of mc :
  Forall mesh_service_ok (ListOutboundServices mc) ->
  (exists ready, generate_conf cfg mc trustDomain = Ret (conf_of mc, "", ready)) /\
  forall ts version, document_of_catalog mc trustDomain (PipyConf_json stamp (set_TsVersion (conf_of mc) ts version)).
Proof.
  intros Hok. destruct (generate_conf_document mc trustDomain Hok cfg) as (conf & ready & Hgen & Hdoc).
  unfold conf_of. rewrite Hgen. split; [by eexists|]. intros. apply Hdoc.
Qed.

Context (mcs : list MeshCatalog).
Context (Hok : Forall (fun mc => Forall mesh_service_ok (ListOutboundServices mc)) mcs).

(** A job leaves the file of the current catalog, or that of another with
    the same hash. *)
Lemma cp_job_step st now :
  cp_inv mcs st ->
  exists st', cp_step st (ProxyJob now) = Ret st' /\ cp_inv mcs st' /\
    cp_catalog st' = cp_catalog st /\ cp_etag st' = conf_hash stamp (conf_of (cp_catalog st)).
Proof.
  intros [Hver Hcat Hst]. rewrite Forall_forall in Hok.
  destruct (generate_conf_of (cp_catalog st) (Hok _ Hcat)) as [[ready Hgen] _].
  destruct (run_job serve codebases files laws ecnetProxyCodebase ecnetCodebaseRepo stamp cfg _ _ now
    (cp_etag st) (cp_server st) _ ready Hgen Hver) as (s' & Hrun & Hver' & Hs').
  eexists. unfold cp_step. rewrite Hrun. cbn [mbind outcome_bind from_option id].
  split; [done|]. split; [|done]. split; [done|done|]. simpl.
  destruct (Z.eqb_spec (conf_hash stamp (conf_of (cp_catalog st))) (cp_etag st)) as [E|E].
  - subst s'. rewrite E. exact Hst.
  - intros _. exists (cp_catalog st). split; [done|]. split; [done|]. exists now. by destruct Hs'.
Qed.

Lemma cp_run st actions :
  cp_inv mcs st -> (forall mc, CatalogChange mc ∈ actions -> mc ∈ mcs) ->
  exists st', for_range cp_step st actions = Ret st' /\ cp_inv mcs st'.
Proof.
  intros Hst Hin. apply (for_range_inv cp_step (fun _ => cp_inv mcs)); [done|].
  intros pre a post st1 Hl Hi. destruct a as [mc|now].
  - eexists. split; [done|]. destruct Hi as [Hv _ Hs]. split; simpl; [done| |done].
    apply Hin. rewrite Hl. set_solver.
  - destruct (cp_job_step st1 now Hi) as (st2 & ? & ? & _). eauto.
Qed.

End System.

Section Histories.
Context {RO : RangeOrder} `{!SortSort} `{!MapSet WeightedCluster} `{!MapSet string}.
Context {Server : Type} (serve : Server -> Request -> Server * (Response + string))
  (codebases : Server -> gmap string Codebase) (files : Server -> gmap string string)
  (laws : RepoLaws serve codebases files).
Context (ecnetProxyCodebase ecnetCodebaseRepo : string) (stamp : Z -> string).
Context (cfg : ConfiguratorClient) (trustDomain : string).

(** Whatever changes of the catalog and jobs there were, after one more job
    the proxy's ETag is the hash of the current catalog's configuration,
    and the file it receives parses to a document that describes the
    services of the current catalog. *)
Theorem published_follows_catalog (mc : MeshCatalog) (s : Server) (actions : list cp_action) (now : Z) :
  Forall (fun mc => Forall mesh_service_ok (ListOutboundServices mc)) (catalogs mc actions) ->
  no_collisions stamp cfg trustDomain (catalogs mc actions) ->
  version_ok codebases ecnetProxyCodebase s ->
  exists st,
    for_range (cp_step serve ecnetProxyCodebase ecnetCodebaseRepo stamp cfg trustDomain)
      (mkControlPlane mc 0 s) (actions ++ [ProxyJob now]) = Ret st /\
    cp_etag st = conf_hash stamp (conf_of cfg trustDomain (cp_catalog st)) /\
    exists text doc, files (cp_server st) !! config_path ecnetProxyCodebase = Some text /\
      json_Unmarshal text = Some doc /\ document_of_catalog (cp_catalog st) trustDomain doc.
Proof.
  intros Hok [Hzero Hcol] Hver. set (mcs := catalogs mc actions) in *.
  destruct (cp_run serve codebases files laws ecnetProxyCodebase ecnetCodebaseRepo stamp cfg trustDomain
    mcs Hok (mkControlPlane mc 0 s) actions) as (st1 & Hrun1 & Hinv1).
  { split; [done| |done]. apply list_elem_of_here. }
  { intros mc' Hin. right. apply list_elem_of_omap. by exists (CatalogChange mc'). }
  destruct (cp_job_step serve codebases files laws ecnetProxyCodebase ecnetCodebaseRepo stamp cfg trustDomain
    mcs Hok st1 now Hinv1) as (st & Hstep & [_ Hcat Hst] & Hsame & Hetag).
  exists st. rewrite for_range_app, Hrun1. cbn [mbind outcome_bind for_range]. rewrite Hstep.
  split; [done|]. rewrite Hsame. split; [done|].
  destruct Hst as (mc' & Hmc' & He & (t & Hf)); [by rewrite Hetag; apply Hzero; rewrite <- Hsame|].
  eexists _, _. split; [exact Hf|]. split; [apply json_Unmarshal_MarshalIndent|].
  rewrite Hsame in Hcat. rewrite Hetag in He.
  erewrite document_TsVersion by (symmetry; exact (Hcol _ _ Hcat Hmc' He)).
  apply generate_conf_of. rewrite Forall_forall in Hok. by apply Hok.
Qed.

End Histories.

(** ** A witness *)

(** A catalog without providers. *)
Definition empty_catalog : MeshCatalog :=
  mkMeshCatalog [] [] (multicluster_controller (example_mc_informers LocalityLbType)).

Definition history : list (cp_action) := [ProxyJob 1; CatalogChange empty_catalog; ProxyJob 2; ProxyJob 3].

Lemma history_no_collisions :
  no_collisions (RO:=any_order) (H:=insertion_sort_Sort) (MapSet0:=gset_MapSet) (MapSet1:=gset_MapSet)
    fmt_d example_config "cluster.local" (catalogs example_catalog history).
Proof.
  unfold catalogs, history. cbn [omap list_omap]. split.
  - intros mc. rewrite !elem_of_cons. intros [->|[->|[]%not_elem_of_nil]]; by vm_compute.
  - intros mc1 mc2. rewrite !elem_of_cons.
    intros [->|[->|[]%not_elem_of_nil]] [->|[->|[]%not_elem_of_nil]] E; try reflexivity;
      exfalso; revert E; by vm_compute.
Defined.

Lemma published_follows_catalog_witness :
  exists st,
    for_range (cp_step (RO:=any_order) (H:=insertion_sort_Sort) (MapSet0:=gset_MapSet)
      (MapSet1:=gset_MapSet) mem_serve "ecnet" "/ecnet/base" fmt_d example_config "cluster.local")
      (mkControlPlane example_catalog 0 (mkMemRepo ∅ ∅)) (history ++ [ProxyJob 4]) = Ret st /\
    exists text doc, mem_files (cp_server st) !! config_path "ecnet" = Some text /\
      json_Unmarshal text = Some doc /\ document_of_catalog (cp_catalog st) "cluster.local" doc.
Proof.
  destruct (published_follows_catalog (RO:=any_order) (H:=insertion_sort_Sort) (MapSet0:=gset_MapSet)
    (MapSet1:=gset_MapSet) mem_serve mem_codebases mem_files mem_laws "ecnet" "/ecnet/base" fmt_d
    example_config "cluster.local" example_catalog (mkMemRepo ∅ ∅) history 4)
    as (st & Hrun & _ & Hdoc).
  - constructor; [exact example_services_ok|]. constructor; [|constructor].
    apply (bool_decide_unpack _). by vm_compute.
  - exact history_no_collisions.
  - intros cb Hcb. simpl in Hcb. by rewrite lookup_empty in Hcb.
  - exists st. split; [exact Hrun|exact Hdoc].
Defined.
