(* ===== verification/RepoServer.v ===== *)
(** * The control plane server ([pkg/ecnet/bridge/ctrlplane/server],
    [server.go])

    The names of the codebases, and starting the server: wait for the
    repository, upload the base codebase, wait for it and be ready.
    [wait.PollImmediate] is a library function and a parameter; [poll_law]
    is what its documentation says of a condition that holds at once. *)

From Stdlib Require Import Ascii String.
From S2P Require Import Prelude GoStrings Constants PipyConf RepoClient.

(** The variables [ecnetCodebase], [ecnetProxyCodebase] and
    [ecnetCodebaseRepo] after [NewRepoServer]. *)
Record CodebaseNames := mkCodebaseNames {
  cn_ecnetCodebase : string;
  cn_ecnetProxyCodebase : string;
  cn_ecnetCodebaseRepo : string
}.

Definition initial_names : CodebaseNames := mkCodebaseNames "ecnet/base" "ecnet" "/ecnet/base".

Definition NewRepoServer (repoServerCodebase : string) (n : CodebaseNames) : CodebaseNames :=
  if Nat.ltb 0 (String.length repoServerCodebase) then
    let codebase := repoServerCodebase +:+ "/" +:+ cn_ecnetCodebase n in
    mkCodebaseNames codebase (repoServerCodebase +:+ "/" +:+ cn_ecnetProxyCodebase n)
      ("/" +:+ codebase)
  else n.

Section Server.
Context {Server : Type} (serve : Server -> Request -> Server * (Response + string)).

#[local] Instance server_ret : MRet (client (Server:=Server)) := fun A a s => Ret (s, a).
#[local] Instance server_bind : MBind (client (Server:=Server)) :=
  fun A B f m s => match m s with Ret (s', a) => f a s' | Panic => Panic end.

(** [wait.PollImmediate] with its interval and timeout. *)
Context (PollImmediate : client (Server:=Server) (bool * option string) ->
                         client (Server:=Server) (option string)).

(** [Start]: the error and whether the server is ready. *)
Definition server_Start (n : CodebaseNames) (items : list BatchItem)
  : client (Server:=Server) (option string * bool) :=
  PollImmediate (r ← IsRepoUp serve; mret (r.1, None)) ≫= fun _ =>
  res ← Batch_ serve "0" [mkBatch (cn_ecnetCodebase n) items];
  match res.2 with
  | Some err => mret (Some err, false)
  | None =>
      err ← PollImmediate (r ← GetCodebase serve (cn_ecnetCodebase n); mret (r.1.1, None));
      match err with
      | Some err => mret (Some err, false)
      | None => mret (None, true)
      end
  end.

End Server.

(** The condition is tried at once; when it holds the polling ends without
    an error. *)
Definition poll_law {Server : Type}
  (poll : client (Server:=Server) (bool * option string) -> client (Server:=Server) (option string))
  : Prop :=
  forall cond s s', cond s = Ret (s', (true, None)) -> poll cond s = Ret (s', None).

(** ** Names *)

(** The proxy codebase and the base it is derived from share the prefix
    of the configuration; the base is named with a leading slash where it
    is a path of the repository. *)
Lemma NewRepoServer_names prefix :
  let n := NewRepoServer prefix initial_names in
  cn_ecnetCodebaseRepo n = "/" +:+ cn_ecnetCodebase n /\
  cn_ecnetCodebase n = cn_ecnetProxyCodebase n +:+ "/base" /\
  (1 < String.length (cn_ecnetCodebase n))%nat.
Proof.
  unfold NewRepoServer. destruct prefix as [|c prefix]; simpl; [by split_and!; [..|lia]|].
  split_and!; [done| |].
  - f_equal. clear c. induction prefix as [|c prefix IH]; [done|]. simpl. by rewrite IH.
  - rewrite length_append. simpl. lia.
Qed.

(** ** Starting *)

Section Start.
Context {Server : Type} (serve : Server -> Request -> Server * (Response + string))
  (codebases : Server -> gmap string Codebase) (files : Server -> gmap string string)
  (laws : RepoLaws serve codebases files)
  (poll : client (Server:=Server) (bool * option string) -> client (Server:=Server) (option string))
  (Hpoll : poll_law poll).

Definition item_path (base : string) (i : BatchItem) : string :=
  base +:+ bi_Path i +:+ "/" +:+ bi_Filename i.

(** The files of a list of items, later ones replacing earlier ones. *)
Definition put_items (base : string) (items : list BatchItem) (m : gmap string string)
  : gmap string string := foldl (fun m i => <[item_path base i := bi_Content i]> m) m items.

Lemma upload_items_law base items s :
  Forall (fun i => bi_Obsolete i = false) items ->
  exists s', upload_items serve base true None items s = Ret (s', inr (true, None)) /\
    codebases s' = codebases s /\ files s' = put_items base items (files s).
Proof.
  intros Hi. revert s. induction Hi as [|i items Hi _ IH]; intros s; [by exists s|].
  destruct (upsertFile_law serve codebases files laws s (item_path base i) (bi_Content i))
    as (s1 & E1 & Hc1 & Hf1).
  destruct (IH s1) as (s2 & E2 & Hc2 & Hf2). exists s2. cbn [upload_items].
  rewrite Hi. unfold mbind, client_bind. fold (item_path base i). rewrite E1. cbn.
  rewrite E2. split; [done|]. rewrite Hc2, Hf2, Hc1, Hf1. done.
Qed.

(** Uploading to a codebase that is missing creates it. *)
Lemma Batch_new_law x items s :
  codebases s !! x = None -> (1 < String.length x)%nat ->
  Forall (fun i => bi_Obsolete i = false) items ->
  exists s', Batch_ serve "0" [mkBatch x items] s = Ret (s', (true, None)) /\
    codebases s' = <[x := mkCodebase "1" ""]> (codebases s) /\
    files s' = put_items x items (files s).
Proof.
  intros Hx Hlen Hi. destruct (isCodebaseExists_law serve codebases files laws s x) as (s1 & E1 & Hc1 & Hf1).
  destruct (rl_post _ _ _ laws s1 x (mkCodebase "0" "")) as (s2 & r & E2 & Hr & Hc2 & Hf2).
  destruct (GetCodebase_law serve codebases files laws s2 x Hlen) as (s3 & E3 & Hc3 & Hf3).
  destruct (upload_items_law x items s3 Hi) as (s4 & E4 & Hc4 & Hf4).
  assert (codebases s4 !! x = Some (mkCodebase "0" "")) as Hs4.
  { rewrite Hc4, Hc3, Hc2. apply lookup_insert_eq. }
  destruct (commit_law serve codebases files laws s4 x (mkCodebase "0" "") 0 Hs4) as (s5 & E5 & Hc5 & Hf5);
    [done|]. exists s5. split.
  - unfold Batch_, batch_loop, batch_one, createCodebase. cbn [batch_Basepath batch_Items].
    unfold mbind, client_bind, do_request. rewrite E1, Hx, E2. cbn. rewrite Hr, E3, Hc2.
    rewrite lookup_insert_eq. cbn. rewrite E4. cbn. change "0" with (fmt_d 0). by rewrite E5.
  - rewrite Hc5, Hc4, Hc3, Hc2, Hc1, insert_insert_eq. split; [done|].
    by rewrite Hf5, Hf4, Hf3, Hf2, Hf1.
Qed.

Lemma put_items_cons base i items m :
  put_items base (i :: items) m = put_items base items (<[item_path base i := bi_Content i]> m).
Proof. done. Qed.

Lemma put_items_other base items m p :
  p ∉ item_path base <$> items -> put_items base items m !! p = m !! p.
Proof.
  revert m. induction items as [|i items IH]; intros m Hp; [done|].
  rewrite fmap_cons, not_elem_of_cons in Hp. destruct Hp as [Hne Hp].
  rewrite put_items_cons, IH by done. by apply lookup_insert_ne.
Qed.

Lemma put_items_lookup base items m i :
  i ∈ items -> NoDup (item_path base <$> items) ->
  put_items base items m !! item_path base i = Some (bi_Content i).
Proof.
  revert m. induction items as [|j items IH]; intros m; [by intros []%not_elem_of_nil|].
  rewrite fmap_cons, NoDup_cons, put_items_cons. intros [->|Hi]%elem_of_cons [Hj Hnd].
  - rewrite put_items_other by done. apply lookup_insert_eq.
  - by apply IH.
Qed.

(** Starting with a repository that has no base codebase. *)
Lemma server_start_law n items s :
  codebases s !! cn_ecnetCodebase n = None -> (1 < String.length (cn_ecnetCodebase n))%nat ->
  Forall (fun i => bi_Obsolete i = false) items ->
  exists s', server_Start serve poll n items s = Ret (s', (None, true)) /\
    codebases s' = <[cn_ecnetCodebase n := mkCodebase "1" ""]> (codebases s) /\
    files s' = put_items (cn_ecnetCodebase n) items (files s).
Proof.
  intros Hx Hlen Hi.
  destruct (isCodebaseExists_law serve codebases files laws s "") as (s1 & E1 & Hc1 & Hf1).
  destruct (Batch_new_law (cn_ecnetCodebase n) items s1) as (s2 & E2 & Hc2 & Hf2);
    [by rewrite Hc1|done..|].
  destruct (GetCodebase_law serve codebases files laws s2 _ Hlen) as (s3 & E3 & Hc3 & Hf3).
  exists s3. split_and!; [|by rewrite Hc3, Hc2, Hc1|by rewrite Hf3, Hf2, Hf1].
  unfold server_Start, IsRepoUp, mbind, server_bind. erewrite Hpoll.
  2:{ change (GetCodebase serve "/") with (isCodebaseExists serve "").
      unfold mbind, client_bind. by rewrite E1. }
  rewrite E2. cbn [snd]. erewrite Hpoll; [done|]. by rewrite E3.
Qed.

(** With a repository that stores what it is sent and has no base codebase
    yet, starting makes the server ready without an error; the base
    codebase exists then, with the content of every item. *)
Theorem server_start_uploads_base n items s :
  codebases s !! cn_ecnetCodebase n = None -> (1 < String.length (cn_ecnetCodebase n))%nat ->
  Forall (fun i => bi_Obsolete i = false) items ->
  NoDup (item_path (cn_ecnetCodebase n) <$> items) ->
  exists s', server_Start serve poll n items s = Ret (s', (None, true)) /\
    codebases s' !! cn_ecnetCodebase n = Some (mkCodebase "1" "") /\
    forall i, i ∈ items -> files s' !! item_path (cn_ecnetCodebase n) i = Some (bi_Content i).
Proof.
  intros Hx Hlen Hi Hnd. destruct (server_start_law n items s Hx Hlen Hi) as (s' & Hs & Hc & Hf).
  exists s'. rewrite Hc, Hf. split_and!; [done|apply lookup_insert_eq|].
  intros i Hin. by apply put_items_lookup.
Qed.

End Start.

(** A repository that loses the codebase between creating and reading it:
    the upload is skipped without an error, and because a codebase that is
    not found counts as found the server reports that it is ready although
    no file of the base codebase was ever sent. *)
Theorem server_ready_without_base poll n items :
  poll_law poll -> (1 < String.length (cn_ecnetCodebase n))%nat ->
  exists log,
    server_Start scripted poll n items
      ([answer 200; answer 404; answer 201; answer 404; answer 404], [])
    = Ret (([], log), (None, true)) /\
    Forall (fun r => forall uri ct content, r <> PostContent uri ct content) log.
Proof.
  intros Hpoll Hlen. eexists. split.
  - unfold server_Start, mbind at 1, server_bind at 1. erewrite Hpoll by reflexivity.
    unfold Batch_, batch_loop, batch_one, isCodebaseExists, createCodebase,
      GetCodebase, mbind, server_bind, client_bind, do_request.
    cbn [batch_Basepath]. rewrite (proj2 (Nat.ltb_lt _ _) Hlen). cbn.
    erewrite Hpoll by reflexivity. reflexivity.
  - repeat constructor; congruence.
Qed.

(** ** Witnesses *)

(** A condition tried a bounded number of times. *)
Fixpoint poll_times {Server : Type} (tries : nat)
  (cond : client (Server:=Server) (bool * option string)) : client (Server:=Server) (option string) :=
  fun s => match tries with
           | O => Ret (s, Some "timed out waiting for the condition")
           | S tries' =>
               match cond s with
               | Panic => Panic
               | Ret (s', (_, Some err)) => Ret (s', Some err)
               | Ret (s', (true, None)) => Ret (s', None)
               | Ret (s', (false, None)) => poll_times tries' cond s'
               end
           end.

Lemma poll_times_law Server tries : poll_law (Server:=Server) (poll_times (S tries)).
Proof. intros cond s s' H. simpl. by rewrite H. Qed.

Definition example_items : list BatchItem :=
  [mkBatchItem false "" "main.js" "pipy()"; mkBatchItem false "/modules" "inbound.js" "export"].

Lemma server_start_uploads_base_witness :
  exists s', server_Start mem_serve (poll_times 18) initial_names example_items (mkMemRepo ∅ ∅)
             = Ret (s', (None, true)) /\
    mem_codebases s' !! "ecnet/base" = Some (mkCodebase "1" "").
Proof.
  destruct (server_start_uploads_base mem_serve mem_codebases mem_files mem_laws
    (poll_times 18) (poll_times_law _ 17) initial_names example_items (mkMemRepo ∅ ∅)) as (s' & Hs & Hc & _).
  - done.
  - simpl. lia.
  - repeat constructor.
  - apply (bool_decide_unpack _). by vm_compute.
  - exists s'. split; [exact Hs|exact Hc].
Defined.

Lemma server_ready_without_base_witness :
  exists log,
    server_Start scripted (poll_times 18) initial_names example_items
      ([answer 200; answer 404; answer 201; answer 404; answer 404], [])
    = Ret (([], log), (None, true)) /\
    Forall (fun r => forall uri ct content, r <> PostContent uri ct content) log.
Proof. apply (server_ready_without_base (poll_times 18) initial_names example_items);
    [apply poll_times_law|simpl; lia]. Defined.
