(* ===== verification/BaseCodebase.v ===== *)
(** * The base codebase ([pkg/ecnet/pipy/repo/codebase/codebase.go])

    The scripts of the proxy, embedded into the controller, and the batch
    that uploads them. The contents of the embedded files are a parameter. *)

From Stdlib Require Import Ascii String.
From S2P Require Import Prelude GoStrings RepoClient RepoServer.

(** The [go:embed] directives: each variable and the file it holds. *)
Definition embedded : list (string * string) :=
  [("codebaseConfigJs", "proxy/config.js");
   ("codebaseConnectTCPJs", "proxy/connect-tcp.js");
   ("codebaseConnectTLSJs", "proxy/connect-tls.js");
   ("codebaseConnectUpstreamJs", "proxy/connect-upstream.js");
   ("codebaseDNSMainJs", "proxy/dns-main.js");
   ("codebaseLoggingJs", "proxy/logging.js");
   ("codebaseMainJs", "proxy/main.js");
   ("codebaseMetricsJs", "proxy/metrics.js");
   ("codebaseModulesInboundHTTPDefaultJs", "proxy/modules/inbound-http-default.js");
   ("codebaseModulesInboundHTTPLoadBalancingJs", "proxy/modules/inbound-http-load-balancing.js");
   ("codebaseModulesInboundHTTPRoutingJs", "proxy/modules/inbound-http-routing.js");
   ("codebaseModulesInboundLoggingHTTPJs", "proxy/modules/inbound-logging-http.js");
   ("codebaseModulesInboundMainJs", "proxy/modules/inbound-main.js");
   ("codebaseModulesInboundMetricsHTTPJs", "proxy/modules/inbound-metrics-http.js");
   ("codebaseModulesInboundTCPDefaultJs", "proxy/modules/inbound-tcp-default.js");
   ("codebaseModulesInboundTCPLoadBalancingJs", "proxy/modules/inbound-tcp-load-balancing.js");
   ("codebaseModulesInboundTCPRoutingJs", "proxy/modules/inbound-tcp-routing.js");
   ("codebaseModulesInboundThrottleRouteJs", "proxy/modules/inbound-throttle-route.js");
   ("codebaseModulesInboundThrottleServiceJs", "proxy/modules/inbound-throttle-service.js");
   ("codebaseModulesInboundTLSTerminationJs", "proxy/modules/inbound-tls-termination.js");
   ("codebaseModulesInboundTracingHTTPJs", "proxy/modules/inbound-tracing-http.js");
   ("codebaseModulesOutboundCircuitBreakerJs", "proxy/modules/outbound-circuit-breaker.js");
   ("codebaseModulesOutboundHTTPDefaultJs", "proxy/modules/outbound-http-default.js");
   ("codebaseModulesOutboundHTTPLoadBalancingJs", "proxy/modules/outbound-http-load-balancing.js");
   ("codebaseModulesOutboundHTTPRoutingJs", "proxy/modules/outbound-http-routing.js");
   ("codebaseModulesOutboundLoggingHTTPJs", "proxy/modules/outbound-logging-http.js");
   ("codebaseModulesOutboundMainJs", "proxy/modules/outbound-main.js");
   ("codebaseModulesOutboundMetricsHTTPJs", "proxy/modules/outbound-metrics-http.js");
   ("codebaseModulesOutboundTCPDefaultJs", "proxy/modules/outbound-tcp-default.js");
   ("codebaseModulesOutboundTCPLoadBalancingJs", "proxy/modules/outbound-tcp-load-balancing.js");
   ("codebaseModulesOutboundTCPRoutingJs", "proxy/modules/outbound-tcp-routing.js");
   ("codebaseModulesOutboundTracingHTTPJs", "proxy/modules/outbound-tracing-http.js");
   ("codebaseProbesJs", "proxy/probes.js");
   ("codebaseStatsJs", "proxy/stats.js");
   ("codebaseTracingJs", "proxy/tracing.js");
   ("codebaseUtilsJs", "proxy/utils.js");
   ("codebaseConfigJSON", "proxy/config.json")].

(** The items: the name of each file in the codebase and the variable that
    holds its content. *)
Definition codebase_files : list (string * string) :=
  [("config.js", "codebaseConfigJs");
   ("connect-tcp.js", "codebaseConnectTCPJs");
   ("connect-tls.js", "codebaseConnectTLSJs");
   ("connect-upstream.js", "codebaseConnectUpstreamJs");
   ("dns-main.js", "codebaseDNSMainJs");
   ("logging.js", "codebaseLoggingJs");
   ("main.js", "codebaseMainJs");
   ("metrics.js", "codebaseMetricsJs");
   ("modules/inbound-http-default.js", "codebaseModulesInboundHTTPDefaultJs");
   ("modules/inbound-http-load-balancing.js", "codebaseModulesInboundHTTPLoadBalancingJs");
   ("modules/inbound-http-routing.js", "codebaseModulesInboundHTTPRoutingJs");
   ("modules/inbound-logging-http.js", "codebaseModulesInboundLoggingHTTPJs");
   ("modules/inbound-main.js", "codebaseModulesInboundMainJs");
   ("modules/inbound-metrics-http.js", "codebaseModulesInboundMetricsHTTPJs");
   ("modules/inbound-tcp-default.js", "codebaseModulesInboundTCPDefaultJs");
   ("modules/inbound-tcp-load-balancing.js", "codebaseModulesInboundTCPLoadBalancingJs");
   ("modules/inbound-tcp-routing.js", "codebaseModulesInboundTCPRoutingJs");
   ("modules/inbound-throttle-route.js", "codebaseModulesInboundThrottleRouteJs");
   ("modules/inbound-throttle-service.js", "codebaseModulesInboundThrottleServiceJs");
   ("modules/inbound-tls-termination.js", "codebaseModulesInboundTLSTerminationJs");
   ("modules/inbound-tracing-http.js", "codebaseModulesInboundTracingHTTPJs");
   ("modules/outbound-circuit-breaker.js", "codebaseModulesOutboundCircuitBreakerJs");
   ("modules/outbound-http-default.js", "codebaseModulesOutboundHTTPDefaultJs");
   ("modules/outbound-http-load-balancing.js", "codebaseModulesOutboundHTTPLoadBalancingJs");
   ("modules/outbound-http-routing.js", "codebaseModulesOutboundHTTPRoutingJs");
   ("modules/outbound-logging-http.js", "codebaseModulesOutboundLoggingHTTPJs");
   ("modules/outbound-main.js", "codebaseModulesOutboundMainJs");
   ("modules/outbound-metrics-http.js", "codebaseModulesOutboundMetricsHTTPJs");
   ("modules/outbound-tcp-default.js", "codebaseModulesOutboundTCPDefaultJs");
   ("modules/outbound-tcp-load-balancing.js", "codebaseModulesOutboundTCPLoadBalancingJs");
   ("modules/outbound-tcp-routing.js", "codebaseModulesOutboundTCPRoutingJs");
   ("modules/outbound-tracing-http.js", "codebaseModulesOutboundTracingHTTPJs");
   ("probes.js", "codebaseProbesJs");
   ("stats.js", "codebaseStatsJs");
   ("tracing.js", "codebaseTracingJs");
   ("utils.js", "codebaseUtilsJs");
   (EcnetCodebaseConfig, "codebaseConfigJSON")].

Section Items.
Context (read_file : string -> string).

(** The value of a variable; every variable of the items is declared. *)
Definition embedded_content (var : string) : string :=
  match first_some (fun '(v, path) => if String.eqb v var then Some path else None) embedded with
  | Some path => read_file path
  | None => ""
  end.

Definition EcnetCodebaseItems : list BatchItem :=
  map (fun '(filename, var) => mkBatchItem false "" filename (embedded_content var)) codebase_files.

(** Every file of the codebase holds the embedded file of its own name. *)
Lemma EcnetCodebaseItems_content :
  EcnetCodebaseItems =
  map (fun '(filename, _) => mkBatchItem false "" filename (read_file ("proxy/" +:+ filename)))
    codebase_files.
Proof. reflexivity. Qed.

Lemma codebase_files_NoDup : NoDup codebase_files.*1.
Proof. apply (bool_decide_unpack _). by vm_compute. Qed.

Lemma EcnetCodebaseItems_paths base : NoDup (item_path base <$> EcnetCodebaseItems).
Proof.
  unfold EcnetCodebaseItems. change (map ?f ?l) with (f <$> l). rewrite <- list_fmap_compose.
  assert ((item_path base ∘ fun '(filename, var) =>
             mkBatchItem false "" filename (embedded_content var)) <$> codebase_files =
          (fun filename => base +:+ "/" +:+ filename) <$> codebase_files.*1) as ->.
  { rewrite <- list_fmap_compose. apply list_fmap_ext. by intros i [f v] _. }
  apply NoDup_fmap_2; [|apply codebase_files_NoDup].
  intros x y E. apply (inj (String.app base)) in E. by injection E.
Qed.

Lemma EcnetCodebaseItems_current : Forall (fun i => bi_Obsolete i = false) EcnetCodebaseItems.
Proof. unfold EcnetCodebaseItems. apply Forall_fmap, Forall_true. by intros [f v]. Qed.

End Items.
