(* ===== verification/Broker.v ===== *)
(** * The message broker ([pkg/ecnet/messaging])

    Classification and processing of events, and the dispatcher that
    coalesces proxy updates with two timers. The work queue and the pub-sub
    libraries are not part of the sources: what is published on them is the
    output of the model.

    Timers are those of the Go version of [go.mod]: a timer has a channel
    of capacity one, [Stop] reports whether the timer was active, and
    [Reset] does not drain the channel. *)

From Stdlib Require Import String.
From S2P Require Import Prelude GoStrings Constants ApiTypes.

(** ** Messages *)

(** The dynamic type of an [interface{}] object, as far as it is asked. *)
Inductive Object :=
| ObjPod (p : KPod)
| ObjEcnetConfig (c : EcnetConfig)
| ObjServiceImport (s : ServiceImport)
| ObjGlobalTrafficPolicy (g : GlobalTrafficPolicy)
| ObjOther (namespace : string)
| DeletedFinalStateUnknown (key : string).

Record PubSubMessage := mkPubSubMessage {
  psm_Kind : Kind;
  psm_OldObj : option Object;
  psm_NewObj : option Object
}.

Record proxyUpdateEvent := mkProxyUpdateEvent {
  pue_msg : PubSubMessage;
  pue_topic : string
}.

Definition GetPubSubTopicForProxyUUID (uuid : string) : string := "proxy:" +:+ uuid.

(** ** [getProxyUpdateEvent] *)

Definition broadcast (msg : PubSubMessage) : option proxyUpdateEvent :=
  Some (mkProxyUpdateEvent msg (Kind_String ProxyUpdate)).

Definition getProxyUpdateEvent (msg : PubSubMessage) : option proxyUpdateEvent :=
  match psm_Kind msg with
  | EndpointAdded | EndpointDeleted | EndpointUpdated
  | ServiceImportAdded | ServiceImportDeleted | ServiceImportUpdated
  | GlobalTrafficPolicyAdded | GlobalTrafficPolicyDeleted | GlobalTrafficPolicyUpdated
  | ProxyUpdate => broadcast msg
  | EcnetConfigUpdated =>
      match psm_OldObj msg, psm_NewObj msg with
      | Some (ObjEcnetConfig prev), Some (ObjEcnetConfig new) =>
          let prevSpec := ec_Spec prev in
          let newSpec := ec_Spec new in
          if negb (String.eqb (sc_LogLevel (cfg_Sidecar prevSpec)) (sc_LogLevel (cfg_Sidecar newSpec)))
             || negb (bool_decide (cfg_PluginChains prevSpec = cfg_PluginChains newSpec))
          then broadcast msg else None
      | _, _ => None
      end
  | PodUpdated =>
      match psm_OldObj msg, psm_NewObj msg with
      | Some (ObjPod prevPod), Some (ObjPod newPod) =>
          let prevMetricAnnotation := map_get (pod_Annotations prevPod) PrometheusScrapeAnnotation in
          let newMetricAnnotation := map_get (pod_Annotations newPod) PrometheusScrapeAnnotation in
          if negb (String.eqb prevMetricAnnotation newMetricAnnotation)
          then Some (mkProxyUpdateEvent msg (GetPubSubTopicForProxyUUID (pod_UID newPod)))
          else if negb (String.eqb (pod_UID newPod) "") then broadcast msg
          else None
      | _, _ => None
      end
  | _ => None
  end.

(** ** [processEvent] and the work queue *)

(** What an event does: a publication on one of the two pub-subs, or a send
    to the dispatcher. *)
Inductive effect :=
| PubProxyUpdate (msg : PubSubMessage) (topic : string)
| SendDispatcher (e : proxyUpdateEvent)
| PubKubeEvent (msg : PubSubMessage) (topic : string).

Record Counters := mkCounters {
  totalQEventCount : Z;
  totalQProxyEventCount : Z;
  totalDispatchedProxyEventCount : Z
}.

Definition processEvent (c : Counters) (msg : PubSubMessage) : Counters * list effect :=
  let kube := PubKubeEvent msg (Kind_String (psm_Kind msg)) in
  match getProxyUpdateEvent msg with
  | None => (c, [kube])
  | Some event =>
      let q := uint64(totalQProxyEventCount c + 1) in
      if negb (String.eqb (pue_topic event) (Kind_String ProxyUpdate)) then
        (mkCounters (totalQEventCount c) q uint64(totalDispatchedProxyEventCount c + 1),
         [PubProxyUpdate (pue_msg event) (pue_topic event); kube])
      else
        (mkCounters (totalQEventCount c) q (totalDispatchedProxyEventCount c),
         [SendDispatcher event; kube])
  end.

(** An item of the queue: a message, or something of another type. [None]
    is the shutdown of the queue. *)
Definition processNextItem (c : Counters) (item : option (option PubSubMessage))
  : Counters * list effect * bool :=
  match item with
  | None => (c, [], false)
  | Some i =>
      let c1 := mkCounters uint64(totalQEventCount c + 1) (totalQProxyEventCount c)
                  (totalDispatchedProxyEventCount c) in
      match i with
      | None => (c1, [], true)
      | Some msg => (processEvent c1 msg, true)
      end
  end.

(** ** Event handlers ([pkg/ecnet/k8s/event_handlers.go]) *)

Record EventTypes := mkEventTypes {
  et_Add : Kind;
  et_Update : Kind;
  et_Delete : Kind
}.

Inductive ResourceEvent :=
| OnAdd (obj : Object)
| OnUpdate (oldObj newObj : Object)
| OnDelete (obj : Object).

(** What the handler functions add to the queue; no filter observes
    everything. *)
Definition GetEventHandlerFuncs (shouldObserve : option (Object -> bool)) (eventTypes : EventTypes)
    (ev : ResourceEvent) : option PubSubMessage :=
  let observe := default (fun _ => true) shouldObserve in
  match ev with
  | OnAdd obj =>
      if observe obj then Some (mkPubSubMessage (et_Add eventTypes) None (Some obj)) else None
  | OnUpdate oldObj newObj =>
      if observe newObj
      then Some (mkPubSubMessage (et_Update eventTypes) (Some oldObj) (Some newObj)) else None
  | OnDelete obj =>
      if observe obj then Some (mkPubSubMessage (et_Delete eventTypes) (Some obj) None) else None
  end.

(** ** Timers *)

Record Timer := mkTimer {
  timer_deadline : option Z;
  timer_C : bool
}.

(** [NewTimer] at time [now]. *)
Definition NewTimer (now d : Z) : Timer := mkTimer (Some (now + d)) false.

(** Whether the timer was active, and the stopped timer. *)
Definition timer_Stop (t : Timer) : bool * Timer :=
  match timer_deadline t with
  | Some _ => (true, mkTimer None (timer_C t))
  | None => (false, t)
  end.

Definition timer_Reset (now d : Z) (t : Timer) : Timer := mkTimer (Some (now + d)) (timer_C t).

(** Receiving from the channel; [None] blocks for ever. *)
Definition timer_receive (t : Timer) : option Timer :=
  if timer_C t then Some (mkTimer (timer_deadline t) false) else None.

(** [if !t.Stop() { <-t.C }] *)
Definition stop_and_drain (t : Timer) : option Timer :=
  let '(active, t') := timer_Stop t in
  if active then Some t' else timer_receive t'.

(** The clock reaches [now]. *)
Definition timer_fire (now : Z) (t : Timer) : Timer :=
  match timer_deadline t with
  | Some d => if Z.leb d now then mkTimer None true else t
  | None => t
  end.

(** ** [runProxyUpdateDispatcher] *)

(** Durations, in nanoseconds. *)
Definition Second : Z := 1000000000.
Definition proxyUpdateSlidingWindow : Z := 2 * Second.
Definition proxyUpdateMaxWindow : Z := 10 * Second.
Definition noTimeout : Z := 87600 * 3600 * Second.

(** The local variables of the dispatcher, the clock, what was published
    and the counter. *)
Record Dispatcher := mkDispatcher {
  d_now : Z;
  d_slidingTimer : Timer;
  d_maxTimer : Timer;
  d_dispatchPending : bool;
  d_batchCount : Z;
  d_event : option proxyUpdateEvent;
  d_published : list (option proxyUpdateEvent);
  d_totalDispatched : Z
}.

Definition dispatcher_init : Dispatcher :=
  mkDispatcher 0 (NewTimer 0 noTimeout) (NewTimer 0 noTimeout) false 0 None [] 0.

(** [case e := <-b.proxyUpdateCh]; [None] if a receive blocks for ever. *)
Definition on_event (d : Dispatcher) (e : proxyUpdateEvent) : option Dispatcher :=
  let now := d_now d in
  sliding ← stop_and_drain (d_slidingTimer d);
  let sliding' := timer_Reset now proxyUpdateSlidingWindow sliding in
  if negb (d_dispatchPending d) then
    max ← stop_and_drain (d_maxTimer d);
    Some (mkDispatcher now sliding' (timer_Reset now proxyUpdateMaxWindow max) true
            (d_batchCount d + 1) (Some e) (d_published d) (d_totalDispatched d))
  else
    Some (mkDispatcher now sliding' (d_maxTimer d) true (d_batchCount d + 1) (Some e)
            (d_published d) (d_totalDispatched d)).

(** Publish [event], and reset the batch. *)
Definition publish (d : Dispatcher) (sliding max : Timer) : Dispatcher :=
  mkDispatcher (d_now d) sliding max false 0 (d_event d) (d_published d ++ [d_event d])
    uint64(d_totalDispatched d + 1).

(** [case <-slidingTimer.C] *)
Definition on_sliding (d : Dispatcher) : option Dispatcher :=
  sliding ← timer_receive (d_slidingTimer d);
  let sliding' := timer_Reset (d_now d) noTimeout sliding in
  max ← stop_and_drain (d_maxTimer d);
  Some (publish d sliding' (timer_Reset (d_now d) noTimeout max)).

(** [case <-maxTimer.C] *)
Definition on_max (d : Dispatcher) : option Dispatcher :=
  max ← timer_receive (d_maxTimer d);
  let max' := timer_Reset (d_now d) noTimeout max in
  sliding ← stop_and_drain (d_slidingTimer d);
  Some (publish d (timer_Reset (d_now d) noTimeout sliding) max').

Definition advance (d : Dispatcher) (t : Z) : Dispatcher :=
  mkDispatcher t (timer_fire t (d_slidingTimer d)) (timer_fire t (d_maxTimer d))
    (d_dispatchPending d) (d_batchCount d) (d_event d) (d_published d) (d_totalDispatched d).

(** What the dispatcher does, with the time an event arrives. *)
Inductive action :=
| AEvent (t : Z) (e : proxyUpdateEvent)
| APublish
| ATime.

(** The clock does not move while a timer's channel is ready, nor past a
    deadline: the dispatcher is scheduled in time. *)
Definition quiet_until (d : Dispatcher) (t : Z) : Prop :=
  timer_C (d_slidingTimer d) = false /\ timer_C (d_maxTimer d) = false /\
  (forall x, timer_deadline (d_slidingTimer d) = Some x -> t <= x) /\
  (forall x, timer_deadline (d_maxTimer d) = Some x -> t <= x).

(** [APublish] is the handler of a fired timer: the timers, the call of
    [Pub] and the variables after it. The call returns once the library took
    the message, which has no buffer for it. A call that takes some time is
    [APublish] followed by [ATime] without an event in between: both timers
    were set to a decade before the call, and nobody else sees the variables.
    That the library may make the dispatcher wait, or wait for ever, is the
    subject of [ProxyInform] and [Convergence], where the call is an entry of
    [y_pubs] and [dispatcher_waits] holds it back until the library took
    it. *)
Inductive dispatch_step : Dispatcher -> action -> Dispatcher -> Prop :=
| step_time d t : d_now d < t -> quiet_until d t -> dispatch_step d ATime (advance d t)
| step_event d e d' : on_event d e = Some d' -> dispatch_step d (AEvent (d_now d) e) d'
| step_sliding d d' : timer_C (d_slidingTimer d) = true -> on_sliding d = Some d' ->
    dispatch_step d APublish d'
| step_max d d' : timer_C (d_maxTimer d) = true -> on_max d = Some d' ->
    dispatch_step d APublish d'.

(** Runs from the start; the actions are in reverse order. *)
Inductive dispatch_run : list action -> Dispatcher -> Prop :=
| run_init : dispatch_run [] dispatcher_init
| run_step trace d a d' : dispatch_run trace d -> dispatch_step d a d' -> dispatch_run (a :: trace) d'.

(** ** The specification of the dispatcher *)

(** The events received since the last publication, the latest first. *)
Fixpoint unsent (trace : list action) : list (Z * proxyUpdateEvent) :=
  match trace with
  | [] => []
  | AEvent t e :: trace' => (t, e) :: unsent trace'
  | APublish :: _ => []
  | ATime :: trace' => unsent trace'
  end.

(** The publications: for each, the latest event it stands for. *)
Fixpoint publications (trace : list action) : list (option proxyUpdateEvent) :=
  match trace with
  | [] => []
  | APublish :: trace' => publications trace' ++ [snd <$> head (unsent trace')]
  | _ :: trace' => publications trace'
  end.

(** ** Timers in the dispatcher *)

(** A timer is either active in the future or fired and not drained. *)
Definition timer_ok (now : Z) (t : Timer) : Prop :=
  (exists x, timer_deadline t = Some x /\ now < x /\ timer_C t = false) \/
  (timer_deadline t = None /\ timer_C t = true).

Lemma stop_and_drain_ok now t :
  timer_ok now t -> stop_and_drain t = Some (mkTimer None false).
Proof.
  intros [(x & Hd & _ & Hc)|[Hd Hc]]; unfold stop_and_drain, timer_Stop, timer_receive;
    rewrite Hd; [by rewrite Hc|]. by rewrite Hc, Hd.
Qed.

Lemma timer_receive_ok now t :
  timer_ok now t -> timer_C t = true -> timer_receive t = Some (mkTimer None false).
Proof.
  intros [(x & Hd & _ & Hc)|[Hd Hc]] Ht; [congruence|].
  unfold timer_receive. by rewrite Hc, Hd.
Qed.

Lemma timer_reset_ok now d : 0 < d -> timer_ok now (timer_Reset now d (mkTimer None false)).
Proof. intros Hd. left. exists (now + d). simpl. repeat split. lia. Qed.

Lemma timer_fire_ok now t now' :
  timer_ok now t -> timer_C t = false -> (forall x, timer_deadline t = Some x -> now' <= x) ->
  timer_ok now' (timer_fire now' t).
Proof.
  intros [(x & Hd & _ & Hc)|[Hd Hc]] Hf Hx; [|congruence].
  specialize (Hx x Hd). unfold timer_fire. rewrite Hd. destruct (Z.leb_spec x now').
  - right. done.
  - left. exists x. by rewrite Hd.
Qed.

Lemma windows_positive : 0 < proxyUpdateSlidingWindow /\ 0 < proxyUpdateMaxWindow /\ 0 < noTimeout.
Proof. unfold proxyUpdateSlidingWindow, proxyUpdateMaxWindow, noTimeout, Second. lia. Qed.

Definition timers_ok (d : Dispatcher) : Prop :=
  0 <= d_now d /\ timer_ok (d_now d) (d_slidingTimer d) /\ timer_ok (d_now d) (d_maxTimer d).

(** Every handler can run, and what it does. *)
Lemma on_event_ok d e :
  timers_ok d ->
  on_event d e = Some (mkDispatcher (d_now d)
    (mkTimer (Some (d_now d + proxyUpdateSlidingWindow)) false)
    (if d_dispatchPending d then d_maxTimer d
     else mkTimer (Some (d_now d + proxyUpdateMaxWindow)) false)
    true (d_batchCount d + 1) (Some e) (d_published d) (d_totalDispatched d)).
Proof.
  intros (_ & Hs & Hm). unfold on_event.
  rewrite (stop_and_drain_ok _ _ Hs). cbn [mbind option_bind].
  rewrite (stop_and_drain_ok _ _ Hm). by destruct (d_dispatchPending d).
Qed.

Lemma on_publish_ok d :
  timers_ok d ->
  (timer_C (d_slidingTimer d) = true -> on_sliding d =
     Some (publish d (mkTimer (Some (d_now d + noTimeout)) false)
             (mkTimer (Some (d_now d + noTimeout)) false))) /\
  (timer_C (d_maxTimer d) = true -> on_max d =
     Some (publish d (mkTimer (Some (d_now d + noTimeout)) false)
             (mkTimer (Some (d_now d + noTimeout)) false))).
Proof.
  intros (_ & Hs & Hm). unfold on_sliding, on_max. split; intros Hc.
  - by rewrite (timer_receive_ok _ _ Hs Hc), (stop_and_drain_ok _ _ Hm).
  - by rewrite (timer_receive_ok _ _ Hm Hc), (stop_and_drain_ok _ _ Hs).
Qed.

Lemma timers_ok_step d a d' : timers_ok d -> dispatch_step d a d' -> timers_ok d'.
Proof.
  intros Hok. pose proof Hok as (Hnow & Hs & Hm). pose proof windows_positive as (Hp1 & Hp2 & Hp3).
  destruct 1 as [d t Ht (Hcs & Hcm & Hds & Hdm)|d e d' He|d d' Hc He|d d' Hc He].
  - split; [simpl; lia|]. simpl. split; eapply timer_fire_ok; eauto.
  - rewrite on_event_ok in He by done. injection He as <-. split; [done|]. simpl.
    split; [by apply timer_reset_ok|]. destruct (d_dispatchPending d); [done|].
    by apply timer_reset_ok.
  - rewrite (proj1 (on_publish_ok d Hok) Hc) in He. injection He as <-. split; [done|]. simpl.
    split; by apply timer_reset_ok.
  - rewrite (proj2 (on_publish_ok d Hok) Hc) in He. injection He as <-. split; [done|]. simpl.
    split; by apply timer_reset_ok.
Qed.

Lemma timers_ok_run trace d : dispatch_run trace d -> timers_ok d.
Proof.
  induction 1 as [|trace d a d' _ IH Hstep]; [|by eapply timers_ok_step].
  pose proof windows_positive as (_ & _ & Hp).
  split; [done|]. split; left; exists noTimeout; simpl; repeat split; lia.
Qed.

(** C14: The dispatcher never waits for a timer in vain: in every reachable
    state between two calls of [Pub], a receive that drains a timer which
    [Stop] found expired gets its tick at once, so an event is taken in, the
    work of a fired timer up to [Pub] is done, and when no timer has fired
    the clock can move on. The wait of [Pub] itself, which may be long, is
    not part of this ([ProxyInform], [Convergence]). *)
Theorem dispatcher_drains_timers (trace : list action) (d : Dispatcher) :
  dispatch_run trace d ->
  (forall e, is_Some (on_event d e)) /\
  (timer_C (d_slidingTimer d) = true -> is_Some (on_sliding d)) /\
  (timer_C (d_maxTimer d) = true -> is_Some (on_max d)) /\
  (timer_C (d_slidingTimer d) = false -> timer_C (d_maxTimer d) = false ->
     exists t d', dispatch_step d ATime d' /\ d_now d' = t /\ d_now d < t).
Proof.
  intros Hrun%timers_ok_run. split_and!.
  - intros e. rewrite on_event_ok by done. by eexists.
  - intros Hc. rewrite (proj1 (on_publish_ok d Hrun) Hc). by eexists.
  - intros Hc. rewrite (proj2 (on_publish_ok d Hrun) Hc). by eexists.
  - intros Hcs Hcm. destruct Hrun as (_ & [(x & Hx & Hlt & _)|[_ ?]] & [(y & Hy & Hlt' & _)|[_ ?]]);
      try congruence.
    exists (d_now d + 1), (advance d (d_now d + 1)). split; [|simpl; split; [done|lia]].
    constructor; [lia|]. split_and!; [done|done|..]; intros z Hz; simplify_eq; lia.
Qed.

(** ** Batches *)

(** What holds of a run shorter than the initial timeout. *)
Record batch_inv (trace : list action) (d : Dispatcher) : Prop := {
  bi_pending : d_dispatchPending d = nonempty (unsent trace);
  bi_count : d_batchCount d = Z.of_nat (length (unsent trace));
  bi_event : forall t e l, unsent trace = (t, e) :: l -> d_event d = Some e;
  bi_published : d_published d = publications trace;
  bi_some : Forall is_Some (d_published d);
  bi_total : d_totalDispatched d = uint64(Z.of_nat (length (d_published d)));
  bi_idle : unsent trace = [] ->
    exists x y, d_slidingTimer d = mkTimer (Some x) false /\ d_maxTimer d = mkTimer (Some y) false /\
      noTimeout <= x /\ noTimeout <= y;
  bi_sliding : forall t e l, unsent trace = (t, e) :: l ->
    t <= d_now d <= t + proxyUpdateSlidingWindow /\
    (d_slidingTimer d = mkTimer (Some (t + proxyUpdateSlidingWindow)) false \/
     (d_now d = t + proxyUpdateSlidingWindow /\ timer_C (d_slidingTimer d) = true));
  bi_max : forall t0 e0 l, unsent trace = l ++ [(t0, e0)] ->
    d_now d <= t0 + proxyUpdateMaxWindow /\
    (d_maxTimer d = mkTimer (Some (t0 + proxyUpdateMaxWindow)) false \/
     (d_now d = t0 + proxyUpdateMaxWindow /\ timer_C (d_maxTimer d) = true))
}.

Lemma batch_inv_init : batch_inv [] dispatcher_init.
Proof.
  split; simpl; try done; try by intros ? ? [].
  intros _. exists noTimeout, noTimeout. repeat split; lia.
Qed.

Lemma batch_inv_event trace d e d' :
  timers_ok d -> batch_inv trace d -> on_event d e = Some d' ->
  batch_inv (AEvent (d_now d) e :: trace) d'.
Proof.
  intros Hok [Hp Hc He Hpub Hsome Htot Hidle Hs Hm] Hev. rewrite on_event_ok in Hev by done.
  injection Hev as <-. pose proof windows_positive as (Hp1 & Hp2 & Hp3).
  split; simpl; try done.
  - lia.
  - intros t e' l [= <- <- <-]. done.
  - intros t e' l [= <- <- <-]. split; [lia|]. by left.
  - intros t0 e0 l Hl. destruct (unsent trace) as [|u us] eqn:Eu.
    + destruct l as [|? [|? ?]]; simplify_eq/=. rewrite Hp. split; [lia|]. by left.
    + destruct l as [|v l]; simplify_eq/=. rewrite Hp. by apply (Hm t0 e0 l).
Qed.

Lemma batch_inv_time trace d t :
  batch_inv trace d -> quiet_until d t -> d_now d < t -> t < noTimeout ->
  batch_inv (ATime :: trace) (advance d t).
Proof.
  intros [Hp Hc He Hpub Hsome Htot Hidle Hs Hm] (Hcs & Hcm & Hds & Hdm) Hlt Hno.
  split; simpl; try done.
  - intros Hu. destruct (Hidle Hu) as (x & y & Ex & Ey & Hx & Hy). exists x, y.
    rewrite Ex, Ey. unfold timer_fire. simpl.
    rewrite (proj2 (Z.leb_gt _ _)) by lia. rewrite (proj2 (Z.leb_gt y t)) by lia. done.
  - intros t1 e l Hu. destruct (Hs t1 e l Hu) as [Hb [Ht|[_ Ht]]]; [|congruence].
    rewrite Ht in Hds. specialize (Hds _ eq_refl). split; [lia|]. rewrite Ht. unfold timer_fire. simpl.
    destruct (Z.leb_spec (t1 + proxyUpdateSlidingWindow) t); [right; split; [lia|done]|by left].
  - intros t0 e0 l Hu. destruct (Hm t0 e0 l Hu) as [Hb [Ht|[_ Ht]]]; [|congruence].
    rewrite Ht in Hdm. specialize (Hdm _ eq_refl). split; [lia|]. rewrite Ht. unfold timer_fire. simpl.
    destruct (Z.leb_spec (t0 + proxyUpdateMaxWindow) t); [right; split; [lia|done]|by left].
Qed.

Lemma uint_succ_length {A} (l : list A) x :
  uint64(uint64(Z.of_nat (length l)) + 1) = uint64(Z.of_nat (length (l ++ [x]))).
Proof. rewrite uint_add_l, length_app. simpl. f_equal. lia. Qed.

Lemma batch_inv_publish trace d :
  0 <= d_now d -> batch_inv trace d -> unsent trace <> [] ->
  batch_inv (APublish :: trace)
    (publish d (mkTimer (Some (d_now d + noTimeout)) false)
       (mkTimer (Some (d_now d + noTimeout)) false)).
Proof.
  intros Hnow [Hp Hc He Hpub Hsome Htot Hidle Hs Hm] Hne. split; simpl; try done.
  - rewrite Hpub. destruct (unsent trace) as [|[t e] l] eqn:Eu; [done|]. simpl.
    by rewrite (He t e l).
  - apply Forall_app. split; [done|]. apply Forall_singleton.
    destruct (unsent trace) as [|[t e] l] eqn:Eu; [done|]. rewrite (He t e l) by done. by eexists.
  - rewrite Htot. apply uint_succ_length.
  - intros _. eexists _, _. split; [done|]. split; [done|]. lia.
  - intros t0 e0 l Hl. by destruct l.
Qed.

(** A timer that fired stands for events that were not published. *)
Lemma fired_unsent trace d :
  batch_inv trace d -> timer_C (d_slidingTimer d) = true \/ timer_C (d_maxTimer d) = true ->
  unsent trace <> [].
Proof.
  intros Hi Hc Hu. destruct (bi_idle _ _ Hi Hu) as (x & y & Ex & Ey & _).
  rewrite Ex, Ey in Hc. by destruct Hc.
Qed.

Lemma batch_inv_run trace d : dispatch_run trace d -> d_now d < noTimeout -> batch_inv trace d.
Proof.
  induction 1 as [|trace d a d' Hrun IH Hstep]; intros Hno; [apply batch_inv_init|].
  pose proof (timers_ok_run _ _ Hrun) as Hok. pose proof Hok as (Hnow & _).
  destruct Hstep as [d t Ht Hq|d e d' He|d d' Hc He|d d' Hc He].
  - simpl in Hno. apply batch_inv_time; [apply IH; lia|done..].
  - apply batch_inv_event; [done| |done]. apply IH. rewrite on_event_ok in He by done.
    by injection He as <-.
  - rewrite (proj1 (on_publish_ok d Hok) Hc) in He. injection He as <-. simpl in Hno.
    apply batch_inv_publish; [done|by apply IH|]. apply (fired_unsent trace d); auto.
  - rewrite (proj2 (on_publish_ok d Hok) Hc) in He. injection He as <-. simpl in Hno.
    apply batch_inv_publish; [done|by apply IH|]. apply (fired_unsent trace d); auto.
Qed.

(** C8: Batching loses no update and makes none up: before the initial timeout
    (ten years), what was published is, for each publication, the latest
    event of the batch before it, every batch published is not empty, the
    counter counts the publications, and an event that was not published
    is pending. *)
Theorem dispatcher_publications (trace : list action) (d : Dispatcher) :
  dispatch_run trace d -> d_now d < noTimeout ->
  d_published d = publications trace /\
  Forall is_Some (d_published d) /\
  d_totalDispatched d = uint64(Z.of_nat (length (publications trace))) /\
  d_batchCount d = Z.of_nat (length (unsent trace)) /\
  (d_dispatchPending d = true <-> unsent trace <> []).
Proof.
  intros Hrun Hno. pose proof (batch_inv_run _ _ Hrun Hno) as Hi.
  split_and!; [apply Hi|apply Hi| |apply Hi|].
  - rewrite (bi_total _ _ Hi). by rewrite (bi_published _ _ Hi).
  - rewrite (bi_pending _ _ Hi). apply nonempty_true.
Qed.

(** C10: No update waits longer than the maximal window after the first event of
    its batch, nor longer than the sliding window after the last. *)
Theorem dispatcher_latency (trace : list action) (d : Dispatcher) :
  dispatch_run trace d -> d_now d < noTimeout ->
  (forall t0 e0 l, unsent trace = l ++ [(t0, e0)] -> d_now d <= t0 + 10 * Second) /\
  (forall t e l, unsent trace = (t, e) :: l -> d_now d <= t + 2 * Second).
Proof.
  intros Hrun Hno. pose proof (batch_inv_run _ _ Hrun Hno) as Hi. split.
  - intros t0 e0 l Hu. by destruct (bi_max _ _ Hi t0 e0 l Hu) as [? _].
  - intros t e l Hu. destruct (bi_sliding _ _ Hi t e l Hu) as [[_ ?] _]. done.
Qed.

(** A run with one event, published by the sliding window. *)
Definition example_update : proxyUpdateEvent :=
  mkProxyUpdateEvent (mkPubSubMessage ProxyUpdate None None) (Kind_String ProxyUpdate).

Lemma example_run :
  exists d, dispatch_run [APublish; ATime; AEvent 0 example_update] d /\ d_now d = 2 * Second.
Proof.
  eexists. split.
  - eapply run_step; [eapply run_step; [eapply run_step; [constructor|]|]|].
    + apply (step_event dispatcher_init). reflexivity.
    + apply (step_time _ (2 * Second)); [done|]. split_and!; [done|done|..]; by intros x [= <-].
    + apply step_sliding; reflexivity.
  - reflexivity.
Defined.

Lemma dispatcher_drains_timers_witness :
  is_Some (on_event dispatcher_init example_update) /\
  exists t d', dispatch_step dispatcher_init ATime d' /\ d_now d' = t /\ 0 < t.
Proof.
  destruct (dispatcher_drains_timers [] dispatcher_init run_init) as (He & _ & _ & Ht).
  split; [apply He|]. apply Ht; reflexivity.
Defined.

Lemma dispatcher_publications_witness :
  exists d, dispatch_run [APublish; ATime; AEvent 0 example_update] d /\
    d_published d = [Some example_update].
Proof.
  destruct example_run as (d & Hrun & Hnow). exists d. split; [exact Hrun|].
  refine (proj1 (dispatcher_publications _ d Hrun _)). rewrite Hnow. reflexivity.
Defined.

Lemma dispatcher_latency_witness :
  exists d, dispatch_run [AEvent 0 example_update] d /\ d_now d <= 0 + 10 * Second.
Proof.
  eexists.
  assert (dispatch_run [AEvent 0 example_update]
    (default dispatcher_init (on_event dispatcher_init example_update))) as Hrun.
  { eapply run_step; [constructor|]. apply (step_event dispatcher_init). reflexivity. }
  split; [exact Hrun|].
  apply (proj1 (dispatcher_latency _ _ Hrun ltac:(reflexivity)) 0 example_update []). reflexivity.
Defined.

(** ** Classification *)

(** A message that may change the configuration of proxies is always passed
    on; one that is broadcast goes to the dispatcher and one for a single
    proxy is published at once; every message is published once for other
    clients. The counters count exactly that. *)
Theorem processEvent_spec (c : Counters) (msg : PubSubMessage) :
  let '(c', effects) := processEvent c msg in
  totalQEventCount c' = totalQEventCount c /\
  last effects = Some (PubKubeEvent msg (Kind_String (psm_Kind msg))) /\
  match getProxyUpdateEvent msg with
  | None => c' = c /\ effects = [PubKubeEvent msg (Kind_String (psm_Kind msg))]
  | Some ev =>
      pue_msg ev = msg /\
      totalQProxyEventCount c' = uint64(totalQProxyEventCount c + 1) /\
      ((pue_topic ev = Kind_String ProxyUpdate /\ head effects = Some (SendDispatcher ev) /\
        totalDispatchedProxyEventCount c' = totalDispatchedProxyEventCount c) \/
       (exists old new, psm_Kind msg = PodUpdated /\
          psm_OldObj msg = Some (ObjPod old) /\ psm_NewObj msg = Some (ObjPod new) /\
          pue_topic ev = "proxy:" +:+ pod_UID new /\
          head effects = Some (PubProxyUpdate msg (pue_topic ev)) /\
          totalDispatchedProxyEventCount c' = uint64(totalDispatchedProxyEventCount c + 1)))
  end.
Proof.
  assert (forall ev, getProxyUpdateEvent msg = Some ev ->
    pue_msg ev = msg /\ (pue_topic ev = Kind_String ProxyUpdate \/
      exists old new, psm_Kind msg = PodUpdated /\
        psm_OldObj msg = Some (ObjPod old) /\ psm_NewObj msg = Some (ObjPod new) /\
        pue_topic ev = "proxy:" +:+ pod_UID new)) as Hev.
  { intros ev. unfold getProxyUpdateEvent, broadcast.
    repeat case_match; intros [= <-]; simpl; (split; [done|]); eauto 10. }
  unfold processEvent. destruct (getProxyUpdateEvent msg) as [ev|]; [|done].
  destruct (Hev ev eq_refl) as [Hmsg [Ht|(old & new & Hk & Ho & Hn & Ht)]]; rewrite Ht; simpl.
  - split_and!; try done. by left.
  - split_and!; try done. right. exists old, new. by rewrite Hmsg.
Qed.

(** Which updates of a pod reach which proxies: a change of the scrape
    annotation reaches the proxy of the pod; any other update of a pod with
    an identity is broadcast to every proxy. *)
Theorem pod_update_topics (old new : KPod) :
  let ann p := map_get (pod_Annotations p) PrometheusScrapeAnnotation in
  pue_topic <$> getProxyUpdateEvent (mkPubSubMessage PodUpdated (Some (ObjPod old)) (Some (ObjPod new)))
  = if decide (ann old = ann new)
    then (if decide (pod_UID new = "") then None else Some (Kind_String ProxyUpdate))
    else Some ("proxy:" +:+ pod_UID new).
Proof.
  simpl. unfold getProxyUpdateEvent. simpl.
  destruct (String.eqb_spec (map_get (pod_Annotations old) PrometheusScrapeAnnotation)
              (map_get (pod_Annotations new) PrometheusScrapeAnnotation)); simpl;
    [rewrite decide_True by done|by rewrite decide_False by done].
  destruct (String.eqb_spec (pod_UID new) ""); simpl; by case_decide.
Qed.
