(* ===== verification/Wiring.v ===== *)
(** * Wiring ([newClient], [NewConfigurator], [NewMultiClusterController],
    [NewInformerCollection], [NewMeshCatalog])

    Which informers a process has, which handlers it registers on them, and
    what becomes of a change of a resource on its way to the broker. An
    informer that missed a deletion while its watch was interrupted reports
    it with a tombstone, [cache.DeletedFinalStateUnknown], which is no
    Kubernetes object. *)

From Stdlib Require Import String.
From S2P Require Import Prelude GoStrings Constants MeshService ApiTypes Informers Kube.
From S2P Require Import Multicluster Configurator Broker.

(** ** Informers *)

Inductive InformerKey :=
| InformerKeyNamespace | InformerKeyService | InformerKeyPod | InformerKeyEndpoints
| InformerKeyServiceAccount | InformerKeyEcnetConfig | InformerKeyServiceImport
| InformerKeyGlobalTrafficPolicy.

#[global] Instance InformerKey_eq_dec : EqDecision InformerKey.
Proof. solve_decision. Defined.

(** A handler of an informer. *)
Record Handler := mkHandler {
  h_shouldObserve : option (Object -> bool);
  h_eventTypes : EventTypes
}.

(** The informers of a collection and the handlers on them. *)
Record Collection := mkCollection {
  col_ecnetName : string;
  col_informers : list InformerKey;
  col_handlers : list (InformerKey * Handler)
}.

Definition add_informers (keys : list InformerKey) (c : Collection) : Collection :=
  mkCollection (col_ecnetName c) (col_informers c ++ keys) (col_handlers c).

(** The options: each adds the informers of a client. *)
Definition WithKubeClient : Collection -> Collection :=
  add_informers [InformerKeyNamespace; InformerKeyService; InformerKeyServiceAccount;
                 InformerKeyPod; InformerKeyEndpoints].
Definition WithConfigClient : Collection -> Collection := add_informers [InformerKeyEcnetConfig].
Definition WithMultiClusterClient : Collection -> Collection :=
  add_informers [InformerKeyServiceImport; InformerKeyGlobalTrafficPolicy].

(** The label selector of the namespace informer. *)
Definition monitorNamespaceSelector (c : Collection) : string :=
  ECNETKubeResourceMonitorAnnotation +:+ "=" +:+ col_ecnetName c.

(** [run]: the caches of the informers synchronise, or the process is
    stopped before they do. *)
Definition col_run (synced : list InformerKey -> bool) (c : Collection) : option string :=
  if synced (col_informers c) then None else Some "failed initial cache sync for informers".

(** A nil option is skipped. *)
Definition NewInformerCollection (synced : list InformerKey -> bool) (ecnetName : string)
  (opts : list (option (Collection -> Collection))) : string + Collection :=
  let ic := foldl (fun ic opt => match opt with Some f => f ic | None => ic end)
              (mkCollection ecnetName [] []) opts in
  match col_run synced ic with Some err => inl err | None => inr ic end.

(** Adding a handler to an informer that is missing is logged only. *)
Definition AddEventHandler (key : InformerKey) (h : Handler) (c : Collection) : Collection :=
  if bool_decide (key ∈ col_informers c)
  then mkCollection (col_ecnetName c) (col_informers c) (col_handlers c ++ [(key, h)])
  else c.

(** ** The Kubernetes controller ([client.go]) *)

Inductive K8sInformerKey := Namespaces | Services | Pods | Endpoints | ServiceAccounts.

(** The namespace of a Kubernetes object; a tombstone is none. *)
Definition GetObjectNamespace (obj : Object) : option string :=
  match obj with
  | ObjPod p => Some (pod_Namespace p)
  | ObjEcnetConfig c => Some (ec_Namespace c)
  | ObjServiceImport s => Some (si_Namespace s)
  | ObjGlobalTrafficPolicy g => Some (gtp_Namespace g)
  | ObjOther ns => Some ns
  | DeletedFinalStateUnknown _ => None
  end.

(** Every namespace is monitored. *)
Definition col_IsMonitoredNamespace (c : Collection) (_ : string) : bool := true.

Definition shouldObserve (c : Collection) (obj : Object) : bool :=
  match GetObjectNamespace obj with
  | None => false
  | Some ns => col_IsMonitoredNamespace c ns
  end.

Definition initNamespaceMonitor (c : Collection) : Collection :=
  AddEventHandler InformerKeyNamespace
    (mkHandler None (mkEventTypes NamespaceAdded NamespaceUpdated NamespaceDeleted)) c.

Definition initServicesMonitor (c : Collection) : Collection :=
  AddEventHandler InformerKeyService
    (mkHandler (Some (shouldObserve c)) (mkEventTypes ServiceAdded ServiceUpdated ServiceDeleted)) c.

Definition initServiceAccountsMonitor (c : Collection) : Collection :=
  AddEventHandler InformerKeyServiceAccount
    (mkHandler (Some (shouldObserve c))
       (mkEventTypes ServiceAccountAdded ServiceAccountUpdated ServiceAccountDeleted)) c.

Definition initPodMonitor (c : Collection) : Collection :=
  AddEventHandler InformerKeyPod
    (mkHandler (Some (shouldObserve c)) (mkEventTypes PodAdded PodUpdated PodDeleted)) c.

Definition initEndpointMonitor (c : Collection) : Collection :=
  AddEventHandler InformerKeyEndpoints
    (mkHandler (Some (shouldObserve c)) (mkEventTypes EndpointAdded EndpointUpdated EndpointDeleted)) c.

Definition informerInitHandlerMap (k : K8sInformerKey) : Collection -> Collection :=
  match k with
  | Namespaces => initNamespaceMonitor
  | Services => initServicesMonitor
  | ServiceAccounts => initServiceAccountsMonitor
  | Pods => initPodMonitor
  | Endpoints => initEndpointMonitor
  end.

Definition newClient (selectInformers : list K8sInformerKey) (c : Collection) : Collection :=
  let selectInformers :=
    if negb (nonempty selectInformers)
    then [Namespaces; Services; ServiceAccounts; Pods; Endpoints] else selectInformers in
  foldl (fun c k => informerInitHandlerMap k c) c selectInformers.

(** ** The configurator and the multi-cluster controller *)

Definition NewConfigurator (c : Collection) : Collection :=
  AddEventHandler InformerKeyEcnetConfig
    (mkHandler None (mkEventTypes EcnetConfigAdded EcnetConfigUpdated EcnetConfigDeleted)) c.

Definition multicluster_shouldObserve (obj : Object) : bool :=
  match obj with
  | ObjServiceImport _ | ObjGlobalTrafficPolicy _ => true
  | _ => false
  end.

Definition NewMultiClusterController (c : Collection) : Collection :=
  let c := AddEventHandler InformerKeyServiceImport
    (mkHandler (Some multicluster_shouldObserve)
       (mkEventTypes ServiceImportAdded ServiceImportUpdated ServiceImportDeleted)) c in
  AddEventHandler InformerKeyGlobalTrafficPolicy
    (mkHandler (Some multicluster_shouldObserve)
       (mkEventTypes GlobalTrafficPolicyAdded GlobalTrafficPolicyUpdated GlobalTrafficPolicyDeleted)) c.

(** The part that the [main] of the controller and of the bridge share. *)
Definition wire (synced : list InformerKey -> bool) (ecnetName : string) : string + Collection :=
  match NewInformerCollection synced ecnetName
          [Some WithKubeClient; Some WithConfigClient; Some WithMultiClusterClient] with
  | inl err => inl err
  | inr c => inr (NewMultiClusterController (newClient [] (NewConfigurator c)))
  end.

(** ** From a change to the broker *)

(** The messages that the handlers of an informer queue for an event. *)
Definition deliver (c : Collection) (key : InformerKey) (ev : ResourceEvent) : list PubSubMessage :=
  omap (fun '(k, h) => if bool_decide (k = key)
                       then GetEventHandlerFuncs (h_shouldObserve h) (h_eventTypes h) ev else None)
    (col_handlers c).

(** ** What the wired system delivers *)

(** The objects an informer caches. *)
Definition typed (key : InformerKey) (obj : Object) : Prop :=
  match key, obj with
  | InformerKeyPod, ObjPod _ => True
  | InformerKeyEcnetConfig, ObjEcnetConfig _ => True
  | InformerKeyServiceImport, ObjServiceImport _ => True
  | InformerKeyGlobalTrafficPolicy, ObjGlobalTrafficPolicy _ => True
  | (InformerKeyNamespace | InformerKeyService | InformerKeyEndpoints
    | InformerKeyServiceAccount), ObjOther _ => True
  | _, _ => False
  end.

Definition typed_event (key : InformerKey) (ev : ResourceEvent) : Prop :=
  match ev with
  | OnAdd o | OnDelete o => typed key o
  | OnUpdate o o' => typed key o /\ typed key o'
  end.

(** The announcements of a resource. *)
Definition kinds (key : InformerKey) : EventTypes :=
  match key with
  | InformerKeyNamespace => mkEventTypes NamespaceAdded NamespaceUpdated NamespaceDeleted
  | InformerKeyService => mkEventTypes ServiceAdded ServiceUpdated ServiceDeleted
  | InformerKeyPod => mkEventTypes PodAdded PodUpdated PodDeleted
  | InformerKeyEndpoints => mkEventTypes EndpointAdded EndpointUpdated EndpointDeleted
  | InformerKeyServiceAccount =>
      mkEventTypes ServiceAccountAdded ServiceAccountUpdated ServiceAccountDeleted
  | InformerKeyEcnetConfig => mkEventTypes EcnetConfigAdded EcnetConfigUpdated EcnetConfigDeleted
  | InformerKeyServiceImport =>
      mkEventTypes ServiceImportAdded ServiceImportUpdated ServiceImportDeleted
  | InformerKeyGlobalTrafficPolicy =>
      mkEventTypes GlobalTrafficPolicyAdded GlobalTrafficPolicyUpdated GlobalTrafficPolicyDeleted
  end.

Definition announce (key : InformerKey) (ev : ResourceEvent) : PubSubMessage :=
  match ev with
  | OnAdd o => mkPubSubMessage (et_Add (kinds key)) None (Some o)
  | OnUpdate o o' => mkPubSubMessage (et_Update (kinds key)) (Some o) (Some o')
  | OnDelete o => mkPubSubMessage (et_Delete (kinds key)) (Some o) None
  end.

(** Routes are computed from these resources. *)
Definition routing_resource (key : InformerKey) : Prop :=
  match key with
  | InformerKeyEndpoints | InformerKeyServiceImport | InformerKeyGlobalTrafficPolicy => True
  | _ => False
  end.

Lemma wire_deliver synced name c key ev :
  wire synced name = inr c -> typed_event key ev -> deliver c key ev = [announce key ev].
Proof.
  unfold wire, NewInformerCollection, col_run. simpl. destruct (synced _); [|done]. intros [= <-] Ht.
  unfold deliver. by destruct key, ev as [o|o o'|o]; simpl in Ht; try destruct Ht;
    destruct o; try done; destruct o'.
Qed.

(** The resources whose handlers have no filter. *)
Definition unfiltered (key : InformerKey) : Prop :=
  key = InformerKeyNamespace \/ key = InformerKeyEcnetConfig.

#[export] Instance unfiltered_dec key : Decision (unfiltered key).
Proof. unfold unfiltered. apply _. Defined.

Lemma wire_missed synced name c key k :
  wire synced name = inr c ->
  deliver c key (OnDelete (DeletedFinalStateUnknown k))
  = if decide (unfiltered key) then [announce key (OnDelete (DeletedFinalStateUnknown k))] else [].
Proof.
  unfold wire, NewInformerCollection, col_run. simpl. destruct (synced _); [|done].
  intros [= <-]. by destruct key.
Qed.

Lemma announce_dispatched key ev counters :
  routing_resource key ->
  SendDispatcher (mkProxyUpdateEvent (announce key ev) (Kind_String ProxyUpdate))
  ∈ (processEvent counters (announce key ev)).2.
Proof.
  intros Hr. unfold processEvent, getProxyUpdateEvent.
  destruct key; try done; destruct ev; simpl; apply list_elem_of_here.
Qed.


(** So a service import, a traffic policy or endpoints that are gone while
    the informer was disconnected queue nothing, and the proxies keep their
    routes until something else changes. *)
Theorem missed_deletions_dropped synced name c key k :
  wire synced name = inr c -> routing_resource key ->
  deliver c key (OnDelete (DeletedFinalStateUnknown k)) = [].
Proof.
  intros Hw Hr. rewrite (wire_missed synced name) by done.
  rewrite decide_False; [done|]. by destruct key; intros [|].
Qed.

(** ** Witnesses *)

Definition all_synced (_ : list InformerKey) : bool := true.

Definition example_import : ServiceImport :=
  mkServiceImport "bookinfo" "reviews" "uid-1" [] "*".

Lemma wired : exists c, wire all_synced "ecnet" = inr c.
Proof. by eexists. Qed.


Lemma missed_deletions_dropped_witness :
  exists c, wire all_synced "ecnet" = inr c /\
    deliver c InformerKeyServiceImport (OnDelete (DeletedFinalStateUnknown "bookinfo/reviews")) = [].
Proof.
  destruct wired as [c Hc]. exists c. split; [exact Hc|].
  exact (missed_deletions_dropped all_synced "ecnet" c InformerKeyServiceImport "bookinfo/reviews" Hc I).
Defined.
