(* ===== verification/InformerSetup.v ===== *)
(** * Making the informers of a process ([k8s/informers/informers.go])

    [Wiring] says which informers a collection has; here they are made: each
    option builds the factories of its client and takes informers from them,
    and [run] starts every informer of the collection. The informers of the
    core resources are made by client-go, and selectors are printed by
    apimachinery: they are parameters. *)

From Stdlib Require Import String.
From S2P Require Import Prelude GoStrings GoIO Constants MeshService ApiTypes KubeAPI RestClient Informers.
From S2P Require Import InformerFactory Wiring.

Definition key_string (k : InformerKey) : string :=
  match k with
  | InformerKeyNamespace => "Namespace"
  | InformerKeyService => "Service"
  | InformerKeyPod => "Pod"
  | InformerKeyEndpoints => "Endpoints"
  | InformerKeyServiceAccount => "ServiceAccount"
  | InformerKeyEcnetConfig => "EcnetConfig"
  | InformerKeyServiceImport => "ServiceImport"
  | InformerKeyGlobalTrafficPolicy => "GlobalTrafficPolicy"
  end.

Definition DefaultKubeEventResyncInterval : Z := 0 * 1000000000.

Definition errSyncingCaches : string := "failed initial cache sync for informers".

Definition set_LabelSelector (sel : string) (o : ListOptions) : ListOptions :=
  mkListOptions sel (lo_FieldSelector o) (lo_Watch o) (lo_TimeoutSeconds o).
Definition set_FieldSelector (sel : string) (o : ListOptions) : ListOptions :=
  mkListOptions (lo_LabelSelector o) sel (lo_Watch o) (lo_TimeoutSeconds o).

Section Setup.
Context {Obj : Type} (Name : Obj -> string) {RO : RangeOrder}.

(** What client-go and apimachinery give. *)
Context (core_informer : TweakListOptionsFunc -> Z -> string -> SharedIndexInformer (Obj:=Obj))
  (SelectorFromSet : gmap string string -> string) (OneTermEqualSelector : string -> string -> string)
  (wait : nat -> list nat -> bool).

(** The collection, with the heap of its informers. *)
Record InformerCollection := mkInformerCollection {
  ic_informers : gmap string nat;
  ic_ecnetName : string
}.

Definition set_informer (ic : InformerCollection) (k : InformerKey) (i : nat) : InformerCollection :=
  mkInformerCollection (<[key_string k := i]> (ic_informers ic)) (ic_ecnetName ic).

Definition InformerCollectionOption : Type := InformerCollection * Pool (Obj:=Obj) -> InformerCollection * Pool (Obj:=Obj).

(** An informer of a core resource, from the factory of client-go. *)
Definition take_core (tweak : TweakListOptionsFunc) (kind : string) (k : InformerKey)
    : InformerCollectionOption := fun '(ic, p) =>
  let '(i, p') := alloc (core_informer tweak DefaultKubeEventResyncInterval kind) p in
  (set_informer ic k i, p').

Definition WithKubeClient : InformerCollectionOption := fun '(ic, p) =>
  let monitorNamespaceLabel : gmap string string := {[ECNETKubeResourceMonitorAnnotation := ic_ecnetName ic]} in
  let labelSelector := SelectorFromSet monitorNamespaceLabel in
  let option := Some (set_LabelSelector labelSelector) in
  let s := take_core option "Namespace" InformerKeyNamespace (ic, p) in
  let s := take_core None "Service" InformerKeyService s in
  let s := take_core None "ServiceAccount" InformerKeyServiceAccount s in
  let s := take_core None "Pod" InformerKeyPod s in
  take_core None "Endpoints" InformerKeyEndpoints s.

Definition WithConfigClient (configClient : Clientset) (ecnetConfigName ecnetNamespace : string)
    : InformerCollectionOption := fun '(ic, p) =>
  let listOption := WithTweakListOptions
    (Some (set_FieldSelector (OneTermEqualSelector "metadata.name" ecnetConfigName))) in
  let f := NewSharedInformerFactoryWithOptions (cs_group configClient) DefaultKubeEventResyncInterval
             [WithNamespace ecnetNamespace; listOption] in
  let '(i, (_, p')) := EcnetConfigs_Informer Name (V1alpha1 f) (f, p) in
  (set_informer ic InformerKeyEcnetConfig i, p').

Definition WithMultiClusterClient (multiclusterClient : Clientset) : InformerCollectionOption := fun '(ic, p) =>
  let f := NewSharedInformerFactory (cs_group multiclusterClient) DefaultKubeEventResyncInterval in
  let '(i, (f', p')) := ServiceImports_Informer Name (V1alpha1 f) (f, p) in
  let '(j, (_, p'')) := GlobalTrafficPolicies_Informer Name (V1alpha1 f') (f', p') in
  (set_informer (set_informer ic InformerKeyServiceImport i) InformerKeyGlobalTrafficPolicy j, p'').

(** [run]: the map and the informers in it are never nil here. The informers are waited for together. *)
Definition run (stop : nat) (s : InformerCollection * Pool (Obj:=Obj)) : option string * Pool (Obj:=Obj) :=
  let '(ic, p) := s in
  let '(p', hasSynced) := foldl (fun '(p, hasSynced) '(_, informer) =>
      (go_Run informer stop p, hasSynced ++ [informer])) (p, []) (range (ic_informers ic)) in
  (if wait stop hasSynced then None else Some errSyncingCaches, p').

Definition NewInformerCollection (ecnetName : string) (stop : nat) (opts : list (option InformerCollectionOption))
    (p : Pool (Obj:=Obj)) : (string + InformerCollection) * Pool (Obj:=Obj) :=
  let s := foldl (fun s opt => match opt with Some f => f s | None => s end)
             (mkInformerCollection ∅ ecnetName, p) opts in
  let '(err, p') := run stop s in
  (match err with Some err => inl err | None => inr s.1 end, p').

(** The options of the two processes. *)
Definition main_options (configClient multiclusterClient : Clientset) (ecnetConfigName ecnetNamespace : string)
  : list (option InformerCollectionOption) :=
  [Some WithKubeClient; Some (WithConfigClient configClient ecnetConfigName ecnetNamespace);
   Some (WithMultiClusterClient multiclusterClient)].

(** ** What the informers ask for *)

(** A request for the list of a resource. *)
Definition asks (r : RestRequest Obj) (gv : GroupVersion) (resource ns : string) (opts : ListOptions) : Prop :=
  rq_verb r = VGet /\ rq_name r = None /\ rc_GroupVersion (rq_client r) = Some gv /\
  rq_resource r = resource /\ rq_namespace r = ns /\ rq_params r = ListParams opts /\
  rq_timeout r = list_timeout opts.

(** Which resource an informer of the program's own kinds follows, in
    which namespace and under which filter. *)
Definition follows (ecnetConfigName ecnetNamespace : string) (k : InformerKey)
  : option (GroupVersion * string * string * (ListOptions -> ListOptions)) :=
  match k with
  | InformerKeyEcnetConfig =>
      Some (config_SchemeGroupVersion, "ecnetconfigs", ecnetNamespace,
            set_FieldSelector (OneTermEqualSelector "metadata.name" ecnetConfigName))
  | InformerKeyServiceImport => Some (flomesh_SchemeGroupVersion, "serviceimports", NamespaceAll, id)
  | InformerKeyGlobalTrafficPolicy =>
      Some (flomesh_SchemeGroupVersion, "globaltrafficpolicies", NamespaceAll, id)
  | _ => None
  end.

Lemma run_loop stop l (p : Pool (Obj:=Obj)) acc :
  foldl (fun '(p, hasSynced) '((_, informer) : string * nat) =>
    (go_Run informer stop p, hasSynced ++ [informer])) (p, acc) l =
  (mkPool (p_heap p) (p_runs p ++ map (fun i => (i, stop)) l.*2) (p_running p ++ map (fun i => (i, stop)) l.*2),
   acc ++ l.*2).
Proof.
  revert p acc. induction l as [|[k i] l IH]; intros p acc; simpl.
  - destruct p. simpl. by rewrite !app_nil_r.
  - rewrite IH. unfold go_Run. simpl. by rewrite <-!app_assoc.
Qed.

(** The informers the options make: their places in the heap, by key. *)
Definition made_informers : gmap string nat :=
  foldl (fun m '(k, i) => <[k := i]> m) ∅
    [("Namespace", 0%nat); ("Service", 1%nat); ("ServiceAccount", 2%nat); ("Pod", 3%nat);
     ("Endpoints", 4%nat); ("EcnetConfig", 5%nat); ("ServiceImport", 6%nat); ("GlobalTrafficPolicy", 7%nat)].

Definition made_heap (name : string) (cc mc : Clientset) (cfg ns : string) : list (SharedIndexInformer (Obj:=Obj)) :=
  [core_informer (Some (set_LabelSelector (SelectorFromSet {[ECNETKubeResourceMonitorAnnotation := name]}))) 0 "Namespace";
   core_informer None 0 "Service"; core_informer None 0 "ServiceAccount"; core_informer None 0 "Pod";
   core_informer None 0 "Endpoints";
   NewFilteredEcnetConfigInformer Name (cs_group cc) ns 0 [NamespaceIndex]
     (Some (set_FieldSelector (OneTermEqualSelector "metadata.name" cfg)));
   NewFilteredServiceImportInformer Name (cs_group mc) NamespaceAll 0 [NamespaceIndex] None;
   NewFilteredGlobalTrafficPolicyInformer Name (cs_group mc) NamespaceAll 0 [NamespaceIndex] None].

Lemma main_options_made name cc mc cfg ns :
  foldl (fun s opt => match opt with Some f => f s | None => s end)
    (mkInformerCollection ∅ name, mkPool [] [] []) (main_options cc mc cfg ns) =
  (mkInformerCollection made_informers name, mkPool (made_heap name cc mc cfg ns) [] []).
Proof. reflexivity. Qed.

(** [run] starts the informers of the map, each once. *)
Lemma run_starts_informers stop name m heap :
  run stop (mkInformerCollection m name, mkPool heap [] []) =
  (if wait stop (range m).*2 then None else Some errSyncingCaches,
   mkPool heap (map (fun i => (i, stop)) (range m).*2) (map (fun i => (i, stop)) (range m).*2)).
Proof. unfold run. simpl. rewrite run_loop. done. Qed.

(** C11: A process whose caches synchronise has an informer for each of the
    kinds its handlers are registered on; the informers of its own resources
    list and watch that resource of the group of their client, the
    configuration only in the namespace of the control plane and by its name, the others in
    all namespaces; every informer is started once, with the stop channel
    of the process. Otherwise the collection fails. *)
Theorem collection_follows_resources lib kubeConfig cc mc name cfg ns stop :
  RestClient.NewForConfig lib config_SchemeGroupVersion kubeConfig = inr cc ->
  RestClient.NewForConfig lib flomesh_SchemeGroupVersion kubeConfig = inr mc ->
  let '(res, p) := NewInformerCollection name stop (main_options cc mc cfg ns) (mkPool [] [] []) in
  (p_runs p).*1 ≡ₚ seq 0 8 /\ Forall (fun r => r.2 = stop) (p_runs p) /\
  match res with
  | inl err =>
      err = errSyncingCaches /\ Wiring.wire (fun _ => false) name = inl err
  | inr ic => exists c,
      Wiring.wire (fun _ => true) name = inr c /\
      (forall k, k ∈ col_informers c -> exists i inf, ic_informers ic !! key_string k = Some i /\
         p_heap p !! i = Some inf /\
         forall gv resource ns' tweak, follows cfg ns k = Some (gv, resource, ns', tweak) ->
         forall o, asks (inf_ListFunc inf o) gv resource ns' (tweak o) /\
                   asks (inf_WatchFunc inf o) gv resource ns' (set_Watch (tweak o)))
  end.
Proof.
  intros (Hc & _)%NewForConfig_group (Hm & _)%NewForConfig_group.
  unfold NewInformerCollection. rewrite main_options_made, run_starts_informers.
  assert (Hl : (range made_informers).*2 ≡ₚ seq 0 8).
  { rewrite range_perm. by vm_compute; solve_Permutation. }
  split_and!.
  - simpl. rewrite <-list_fmap_compose. simpl. by rewrite list_fmap_id.
  - apply Forall_forall. intros r Hr%list_elem_of_In. apply in_map_iff in Hr as (i & <- & _). done.
  - destruct (wait _ _); [|done]. eexists. split; [reflexivity|]. intros k _.
    destruct k; eexists _, _; (split; [by vm_compute|]); (split; [reflexivity|]); simpl;
      intros; simplify_eq/=; by repeat split.
Qed.

End Setup.

(** ** A process with one server configuration *)

Definition setup_config_client : Clientset :=
  mkClientset (setConfigDefaults sample_lib config_SchemeGroupVersion (set_UserAgent sample_lib sample_conf))
    (set_UserAgent sample_lib sample_conf).
Definition setup_multicluster_client : Clientset :=
  mkClientset (setConfigDefaults sample_lib flomesh_SchemeGroupVersion (set_UserAgent sample_lib sample_conf))
    (set_UserAgent sample_lib sample_conf).

Lemma collection_follows_resources_witness :
  let '(res, p) := NewInformerCollection (Obj:=string) (RO:=any_order) (fun _ _ => true) "ecnet" 7
    (main_options (fun o => o) (fun _ resync kind => mkSharedIndexInformer
         (fun o => tc_List (ecnetConfigs (fun x => x) sample_conf "") o)
         (fun o => tc_Watch (ecnetConfigs (fun x => x) sample_conf "") o) kind resync [])
       (fun _ => "") (fun k v => k +:+ "=" +:+ v) setup_config_client setup_multicluster_client
       "ecnet-config" "ecnet-system") (mkPool [] [] []) in
  (p_runs p).*1 ≡ₚ seq 0 8 /\ exists ic, res = inr ic.
Proof.
  pose proof (collection_follows_resources (Obj:=string) (fun o => o) (RO:=any_order)
    (fun _ resync kind => mkSharedIndexInformer
         (fun o => tc_List (ecnetConfigs (fun x => x) sample_conf "") o)
         (fun o => tc_Watch (ecnetConfigs (fun x => x) sample_conf "") o) kind resync [])
    (fun _ => "") (fun k v => k +:+ "=" +:+ v) (fun _ _ => true)
    sample_lib sample_conf setup_config_client setup_multicluster_client "ecnet" "ecnet-config" "ecnet-system" 7
    eq_refl eq_refl) as H.
  destruct (NewInformerCollection _ _ _ _ _) as [res p] eqn:E.
  destruct H as (Hr & _ & _). split; [exact Hr|].
  apply (f_equal fst) in E. simpl in E. rewrite <-E. by eexists.
Defined.
