(* ===== verification/Ticker.v ===== *)
(** * The resync ticker ([pkg/ecnet/ticker])

    [ResyncTicker] runs a configuration watcher, and a ticker routine that
    the watcher starts and stops. The two talk over the unbuffered channel
    [stopTickerCh] and the shared flag [running]; both are modelled, with
    the interleavings of the goroutines as a step relation. *)

From Stdlib Require Import String.
From S2P Require Import Prelude Constants ApiTypes Broker.

(** ** State *)

(** A goroutine of [startTicker]: created by [go], or in its loop. *)
Inductive routine :=
| Spawned (tickInterval : Z)
| Ticking (tickInterval : Z).

(** What the watcher does once [stopTicker] returned. *)
Inductive after_stop :=
| ThenLaunch (interval : Z)
| ThenStart (interval : Z)
| ThenWatch
| ThenReturn.

(** The watcher waits in its [select], is blocked in the send of
    [stopTicker], is between the send and [running = false], or has
    returned. *)
Inductive watcher :=
| Watching
| Sending (k : after_stop)
| Sent (k : after_stop)
| Returned.

Record ResyncTicker := mkResyncTicker {
  rt_running : bool;
  rt_minTickInterval : Z;
  rt_invalidIntervalCounter : Z;
  rt_routines : list routine;
  rt_watcher : watcher;
  rt_queue : list PubSubMessage
}.

Definition set_watcher (r : ResyncTicker) (w : watcher) : ResyncTicker :=
  mkResyncTicker (rt_running r) (rt_minTickInterval r) (rt_invalidIntervalCounter r)
    (rt_routines r) w (rt_queue r).

Definition set_running (r : ResyncTicker) (b : bool) : ResyncTicker :=
  mkResyncTicker b (rt_minTickInterval r) (rt_invalidIntervalCounter r)
    (rt_routines r) (rt_watcher r) (rt_queue r).

Definition set_routines (r : ResyncTicker) (l : list routine) : ResyncTicker :=
  mkResyncTicker (rt_running r) (rt_minTickInterval r) (rt_invalidIntervalCounter r)
    l (rt_watcher r) (rt_queue r).

(** [go r.startTicker(interval)] *)
Definition go_startTicker (r : ResyncTicker) (interval : Z) : ResyncTicker :=
  set_routines r (rt_routines r ++ [Spawned interval]).

Definition NewResyncTicker (minTickInterval : Z) : ResyncTicker :=
  mkResyncTicker false minTickInterval 0 [] Returned [].

(** [Start] creates the goroutines, after a running ticker is stopped. *)
Definition launch (r : ResyncTicker) (resyncInterval : Z) : ResyncTicker :=
  let r1 := if Z.leb (rt_minTickInterval r) resyncInterval
            then go_startTicker r resyncInterval else r in
  set_watcher r1 Watching.

Definition Start (r : ResyncTicker) (resyncInterval : Z) : ResyncTicker :=
  if rt_running r then set_watcher r (Sending (ThenLaunch resyncInterval))
  else launch r resyncInterval.

(** ** [watchConfig] *)

(** What is received on the subscription: a message, or something else. *)
Definition config_update (msg : option PubSubMessage) : option (EcnetConfig * EcnetConfig) :=
  match msg with
  | Some event =>
      match psm_OldObj event, psm_NewObj event with
      | Some (ObjEcnetConfig o), Some (ObjEcnetConfig n) => Some (o, n)
      | _, _ => None
      end
  | None => None
  end.

Definition resync_interval (c : EcnetConfig) : string :=
  sc_ConfigResyncInterval (cfg_Sidecar (ec_Spec c)).

Section Watch.
Context (ParseDuration : string -> option Z).

(** The new interval, when the message changes it to one that parses. *)
Definition new_interval (msg : option PubSubMessage) : option Z :=
  match config_update msg with
  | Some (oldMeshSpec, newMeshSpec) =>
      if String.eqb (resync_interval oldMeshSpec) (resync_interval newMeshSpec) then None
      else if String.eqb (resync_interval newMeshSpec) "" then None
      else ParseDuration (resync_interval newMeshSpec)
  | None => None
  end.

(** The body of [case msg, ok := <-ecnetConfigUpdateChan], up to the send
    of [stopTicker] where there is one. *)
Definition on_config (r : ResyncTicker) (msg : option PubSubMessage) : ResyncTicker :=
  match new_interval msg with
  | None => r
  | Some newResyncInterval =>
      if Z.leb (rt_minTickInterval r) newResyncInterval then
        if rt_running r then set_watcher r (Sending (ThenStart newResyncInterval))
        else go_startTicker r newResyncInterval
      else if Z.eqb newResyncInterval 0 then set_watcher r (Sending ThenWatch)
      else mkResyncTicker (rt_running r) (rt_minTickInterval r)
             uint64(rt_invalidIntervalCounter r + 1) (rt_routines r) (rt_watcher r) (rt_queue r)
  end.

(** What follows [stopTicker]. *)
Definition resume (r : ResyncTicker) (k : after_stop) : ResyncTicker :=
  match k with
  | ThenLaunch d => launch r d
  | ThenStart d => go_startTicker (set_watcher r Watching) d
  | ThenWatch => set_watcher r Watching
  | ThenReturn => set_watcher r Returned
  end.

(** ** Steps

    [time.NewTicker] panics on an interval that is not positive. *)

Inductive label :=
| LConfig (msg : option PubSubMessage)
| LQuit
| LInternal
| LTick
| LPanic.

(** The update [startTicker] queues. *)
Definition tick_message : PubSubMessage := mkPubSubMessage ProxyUpdate None None.

Inductive ticker_step : ResyncTicker -> label -> ResyncTicker -> Prop :=
| step_config r msg :
    rt_watcher r = Watching -> ticker_step r (LConfig msg) (on_config r msg)
| step_quit r :
    rt_watcher r = Watching -> ticker_step r LQuit (set_watcher r (Sending ThenReturn))
| step_begin r pre d post :
    rt_routines r = pre ++ Spawned d :: post -> 0 < d ->
    ticker_step r LInternal (set_running (set_routines r (pre ++ Ticking d :: post)) true)
| step_panic r pre d post :
    rt_routines r = pre ++ Spawned d :: post -> d <= 0 -> ticker_step r LPanic r
| step_stop r k pre d post :
    rt_watcher r = Sending k -> rt_routines r = pre ++ Ticking d :: post ->
    ticker_step r LInternal (set_watcher (set_routines r (pre ++ post)) (Sent k))
| step_stopped r k :
    rt_watcher r = Sent k -> ticker_step r LInternal (resume (set_running r false) k)
| step_tick r pre d post :
    rt_routines r = pre ++ Ticking d :: post ->
    ticker_step r LTick
      (mkResyncTicker (rt_running r) (rt_minTickInterval r) (rt_invalidIntervalCounter r)
         (rt_routines r) (rt_watcher r) (rt_queue r ++ [tick_message])).

(** Any interleaving from [Start]; the labels are in reverse order. *)
Inductive ticker_run (min resync : Z) : list label -> ResyncTicker -> Prop :=
| ticker_start : ticker_run min resync [] (Start (NewResyncTicker min) resync)
| ticker_more trace r l r' :
    ticker_run min resync trace r -> ticker_step r l r' -> ticker_run min resync (l :: trace) r'.

(** ** The specification: one mode per sequence of configurations *)

Inductive mode :=
| Running (interval : Z)
| Off
| Stuck
| Closed
| Leaked.

(** Changing the interval. Stopping a ticker that is off never returns. *)
Definition mode_interval (min : Z) (m : mode) (interval : option Z) : mode :=
  match interval, m with
  | Some d, Running _ => if Z.leb min d then Running d else if Z.eqb d 0 then Off else m
  | Some d, Off => if Z.leb min d then Running d else if Z.eqb d 0 then Stuck else m
  | _, _ => m
  end.

Definition mode_quit (m : mode) : mode :=
  match m with Running _ => Closed | Off => Leaked | _ => m end.

Definition mode_step (min : Z) (l : label) (m : mode) : mode :=
  match l with
  | LConfig msg => mode_interval min m (new_interval msg)
  | LQuit => mode_quit m
  | _ => m
  end.

Definition mode_of (min resync : Z) (trace : list label) : mode :=
  foldr (mode_step min) (if Z.leb min resync then Running resync else Off) trace.

Definition shape (r : ResyncTicker) : watcher * list routine * bool :=
  (rt_watcher r, rt_routines r, rt_running r).

(** What the goroutines look like in a mode, once they are at rest. *)
Definition settled_shape (m : mode) : watcher * list routine * bool :=
  match m with
  | Running d => (Watching, [Ticking d], true)
  | Off => (Watching, [], false)
  | Stuck => (Sending ThenWatch, [], false)
  | Closed => (Returned, [], false)
  | Leaked => (Sending ThenReturn, [], false)
  end.

(** A new interval arrives while the routine of the previous one was
    created but has not set [running] yet. *)
Definition races (r : ResyncTicker) (l : label) : Prop :=
  match l with
  | LConfig msg => exists d e, new_interval msg = Some d /\ rt_minTickInterval r <= d /\
                               Spawned e ∈ rt_routines r
  | _ => False
  end.

(** The interleavings without that race. *)
Inductive orderly_run (min resync : Z) : list label -> ResyncTicker -> Prop :=
| orderly_start : orderly_run min resync [] (Start (NewResyncTicker min) resync)
| orderly_more trace r l r' :
    orderly_run min resync trace r -> ticker_step r l r' -> ~ races r l ->
    orderly_run min resync (l :: trace) r'.

(** The goroutines run on their own. *)
Definition internal : ResyncTicker -> ResyncTicker -> Prop :=
  rtc (fun r r' => ticker_step r LInternal r').

(** ** Simulation *)

Definition stop_mode (k : after_stop) : option mode :=
  match k with ThenWatch => Some Off | ThenReturn => Some Closed | _ => None end.

Inductive tracks : mode -> watcher * list routine * bool -> Prop :=
| tr_settled m s : settled_shape m = s -> tracks m s
| tr_starting d : tracks (Running d) (Watching, [Spawned d], false)
| tr_restarting d e : tracks (Running d) (Sending (ThenStart d), [Ticking e], true)
| tr_restarted d : tracks (Running d) (Sent (ThenStart d), [], true)
| tr_stopping m k e : stop_mode k = Some m -> tracks m (Sending k, [Ticking e], true)
| tr_stopping_early m k e : stop_mode k = Some m -> tracks m (Sending k, [Spawned e], false)
| tr_stopped m k : stop_mode k = Some m -> tracks m (Sent k, [], true).

Record ticker_inv (min : Z) (m : mode) (r : ResyncTicker) : Prop := {
  ti_min : rt_minTickInterval r = min;
  ti_tracks : tracks m (shape r);
  ti_bound : forall d, Running d = m -> min <= d;
  ti_routines : forall d, Spawned d ∈ rt_routines r \/ Ticking d ∈ rt_routines r -> min <= d
}.

(** The one place of a routine in a list of at most one. *)
Lemma singleton_split (a b : routine) pre post :
  [a] = pre ++ b :: post -> a = b /\ pre = [] /\ post = [].
Proof. destruct pre as [|? [|]]; intros; simplify_eq/=; done. Qed.

Lemma nil_split (b : routine) pre post : [] <> pre ++ b :: post.
Proof. by destruct pre. Qed.

Ltac split_routines :=
  match goal with
  | H : [] = _ ++ _ :: _ |- _ => by apply nil_split in H
  | H : [_] = _ ++ _ :: _ |- _ => apply singleton_split in H as ([=] & -> & ->); subst
  end.

Lemma tracks_watching m rts run :
  tracks m (Watching, rts, run) ->
  (exists d, m = Running d /\ rts = [Ticking d] /\ run = true) \/
  (exists d, m = Running d /\ rts = [Spawned d] /\ run = false) \/
  (m = Off /\ rts = [] /\ run = false).
Proof.
  inversion 1 as [? ? Hs| | | | | |]; subst; [|right; left; eauto].
  destruct m; simplify_eq/=; eauto.
Qed.

Lemma config_inv min m r msg :
  0 < min -> ticker_inv min m r -> rt_watcher r = Watching -> ~ races r (LConfig msg) ->
  ticker_inv min (mode_interval min m (new_interval msg)) (on_config r msg).
Proof.
  intros Hmin [Hm Ht Hb Hr] Hw Hrace. unfold on_config, races, shape in *.
  destruct r as [run mn c rts w q]; simpl in *; subst mn w.
  destruct (new_interval msg) as [d|] eqn:Hi; [|by destruct m; split].
  destruct (tracks_watching _ _ _ Ht) as [(e & -> & -> & ->)|[(e & -> & -> & ->)|(-> & -> & ->)]];
    simpl; destruct (Z.leb_spec min d); try destruct (Z.eqb_spec d 0); try lia.
  4: { exfalso. apply Hrace. exists d, e. repeat split; [done|set_solver]. }
  all: split; simpl; try done; try (by constructor).
  all: try (intros; simplify_eq; lia).
  intros ? [?|?]; set_solver.
Qed.

Lemma quit_inv min m r :
  ticker_inv min m r -> rt_watcher r = Watching ->
  ticker_inv min (mode_quit m) (set_watcher r (Sending ThenReturn)).
Proof.
  intros [Hm Ht Hb Hr] Hw. unfold shape in *.
  destruct r as [run mn c rts w q]; simpl in *; subst mn w.
  destruct (tracks_watching _ _ _ Ht) as [(e & -> & -> & ->)|[(e & -> & -> & ->)|(-> & -> & ->)]];
    split; simpl; try done; try (by constructor).
Qed.

Lemma tracks_spawned m w pre d post run :
  tracks m (w, pre ++ Spawned d :: post, run) ->
  pre = [] /\ post = [] /\ run = false /\
  ((m = Running d /\ w = Watching) \/ (exists k, w = Sending k /\ stop_mode k = Some m)).
Proof.
  generalize (eq_refl (pre ++ Spawned d :: post)).
  generalize (pre ++ Spawned d :: post) at 1 3. intros rts Hrts.
  inversion 1 as [? ? Hs| | | | | |]; subst; [destruct m; inversion Hs; subst|..];
    split_routines; eauto 8.
Qed.

Lemma tracks_ticking m k pre d post run :
  tracks m (Sending k, pre ++ Ticking d :: post, run) ->
  pre = [] /\ post = [] /\ run = true /\
  (stop_mode k = Some m \/ (exists e, k = ThenStart e /\ m = Running e)).
Proof.
  generalize (eq_refl (pre ++ Ticking d :: post)).
  generalize (pre ++ Ticking d :: post) at 1 3. intros rts Hrts.
  inversion 1 as [? ? Hs| | | | | |]; subst; [destruct m; inversion Hs; subst|..];
    split_routines; eauto 8.
Qed.

Lemma tracks_sent m k rts run :
  tracks m (Sent k, rts, run) ->
  rts = [] /\ run = true /\
  (stop_mode k = Some m \/ (exists e, k = ThenStart e /\ m = Running e)).
Proof. inversion 1 as [? ? Hs| | | | | |]; subst; [destruct m; simplify_eq/=|..]; eauto 8. Qed.

(** The steps of the goroutines keep the mode. *)
Lemma internal_inv min m r r' :
  ticker_inv min m r -> ticker_step r LInternal r' -> ticker_inv min m r'.
Proof.
  intros [Hm Ht Hb Hr] Hs. unfold shape in *.
  inversion Hs as [| |? pre d post Hrt Hd| |? k pre d post Hw Hrt|? k Hw|]; subst; clear Hs;
    destruct r as [run mn c rts w q]; simpl in *; subst.
  - apply tracks_spawned in Ht as (-> & -> & -> & [[-> ->]|(k & -> & Hk)]); split; simpl; try done.
    + by apply tr_settled.
    + intros ? [?|?]; apply Hr; set_solver.
    + by constructor.
    + intros ? [?|?]; apply Hr; set_solver.
  - apply tracks_ticking in Ht as (-> & -> & -> & [Hk|(e & -> & ->)]); split; simpl; try done;
      try (by constructor); intros ? [?|?]; set_solver.
  - apply tracks_sent in Ht as (-> & -> & [Hk|(e & -> & ->)]).
    + destruct k; simplify_eq/=; split; simpl; try done; by apply tr_settled.
    + split; simpl; try done; [by constructor|].
      intros ? [?|?]; set_solver.
Qed.

Lemma start_inv min resync : ticker_inv min (mode_of min resync []) (Start (NewResyncTicker min) resync).
Proof.
  unfold Start, launch, mode_of. simpl. destruct (Z.leb_spec min resync); split; simpl; try done.
  - by constructor.
  - intros; simplify_eq; lia.
  - intros ? [?|?]; set_solver.
  - by constructor.
  - intros ? [?|?]; set_solver.
Qed.

Lemma orderly_inv min resync trace r :
  0 < min -> orderly_run min resync trace r -> ticker_inv min (mode_of min resync trace) r.
Proof.
  intros Hmin. induction 1 as [|trace r l r' _ IH Hs Hrace]; [apply start_inv|].
  change (mode_of min resync (l :: trace)) with (mode_step min l (mode_of min resync trace)).
  destruct l; simpl.
  - inversion Hs; subst. by apply config_inv.
  - inversion Hs; subst. by apply quit_inv.
  - by eapply internal_inv.
  - inversion Hs; subst. by destruct IH.
  - by inversion Hs; subst.
Qed.

(** How far the goroutines are from rest. *)
Definition rank (r : ResyncTicker) : nat :=
  match rt_watcher r, rt_routines r with
  | Sending _, [Spawned _] => 4
  | Sending _, [Ticking _] => 3
  | Sent _, _ => 2
  | Watching, [Spawned _] => 1
  | _, _ => 0
  end.

Lemma internal_progress min m r :
  0 < min -> ticker_inv min m r ->
  shape r = settled_shape m \/
  exists r', ticker_step r LInternal r' /\ (rank r' < rank r)%nat.
Proof.
  intros Hmin [Hm Ht Hb Hr]. destruct r as [run mn c rts w q]; unfold shape in *; simpl in *.
  inversion Ht as [? ? Hs|d|d e|d|? k e Hk|? k e Hk|? k Hk]; subst; [by left|..]; right.
  - eexists; split; [apply (step_begin _ [] d []); [done|]|unfold rank; simpl; lia].
    enough (min <= d) by lia. apply Hr. set_solver.
  - eexists; split; [by apply (step_stop _ (ThenStart d) [] e [])|unfold rank; simpl; lia].
  - eexists; split; [by apply (step_stopped _ (ThenStart d))|unfold rank; simpl; lia].
  - eexists; split; [by apply (step_stop _ k [] e [])|unfold rank; simpl; lia].
  - eexists; split; [apply (step_begin _ [] e []); [done|]|unfold rank; simpl; lia].
    enough (min <= e) by lia. apply Hr. set_solver.
  - eexists; split; [by apply (step_stopped _ k)|unfold rank; destruct k; simpl in *; try discriminate; lia].
Qed.

Lemma internal_settles min m r :
  0 < min -> ticker_inv min m r -> exists r', internal r r' /\ shape r' = settled_shape m.
Proof.
  intros Hmin. remember (rank r) as n eqn:Hn. revert r Hn.
  induction (lt_wf n) as [n _ IH]; intros r -> Hi.
  destruct (internal_progress _ _ _ Hmin Hi) as [Hs|(r1 & Hs & Hlt)].
  - exists r. by split; [apply rtc_refl|].
  - destruct (IH _ Hlt r1 eq_refl) as (r' & Hr' & He); [by eapply internal_inv|].
    exists r'. split; [by eapply rtc_l|done].
Qed.

Lemma internal_star_inv min m r r' : ticker_inv min m r -> internal r r' -> ticker_inv min m r'.
Proof. intros Hi. induction 1; [done|]. eauto using internal_inv. Qed.

Lemma tracks_one m w rts run : tracks m (w, rts, run) -> (length rts <= 1)%nat.
Proof. inversion 1 as [? ? Hs| | | | | |]; subst; simpl; try lia. destruct m; simplify_eq/=; lia. Qed.

(** C9: As long as a new interval does not arrive before the routine of the
    previous one has begun, the goroutines follow the configuration: there
    is at most one ticker routine, nothing panics, and whatever the
    interleaving, when the goroutines come to rest (and they can) one
    routine ticks at the last valid interval, or none after interval 0. *)
Theorem ticker_follows_config min resync trace r :
  0 < min -> orderly_run min resync trace r ->
  (length (rt_routines r) <= 1)%nat /\
  (forall r', ~ ticker_step r LPanic r') /\
  (exists r', internal r r' /\ shape r' = settled_shape (mode_of min resync trace)) /\
  (forall r', internal r r' -> (forall r'', ~ ticker_step r' LInternal r'') ->
     shape r' = settled_shape (mode_of min resync trace)).
Proof.
  intros Hmin Hrun. pose proof (orderly_inv _ _ _ _ Hmin Hrun) as Hi.
  split_and!.
  - destruct Hi as [_ Ht _ _]. by eapply tracks_one.
  - intros r' Hs. inversion Hs as [| | |? pre d post Hrt Hd| | |]; subst.
    enough (min <= d) by lia. apply (ti_routines _ _ _ Hi). rewrite Hrt. set_solver.
  - by eapply internal_settles.
  - intros r' Hr Hq.
    destruct (internal_progress min (mode_of min resync trace) r') as [Hs|(r'' & Hs & _)]; try done.
    + by eapply internal_star_inv.
    + by destruct (Hq r'').
Qed.

(** Stopping a ticker that is not running blocks for ever: once an
    interval of 0, or the quit signal, is handled while no routine ticks,
    no step is possible any more, so later intervals are not honoured. *)
Theorem ticker_stop_blocks min resync trace r :
  0 < min -> orderly_run min resync trace r ->
  mode_of min resync trace = Stuck \/ mode_of min resync trace = Leaked ->
  forall l r', ~ ticker_step r l r'.
Proof.
  intros Hmin Hrun Hm l r' Hs.
  assert (exists k, rt_watcher r = Sending k /\ rt_routines r = []) as (k & Hw & Hr).
  { destruct (orderly_inv _ _ _ _ Hmin Hrun) as [_ Ht _ _]. unfold shape in Ht.
    destruct Hm as [Hm|Hm]; rewrite Hm in Ht;
      inversion Ht as [? ? Hsh| | | |? k' ? Hk|? k' ? Hk|? k' Hk];
      try (by destruct k'); simplify_eq/=; eauto. }
  inversion Hs; subst; rewrite ?Hr in *; try congruence; by eapply nil_split.
Qed.

(** The flag [running] is set by the routine itself, so an interval that
    arrives before a fresh routine has begun starts a second one: there is
    an interleaving after which both tick. *)
Theorem ticker_race min d e msg :
  0 < min -> min <= d -> min <= e -> new_interval msg = Some e ->
  exists trace r, ticker_run min d trace r /\ rt_watcher r = Watching /\
    rt_routines r = [Ticking d; Ticking e].
Proof.
  intros Hmin Hd He Hm.
  assert (ticker_run min d [LConfig msg]
            (mkResyncTicker false min 0 [Spawned d; Spawned e] Watching [])) as H0.
  { replace (mkResyncTicker _ _ _ _ _ _) with (on_config (Start (NewResyncTicker min) d) msg).
    - eapply ticker_more; [apply ticker_start|]. apply step_config.
      unfold Start, launch. simpl. by destruct (Z.leb min d).
    - unfold on_config. rewrite Hm. unfold Start, launch. simpl.
      rewrite (proj2 (Z.leb_le min d)) by done. simpl. by rewrite (proj2 (Z.leb_le min e)) by done. }
  eexists (LInternal :: LInternal :: [LConfig msg]), _. split; [|split].
  - eapply ticker_more; [eapply ticker_more; [exact H0|]|].
    + apply (step_begin _ [] d [Spawned e]); [done|lia].
    + apply (step_begin _ [Ticking d] e []); [done|lia].
  - done.
  - done.
Qed.

End Watch.

(** ** Concrete runs *)

(** The intervals the examples use, as [time.ParseDuration] reads them. *)
Definition example_durations (s : string) : option Z :=
  if String.eqb s "0s" then Some 0
  else if String.eqb s "30s" then Some (30 * Second)
  else if String.eqb s "1m" then Some (60 * Second)
  else None.

Definition config_with_interval (s : string) : EcnetConfig :=
  mkEcnetConfig "" ""
    (mkEcnetConfigSpec (cfg_DNS (ec_Spec zero_EcnetConfig)) (mkSidecarSpec "" 0 s)
       (cfg_RepoServer (ec_Spec zero_EcnetConfig)) (cfg_PluginChains (ec_Spec zero_EcnetConfig))).

Definition interval_update (old new : string) : option PubSubMessage :=
  Some (mkPubSubMessage EcnetConfigUpdated (Some (ObjEcnetConfig (config_with_interval old)))
          (Some (ObjEcnetConfig (config_with_interval new)))).

(** The ticker starts at 30s, and is changed to 1m. *)
Lemma example_restart :
  orderly_run example_durations (30 * Second) (30 * Second)
    [LConfig (interval_update "30s" "1m"); LInternal]
    (mkResyncTicker true (30 * Second) 0 [Ticking (30 * Second)]
       (Sending (ThenStart (60 * Second))) []).
Proof.
  eapply (orderly_more _ _ _ _ (mkResyncTicker true (30 * Second) 0 [Ticking (30 * Second)] Watching []));
    [eapply orderly_more; [apply orderly_start|..]|..].
  - exact (step_begin example_durations (Start (NewResyncTicker (30 * Second)) (30 * Second))
             [] (30 * Second) [] eq_refl eq_refl).
  - simpl. tauto.
  - exact (step_config example_durations
             (mkResyncTicker true (30 * Second) 0 [Ticking (30 * Second)] Watching [])
             (interval_update "30s" "1m") eq_refl).
  - intros (d & e & _ & _ & He). apply list_elem_of_singleton in He. discriminate He.
Defined.

(** A ticker that was never started is set to 0s. *)
Lemma example_stuck :
  orderly_run example_durations (30 * Second) 0 [LConfig (interval_update "" "0s")]
    (mkResyncTicker false (30 * Second) 0 [] (Sending ThenWatch) []).
Proof.
  eapply (orderly_more _ _ _ _ (mkResyncTicker false (30 * Second) 0 [] Watching []));
    [apply orderly_start|..].
  - exact (step_config example_durations (mkResyncTicker false (30 * Second) 0 [] Watching [])
             (interval_update "" "0s") eq_refl).
  - intros (d & e & _ & _ & He). apply elem_of_nil in He. exact He.
Defined.

Lemma ticker_follows_config_witness :
  exists r',
    internal example_durations
      (mkResyncTicker true (30 * Second) 0 [Ticking (30 * Second)]
         (Sending (ThenStart (60 * Second))) []) r' /\
    shape r' = (Watching, [Ticking (60 * Second)], true).
Proof.
  apply (ticker_follows_config example_durations (30 * Second) (30 * Second)
           [LConfig (interval_update "30s" "1m"); LInternal] _ ltac:(unfold Second; lia) example_restart).
Defined.

Lemma ticker_stop_blocks_witness :
  mode_of example_durations (30 * Second) 0 [LConfig (interval_update "" "0s")] = Stuck /\
  (forall r', ~ ticker_step example_durations
     (mkResyncTicker false (30 * Second) 0 [] (Sending ThenWatch) [])
     (LConfig (interval_update "0s" "1m")) r').
Proof.
  split; [vm_compute; reflexivity|].
  apply (ticker_stop_blocks example_durations (30 * Second) 0
           [LConfig (interval_update "" "0s")] _ ltac:(unfold Second; lia) example_stuck).
  left. vm_compute. reflexivity.
Defined.

Lemma ticker_race_witness :
  exists trace r, ticker_run example_durations (30 * Second) (30 * Second) trace r /\
    rt_watcher r = Watching /\ rt_routines r = [Ticking (30 * Second); Ticking (60 * Second)].
Proof.
  apply (ticker_race example_durations (30 * Second) (30 * Second) (60 * Second)
           (interval_update "30s" "1m")); [unfold Second; lia..|vm_compute; reflexivity].
Defined.
