(* ===== verification/Dataplane.v ===== *)
(** * The bridge data plane ([pkg/ecnet/bridge/dataplane])

    The job that keeps two eBPF maps of the bridge in step with the
    cluster: the host names the bridge answers DNS queries for, and the DNS
    servers whose answers it rewrites. The maps themselves and the packing
    of domain names are library code, and parameters here. *)

From Stdlib Require Import String Ascii.
From S2P Require Import Prelude GoStrings MapSet NetIP MeshService ApiTypes Kube Policy Catalog.

(** ** eBPF maps *)

(** The operations of a loaded [ebpf.Map], with what a successful or failed
    call does to its contents. *)
Record BpfMap (K V : Type) `{Countable K} := mkBpfMap {
  bpf_state : Type;
  bpf_view : bpf_state -> gmap K V;
  bpf_Update : bpf_state -> K -> V -> bpf_state * option string;
  bpf_Delete : bpf_state -> K -> bpf_state * option string;
  bpf_Update_view : forall s k v,
    bpf_view (bpf_Update s k v).1 =
      match (bpf_Update s k v).2 with None => <[k := v]> (bpf_view s) | Some _ => bpf_view s end;
  bpf_Delete_view : forall s k,
    bpf_view (bpf_Delete s k).1 =
      match (bpf_Delete s k).2 with None => delete k (bpf_view s) | Some _ => bpf_view s end
}.
Arguments bpf_state {K V _ _} b.
Arguments bpf_view {K V _ _} b s.
Arguments bpf_Update {K V _ _} b s k v.
Arguments bpf_Delete {K V _ _} b s k.
Arguments bpf_Update_view {K V _ _} b s k v.
Arguments bpf_Delete_view {K V _ _} b s k.

(** ** [helpers/map.go] *)

Definition ECNetDNSResolveMap : string := "/sys/fs/bpf/ecnet_dns_resdb".
Definition ECNetDNSEndpointMap : string := "/sys/fs/bpf/ecnet_dns_endpt".

Record dnsQuery := mkDnsQuery {
  dq_QType : Z;
  dq_QClass : Z;
  dq_Name : list Z
}.

#[global] Instance dnsQuery_eq_dec : EqDecision dnsQuery.
Proof. solve_decision. Defined.

#[global] Instance dnsQuery_countable : Countable dnsQuery.
Proof.
  apply (inj_countable' (fun q => (dq_QType q, dq_QClass q, dq_Name q))
           (fun '(t, c, n) => mkDnsQuery t c n)).
  by intros [].
Defined.

Record aRecord := mkARecord {
  ar_Addr : list Z;
  ar_TTL : Z
}.

(** [dns.TypeA], [dns.TypeAAAA] and [dns.ClassINET]. *)
Definition TypeA : Z := 1.
Definition TypeAAAA : Z := 28.
Definition ClassINET : Z := 1.
Definition qTypes : list Z := [TypeA; TypeAAAA].

(** [binary.BigEndian.PutUint32] *)
Definition be32 (n : Z) : list Z :=
  [uint8(Z.shiftr n 24); uint8(Z.shiftr n 16); uint8(Z.shiftr n 8); uint8(n)].

(** The address of the first of the four bytes of an IPv4 address: [nil] if
    the string does not parse, a panic on an IPv6 address. *)
Definition ip2ptr (ipstr : string) : outcome (option (list Z)) :=
  match ParseIP ipstr with
  | None => Ret None
  | Some ip => match To4 ip with Some (b :: bs) => Ret (Some (b :: bs)) | _ => Panic end
  end.

Section Bridge.
Context (resMap : BpfMap dnsQuery aRecord) (epMap : BpfMap (list Z) (list Z)).
Context (LoadPinnedMap : string -> option string) (PackDomainName : string -> list Z + string).
Context `{!RangeOrder} `{!MapSet WeightedCluster}.

(** The package variables: the address of the bridge, whether the maps are
    loaded, and the maps. *)
Record Kernel := mkKernel {
  k_bridgeIPInt : Z;
  k_dnsResolveMap : bool;
  k_dnsEndpointMap : bool;
  k_res : bpf_state resMap;
  k_ep : bpf_state epMap
}.

Definition set_handles (k : Kernel) (r e : bool) : Kernel :=
  mkKernel (k_bridgeIPInt k) r e (k_res k) (k_ep k).

Definition set_res (k : Kernel) (s : bpf_state resMap) : Kernel :=
  mkKernel (k_bridgeIPInt k) (k_dnsResolveMap k) (k_dnsEndpointMap k) s (k_ep k).

Definition set_ep (k : Kernel) (s : bpf_state epMap) : Kernel :=
  mkKernel (k_bridgeIPInt k) (k_dnsResolveMap k) (k_dnsEndpointMap k) (k_res k) s.

Definition InitLoadPinnedMap (k : Kernel) : Kernel * option string :=
  match LoadPinnedMap ECNetDNSResolveMap with
  | Some err => (set_handles k false (k_dnsEndpointMap k),
                 Some ("load map[" +:+ ECNetDNSResolveMap +:+ "] error: " +:+ err))
  | None =>
      match LoadPinnedMap ECNetDNSEndpointMap with
      | Some err => (set_handles k true false,
                     Some ("load map[" +:+ err +:+ "] error: " +:+ ECNetDNSEndpointMap))
      | None => (set_handles k true true, None)
      end
  end.

(** Using a map that could not be loaded dereferences a nil pointer. *)
Definition GetDNSResolveMap (k : Kernel) : outcome Kernel :=
  let k' := if k_dnsResolveMap k then k else (InitLoadPinnedMap k).1 in
  if k_dnsResolveMap k' then Ret k' else Panic.

Definition GetDNSEndpointMap (k : Kernel) : outcome Kernel :=
  let k' := if k_dnsEndpointMap k then k else (InitLoadPinnedMap k).1 in
  if k_dnsEndpointMap k' then Ret k' else Panic.

Definition UpdateDNSResolveEntry (k : Kernel) (name : string) (ttl : Z) : outcome Kernel :=
  for_range (fun k qType =>
    match PackDomainName (name +:+ ".") with
    | inr _ => Ret k
    | inl packed =>
        k' ← GetDNSResolveMap k;
        Ret (set_res k' (bpf_Update resMap (k_res k') (mkDnsQuery qType ClassINET packed)
                           (mkARecord (be32 (k_bridgeIPInt k')) ttl)).1)
    end) k qTypes.

Definition DeleteDNSResolveEntry (k : Kernel) (name : string) : outcome Kernel :=
  for_range (fun k qType =>
    match PackDomainName name with
    | inr _ => Ret k
    | inl packed =>
        k' ← GetDNSResolveMap k;
        Ret (set_res k' (bpf_Delete resMap (k_res k') (mkDnsQuery qType ClassINET packed)).1)
    end) k qTypes.

(** The kernel refuses a nil pointer, and the map is not changed. *)
Definition UpdateDNSEndpointEntry (k : Kernel) (dnsEndpointIP dnsClusterIP : string)
  : outcome Kernel :=
  dnsEIPPtr ← ip2ptr dnsEndpointIP;
  dnsCIPPtr ← ip2ptr dnsClusterIP;
  k' ← GetDNSEndpointMap k;
  match dnsEIPPtr, dnsCIPPtr with
  | Some eip, Some cip => Ret (set_ep k' (bpf_Update epMap (k_ep k') eip cip).1)
  | _, _ => Ret k'
  end.

Definition DeleteDNSEndpointEntry (k : Kernel) (dnsEndpointIP : string) : outcome Kernel :=
  dnsEIPPtr ← ip2ptr dnsEndpointIP;
  k' ← GetDNSEndpointMap k;
  match dnsEIPPtr with
  | Some eip => Ret (set_ep k' (bpf_Delete epMap (k_ep k') eip).1)
  | None => Ret k'
  end.

(** ** [server/jobs.go] *)

(** The state of the server the job works on. *)
Record Server := mkServer {
  srv_dnsEndpoints : gmap string string;
  srv_dnsResolves : gmap string Z;
  srv_kernel : Kernel
}.

(** [NewBridgeServer]: nothing is tracked. *)
Definition NewBridgeServer (k : Kernel) : Server := mkServer ∅ ∅ k.

Definition set_Endpoints (s : Server) (m : gmap string string) : Server :=
  mkServer m (srv_dnsResolves s) (srv_kernel s).

Definition set_Resolves (s : Server) (m : gmap string Z) : Server :=
  mkServer (srv_dnsEndpoints s) m (srv_kernel s).

Definition on_kernel (f : Kernel -> outcome Kernel) (s : Server) : outcome Server :=
  k ← f (srv_kernel s); Ret (mkServer (srv_dnsEndpoints s) (srv_dnsResolves s) k).

(** The addresses of the subsets that serve the port of the DNS service:
    the three nested loops. *)
Definition add_address (dnsSvc : MeshService) (svc : option KService)
    (latestEndpointsMap : gmap string string) (address : EndpointAddress)
  : outcome (gmap string string) :=
  if negb (String.eqb (Subdomain dnsSvc) "")
     && negb (String.eqb (Subdomain dnsSvc) (ea_Hostname address)) then Ret latestEndpointsMap
  else match ParseIP (ea_IP address) with
       | None => Ret latestEndpointsMap
       | Some _ => s ← deref svc; Ret (<[ea_IP address := svc_ClusterIP s]> latestEndpointsMap)
       end.

Definition add_port (dnsSvc : MeshService) (svc : option KService) (dnsEndpoint : EndpointSubset)
    (latestEndpointsMap : gmap string string) (port : EndpointPort)
  : outcome (gmap string string) :=
  if negb (Z.eqb (eport_Port port) (ms_Port dnsSvc)) then Ret latestEndpointsMap
  else for_range (add_address dnsSvc svc) latestEndpointsMap (sub_Addresses dnsEndpoint).

Definition latest_endpoints (dnsSvc : MeshService) (svc : option KService) (endpoints : KEndpoints)
  : outcome (gmap string string) :=
  for_range (fun m dnsEndpoint => for_range (add_port dnsSvc svc dnsEndpoint) m (sub_Ports dnsEndpoint))
    ∅ (eps_Subsets endpoints).

Definition dns_service (config : EcnetConfig) : MeshService :=
  let dns := cfg_DNS (ec_Spec config) in
  mkMeshService (dns_Namespace dns) (dns_Name dns) (dns_Port dns) 0 (dns_Protocol dns) "".

(** The two loops that bring the eBPF map in line with the latest
    endpoints. *)
Definition update_endpoint (s : Server) (entry : string * string) : outcome Server :=
  let '(eip, cip) := entry in
  match srv_dnsEndpoints s !! eip with
  | None => on_kernel (fun k => UpdateDNSEndpointEntry k eip cip) s
  | Some pcip =>
      if negb (EqualFold cip pcip) then
        on_kernel (fun k => UpdateDNSEndpointEntry k eip cip)
          (set_Endpoints s (<[eip := cip]> (srv_dnsEndpoints s)))
      else Ret s
  end.

Definition prune_endpoint (latest : gmap string string) (s : Server) (entry : string * string)
  : outcome Server :=
  let '(eip, _) := entry in
  match latest !! eip with
  | None => on_kernel (fun k => DeleteDNSEndpointEntry k eip)
              (set_Endpoints s (delete eip (srv_dnsEndpoints s)))
  | Some _ => Ret s
  end.

Definition syncDNSEndpoints (kubeController : Controller) (config : EcnetConfig) (s : Server)
  : outcome Server :=
  let dnsSvc := dns_service config in
  let svc := ctl_GetService kubeController dnsSvc in
  match ctl_GetEndpoints kubeController dnsSvc with
  | (_, Some _) => Ret s
  | (dnsEndpoints, None) =>
      endpoints ← deref dnsEndpoints;
      latestEndpointsMap ← latest_endpoints dnsSvc svc endpoints;
      s1 ← for_range update_endpoint s (range latestEndpointsMap);
      for_range (prune_endpoint latestEndpointsMap) s1 (range (srv_dnsEndpoints s1))
  end.

(** The host names without a port. *)
Definition latest_resolves (configs : gmap Z (list OutboundTrafficPolicy)) : gmap string Z :=
  foldl (fun m '(_, policies) =>
    foldl (fun m policy =>
      foldl (fun m hostname => if ContainsByte hostname ":" then m else <[hostname := 0]> m)
        m (otp_Hostnames policy)) m policies) ∅ (range configs).

Definition add_resolve (s : Server) (entry : string * Z) : outcome Server :=
  let '(hostname, _) := entry in
  match srv_dnsResolves s !! hostname with
  | None => on_kernel (fun k => UpdateDNSResolveEntry k hostname 60)
              (set_Resolves s (<[hostname := 1]> (srv_dnsResolves s)))
  | Some _ => Ret s
  end.

Definition prune_resolve (latest : gmap string Z) (s : Server) (entry : string * Z)
  : outcome Server :=
  let '(hostname, _) := entry in
  match latest !! hostname with
  | None => on_kernel (fun k => DeleteDNSResolveEntry k hostname)
              (set_Resolves s (delete hostname (srv_dnsResolves s)))
  | Some _ => Ret s
  end.

Definition syncDNSResolves (policy : OutboundMeshTrafficPolicy) (s : Server) : outcome Server :=
  if bool_decide (omtp_HTTPRouteConfigsPerPort policy = ∅) then Ret s
  else
    let latestResolvesMap := latest_resolves (omtp_HTTPRouteConfigsPerPort policy) in
    s1 ← for_range add_resolve s (range latestResolvesMap);
    for_range (prune_resolve latestResolvesMap) s1 (range (srv_dnsResolves s1)).

(** [BridgeNodeWatcherJob.Run] *)
Definition Run (kubeController : Controller) (config : EcnetConfig)
    (policy : OutboundMeshTrafficPolicy) (s : Server) : outcome Server :=
  s1 ← syncDNSEndpoints kubeController config s;
  syncDNSResolves policy s1.

(** ** The host names the bridge resolves *)

(** A host name without a port, of some route configuration. *)
Definition wanted (policy : OutboundMeshTrafficPolicy) (h : string) : Prop :=
  ContainsByte h ":" = false /\
  exists port policies p, omtp_HTTPRouteConfigsPerPort policy !! port = Some policies /\
    p ∈ policies /\ h ∈ otp_Hostnames p.

(** A loop that only inserts keys. *)
Lemma dom_insert_loop {A} (f : gmap string Z -> A -> gmap string Z) (P : A -> string -> Prop) l m h :
  (forall m a, h ∈ dom (f m a) <-> h ∈ dom m \/ P a h) ->
  h ∈ dom (foldl f m l) <-> h ∈ dom m \/ exists a, a ∈ l /\ P a h.
Proof.
  intros Hf. revert m. induction l as [|a l IH]; intros m; simpl; [set_solver|].
  rewrite IH, Hf. set_solver.
Qed.

Lemma latest_resolves_dom policy h :
  h ∈ dom (latest_resolves (omtp_HTTPRouteConfigsPerPort policy)) <-> wanted policy h.
Proof.
  unfold latest_resolves, wanted.
  rewrite (dom_insert_loop _ (fun '(_, policies) h => exists p : OutboundTrafficPolicy,
             p ∈ policies /\ ContainsByte h ":" = false /\ h ∈ otp_Hostnames p)).
  - rewrite dom_empty. split.
    + intros [[]%elem_of_empty|([port policies] & Hin & p & Hp & Hc & Hh)].
      apply elem_of_range in Hin. split; [done|]. by exists port, policies, p.
    + intros (Hc & port & policies & p & Hin & Hp & Hh). right.
      exists (port, policies). rewrite elem_of_range. eauto.
  - intros m [port policies]. apply (dom_insert_loop _ (fun p h => ContainsByte h ":" = false /\ h ∈ otp_Hostnames p)).
    intros m' p.
    rewrite (dom_insert_loop _ (fun hn h => ContainsByte h ":" = false /\ h = hn)); [set_solver|].
    intros m'' hn. destruct (ContainsByte hn ":") eqn:E; [|rewrite dom_insert]; split; try set_solver.
    intros [?|[? ->]]; [done|congruence].
Qed.

(** ** What the helpers do to the maps *)

Definition res_view (s : Server) : gmap dnsQuery aRecord := bpf_view resMap (k_res (srv_kernel s)).
Definition ep_view (s : Server) : gmap (list Z) (list Z) := bpf_view epMap (k_ep (srv_kernel s)).

(** The answer of the bridge: its own address, for a minute. *)
Definition bridge_record (k : Kernel) : aRecord := mkARecord (be32 (k_bridgeIPInt k)) 60.

(** The kernel state apart from the contents of the maps. *)
Definition same_frame (k k' : Kernel) : Prop :=
  k_bridgeIPInt k' = k_bridgeIPInt k /\ k_dnsResolveMap k' = k_dnsResolveMap k /\
  k_dnsEndpointMap k' = k_dnsEndpointMap k.

Lemma same_frame_refl k : same_frame k k.
Proof. done. Qed.

Lemma same_frame_trans k1 k2 k3 : same_frame k1 k2 -> same_frame k2 k3 -> same_frame k1 k3.
Proof. intros (? & ? & ?) (? & ? & ?). repeat split; congruence. Qed.

(** No update fails: the maps have room. *)
Definition roomy {K V} `{Countable K} (m : BpfMap K V) : Prop :=
  forall st k v, (bpf_Update m st k v).2 = None.

Lemma roomy_update {K V} `{Countable K} (m : BpfMap K V) st k v :
  roomy m -> bpf_view m (bpf_Update m st k v).1 = <[k := v]> (bpf_view m st).
Proof. intros Hr. by rewrite bpf_Update_view, Hr. Qed.

Lemma UpdateDNSResolveEntry_ok k name packed :
  roomy resMap -> k_dnsResolveMap k = true -> PackDomainName (name +:+ ".") = inl packed ->
  exists k', UpdateDNSResolveEntry k name 60 = Ret k' /\ same_frame k k' /\
    bpf_view resMap (k_res k') =
      <[mkDnsQuery TypeAAAA ClassINET packed := bridge_record k]>
      (<[mkDnsQuery TypeA ClassINET packed := bridge_record k]> (bpf_view resMap (k_res k))) /\
    k_ep k' = k_ep k.
Proof.
  intros Hr Hk Hp. unfold UpdateDNSResolveEntry, GetDNSResolveMap. simpl.
  rewrite Hp, Hk. simpl. rewrite Hk. simpl. rewrite Hk. simpl. rewrite Hk.
  eexists; split; [done|]. split; [by repeat split|]. split; [|done].
  simpl. by rewrite !roomy_update.
Qed.

Lemma DeleteDNSResolveEntry_skip k name err :
  PackDomainName name = inr err -> DeleteDNSResolveEntry k name = Ret k.
Proof. intros Hp. unfold DeleteDNSResolveEntry. simpl. by rewrite Hp. Qed.

(** Every tracked host name is answered, for both query types. *)
Definition served (s : Server) : Prop :=
  forall h qType, is_Some (srv_dnsResolves s !! h) -> qType ∈ qTypes ->
    exists packed, PackDomainName (h +:+ ".") = inl packed /\
      res_view s !! mkDnsQuery qType ClassINET packed = Some (bridge_record (srv_kernel s)).

(** What the loops keep: the maps stay loaded and no record disappears. *)
Record resolve_frame (s s' : Server) : Prop := {
  rf_frame : same_frame (srv_kernel s) (srv_kernel s');
  rf_endpoints : srv_dnsEndpoints s' = srv_dnsEndpoints s;
  rf_ep : k_ep (srv_kernel s') = k_ep (srv_kernel s);
  rf_keeps : forall q, is_Some (res_view s !! q) -> is_Some (res_view s' !! q)
}.

Lemma resolve_frame_refl s : resolve_frame s s.
Proof. by split. Qed.

Lemma resolve_frame_trans s1 s2 s3 : resolve_frame s1 s2 -> resolve_frame s2 s3 -> resolve_frame s1 s3.
Proof.
  intros [(? & ? & ?) ? ? ?] [(? & ? & ?) ? ? ?]. split; [|congruence|congruence|eauto].
  repeat split; congruence.
Qed.

Lemma both_types_updated (m : gmap dnsQuery aRecord) packed r qType :
  qType ∈ qTypes ->
  <[mkDnsQuery TypeAAAA ClassINET packed := r]> (<[mkDnsQuery TypeA ClassINET packed := r]> m)
    !! mkDnsQuery qType ClassINET packed = Some r.
Proof.
  unfold qTypes. intros [->|H1]%elem_of_cons; [|apply list_elem_of_singleton in H1 as ->].
  - rewrite lookup_insert_ne by done. by rewrite lookup_insert_eq.
  - by rewrite lookup_insert_eq.
Qed.

Lemma add_resolve_ok s h v packed :
  roomy resMap -> k_dnsResolveMap (srv_kernel s) = true ->
  PackDomainName (h +:+ ".") = inl packed -> served s ->
  exists s', add_resolve s (h, v) = Ret s' /\ resolve_frame s s' /\ served s' /\
    dom (srv_dnsResolves s') = {[h]} ∪ dom (srv_dnsResolves s).
Proof.
  intros Hr Hk Hp Hs. unfold add_resolve, on_kernel.
  destruct (srv_dnsResolves s !! h) eqn:E.
  { exists s. split_and!; [done|apply resolve_frame_refl|done|].
    apply elem_of_dom_2 in E. set_solver. }
  destruct (UpdateDNSResolveEntry_ok _ _ _ Hr Hk Hp) as (k' & Hu & (Hb & Hf1 & Hf2) & Hv & He).
  simpl. rewrite Hu. simpl. eexists; split; [done|]. split_and!.
  - split; simpl; [done|done|done|]. unfold res_view. simpl. rewrite Hv. intros q Hq.
    by rewrite !lookup_insert_is_Some'; auto.
  - intros h' qType Hh' Hq. unfold res_view. simpl in *. rewrite Hv.
    assert (bridge_record k' = bridge_record (srv_kernel s)) as -> by (unfold bridge_record; congruence).
    rewrite lookup_insert_is_Some' in Hh'. destruct Hh' as [<-|Hh'].
    + exists packed. split; [done|]. by apply both_types_updated.
    + destruct (Hs h' qType Hh' Hq) as (p' & Hp' & Hv'). exists p'. split; [done|].
      destruct (decide (p' = packed)) as [->|Hne].
      * by apply both_types_updated.
      * rewrite !lookup_insert_ne by congruence. done.
  - simpl. by rewrite dom_insert_L.
Qed.

Lemma add_loop s latest :
  roomy resMap -> k_dnsResolveMap (srv_kernel s) = true -> served s ->
  (forall h, h ∈ dom latest -> exists packed, PackDomainName (h +:+ ".") = inl packed) ->
  exists s', for_range add_resolve s (range latest) = Ret s' /\ resolve_frame s s' /\ served s' /\
    forall h, h ∈ dom (srv_dnsResolves s') <-> h ∈ dom latest \/ h ∈ dom (srv_dnsResolves s).
Proof.
  intros Hr Hk Hs Hp.
  destruct (for_range_inv add_resolve (fun pre st => resolve_frame s st /\ served st /\
    forall h, h ∈ dom (srv_dnsResolves st) <-> h ∈ pre.*1 \/ h ∈ dom (srv_dnsResolves s))
    s (range latest)) as (s' & Hf & Hfr & Hs' & Hd).
  - split_and!; [apply resolve_frame_refl|done|set_solver].
  - intros pre [h v] post st Hl (Hfr & Hst & Hd).
    destruct (Hp h) as [packed Hpk].
    { apply elem_of_dom. exists v. apply elem_of_range. rewrite Hl. set_solver. }
    destruct (add_resolve_ok st h v packed Hr) as (s' & Ha & Hf' & Hs' & Hd'); [|done..|].
    { by rewrite (proj1 (proj2 (rf_frame _ _ Hfr))). }
    exists s'. split_and!; [done|by eapply resolve_frame_trans|done|].
    intros h'. rewrite Hd', fmap_app. set_solver.
  - exists s'. split_and!; [done..|]. intros h. by rewrite Hd, elem_of_range_keys.
Qed.

Lemma prune_loop s latest :
  served s ->
  (forall h, h ∈ dom (srv_dnsResolves s) -> h ∉ dom latest -> exists err, PackDomainName h = inr err) ->
  exists s', for_range (prune_resolve latest) s (range (srv_dnsResolves s)) = Ret s' /\
    resolve_frame s s' /\ served s' /\
    forall h, h ∈ dom (srv_dnsResolves s') <-> h ∈ dom (srv_dnsResolves s) /\ h ∈ dom latest.
Proof.
  intros Hs Hp.
  destruct (for_range_inv (prune_resolve latest) (fun pre st => resolve_frame s st /\ served st /\
    forall h, h ∈ dom (srv_dnsResolves st) <->
      h ∈ dom (srv_dnsResolves s) /\ (h ∈ pre.*1 -> h ∈ dom latest))
    s (range (srv_dnsResolves s))) as (s' & Hf & Hfr & Hs' & Hd).
  - split_and!; [apply resolve_frame_refl|done|set_solver].
  - intros pre [h v] post st Hl (Hfr & Hst & Hd). unfold prune_resolve, on_kernel.
    destruct (latest !! h) eqn:E.
    + exists st. split_and!; [done..|]. intros h'. rewrite Hd, fmap_app. simpl.
      apply elem_of_dom_2 in E. set_solver.
    + apply not_elem_of_dom in E. destruct (Hp h) as [err He]; [|done|].
      { apply elem_of_dom. exists v. apply elem_of_range. rewrite Hl. set_solver. }
      rewrite (DeleteDNSResolveEntry_skip _ _ _ He). simpl. eexists. split; [done|]. split_and!.
      * destruct Hfr as [? ? ? ?]. by split.
      * intros h' qType Hh'. simpl in Hh'. apply Hst. rewrite <- elem_of_dom in *.
        rewrite dom_delete in Hh'. set_solver.
      * intros h'. simpl. rewrite dom_delete, fmap_app, elem_of_difference, Hd. simpl. set_solver.
  - exists s'. split_and!; [done..|]. intros h. rewrite Hd, elem_of_range_keys. set_solver.
Qed.

(** Synchronising host names. *)
Lemma resolves_synced policy s :
  roomy resMap -> k_dnsResolveMap (srv_kernel s) = true -> served s ->
  omtp_HTTPRouteConfigsPerPort policy <> ∅ ->
  (forall h, wanted policy h -> exists packed, PackDomainName (h +:+ ".") = inl packed) ->
  (forall h, is_Some (srv_dnsResolves s !! h) -> exists err, PackDomainName h = inr err) ->
  exists s', syncDNSResolves policy s = Ret s' /\
    (forall h, is_Some (srv_dnsResolves s' !! h) <-> wanted policy h) /\
    served s' /\
    (forall q, is_Some (res_view s !! q) -> is_Some (res_view s' !! q)) /\
    ep_view s' = ep_view s /\ srv_dnsEndpoints s' = srv_dnsEndpoints s /\
    same_frame (srv_kernel s) (srv_kernel s').
Proof.
  intros Hr Hk Hs Hne Hp Hq. unfold syncDNSResolves.
  rewrite bool_decide_false by done.
  setoid_rewrite <- latest_resolves_dom. setoid_rewrite <- latest_resolves_dom in Hp.
  generalize dependent (latest_resolves (omtp_HTTPRouteConfigsPerPort policy)). intros latest Hp.
  setoid_rewrite <- elem_of_dom. setoid_rewrite <- elem_of_dom in Hq.
  destruct (add_loop s latest Hr Hk Hs Hp) as (s1 & -> & Hf1 & Hs1 & Hd1). simpl.
  destruct (prune_loop s1 latest Hs1) as (s2 & -> & Hf2 & Hs2 & Hd2).
  { intros h Hh Hn. apply Hd1 in Hh as [?|?]; [done|]. by apply Hq. }
  pose proof (resolve_frame_trans _ _ _ Hf1 Hf2) as [? ? He ?].
  exists s2. split_and!; try done.
  - intros h. rewrite Hd2, Hd1. set_solver.
  - intros q. rewrite !elem_of_dom. auto.
  - unfold ep_view. by rewrite He.
Qed.

(** C13: Synchronising host names, when the map of answers is loaded and its
    updates succeed, when the names of the routes can be packed for the wire
    with a final dot, and when names without one are refused (as the DNS
    library does): the job ends, and afterwards both DNS queries for each
    tracked name answer with the address of the bridge. If some port has
    HTTP routes, the tracked names are then exactly the host names without
    port of the routes; if there are none, the job returns before pruning,
    and the state, with all tracked names, is what it was. No record is ever
    withdrawn, since names are packed without their final dot when deleting:
    those of names that are no longer wanted stay in the map. *)
Theorem syncDNSResolves_correct policy s :
  roomy resMap -> k_dnsResolveMap (srv_kernel s) = true -> served s ->
  (forall h, wanted policy h -> exists packed, PackDomainName (h +:+ ".") = inl packed) ->
  (forall h, is_Some (srv_dnsResolves s !! h) -> exists err, PackDomainName h = inr err) ->
  exists s', syncDNSResolves policy s = Ret s' /\
    (omtp_HTTPRouteConfigsPerPort policy <> ∅ ->
       forall h, is_Some (srv_dnsResolves s' !! h) <-> wanted policy h) /\
    (omtp_HTTPRouteConfigsPerPort policy = ∅ -> s' = s) /\
    served s' /\
    (forall q, is_Some (res_view s !! q) -> is_Some (res_view s' !! q)) /\
    ep_view s' = ep_view s /\ srv_dnsEndpoints s' = srv_dnsEndpoints s.
Proof.
  intros Hr Hk Hs Hp Hq. destruct (decide (omtp_HTTPRouteConfigsPerPort policy = ∅)) as [E|E].
  - exists s. unfold syncDNSResolves. by rewrite bool_decide_true.
  - destruct (resolves_synced policy s) as (s' & ? & ? & ? & ? & ? & ? & _); try done. by exists s'.
Qed.

(** ** The DNS endpoints *)

(** The address of an endpoint that serves the port of the DNS service. *)
Definition address_served (dnsSvc : MeshService) (a : EndpointAddress) (ip : string) : Prop :=
  (Subdomain dnsSvc = "" \/ Subdomain dnsSvc = ea_Hostname a) /\ ea_IP a = ip /\
  is_Some (ParseIP ip).

Definition subset_serves (dnsSvc : MeshService) (sub : EndpointSubset) (ip : string) : Prop :=
  exists p, p ∈ sub_Ports sub /\ eport_Port p = ms_Port dnsSvc /\
    exists a, a ∈ sub_Addresses sub /\ address_served dnsSvc a ip.

Definition dns_address (dnsSvc : MeshService) (eps : KEndpoints) (ip : string) : Prop :=
  exists sub, sub ∈ eps_Subsets eps /\ subset_serves dnsSvc sub ip.

(** The keys of [m] are those of [P], all with value [x]. *)
Definition holds (x : string) (m : gmap string string) (P : string -> Prop) : Prop :=
  forall ip c, m !! ip = Some c <-> c = x /\ P ip.

Lemma holds_ext x m P Q : (forall ip, P ip <-> Q ip) -> holds x m P -> holds x m Q.
Proof. intros HPQ Hm ip c. specialize (Hm ip c). specialize (HPQ ip). tauto. Qed.

Lemma holds_loop {A} x (f : gmap string string -> A -> outcome (gmap string string))
    (Q : A -> string -> Prop) l m P :
  (forall m a P, holds x m P -> exists m', f m a = Ret m' /\ holds x m' (fun ip => P ip \/ Q a ip)) ->
  holds x m P ->
  exists m', for_range f m l = Ret m' /\ holds x m' (fun ip => P ip \/ exists a, a ∈ l /\ Q a ip).
Proof.
  intros Hf. revert m P. induction l as [|a l IH]; intros m P Hm.
  - exists m. split; [done|]. eapply holds_ext; [|done]. set_solver.
  - destruct (Hf m a P Hm) as (m1 & H1 & Hm1). destruct (IH m1 _ Hm1) as (m2 & H2 & Hm2).
    exists m2. simpl. rewrite H1. split; [done|]. eapply holds_ext; [|done]. set_solver.
Qed.

Lemma add_address_holds dnsSvc svc m a P :
  holds (svc_ClusterIP svc) m P ->
  exists m', add_address dnsSvc (Some svc) m a = Ret m' /\
    holds (svc_ClusterIP svc) m' (fun ip => P ip \/ address_served dnsSvc a ip).
Proof.
  intros Hm. unfold add_address, address_served.
  destruct (negb (String.eqb (Subdomain dnsSvc) "")
            && negb (String.eqb (Subdomain dnsSvc) (ea_Hostname a))) eqn:E.
  { exists m. split; [done|]. eapply holds_ext; [|done].
    apply andb_prop in E as [E1%negb_true_iff E2%negb_true_iff].
    apply String.eqb_neq in E1, E2. tauto. }
  assert (Subdomain dnsSvc = "" \/ Subdomain dnsSvc = ea_Hostname a) as Hsub.
  { apply andb_false_iff in E as [E%negb_false_iff|E%negb_false_iff]; apply String.eqb_eq in E; auto. }
  destruct (ParseIP (ea_IP a)) as [b|] eqn:Hb; simpl; eexists; (split; [done|]).
  - intros ip c. rewrite lookup_insert_Some. unfold holds in Hm. rewrite Hm. split.
    + intros [[<- <-]|[_ [-> ?]]]; eauto 8.
    + intros [-> [HP|(_ & <- & _)]]; [|by left].
      destruct (decide (ea_IP a = ip)); [by left|by right].
  - eapply holds_ext; [|done]. intros ip. split; [tauto|].
    intros [?|(_ & <- & [? ?])]; [done|congruence].
Qed.

Lemma add_port_holds dnsSvc svc sub m p P :
  holds (svc_ClusterIP svc) m P ->
  exists m', add_port dnsSvc (Some svc) sub m p = Ret m' /\
    holds (svc_ClusterIP svc) m' (fun ip => P ip \/ (eport_Port p = ms_Port dnsSvc /\
      exists a, a ∈ sub_Addresses sub /\ address_served dnsSvc a ip)).
Proof.
  intros Hm. unfold add_port. destruct (Z.eqb_spec (eport_Port p) (ms_Port dnsSvc)) as [Hp|Hp]; simpl.
  - destruct (holds_loop (svc_ClusterIP svc) (add_address dnsSvc (Some svc)) (address_served dnsSvc)
                (sub_Addresses sub) m P) as (m' & Hm' & Hh); [intros; by apply add_address_holds|done|].
    exists m'. split; [done|]. eapply holds_ext; [|done]. tauto.
  - exists m. split; [done|]. eapply holds_ext; [|done]. tauto.
Qed.

Lemma latest_endpoints_ok dnsSvc svc eps :
  exists m, latest_endpoints dnsSvc (Some svc) eps = Ret m /\
    holds (svc_ClusterIP svc) m (dns_address dnsSvc eps).
Proof.
  destruct (holds_loop (svc_ClusterIP svc)
    (fun m sub => for_range (add_port dnsSvc (Some svc) sub) m (sub_Ports sub))
    (subset_serves dnsSvc) (eps_Subsets eps) ∅ (fun _ => False)) as (m & Hm & Hh).
  - intros m sub P Hm. apply holds_loop; [|done]. intros. by apply add_port_holds.
  - intros ip c. rewrite lookup_empty. naive_solver.
  - exists m. split; [done|]. eapply holds_ext; [|done]. unfold dns_address. tauto.
Qed.

Lemma update_endpoint_fresh s eip cip b c :
  roomy epMap -> k_dnsEndpointMap (srv_kernel s) = true -> srv_dnsEndpoints s = ∅ ->
  ip2ptr eip = Ret (Some b) -> ip2ptr cip = Ret (Some c) ->
  exists s', update_endpoint s (eip, cip) = Ret s' /\ srv_dnsEndpoints s' = ∅ /\
    srv_dnsResolves s' = srv_dnsResolves s /\ k_dnsEndpointMap (srv_kernel s') = true /\
    ep_view s' = <[b := c]> (ep_view s) /\
    same_frame (srv_kernel s) (srv_kernel s') /\ k_res (srv_kernel s') = k_res (srv_kernel s).
Proof.
  intros Hr Hk He Hb Hc. unfold update_endpoint, on_kernel, UpdateDNSEndpointEntry, GetDNSEndpointMap.
  rewrite He, lookup_empty, Hb. simpl. rewrite Hc. simpl. rewrite Hk, Hk. simpl.
  eexists. split_and!; [done|done|done|done| |done|done]. unfold ep_view. simpl. by apply roomy_update.
Qed.

(** Synchronising DNS servers. *)
Lemma endpoints_synced kubeController config s svc eps cip :
  roomy epMap -> k_dnsEndpointMap (srv_kernel s) = true -> srv_dnsEndpoints s = ∅ ->
  ctl_GetService kubeController (dns_service config) = Some svc ->
  ctl_GetEndpoints kubeController (dns_service config) = (Some eps, None) ->
  ip2ptr (svc_ClusterIP svc) = Ret (Some cip) ->
  (forall ip, dns_address (dns_service config) eps ip -> exists b, ip2ptr ip = Ret (Some b)) ->
  exists s', syncDNSEndpoints kubeController config s = Ret s' /\
    (forall ip b, dns_address (dns_service config) eps ip -> ip2ptr ip = Ret (Some b) ->
       ep_view s' !! b = Some cip) /\
    (forall b, is_Some (ep_view s !! b) -> is_Some (ep_view s' !! b)) /\
    srv_dnsEndpoints s' = ∅ /\ srv_dnsResolves s' = srv_dnsResolves s /\
    same_frame (srv_kernel s) (srv_kernel s') /\ k_res (srv_kernel s') = k_res (srv_kernel s).
Proof.
  intros Hr Hk He Hsvc Heps Hcip Hips. unfold syncDNSEndpoints. rewrite Hsvc, Heps. simpl.
  destruct (latest_endpoints_ok (dns_service config) svc eps) as (latest & -> & Hl). simpl.
  destruct (for_range_inv update_endpoint (fun pre st =>
    k_dnsEndpointMap (srv_kernel st) = true /\ srv_dnsEndpoints st = ∅ /\
    srv_dnsResolves st = srv_dnsResolves s /\
    (forall ip b, ip ∈ pre.*1 -> ip2ptr ip = Ret (Some b) -> ep_view st !! b = Some cip) /\
    (forall b, is_Some (ep_view s !! b) -> is_Some (ep_view st !! b)) /\
    same_frame (srv_kernel s) (srv_kernel st) /\ k_res (srv_kernel st) = k_res (srv_kernel s))
    s (range latest)) as (s' & -> & Hk' & He' & Hres & Hin & Hmono & Hfr & Hkr).
  - split_and!; try done. intros ip b []%not_elem_of_nil.
  - intros pre [eip c] post st Hpre (Hk' & He' & Hres & Hin & Hmono & Hfr & Hkr).
    assert (latest !! eip = Some c) as Hlat by (apply elem_of_range; rewrite Hpre; set_solver).
    apply Hl in Hlat as [-> Haddr]. destruct (Hips _ Haddr) as [b Hb].
    destruct (update_endpoint_fresh st eip _ b cip Hr Hk' He' Hb Hcip)
      as (s' & Hu & He'' & Hr'' & Hk'' & Hv & Hfr' & Hkr').
    exists s'. split_and!; try done; [congruence| | |by eapply same_frame_trans|congruence].
    + intros ip b' Hip Hb'. rewrite Hv. destruct (decide (b' = b)) as [->|Hne]; [apply lookup_insert_eq|].
      rewrite lookup_insert_ne by done. apply (Hin ip); [|done].
      rewrite fmap_app in Hip. apply elem_of_app in Hip as [?|Hip]; [done|].
      apply list_elem_of_singleton in Hip. simpl in Hip. congruence.
    + intros b' Hb'. rewrite Hv, lookup_insert_is_Some'. auto.
  - simpl. rewrite He', range_empty. simpl. exists s'. split_and!; try done.
    intros ip b Haddr Hb. apply (Hin ip); [|done]. apply elem_of_range_keys, elem_of_dom.
    exists (svc_ClusterIP svc). by apply Hl.
Qed.

(** Synchronising DNS servers, from a server that tracks none: each
    address that serves the DNS port is mapped to the cluster IP. New
    addresses are not recorded, so the server still tracks none, and no
    entry is ever removed. *)
Theorem syncDNSEndpoints_programs kubeController config s svc eps cip :
  roomy epMap -> k_dnsEndpointMap (srv_kernel s) = true -> srv_dnsEndpoints s = ∅ ->
  ctl_GetService kubeController (dns_service config) = Some svc ->
  ctl_GetEndpoints kubeController (dns_service config) = (Some eps, None) ->
  ip2ptr (svc_ClusterIP svc) = Ret (Some cip) ->
  (forall ip, dns_address (dns_service config) eps ip -> exists b, ip2ptr ip = Ret (Some b)) ->
  exists s', syncDNSEndpoints kubeController config s = Ret s' /\
    (forall ip b, dns_address (dns_service config) eps ip -> ip2ptr ip = Ret (Some b) ->
       ep_view s' !! b = Some cip) /\
    (forall b, is_Some (ep_view s !! b) -> is_Some (ep_view s' !! b)) /\
    srv_dnsEndpoints s' = ∅ /\ srv_dnsResolves s' = srv_dnsResolves s.
Proof.
  intros. destruct (endpoints_synced kubeController config s svc eps cip) as (s' & ? & ? & ? & ? & ? & _); try done.
  by exists s'.
Qed.

End Bridge.

(** ** Concrete maps *)

(** A map without a limit, that reports deleting an absent key. *)
Program Definition gmap_bpf (K V : Type) `{Countable K} : BpfMap K V := {|
  bpf_state := gmap K V;
  bpf_view := fun m => m;
  bpf_Update := fun m k v => (<[k := v]> m, None);
  bpf_Delete := fun m k =>
    match m !! k with
    | Some _ => (delete k m, None)
    | None => (m, Some "key does not exist")
    end
|}.
Next Obligation. intros. done. Qed.
Next Obligation. intros K V ? ? m k. simpl. by destruct (m !! k). Qed.

(** The wire form of a domain name; a name that is not fully qualified is
    refused. *)
Definition example_pack (name : string) : list Z + string :=
  if HasSuffix name "." then
    inl ((label ← Split (TrimSuffix name ".") ".";
          Z.of_nat (String.length label)
            :: map (fun c => Z.of_N (N_of_ascii c)) (list_ascii_of_string label)) ++ [0])
  else inr "domain must be fully qualified".

(** The state after host name [old.ns] was added. *)
Definition example_bridge : Server (gmap_bpf dnsQuery aRecord) (gmap_bpf (list Z) (list Z)) :=
  mkServer _ _ ∅ {["old.ns" := 1]}
    (mkKernel (gmap_bpf dnsQuery aRecord) (gmap_bpf (list Z) (list Z)) 167772417 true true
       (list_to_map (map (fun t => (mkDnsQuery t ClassINET [3; 111; 108; 100; 2; 110; 115; 0],
                                    mkARecord [10; 0; 1; 1] 60)) qTypes)) ∅).

Definition example_routes : OutboundMeshTrafficPolicy (MapSet0:=gset_MapSet) :=
  mkOutboundMeshTrafficPolicy (MapSet0:=gset_MapSet) []
    {[80 := [mkOutboundTrafficPolicy (MapSet0:=gset_MapSet) "a" ["a.ns"; "a.ns:80"] []]]} [] ∅.

Example example_bridge_served :
  served (gmap_bpf dnsQuery aRecord) (gmap_bpf (list Z) (list Z)) example_pack example_bridge.
Proof.
  intros h qType Hh Hq. assert (h = "old.ns") as ->.
  { destruct Hh as [v Hv]. simpl in Hv. by apply lookup_singleton_Some in Hv as [<- _]. }
  exists [3; 111; 108; 100; 2; 110; 115; 0]. split; [reflexivity|].
  apply elem_of_cons in Hq as [->|Hq]; [reflexivity|].
  apply list_elem_of_singleton in Hq as ->. reflexivity.
Qed.

Lemma example_pack_fqdn name : exists packed, example_pack (name +:+ ".") = inl packed.
Proof. unfold example_pack. rewrite HasSuffix_app. eauto. Qed.

(** [old.ns] is no longer wanted: it is forgotten, and its records stay. *)
Lemma syncDNSResolves_correct_witness :
  exists s',
    syncDNSResolves (gmap_bpf dnsQuery aRecord) (gmap_bpf (list Z) (list Z)) (fun _ => None)
      example_pack (H:=any_order) (MapSet0:=gset_MapSet) example_routes example_bridge = Ret s' /\
    ~ is_Some (srv_dnsResolves _ _ s' !! "old.ns") /\
    is_Some (res_view _ _ s' !! mkDnsQuery TypeA ClassINET [3; 111; 108; 100; 2; 110; 115; 0]).
Proof.
  destruct (syncDNSResolves_correct (gmap_bpf dnsQuery aRecord) (gmap_bpf (list Z) (list Z))
    (fun _ => None) example_pack (H:=any_order) (MapSet0:=gset_MapSet) example_routes example_bridge)
    as (s' & Hs & Hd & _ & _ & Hk & _).
  - intros st k v. reflexivity.
  - reflexivity.
  - exact example_bridge_served.
  - intros h _. apply example_pack_fqdn.
  - intros h [v Hv]. simpl in Hv. apply lookup_singleton_Some in Hv as [<- _].
    eexists. reflexivity.
  - exists s'. split; [exact Hs|]. split.
    + rewrite Hd by (intros Hc; apply (f_equal (fun m => m !! 80)) in Hc; discriminate Hc).
      intros (_ & port & policies & p & Hp & Hin & Hh). simpl in Hp.
      apply lookup_singleton_Some in Hp as [_ <-]. apply list_elem_of_singleton in Hin as ->.
      simpl in Hh. apply elem_of_cons in Hh as [Hh|Hh]; [discriminate Hh|].
      apply list_elem_of_singleton in Hh. discriminate Hh.
    + apply Hk. eexists. reflexivity.
Defined.

(** A DNS service with one endpoint. *)
Definition example_dns_config : EcnetConfig :=
  mkEcnetConfig "" ""
    (mkEcnetConfigSpec (mkDNSSpec "kube-system" "kube-dns" 53 "udp")
       (cfg_Sidecar (ec_Spec zero_EcnetConfig)) (cfg_RepoServer (ec_Spec zero_EcnetConfig))
       (cfg_PluginChains (ec_Spec zero_EcnetConfig))).

Definition example_dns_service : KService :=
  mkKService "kube-system" "kube-dns" "u3" ServiceTypeClusterIP "10.96.0.10" [] ∅
    [mkKServicePort "dns" "UDP" None 53 53].

Definition example_dns_endpoints : KEndpoints :=
  mkKEndpoints "kube-system" "kube-dns" ∅
    [mkEndpointSubset [mkEndpointAddress "10.0.0.7" ""] [mkEndpointPort "dns" "UDP" None 53]].

Definition example_dns_controller : Controller :=
  mkController [] (fun _ => Some example_dns_service) (fun _ => None)
    (fun _ => (Some example_dns_endpoints, None)).

Lemma syncDNSEndpoints_programs_witness :
  exists s',
    syncDNSEndpoints (gmap_bpf dnsQuery aRecord) (gmap_bpf (list Z) (list Z)) (fun _ => None)
      (H:=any_order) example_dns_controller example_dns_config example_bridge = Ret s' /\
    ep_view _ _ s' !! [10; 0; 0; 7] = Some [10; 96; 0; 10] /\ srv_dnsEndpoints _ _ s' = ∅.
Proof.
  destruct (syncDNSEndpoints_programs (gmap_bpf dnsQuery aRecord) (gmap_bpf (list Z) (list Z))
    (fun _ => None) example_pack (H:=any_order) example_dns_controller
    example_dns_config example_bridge
    example_dns_service example_dns_endpoints [10; 96; 0; 10])
    as (s' & Hs & Hd & _ & He & _).
  - intros st k v. reflexivity.
  - reflexivity.
  - reflexivity.
  - reflexivity.
  - reflexivity.
  - vm_compute. reflexivity.
  - intros ip (sub & Hsub & p & Hp & _ & a & Ha & _ & <- & _).
    apply list_elem_of_singleton in Hsub as ->. apply list_elem_of_singleton in Ha as ->.
    exists [10; 0; 0; 7]. vm_compute. reflexivity.
  - exists s'. split; [exact Hs|]. split; [|exact He].
    apply (Hd "10.0.0.7"); [|vm_compute; reflexivity].
    eexists. split; [apply list_elem_of_here|]. eexists. split; [apply list_elem_of_here|].
    split; [reflexivity|]. eexists. split; [apply list_elem_of_here|].
    split; [left; vm_compute; reflexivity|]. split; [reflexivity|].
    eexists. vm_compute. reflexivity.
Defined.
