(* ===== verification/BridgeIP.v ===== *)
(** * The address of the bridge ([pkg/ecnet/bridge/dataplane/helpers/addr.go])

    The bridge waits until the network interface of the CNI has an IPv4
    address. What the system reports about its interfaces is an argument,
    one list for each time it is asked. *)

From Stdlib Require Import String.
From S2P Require Import Prelude GoStrings NetIP.

(** A [net.Addr]: an [*net.IPNet], or another kind of address. *)
Inductive NetAddr :=
| IPNet (ip : IP)
| OtherAddr.

Record Iface := mkIface {
  if_FlagUp : bool;
  if_Name : string;
  if_Addrs : list NetAddr + string
}.

(** The package variables [bridgeIPInt] and [bridgeIPAddr]. *)
Record BridgeIP := mkBridgeIP {
  bridgeIPInt : Z;
  bridgeIPAddr : option (list Z)
}.

(** [binary.BigEndian.Uint32] *)
Definition Uint32 (bytes : list Z) : Z := foldl (fun n b => uint32(Z.lor (Z.shiftl n 8) b)) 0 bytes.

(** The loop over the addresses of an interface; the flag is [found]. *)
Fixpoint scan_addrs (b : BridgeIP) (addrs : list NetAddr) : BridgeIP * bool :=
  match addrs with
  | [] => (b, false)
  | OtherAddr :: addrs' => scan_addrs b addrs'
  | IPNet ip :: addrs' =>
      if IsLoopback ip then scan_addrs b addrs'
      else match To4 ip with
           | Some a => (mkBridgeIP (Uint32 a) (Some a), true)
           | None => scan_addrs (mkBridgeIP (bridgeIPInt b) None) addrs'
           end
  end.

(** The loop over the interfaces, which stops at the first that matches.
    [None] is the early return on an error of [iface.Addrs]. *)
Fixpoint scan_ifaces (bridgeEth : string) (b : BridgeIP) (ifaces : list Iface)
  : option (BridgeIP * bool) :=
  match ifaces with
  | [] => Some (b, false)
  | iface :: ifaces' =>
      if if_FlagUp iface && HasPrefix (if_Name iface) bridgeEth then
        match if_Addrs iface with
        | inl addrs => Some (scan_addrs b addrs)
        | inr _ => None
        end
      else scan_ifaces bridgeEth b ifaces'
  end.

(** The error of [iface.Addrs] is not the one that is reported: [err] is
    nil there. *)
Definition waitBridgeIP (bridgeEth : string) (interfaces : list Iface + string) (b : BridgeIP)
  : BridgeIP * option string :=
  if negb (Z.eqb (bridgeIPInt b) 0) then (b, None)
  else
    match interfaces with
    | inr err => (b, Some ("unexpected exit err: " +:+ err))
    | inl ifaces =>
        match scan_ifaces bridgeEth b ifaces with
        | None => (b, Some "unexpected exit err: <nil>")
        | Some (b', false) =>
            (b', Some ("unexpected retrieves cni bridge veth[" +:+ bridgeEth +:+ "]'s ipv4 addr"))
        | Some (b', true) => (b', None)
        end
    end.

(** [GetBridgeIP] polls until it has an address; [None] when the reports
    given run out. *)
Fixpoint GetBridgeIP (bridgeEth : string) (polls : list (list Iface + string)) (b : BridgeIP)
  : option BridgeIP :=
  match polls with
  | [] => None
  | interfaces :: polls' =>
      match waitBridgeIP bridgeEth interfaces b with
      | (b', None) => if Z.ltb 0 (bridgeIPInt b') then Some b' else GetBridgeIP bridgeEth polls' b'
      | (b', Some _) => GetBridgeIP bridgeEth polls' b'
      end
  end.

(** ** Specification *)

(** The first IPv4 address of an interface that is not a loopback. *)
Definition usable_ipv4 (a : NetAddr) : option (list Z) :=
  match a with
  | IPNet ip => if IsLoopback ip then None else To4 ip
  | OtherAddr => None
  end.

Definition bridge_iface (bridgeEth : string) (iface : Iface) : bool :=
  if_FlagUp iface && HasPrefix (if_Name iface) bridgeEth.

(** What a report says the address of the bridge is. *)
Definition bridge_address (bridgeEth : string) (interfaces : list Iface + string)
  : option (list Z) :=
  match interfaces with
  | inr _ => None
  | inl ifaces =>
      match List.find (bridge_iface bridgeEth) ifaces with
      | Some iface => match if_Addrs iface with inl addrs => first_some usable_ipv4 addrs | inr _ => None end
      | None => None
      end
  end.

Lemma scan_addrs_spec b addrs :
  match first_some usable_ipv4 addrs with
  | Some a => scan_addrs b addrs = (mkBridgeIP (Uint32 a) (Some a), true)
  | None => exists addr, scan_addrs b addrs = (mkBridgeIP (bridgeIPInt b) addr, false)
  end.
Proof.
  revert b. induction addrs as [|[ip|] addrs IH]; intros b; simpl.
  - exists (bridgeIPAddr b). by destruct b.
  - destruct (IsLoopback ip); [apply IH|]. destruct (To4 ip); [done|].
    apply (IH (mkBridgeIP (bridgeIPInt b) None)).
  - apply IH.
Qed.

Lemma waitBridgeIP_spec bridgeEth interfaces b :
  bridgeIPInt b = 0 ->
  match bridge_address bridgeEth interfaces with
  | Some a => waitBridgeIP bridgeEth interfaces b = (mkBridgeIP (Uint32 a) (Some a), None)
  | None => exists addr err,
      waitBridgeIP bridgeEth interfaces b = (mkBridgeIP 0 addr, Some err)
  end.
Proof.
  intros Hb. unfold waitBridgeIP, bridge_address. rewrite Hb. simpl.
  assert (b = mkBridgeIP 0 (bridgeIPAddr b)) as Heta by (destruct b; simpl in *; by subst).
  destruct interfaces as [ifaces|err]; [|rewrite Heta; eauto].
  induction ifaces as [|iface ifaces IH]; simpl; [rewrite Heta; eauto|].
  unfold bridge_iface in *. destruct (if_FlagUp iface && HasPrefix (if_Name iface) bridgeEth); [|apply IH].
  destruct (if_Addrs iface) as [addrs|]; [|rewrite Heta; eauto].
  pose proof (scan_addrs_spec b addrs) as Hs. rewrite Hb in Hs.
  destruct (first_some usable_ipv4 addrs).
  - by rewrite Hs.
  - destruct Hs as [addr ->]. eauto.
Qed.

(** Polling ends at the first report in which the bridge has an IPv4
    address, and yields that address. *)
Theorem GetBridgeIP_first bridgeEth pre interfaces post b a :
  bridgeIPInt b = 0 ->
  Forall (fun i => bridge_address bridgeEth i = None) pre ->
  bridge_address bridgeEth interfaces = Some a -> 0 < Uint32 a ->
  GetBridgeIP bridgeEth (pre ++ interfaces :: post) b = Some (mkBridgeIP (Uint32 a) (Some a)).
Proof.
  intros Hb Hpre Ha Hpos. revert b Hb. induction Hpre as [|i pre Hi _ IH]; intros b Hb; simpl.
  - pose proof (waitBridgeIP_spec bridgeEth interfaces b Hb) as Hw. rewrite Ha in Hw. rewrite Hw.
    simpl. by rewrite (proj2 (Z.ltb_lt _ _)).
  - pose proof (waitBridgeIP_spec bridgeEth i b Hb) as Hw. rewrite Hi in Hw.
    destruct Hw as (addr & err & ->). by apply IH.
Qed.

(** The interface comes up at the second report; a loopback and an IPv6
    address are skipped. *)
Lemma GetBridgeIP_first_witness :
  GetBridgeIP "cni"
    [inl [mkIface false "cni0" (inl [])];
     inl [mkIface true "eth0" (inl [IPNet (IPv4 192 168 0 1)]);
          mkIface true "cni0" (inl [IPNet (IPv4 127 0 0 1); IPNet (replicate 15 0 ++ [9]);
                                    IPNet (IPv4 10 0 1 1)])]]
    (mkBridgeIP 0 None) = Some (mkBridgeIP 167772417 (Some [10; 0; 1; 1])).
Proof.
  apply (GetBridgeIP_first "cni" [inl [mkIface false "cni0" (inl [])]]
    (inl [mkIface true "eth0" (inl [IPNet (IPv4 192 168 0 1)]);
          mkIface true "cni0" (inl [IPNet (IPv4 127 0 0 1); IPNet (replicate 15 0 ++ [9]);
                                    IPNet (IPv4 10 0 1 1)])]) [] (mkBridgeIP 0 None) [10; 0; 1; 1]).
  - reflexivity.
  - repeat constructor.
  - reflexivity.
  - reflexivity.
Defined.
