(* ===== verification/BridgeMain.v ===== *)
(** * The bridge process ([pkg/ecnet/bridge/dataplane/helpers/prog.go],
    [pkg/ecnet/bridge/dataplane/server/server.go],
    [cmd/ecnet/ecnet-bridge])

    Loading, attaching and unloading the eBPF programs, the start of the
    data plane server and the [main] of the bridge. The system is asked to
    run make, to lift the memory limit and to open pinned maps: what was
    asked is a log, and what the system answers is a function of the log so
    far. *)

From Stdlib Require Import Ascii String.
From S2P Require Import Prelude GoStrings GoIO Constants ApiTypes KubeAPI Health Bootstrap.
From S2P Require Import NetIP Dataplane BridgeIP.

Inductive Action :=
| Make (args env : list string)
| RemoveMemlock
| LoadMaps.

#[global] Instance Action_eq_dec : EqDecision Action.
Proof. solve_decision. Defined.

Section Process.
Context (resMap : BpfMap dnsQuery aRecord) (epMap : BpfMap (list Z) (list Z)).

(** The user, the environment variables, and what the system answers: the
    exit code and the error of an action, and the error of opening a map. *)
Context (uid : Z) (environ : list string).
Context (sys : list Action -> Action -> Z * option string).
Context (pins : list Action -> string -> option string).

Record Host := mkHost {
  h_log : list Action;
  h_bridge : BridgeIP;
  h_kernel : Kernel resMap epMap
}.

Definition ask (a : Action) (h : Host) : (Z * option string) * Host :=
  (sys (h_log h) a, mkHost (h_log h ++ [a]) (h_bridge h) (h_kernel h)).

(** [%v] of an error. *)
Definition fmt_v (err : option string) : string := default "<nil>" err.

(** [cmd.Run] and the test of the exit code. *)
Definition run_make (failed : string) (args env : list string) (h : Host) : option string * Host :=
  let '((code, err), h) := ask (Make args env) h in
  (if negb (Z.eqb code 0) || bool_decide (err <> None)
   then Some (failed +:+ "unexpected exit code: " +:+ fmt_d code +:+ ", err: " +:+ fmt_v err)
   else None, h).

Definition not_root : string := "root user in required for this process or container".

(** ** [prog.go] *)

(** The environment of [make load]. *)
Definition load_env (kernelTracing : bool) (bridgeEth : string) (bridgeIP : Z) : list string :=
  environ ++ (if negb kernelTracing then ["DEBUG=0"] else [])
  ++ ["BRIDGE_ETH=" +:+ bridgeEth; "BRIDGE_IP=" +:+ fmt_d bridgeIP].

(** The address that was found, in the package variables. *)
Definition set_bridge (b : BridgeIP) (h : Host) : Host :=
  mkHost (h_log h) b
    (mkKernel resMap epMap (bridgeIPInt b) (k_dnsResolveMap _ _ (h_kernel h))
       (k_dnsEndpointMap _ _ (h_kernel h)) (k_res _ _ (h_kernel h)) (k_ep _ _ (h_kernel h))).

(** [polls] are the reports on the interfaces; the outer [None] is a wait
    for the address of the bridge that they do not end. *)
Definition LoadProgs (kernelTracing : bool) (bridgeEth : string)
  (polls : list (list Iface + string)) (h : Host) : option (option string * Host) :=
  if negb (Z.eqb uid 0) then Some (Some not_root, h)
  else if Nat.ltb 0 (String.length bridgeEth) then
    match GetBridgeIP bridgeEth polls (h_bridge h) with
    | None => None
    | Some b =>
        let h := set_bridge b h in
        if Z.ltb 0 (bridgeIPInt b)
        then Some (run_make "" ["load"] (load_env kernelTracing bridgeEth (bridgeIPInt b)) h)
        else Some (Some "unexpected exit err: retrieves cni bridge eth's ipv4 addr", h)
    end
  else Some (Some "unexpected exit err: retrieves cni bridge eth", h).

Definition AttachProgs (h : Host) : option string * Host :=
  if negb (Z.eqb uid 0) then (Some not_root, h) else run_make "" ["attach"] environ h.

Definition UnLoadProgs (h : Host) : option string * Host :=
  run_make "unload " ["-k"; "clean"] environ h.

(** ** [server.go] *)

(** How [Start] ends: the server is ready, it returns an error, it ends
    the process, or it still waits for the bridge. *)
Inductive start_result :=
| Ready
| StartError (err : string)
| StartFatal (msg : string)
| StartWaits.

(** The maps are opened with what the system answers at that time. *)
Definition load_maps (h : Host) : option string * Host :=
  let '(k, err) := InitLoadPinnedMap resMap epMap (pins (h_log h)) (h_kernel h) in
  (err, mkHost (h_log h ++ [LoadMaps]) (h_bridge h) k).

(** [Start] once the programs are loaded. *)
Definition start_loaded (h : Host) : start_result * Host :=
  let '((_, err), h) := ask RemoveMemlock h in
  match err with
  | Some err => (StartFatal ("remove memlock error: " +:+ err), h)
  | None =>
      let '(err, h) := load_maps h in
      match err with
      | Some err => (StartError ("failed to load ebpf maps: " +:+ err), h)
      | None =>
          let '(err, h) := AttachProgs h in
          match err with
          | Some err => (StartError ("failed to attach ebpf programs: " +:+ err), h)
          | None => (Ready, h)
          end
      end
  end.

Definition Start (kernelTracing : bool) (bridgeEth : string) (polls : list (list Iface + string))
  (h : Host) : start_result * Host :=
  match LoadProgs kernelTracing bridgeEth polls h with
  | None => (StartWaits, h)
  | Some (Some err, h) => (StartFatal ("failed to load ebpf programs: " +:+ err), h)
  | Some (None, h) => start_loaded h
  end.

Definition Stop (h : Host) : option string * Host :=
  let '(err, h) := UnLoadProgs h in
  (match err with Some err => Some ("unload failed: " +:+ err) | None => None end, h).

(** ** [main] *)

Record BridgeEnv := mkBridgeEnv {
  br_parseFlags : option string;
  br_kubeConfig : option string;
  br_clients : option string;           (* the panic of [NewForConfigOrDie] *)
  br_podName : string;                  (* [BRIDGE_POD_NAME] *)
  br_pod : ApiError + KPod;             (* the answer for that pod *)
  br_watch : string + list WatchItem;
  br_informers : option string;
  br_httpServer : option string;
  br_kernelTracing : bool;
  br_bridgeEth : string;
  br_polls : list (list Iface + string)
}.

Inductive main_result :=
| FatalExit (msg : string)
| EventExit (msg : string)
| PanicExit
| WaitsForBridge
| Stopped (err : option string).

Definition getECNETBridgePod (env : BridgeEnv) : string + KPod :=
  if String.eqb (br_podName env) "" then inl "BRIDGE_POD_NAME env variable cannot be empty"
  else match br_pod env with inl err => inl (err_Error err) | inr pod => inr pod end.

(** [FatalEvent], which records, logs and exits. *)
Definition fatal_exit (e : EventRecorder) (err reason msg : string) : main_result :=
  match FatalEvent e err reason msg [] with
  | Ret (_, text) => EventExit text
  | Panic => PanicExit
  end.

(** The checks before anything is started: how they end the process, or
    the recorder of events. *)
Definition bridge_checks (f : Flags) (env : BridgeEnv) : main_result + EventRecorder :=
  match br_parseFlags env with
  | Some err => inl (FatalExit ("Error parsing cmd line arguments: " +:+ err))
  | None =>
  match SetLogLevel (fl_verbosity f) with
  | inl err => inl (FatalExit ("Error setting log level: " +:+ err))
  | inr _ =>
  match br_kubeConfig env with
  | Some err => inl (FatalExit ("Error creating kube configs using in-cluster config: " +:+ err))
  | None =>
  match br_clients env with
  | Some _ => inl PanicExit
  | None =>
  match getECNETBridgePod env with
  | inl _ => inl (FatalExit "Error fetching ecnet-ctrlplane pod")
  | inr _ =>
      let '(recorder, err) := Initialize (br_watch env) uninitialized_recorder in
      match err with
      | Some _ => inl (FatalExit "Error initializing generic event recorder")
      | None =>
          match bridge_validateCLIParams f with
          | Some err => inl (fatal_exit recorder err InvalidCLIParameters
                               "Error validating CLI parameters")
          | None =>
              match br_informers env with
              | Some err => inl (fatal_exit recorder err InitializationError
                                   "Error creating informer collection")
              | None => inr recorder
              end
          end
      end
  end
  end
  end
  end
  end.

(** The whole process: it starts, waits for an exit signal and stops. What
    it creates in between, the informers, the controllers, the providers and
    the catalog, is modelled in their own files; none of it runs a command. *)
Definition bridge_main (f : Flags) (env : BridgeEnv) (h : Host) : main_result * Host :=
  match bridge_checks f env with
  | inl res => (res, h)
  | inr recorder =>
      let '(started, h) := Start (br_kernelTracing env) (br_bridgeEth env) (br_polls env) h in
      match started with
      | StartWaits => (WaitsForBridge, h)
      | StartFatal msg => (FatalExit msg, h)
      | StartError err =>
          (fatal_exit recorder err InitializationError "Error initializing data plane server", h)
      | Ready =>
          match br_httpServer env with
          | Some err => (FatalExit ("Failed to start ECNET metrics/probes HTTP server: " +:+ err), h)
          | None => let '(err, h) := Stop h in (Stopped err, h)
          end
      end
  end.

(** ** Theorems *)

(** The system carried out an action. *)
Definition succeeds (log : list Action) (a : Action) : Prop := sys log a = (0, None).

(** What a start that succeeds asks for. *)
Definition start_actions (kernelTracing : bool) (bridgeEth : string) (b : BridgeIP) : list Action :=
  [Make ["load"] (load_env kernelTracing bridgeEth (bridgeIPInt b)); RemoveMemlock; LoadMaps;
   Make ["attach"] environ].

(** Each action of a list is carried out after those before it. *)
Fixpoint all_succeed (log : list Action) (l : list Action) : Prop :=
  match l with
  | [] => True
  | LoadMaps :: l' =>
      pins log ECNetDNSResolveMap = None /\ pins log ECNetDNSEndpointMap = None /\
      all_succeed (log ++ [LoadMaps]) l'
  | RemoveMemlock :: l' => (sys log RemoveMemlock).2 = None /\ all_succeed (log ++ [RemoveMemlock]) l'
  | a :: l' => succeeds log a /\ all_succeed (log ++ [a]) l'
  end.

Lemma run_make_spec failed args env h :
  exists err, run_make failed args env h =
    (err, mkHost (h_log h ++ [Make args env]) (h_bridge h) (h_kernel h)) /\
    (err = None <-> succeeds (h_log h) (Make args env)).
Proof.
  unfold run_make, ask, succeeds. destruct (sys _ _) as [code err].
  eexists. split; [reflexivity|]. destruct (Z.eqb_spec code 0) as [->|Hc]; simpl.
  - destruct err; [rewrite bool_decide_eq_true_2 by done|]; naive_solver.
  - split; [done|]. by intros [= -> _].
Qed.

Lemma load_maps_spec h :
  exists err k, load_maps h = (err, mkHost (h_log h ++ [LoadMaps]) (h_bridge h) k) /\
    (err = None <-> pins (h_log h) ECNetDNSResolveMap = None /\
                    pins (h_log h) ECNetDNSEndpointMap = None).
Proof.
  unfold load_maps, InitLoadPinnedMap.
  destruct (pins (h_log h) ECNetDNSResolveMap); [eexists _, _; naive_solver|].
  destruct (pins (h_log h) ECNetDNSEndpointMap); eexists _, _; naive_solver.
Qed.

Lemma GetBridgeIP_positive eth polls b b' :
  GetBridgeIP eth polls b = Some b' -> 0 < bridgeIPInt b'.
Proof.
  revert b. induction polls as [|i polls IH]; intros b; simpl; [done|].
  destruct (waitBridgeIP eth i b) as [b1 [err|]]; [apply IH|].
  destruct (Z.ltb_spec 0 (bridgeIPInt b1)); [by intros [= <-]|apply IH].
Qed.

(** The start after the programs were loaded. *)
Definition after_load (h : Host) (res : start_result * Host) (l : list Action) : Prop :=
  (res.1 = Ready <-> all_succeed (h_log h) l) /\
  exists pre, pre `prefix_of` l /\ h_log res.2 = h_log h ++ pre /\ (res.1 = Ready -> pre = l).

Lemma after_load_attach h :
  uid = 0 ->
  after_load h
    (let '(err, h) := AttachProgs h in
     match err with
     | Some err => (StartError ("failed to attach ebpf programs: " +:+ err), h)
     | None => (Ready, h)
     end) [Make ["attach"] environ].
Proof.
  intros Hu. unfold AttachProgs. rewrite Hu. simpl.
  destruct (run_make_spec "" ["attach"] environ h) as (err & -> & Herr).
  unfold after_load. simpl. destruct err; simpl; (split; [naive_solver|]);
    exists [Make ["attach"] environ]; naive_solver.
Qed.

Lemma after_load_cons h a h1 res l ok :
  h_log h1 = h_log h ++ [a] -> (all_succeed (h_log h) (a :: l) <-> ok /\ all_succeed (h_log h1) l) ->
  ok -> after_load h1 res l -> after_load h res (a :: l).
Proof.
  intros Hl Hok H [Hr (pre & [k Hk] & Hlog & Heq)]. split; [by rewrite Hr, Hok; naive_solver|].
  exists (a :: pre). split_and!.
  - exists k. simpl. by rewrite Hk.
  - by rewrite Hlog, Hl, <- app_assoc.
  - intros HR. by rewrite Heq.
Qed.

(** A step that fails ends the start there. *)
Lemma after_load_fail h a h1 res l ok :
  h_log h1 = h_log h ++ [a] -> (all_succeed (h_log h) (a :: l) <-> ok /\ all_succeed (h_log h1) l) ->
  ~ ok -> res <> Ready -> after_load h (res, h1) (a :: l).
Proof.
  intros Hl Hok H Hres. split; simpl; [split; [done|by rewrite Hok; intros [? _]]|].
  exists [a]. split_and!; [|done|done]. by exists l.
Qed.

(** The start from the memory limit on. *)
Lemma after_load_memlock h :
  uid = 0 -> after_load h (start_loaded h) [RemoveMemlock; LoadMaps; Make ["attach"] environ].
Proof.
  intros Hu. unfold start_loaded, ask. set (h1 := mkHost (h_log h ++ [RemoveMemlock]) _ _).
  destruct (sys (h_log h) RemoveMemlock) as [code err] eqn:Es.
  assert (forall l, all_succeed (h_log h) (RemoveMemlock :: l) <->
    err = None /\ all_succeed (h_log h1) l) as Hmem by (intros; simpl; by rewrite Es).
  destruct err as [e|]; [by apply (after_load_fail h RemoveMemlock h1 _ _ _ eq_refl (Hmem _))|].
  apply (after_load_cons h RemoveMemlock h1 _ _ _ eq_refl (Hmem _) eq_refl).
  destruct (load_maps_spec h1) as (err & k & -> & Herr).
  set (h2 := mkHost (h_log h1 ++ [LoadMaps]) _ _).
  assert (forall l, all_succeed (h_log h1) (LoadMaps :: l) <->
    err = None /\ all_succeed (h_log h2) l) as Hmaps by (intros; rewrite Herr; simpl; tauto).
  destruct err as [e|]; [by apply (after_load_fail h1 LoadMaps h2 _ _ _ eq_refl (Hmaps _))|].
  apply (after_load_cons h1 LoadMaps h2 _ _ _ eq_refl (Hmaps _) eq_refl).
  by apply after_load_attach.
Qed.

(** From the moment the address of the bridge is known. *)
Lemma start_with_address kernelTracing bridgeEth polls h b :
  uid = 0 -> bridgeEth <> EmptyString -> GetBridgeIP bridgeEth polls (h_bridge h) = Some b ->
  after_load h (Start kernelTracing bridgeEth polls h) (start_actions kernelTracing bridgeEth b).
Proof.
  intros Hu Hne Hb. unfold Start, LoadProgs. rewrite Hu, Hb. simpl Z.eqb. cbn [negb].
  rewrite (proj2 (Nat.ltb_lt 0 _)) by (destruct bridgeEth; simpl; [done|lia]).
  rewrite (proj2 (Z.ltb_lt 0 _)) by (by eapply GetBridgeIP_positive).
  set (env := load_env _ _ _).
  destruct (run_make_spec "" ["load"] env (set_bridge b h)) as (err & -> & Herr). simpl in Herr |- *.
  destruct err as [e|].
  { eapply (after_load_fail _ _ _ _ _ (succeeds (h_log h) (Make ["load"] env)));
      [reflexivity|done|naive_solver|done]. }
  set (h1 := mkHost (h_log h ++ [Make ["load"] env]) b (h_kernel (set_bridge b h))).
  apply (after_load_cons _ _ h1 _ _ (succeeds (h_log h) (Make ["load"] env)));
    [done|done|naive_solver|].
  by apply after_load_memlock.
Qed.

(** A start without an address asks for nothing. *)
Lemma start_without_address kernelTracing bridgeEth polls h :
  ~ (uid = 0 /\ bridgeEth <> EmptyString /\ is_Some (GetBridgeIP bridgeEth polls (h_bridge h))) ->
  (Start kernelTracing bridgeEth polls h).1 <> Ready /\
  h_log (Start kernelTracing bridgeEth polls h).2 = h_log h.
Proof.
  intros Hno. unfold Start, LoadProgs. destruct (Z.eqb_spec uid 0) as [Hu|]; [|done].
  simpl. destruct (Nat.ltb_spec 0 (String.length bridgeEth)) as [Hlt|]; [|done].
  destruct (GetBridgeIP bridgeEth polls (h_bridge h)) as [b|]; [|done].
  exfalso. apply Hno. split_and!; [done| |done]. intros ->. simpl in Hlt. lia.
Qed.

Lemma start_log kernelTracing bridgeEth polls h :
  let '(res, h') := Start kernelTracing bridgeEth polls h in
  exists b l, l `prefix_of` start_actions kernelTracing bridgeEth b /\ h_log h' = h_log h ++ l /\
    (res = Ready -> l = start_actions kernelTracing bridgeEth b).
Proof.
  destruct (decide (uid = 0 /\ bridgeEth <> EmptyString /\
    is_Some (GetBridgeIP bridgeEth polls (h_bridge h)))) as [(Hu & Hne & b & Hb)|Hno].
  - destruct (start_with_address kernelTracing bridgeEth polls h b Hu Hne Hb) as [_ Hl].
    destruct (Start _ _ _ _). by exists b.
  - destruct (start_without_address kernelTracing bridgeEth polls h Hno) as [Hr Hl].
    destruct (Start _ _ _ _) as [res h']. exists (mkBridgeIP 0 None), [].
    split_and!; [apply prefix_nil|by rewrite app_nil_r|done].
Qed.

(** C29: The data plane server becomes ready exactly when the process runs
    as root, an interface is given and gets an IPv4 address, and the system
    then loads the programs for that interface and address, lifts the
    memory limit, opens both maps and attaches the programs, in this order.
    However the start ends, it asked for the first steps of that sequence
    and nothing else. *)
Theorem bridge_start_spec kernelTracing bridgeEth polls h :
  let '(res, h') := Start kernelTracing bridgeEth polls h in
  (res = Ready <->
   uid = 0 /\ bridgeEth <> EmptyString /\
   exists b, GetBridgeIP bridgeEth polls (h_bridge h) = Some b /\
     all_succeed (h_log h) (start_actions kernelTracing bridgeEth b)) /\
  exists b l, l `prefix_of` start_actions kernelTracing bridgeEth b /\ h_log h' = h_log h ++ l /\
    (res = Ready -> l = start_actions kernelTracing bridgeEth b).
Proof.
  pose proof (start_log kernelTracing bridgeEth polls h) as Hlog.
  destruct (decide (uid = 0 /\ bridgeEth <> EmptyString /\
    is_Some (GetBridgeIP bridgeEth polls (h_bridge h)))) as [(Hu & Hne & b & Hb)|Hno].
  - destruct (start_with_address kernelTracing bridgeEth polls h b Hu Hne Hb) as [Hr _].
    destruct (Start _ _ _ _) as [res h']. simpl in Hr. split; [rewrite Hr; naive_solver|done].
  - destruct (start_without_address kernelTracing bridgeEth polls h Hno) as [Hr _].
    destruct (Start _ _ _ _) as [res h']. split; [|done]. simpl in Hr. split; [done|].
    intros (? & ? & b & Hb & _). exfalso. apply Hno. by rewrite Hb.
Qed.

(** The action that unloads the programs. *)
Definition clean : Action := Make ["-k"; "clean"] environ.

Lemma clean_not_started kernelTracing bridgeEth b l :
  l `prefix_of` start_actions kernelTracing bridgeEth b -> clean ∉ l.
Proof.
  intros [k Hk] Hin. assert (clean ∈ start_actions kernelTracing bridgeEth b) as Hc.
  { rewrite Hk. set_solver. }
  unfold start_actions, clean in Hc. rewrite !elem_of_cons in Hc.
  destruct Hc as [?|[?|[?|[?|[]%not_elem_of_nil]]]]; simplify_eq.
Qed.

(** The process unloads the programs exactly when it was started
    completely and then told to stop, and then it had attached them before.
    A process that ends in any other way unloads nothing: when the start
    fails after [make load], the programs stay in the kernel. *)
Theorem bridge_main_unloads f env h res h' :
  h_log h = [] -> bridge_main f env h = (res, h') ->
  (clean ∈ h_log h' <-> exists err, res = Stopped err) /\
  (forall err, res = Stopped err ->
     exists b, h_log h' = start_actions (br_kernelTracing env) (br_bridgeEth env) b ++ [clean]).
Proof.
  intros Hlog. unfold bridge_main. destruct (bridge_checks f env) as [r|recorder] eqn:Ec.
  { intros [= <- <-]. rewrite Hlog. assert (forall err, r <> Stopped err) as Hr.
    { intros err ->. revert Ec. unfold bridge_checks, fatal_exit.
      repeat (case_match; try done). }
    split; [|naive_solver]. split; [by intros ?%not_elem_of_nil|naive_solver]. }
  pose proof (start_log (br_kernelTracing env) (br_bridgeEth env) (br_polls env) h) as Hs.
  destruct (Start _ _ _ h) as [started h1]. destruct Hs as (b & l & Hp & Hl & Hready).
  rewrite Hlog in Hl. simpl in Hl. apply clean_not_started in Hp.
  assert (forall r, (forall err, r <> Stopped err) -> (r, h1) = (res, h') ->
    (clean ∈ h_log h' <-> exists err, res = Stopped err) /\
    (forall err, res = Stopped err -> exists b,
       h_log h' = start_actions (br_kernelTracing env) (br_bridgeEth env) b ++ [clean])) as Hother.
  { intros r Hr [= <- <-]. rewrite Hl. naive_solver. }
  destruct started; [|apply Hother; unfold fatal_exit; by repeat case_match..].
  destruct (br_httpServer env); [by apply Hother|]. unfold Stop, UnLoadProgs.
  destruct (run_make_spec "unload " ["-k"; "clean"] environ h1) as (err & -> & _).
  intros [= <- <-]. simpl. rewrite Hl. split; [|intros; exists b; by rewrite Hready].
  split; [by eexists|intros _; set_solver].
Qed.

End Process.

(** ** Witnesses *)

Definition mem_res : BpfMap dnsQuery aRecord := gmap_bpf dnsQuery aRecord.
Definition mem_ep : BpfMap (list Z) (list Z) := gmap_bpf (list Z) (list Z).

Definition fresh_host : Host mem_res mem_ep :=
  mkHost mem_res mem_ep [] (mkBridgeIP 0 None) (mkKernel mem_res mem_ep 0 false false ∅ ∅).

Definition bridge_flags : Flags := mkFlags "ecnet" "ecnet-system" "info".

Definition bridge_pod : KPod := mkKPod "ecnet-system" "ecnet-bridge-x2" "u1" ∅ ∅ "ecnet" "" [].

Definition healthy_env : BridgeEnv :=
  mkBridgeEnv None None None "ecnet-bridge-x2" (inr bridge_pod) (inr []) None None false "cni0"
    [inl [mkIface true "cni0" (inl [IPNet (IPv4 10 0 1 1)])]].

(** A system that does everything it is asked, and one whose attaching of
    the programs fails. *)
Definition obliging (_ : list Action) (_ : Action) : Z * option string := (0, None).
Definition no_attach (_ : list Action) (a : Action) : Z * option string :=
  match a with Make ("attach" :: _) _ => (2, Some "exit status 2") | _ => (0, None) end.
Definition pinned (_ : list Action) (_ : string) : option string := None.

Definition attach_failed : string :=
  "Error initializing data plane server: failed to attach ebpf programs: unexpected exit code: 2, err: exit status 2".

Lemma bridge_main_unloads_witness :
  let r := bridge_main mem_res mem_ep 0 ["HOME=/root"] obliging pinned bridge_flags healthy_env fresh_host in
  let r' := bridge_main mem_res mem_ep 0 ["HOME=/root"] no_attach pinned bridge_flags healthy_env fresh_host in
  r.1 = Stopped None /\ clean ["HOME=/root"] ∈ h_log _ _ r.2 /\
  r'.1 = EventExit attach_failed /\ clean ["HOME=/root"] ∉ h_log _ _ r'.2.
Proof.
  intros r r'. assert (Hr : r.1 = Stopped None) by (vm_compute; reflexivity).
  assert (Hr' : r'.1 = EventExit attach_failed) by (vm_compute; reflexivity).
  pose proof (fun h' => bridge_main_unloads mem_res mem_ep 0 ["HOME=/root"] obliging pinned bridge_flags
    healthy_env fresh_host (Stopped None) h' eq_refl) as H.
  pose proof (fun h' => bridge_main_unloads mem_res mem_ep 0 ["HOME=/root"] no_attach pinned bridge_flags
    healthy_env fresh_host (EventExit attach_failed) h' eq_refl) as H'.
  fold r in H. fold r' in H'. clearbody r r'. destruct r as [res h], r' as [res' h']. simpl in *. subst.
  split; [reflexivity|]. split; [apply (H h eq_refl); by eexists|]. split; [reflexivity|].
  intros [err Herr]%(H' h' eq_refl). discriminate.
Defined.
