(* ===== verification/Signals.v ===== *)
(** * Exit signals and port forwarding ([pkg/ecnet/signals],
    [pkg/ecnet/k8s/portforward.go])

    Goroutines that wait for a signal of the operating system and close
    channels. Closing a channel twice panics. The signals that arrive, the
    calls of [Stop] and the end of the forwarding are steps. *)

From Stdlib Require Import String.
From S2P Require Import Prelude.

(** ** Channels that are only closed *)

(** [close]; a closed channel panics. *)
Definition close (closed : bool) : outcome bool := if closed then Panic else Ret true.

(** ** [signals.go] *)

Inductive Signal := Interrupt | SIGTERM | OtherSignal.

Definition exitSignals : list Signal := [Interrupt; SIGTERM].

Definition is_exit (s : Signal) : bool :=
  match s with Interrupt | SIGTERM => true | OtherSignal => false end.

(** The goroutine waits on [s], runs the functions, or has ended. *)
Inductive handler_pc := HWaiting | HRunning (rest : list string) | HEnded.

Record ExitHandler := mkExitHandler {
  eh_signals : nat;                 (* how many the buffered channel holds *)
  eh_stop : bool;                   (* [stop] is closed *)
  eh_pc : handler_pc;
  eh_called : list string;          (* the shutdown functions called so far *)
  eh_funcs : list string
}.

Definition RegisterExitHandlers (shutdownFuncs : list string) : ExitHandler :=
  mkExitHandler 0 false HWaiting [] shutdownFuncs.

(** A signal: it is dropped if it is no exit signal or the channel is
    full. *)
Definition notify (sg : Signal) (h : ExitHandler) : ExitHandler :=
  if is_exit sg && Nat.ltb (eh_signals h) (length exitSignals)
  then mkExitHandler (S (eh_signals h)) (eh_stop h) (eh_pc h) (eh_called h) (eh_funcs h) else h.

(** A step of the goroutine; [None] when it has none. *)
Definition handler_step (h : ExitHandler) : option (outcome ExitHandler) :=
  match eh_pc h with
  | HWaiting =>
      match eh_signals h with
      | O => None
      | S n => Some (stop ← close (eh_stop h);
                     Ret (mkExitHandler n stop (HRunning (eh_funcs h)) (eh_called h) (eh_funcs h)))
      end
  | HRunning [] => Some (Ret (mkExitHandler (eh_signals h) (eh_stop h) HEnded (eh_called h) (eh_funcs h)))
  | HRunning (f :: rest) =>
      Some (Ret (mkExitHandler (eh_signals h) (eh_stop h) (HRunning rest) (eh_called h ++ [f]) (eh_funcs h)))
  | HEnded => None
  end.

Inductive exit_run (funcs : list string) : list Signal -> outcome ExitHandler -> Prop :=
| exit_start : exit_run funcs [] (Ret (RegisterExitHandlers funcs))
| exit_signal trace h sg :
    exit_run funcs trace (Ret h) -> exit_run funcs (sg :: trace) (Ret (notify sg h))
| exit_handle trace h r :
    exit_run funcs trace (Ret h) -> handler_step h = Some r -> exit_run funcs trace r.

(** Where the goroutine is, what it has done. *)
Definition exit_inv (funcs : list string) (trace : list Signal) (h : ExitHandler) : Prop :=
  eh_funcs h = funcs /\
  (eh_signals h <> O -> exists sg, sg ∈ trace /\ is_exit sg = true) /\
  match eh_pc h with
  | HWaiting => eh_stop h = false /\ eh_called h = [] /\
      ((exists sg, sg ∈ trace /\ is_exit sg = true) -> eh_signals h <> O)
  | HRunning rest => eh_stop h = true /\ eh_called h ++ rest = funcs
  | HEnded => eh_stop h = true /\ eh_called h = funcs
  end /\
  (eh_stop h = true -> exists sg, sg ∈ trace /\ is_exit sg = true).

Lemma notify_inv funcs trace sg h :
  exit_inv funcs trace h -> exit_inv funcs (sg :: trace) (notify sg h).
Proof.
  intros (Hf & Hs & Hpc & Hst). unfold notify.
  assert (forall P : Signal -> Prop, (exists x, x ∈ trace /\ P x) -> exists x, x ∈ sg :: trace /\ P x) as Hmono.
  { intros P (x & ? & ?). exists x. split; [by apply list_elem_of_further|done]. }
  destruct (is_exit sg) eqn:Esg; simpl.
  - assert (exists x, x ∈ sg :: trace /\ is_exit x = true) as Hx.
    { exists sg. split; [apply list_elem_of_here|done]. }
    assert (eh_signals h <> O \/ (eh_signals h < 2)%nat) as Hcase by lia.
    destruct (Nat.ltb_spec (eh_signals h) 2); (split_and!; [done|by auto| |by auto]);
      destruct (eh_pc h); try done; destruct Hpc as (? & ? & ?); split_and!; simpl; auto; lia.
  - split_and!; [done|by auto| |by auto]. destruct (eh_pc h); try done.
    destruct Hpc as (? & ? & Hw). split_and!; [done..|]. intros (x & Hx & Hex). apply Hw.
    apply elem_of_cons in Hx as [->|Hx]; [congruence|eauto].
Qed.

Lemma handler_inv funcs trace h r :
  exit_inv funcs trace h -> handler_step h = Some r -> exists h', r = Ret h' /\ exit_inv funcs trace h'.
Proof.
  intros (Hf & Hs & Hpc & Hst). unfold handler_step, exit_inv.
  destruct (eh_pc h) as [|[|f rest]|]; [|intros [= <-]..|done].
  - destruct (eh_signals h) as [|n]; [done|]. destruct Hpc as (Hstop & Hc & _). rewrite Hstop.
    intros [= <-]. eexists. split; [reflexivity|]. simpl. rewrite Hc. split_and!; auto.
  - eexists. split; [reflexivity|]. simpl. destruct Hpc as [? Happ]. rewrite app_nil_r in Happ. auto.
  - eexists. split; [reflexivity|]. simpl. destruct Hpc as [? Happ]. rewrite <- app_assoc. auto.
Qed.

(** However many signals arrive, the channel [stop] is closed once and
    never twice: the handler does not panic. It is closed only after an
    exit signal, and before the shutdown functions, each of which is called
    once and in order; once an exit signal arrived the handler is not at
    rest before it has called them all. *)
Theorem exit_handler_spec funcs trace r :
  exit_run funcs trace r ->
  exists h, r = Ret h /\
    (eh_stop h = true -> exists sg, sg ∈ trace /\ is_exit sg = true) /\
    (eh_called h <> [] -> eh_stop h = true) /\
    eh_called h `prefix_of` funcs /\
    (handler_step h = None -> (exists sg, sg ∈ trace /\ is_exit sg = true) ->
     eh_stop h = true /\ eh_called h = funcs).
Proof.
  intros Hrun. assert (exists h, r = Ret h /\ exit_inv funcs trace h) as (h & -> & Hf & Hs & Hpc & Hst).
  { induction Hrun as [|trace h sg _ (h' & [= <-] & IH)|trace h r _ (h' & [= <-] & IH) Hr].
    - eexists. split; [reflexivity|]. unfold exit_inv. simpl. split_and!; try done.
      by intros (? & ?%not_elem_of_nil & _).
    - eexists. split; [reflexivity|]. by apply notify_inv.
    - by eapply handler_inv. }
  exists h. unfold handler_step. destruct (eh_pc h) as [|[|f rest]|]; split_and!; try done; auto.
  - by destruct Hpc as (_ & -> & _).
  - destruct Hpc as (_ & -> & _). apply prefix_nil.
  - destruct Hpc as (_ & _ & Hw). destruct (eh_signals h); [|done]. intros _ Hx. by apply Hw in Hx.
  - by destruct Hpc as [? _].
  - destruct Hpc as [_ <-]. by exists [].
  - by destruct Hpc as [? _].
  - destruct Hpc as [_ <-]. by exists (f :: rest).
  - by destruct Hpc as [? _].
  - by destruct Hpc as [_ ->].
Qed.

(** ** [portforward.go] *)

(** The goroutine of [Start] that waits for an interrupt. *)
Inductive sig_pc := NotStarted | AwaitsSignal | CallsStop | SigEnded.

Record PortForwarder := mkPortForwarder {
  pf_stopChan : bool;        (* closed *)
  pf_done : bool;            (* closed *)
  pf_notified : bool;        (* [sigChan] receives interrupts *)
  pf_sigChan : bool;         (* its one slot is full *)
  pf_sig : sig_pc
}.

Definition NewPortForwarder (setup : option string) : string + PortForwarder :=
  match setup with
  | Some err => inl ("Error setting up port forwarding: " ++ err)%string
  | None => inr (mkPortForwarder false false false false NotStarted)
  end.

(** [Start] registers for interrupts and creates its goroutines. *)
Definition pf_Start (pf : PortForwarder) : PortForwarder :=
  mkPortForwarder (pf_stopChan pf) (pf_done pf) true false AwaitsSignal.

(** What its [select] then returns: the callback's result once the
    forwarding is ready, or the error it ended with. *)
Inductive pf_event := ForwardReady (callback : option string) | ForwardEnds (err : string).

Definition pf_select (e : pf_event) : option string :=
  match e with
  | ForwardReady r => r
  | ForwardEnds err => Some ("Error during port forwarding: " ++ err)%string
  end.

(** [Stop]: [stopChan] is never nil; [done] is closed by a deferred call. *)
Definition pf_Stop (pf : PortForwarder) : outcome PortForwarder :=
  stop ← close (pf_stopChan pf);
  done ← close (pf_done pf);
  Ret (mkPortForwarder stop done false (pf_sigChan pf) (pf_sig pf)).

Definition pf_set_sig (p : sig_pc) (full : bool) (pf : PortForwarder) : PortForwarder :=
  mkPortForwarder (pf_stopChan pf) (pf_done pf) (pf_notified pf) full p.

Inductive pf_label := PfInterrupt | PfReceive | PfSignalStop | PfStop.

Inductive pf_step : PortForwarder -> pf_label -> outcome PortForwarder -> Prop :=
| pf_interrupt pf :
    pf_notified pf = true -> pf_step pf PfInterrupt (Ret (pf_set_sig (pf_sig pf) true pf))
| pf_receive pf :
    pf_sig pf = AwaitsSignal -> pf_sigChan pf = true ->
    pf_step pf PfReceive (Ret (pf_set_sig CallsStop false pf))
| pf_signal_stop pf :
    pf_sig pf = CallsStop ->
    pf_step pf PfSignalStop (pf ← pf_Stop pf; Ret (pf_set_sig SigEnded (pf_sigChan pf) pf))
| pf_user_stop pf : pf_step pf PfStop (pf_Stop pf).

Inductive pf_run (pf : PortForwarder) : list pf_label -> outcome PortForwarder -> Prop :=
| pf_begin : pf_run pf [] (Ret (pf_Start pf))
| pf_more trace p l r : pf_run pf trace (Ret p) -> pf_step p l r -> pf_run pf (l :: trace) r.

(** A call of [Stop], by the user or by the goroutine. *)
Definition stops (l : pf_label) : bool :=
  match l with PfSignalStop | PfStop => true | _ => false end.

(** [Stop] works once: both channels are closed exactly after the first
    call, and a second call panics, whoever makes it. In particular a user
    who calls [Stop] after an interrupt has been handled panics. *)
Theorem port_forward_stops_once pf trace r :
  NewPortForwarder None = inr pf -> pf_run pf trace r ->
  match length (List.filter stops trace) with
  | O => exists p, r = Ret p /\ pf_stopChan p = false /\ pf_done p = false
  | S O => exists p, r = Ret p /\ pf_stopChan p = true /\ pf_done p = true
  | _ => r = Panic
  end.
Proof.
  intros [= <-]. induction 1 as [|trace p l r Hrun IH Hs]; [by eexists|].
  inversion Hs; subst; simpl;
    (destruct (length (List.filter stops trace)) as [|[|n]];
     [destruct IH as (q & [= <-] & H1 & H2)..|done]).
  all: try (by eexists).
  all: unfold pf_Stop; rewrite H1; try (by unfold close; simpl); rewrite ?H2; simpl; by eexists.
Qed.

Lemma port_forward_stops_once_witness :
  exists pf, NewPortForwarder None = inr pf /\
    pf_run pf [PfStop; PfSignalStop; PfReceive; PfInterrupt] Panic.
Proof.
  eexists. split; [reflexivity|].
  assert (exists r, pf_run (mkPortForwarder false false false false NotStarted)
    [PfStop; PfSignalStop; PfReceive; PfInterrupt] r) as [r Hr].
  { eexists. eapply (pf_more _ _ (mkPortForwarder true true false false SigEnded)); [|apply pf_user_stop].
    eapply (pf_more _ _ (mkPortForwarder false false true false CallsStop)); [|by apply pf_signal_stop].
    eapply (pf_more _ _ (mkPortForwarder false false true true AwaitsSignal)); [|by apply pf_receive].
    eapply pf_more; [constructor|]. by apply pf_interrupt. }
  pose proof (port_forward_stops_once _ _ _ eq_refl Hr) as Hp. simpl in Hp. by subst r.
Defined.

Lemma exit_handler_spec_witness :
  exists h, exit_run ["cancel"] [SIGTERM; Interrupt; OtherSignal] (Ret h) /\ eh_called h = ["cancel"].
Proof.
  assert (exists h, exit_run ["cancel"] [SIGTERM; Interrupt; OtherSignal] (Ret h) /\
    handler_step h = None) as (h & Hrun & Hrest).
  { eexists. split.
    - eapply exit_handle; [eapply exit_handle; [eapply exit_handle; [eapply exit_signal, exit_signal,
        exit_signal, exit_start|]|]|]; reflexivity.
    - reflexivity. }
  exists h. split; [exact Hrun|].
  destruct (exit_handler_spec _ _ _ Hrun) as (h' & [= <-] & _ & _ & _ & Hall).
  apply Hall; [exact Hrest|]. exists SIGTERM. split; [apply list_elem_of_here|reflexivity].
Defined.
