(* ===== verification/WorkerPool.v ===== *)
(** * The worker pool ([pkg/ecnet/workerpool])

    A bounded queue of jobs and a fixed number of workers. The goroutines
    are a step relation: posting a job, a worker taking, finishing a job or
    leaving, and closing the pool. A job is whatever is posted; what it does
    is the model of its component. *)

From Stdlib Require Import String.
From S2P Require Import Prelude.

Section WorkerPool.
Context {Job : Type}.

(** A goroutine of [work]. *)
Inductive worker :=
| Idle
| Busy (j : Job)
| Stopped.

(** The channels, the workers, and the jobs posted, taken and finished so
    far. *)
Record WorkerPool := mkWorkerPool {
  wp_nWorkers : nat;
  wp_jobs : list Job;
  wp_stop : bool;
  wp_workers : list worker;
  wp_posted : list Job;
  wp_taken : list Job;
  wp_done : list Job
}.

(** Making a channel with a negative capacity panics. *)
Definition NewWorkerPool (GOMAXPROCS nWorkers : Z) : outcome WorkerPool :=
  let n := if Z.eqb nWorkers 0 then GOMAXPROCS else nWorkers in
  if Z.ltb n 0 then Panic
  else Ret (mkWorkerPool (Z.to_nat n) [] false (replicate (Z.to_nat n) Idle) [] [] []).

Definition GetWorkerNumber (wp : WorkerPool) : Z := Z.of_nat (wp_nWorkers wp).

(** The send of [AddJob]; [None] while the queue is full. *)
Definition AddJob (wp : WorkerPool) (j : Job) : option WorkerPool :=
  if Nat.ltb (length (wp_jobs wp)) (wp_nWorkers wp) then
    Some (mkWorkerPool (wp_nWorkers wp) (wp_jobs wp ++ [j]) (wp_stop wp) (wp_workers wp)
            (wp_posted wp ++ [j]) (wp_taken wp) (wp_done wp))
  else None.

(** [Stop] closes a channel, which panics if it is closed already. *)
Definition Stop (wp : WorkerPool) : outcome WorkerPool :=
  if wp_stop wp then Panic
  else Ret (mkWorkerPool (wp_nWorkers wp) (wp_jobs wp) true (wp_workers wp)
              (wp_posted wp) (wp_taken wp) (wp_done wp)).

(** The three transitions of [work]: receive a job, run it to its end,
    receive from the closed channel. *)
Definition take (wp : WorkerPool) (i : nat) : option WorkerPool :=
  match wp_workers wp !! i, wp_jobs wp with
  | Some Idle, j :: jobs =>
      Some (mkWorkerPool (wp_nWorkers wp) jobs (wp_stop wp) (<[i := Busy j]> (wp_workers wp))
              (wp_posted wp) (wp_taken wp ++ [j]) (wp_done wp))
  | _, _ => None
  end.

Definition finish (wp : WorkerPool) (i : nat) : option WorkerPool :=
  match wp_workers wp !! i with
  | Some (Busy j) =>
      Some (mkWorkerPool (wp_nWorkers wp) (wp_jobs wp) (wp_stop wp) (<[i := Idle]> (wp_workers wp))
              (wp_posted wp) (wp_taken wp) (wp_done wp ++ [j]))
  | _ => None
  end.

Definition leave (wp : WorkerPool) (i : nat) : option WorkerPool :=
  match wp_workers wp !! i with
  | Some Idle =>
      if wp_stop wp then
        Some (mkWorkerPool (wp_nWorkers wp) (wp_jobs wp) (wp_stop wp) (<[i := Stopped]> (wp_workers wp))
                (wp_posted wp) (wp_taken wp) (wp_done wp))
      else None
  | _ => None
  end.

(** A worker takes or finishes a job. *)
Inductive work_step : WorkerPool -> WorkerPool -> Prop :=
| work_take wp i wp' : take wp i = Some wp' -> work_step wp wp'
| work_finish wp i wp' : finish wp i = Some wp' -> work_step wp wp'.

Inductive pool_step : WorkerPool -> WorkerPool -> Prop :=
| pool_work wp wp' : work_step wp wp' -> pool_step wp wp'
| pool_add wp j wp' : AddJob wp j = Some wp' -> pool_step wp wp'
| pool_stop wp wp' : Stop wp = Ret wp' -> pool_step wp wp'
| pool_leave wp i wp' : leave wp i = Some wp' -> pool_step wp wp'.

Definition pool_reachable (GOMAXPROCS nWorkers : Z) (wp : WorkerPool) : Prop :=
  exists wp0, NewWorkerPool GOMAXPROCS nWorkers = Ret wp0 /\ rtc pool_step wp0 wp.

(** ** Invariant *)

Definition busy_job (w : worker) : option Job :=
  match w with Busy j => Some j | _ => None end.

(** The jobs that are running. *)
Definition running (wp : WorkerPool) : list Job := omap busy_job (wp_workers wp).

Record pool_inv (wp : WorkerPool) : Prop := {
  pi_workers : length (wp_workers wp) = wp_nWorkers wp;
  pi_queue : (length (wp_jobs wp) <= wp_nWorkers wp)%nat;
  pi_fifo : wp_posted wp = wp_taken wp ++ wp_jobs wp;
  pi_once : wp_taken wp ≡ₚ wp_done wp ++ running wp;
  pi_open : wp_stop wp = false -> Stopped ∉ wp_workers wp
}.

Lemma omap_insert_busy (l : list worker) i j :
  l !! i = Some Idle -> omap busy_job (<[i := Busy j]> l) ≡ₚ j :: omap busy_job l.
Proof.
  intros Hi. rewrite (insert_take_drop _ _ _ (lookup_lt_Some _ _ _ Hi)).
  rewrite <- (take_drop_middle l i Idle Hi) at 3. rewrite !omap_app. simpl. by rewrite <- Permutation_middle.
Qed.

Lemma omap_insert_idle (l : list worker) i j w :
  l !! i = Some (Busy j) -> busy_job w = None ->
  omap busy_job l ≡ₚ j :: omap busy_job (<[i := w]> l).
Proof.
  intros Hi Hw. rewrite (insert_take_drop _ _ _ (lookup_lt_Some _ _ _ Hi)).
  rewrite <- (take_drop_middle l i (Busy j) Hi) at 1. rewrite !omap_app. simpl. rewrite Hw.
  by rewrite <- Permutation_middle.
Qed.

Lemma omap_insert_same (l : list worker) i w w' :
  l !! i = Some w -> busy_job w = None -> busy_job w' = None ->
  omap busy_job (<[i := w']> l) = omap busy_job l.
Proof.
  intros Hi Hw Hw'. rewrite (insert_take_drop _ _ _ (lookup_lt_Some _ _ _ Hi)).
  rewrite <- (take_drop_middle l i w Hi) at 3. rewrite !omap_app. simpl. by rewrite Hw, Hw'.
Qed.

Lemma no_stopped_insert (l : list worker) i w :
  Stopped ∉ l -> w <> Stopped -> Stopped ∉ <[i := w]> l.
Proof.
  intros Hn Hw Hin. apply list_elem_of_lookup in Hin as [k Hk].
  apply list_lookup_insert_Some in Hk as [(-> & -> & _)|[_ Hk]]; [done|].
  apply Hn. by eapply list_elem_of_lookup_2.
Qed.

Lemma take_inv wp i wp' : pool_inv wp -> take wp i = Some wp' -> pool_inv wp'.
Proof.
  intros [Hw Hq Hf Ho Hs] Ht. unfold take in Ht.
  destruct (wp_workers wp !! i) as [[| |]|] eqn:Hi; try done.
  destruct (wp_jobs wp) as [|j jobs] eqn:Hj; [done|]. injection Ht as <-. simpl in *.
  split; simpl.
  - by rewrite length_insert.
  - lia.
  - by rewrite Hf, <- app_assoc.
  - unfold running. simpl. rewrite (omap_insert_busy _ _ _ Hi), Ho. unfold running.
    rewrite <- Permutation_cons_append. by rewrite Permutation_middle.
  - intros H. by apply no_stopped_insert; [apply Hs|].
Qed.

Lemma finish_inv wp i wp' : pool_inv wp -> finish wp i = Some wp' -> pool_inv wp'.
Proof.
  intros [Hw Hq Hf Ho Hs] Ht. unfold finish in Ht.
  destruct (wp_workers wp !! i) as [[|j|]|] eqn:Hi; try done. injection Ht as <-. split; simpl.
  - by rewrite length_insert.
  - done.
  - done.
  - unfold running in *. simpl. rewrite Ho.
    rewrite (omap_insert_idle _ i j Idle Hi) by done. by rewrite <- app_assoc.
  - intros H. by apply no_stopped_insert; [apply Hs|].
Qed.

Lemma pool_step_inv wp wp' : pool_inv wp -> pool_step wp wp' -> pool_inv wp'.
Proof.
  intros Hinv Hs. destruct Hs as [wp wp' [? i ? Ht|? i ? Ht]|wp j wp' Ha|wp wp' Ha|wp i wp' Ha].
  - by eapply take_inv.
  - by eapply finish_inv.
  - destruct Hinv as [Hw Hq Hf Ho Hs]. unfold AddJob in Ha. case_match eqn:E; [|done].
    apply Nat.ltb_lt in E. injection Ha as <-. split; simpl; [done| |by rewrite Hf, app_assoc|done|done].
    rewrite length_app. simpl. lia.
  - destruct Hinv as [Hw Hq Hf Ho Hs]. unfold Stop in Ha. case_match; [done|]. injection Ha as <-.
    by split.
  - destruct Hinv as [Hw Hq Hf Ho Hs]. unfold leave in Ha.
    destruct (wp_workers wp !! i) as [[| |]|] eqn:Hi; try done. case_match eqn:E; [|done].
    injection Ha as <-. split; simpl; [by rewrite length_insert|done|done| |congruence].
    unfold running in *. simpl. rewrite Ho. by rewrite (omap_insert_same _ i Idle Stopped Hi).
Qed.

Lemma pool_reachable_inv g n wp : pool_reachable g n wp -> pool_inv wp.
Proof.
  intros (wp0 & Hn & Hr).
  assert (pool_inv wp0) as H0.
  { unfold NewWorkerPool in Hn. case_match; [done|]. injection Hn as <-. split; simpl.
    - by rewrite length_replicate.
    - lia.
    - done.
    - unfold running. simpl. generalize (Z.to_nat (if n =? 0 then g else n)).
      intros k. by induction k.
    - intros _ Hin. by apply elem_of_replicate in Hin as [? _]. }
  clear Hn. induction Hr; eauto using pool_step_inv.
Qed.

Lemma running_bound wp : pool_inv wp -> (length (running wp) <= wp_nWorkers wp)%nat.
Proof.
  intros [Hw _ _ _ _]. rewrite <- Hw. unfold running. clear Hw.
  induction (wp_workers wp) as [|[| |] l IH]; csimpl; lia.
Qed.

(** How much work is left. *)
Definition backlog (wp : WorkerPool) : nat := 2 * length (wp_jobs wp) + length (running wp).

Lemma work_step_backlog wp wp' : work_step wp wp' -> (backlog wp' < backlog wp)%nat.
Proof.
  unfold backlog, running. intros [? i ? Ht|? i ? Ht].
  - unfold take in Ht. destruct (wp_workers wp0 !! i) as [[| |]|] eqn:Hi; try done.
    destruct (wp_jobs wp0) as [|j jobs]; [done|]. injection Ht as <-. simpl.
    rewrite (Permutation_length (omap_insert_busy _ _ j Hi)). simpl. lia.
  - unfold finish in Ht. destruct (wp_workers wp0 !! i) as [[|j|]|] eqn:Hi; try done.
    injection Ht as <-. simpl.
    rewrite (Permutation_length (omap_insert_idle _ i j Idle Hi eq_refl)). simpl. lia.
Qed.

(** An open pool with work left has a worker that can do something. *)
Lemma work_progress wp :
  pool_inv wp -> wp_stop wp = false -> (0 < wp_nWorkers wp)%nat ->
  (forall wp', ~ work_step wp wp') -> wp_jobs wp = [] /\ running wp = [].
Proof.
  intros [Hw _ _ _ Hs] Hstop Hn Hq.
  assert (forall i w, wp_workers wp !! i = Some w -> w = Idle) as Hidle.
  { intros i w Hi. destruct w as [|j|]; [done|..]; exfalso.
    - eapply Hq, (work_finish _ i). unfold finish. by rewrite Hi.
    - apply (Hs Hstop). by eapply list_elem_of_lookup_2. }
  split.
  - destruct (wp_jobs wp) as [|j jobs] eqn:Hj; [done|exfalso].
    destruct (wp_workers wp !! 0%nat) as [w|] eqn:H0.
    + eapply Hq, (work_take _ 0). unfold take. by rewrite H0, (Hidle _ _ H0), Hj.
    + apply lookup_ge_None in H0. lia.
  - unfold running. clear Hw Hq Hs. induction (wp_workers wp) as [|w l IH]; [done|]. simpl.
    rewrite (Hidle 0%nat w eq_refl). apply IH. intros i w' Hi. by apply (Hidle (S i)).
Qed.

(** C32: Jobs are taken in the order they were posted and each is run once:
    what was posted is what was taken followed by the queue, what was taken
    is done or running, and at most [nWorkers] jobs run and at most
    [nWorkers] wait. All workers take from one queue; the comment of
    [AddJob], by which a hash of the job chooses the worker, does not
    describe this code. *)
Theorem pool_runs_each_job_once g n wp :
  pool_reachable g n wp ->
  wp_posted wp = wp_taken wp ++ wp_jobs wp /\
  wp_taken wp ≡ₚ wp_done wp ++ running wp /\
  (length (running wp) <= wp_nWorkers wp)%nat /\ (length (wp_jobs wp) <= wp_nWorkers wp)%nat.
Proof.
  intros Hr. pose proof (pool_reachable_inv _ _ _ Hr) as Hi. pose proof (running_bound _ Hi).
  by destruct Hi.
Qed.

Lemma work_step_frame wp wp' :
  work_step wp wp' -> wp_stop wp' = wp_stop wp /\ wp_posted wp' = wp_posted wp.
Proof.
  intros [? i ? Ht|? i ? Ht]; unfold take, finish in Ht; repeat case_match; simplify_eq; done.
Qed.

Lemma pool_step_size wp wp' : pool_step wp wp' -> wp_nWorkers wp' = wp_nWorkers wp.
Proof.
  intros [? ? [? i ? Ht|? i ? Ht]|? j ? Ht|? ? Ht|? i ? Ht];
    unfold take, finish, AddJob, Stop, leave in Ht; repeat case_match; simplify_eq; done.
Qed.

Lemma pool_size g n wp :
  0 < g -> 0 <= n -> pool_reachable g n wp -> (0 < wp_nWorkers wp)%nat.
Proof.
  intros Hg Hn (wp0 & H0 & Hr).
  assert (0 < wp_nWorkers wp0)%nat as Hpos.
  { unfold NewWorkerPool in H0. case_match eqn:E; [done|]. injection H0 as <-. simpl.
    destruct (Z.eqb_spec n 0); lia. }
  clear H0. induction Hr as [|x y z Hs _ IH]; [done|]. apply IH. by rewrite (pool_step_size _ _ Hs).
Qed.

Lemma work_run_frame g n wp wp' :
  rtc work_step wp wp' -> pool_reachable g n wp ->
  pool_reachable g n wp' /\ wp_stop wp' = wp_stop wp /\ wp_posted wp' = wp_posted wp.
Proof.
  induction 1 as [|x y z Hxy _ IH]; [done|]. intros (wp0 & H0 & Hr).
  destruct (work_step_frame _ _ Hxy) as [<- <-]. apply IH. exists wp0. split; [done|].
  eapply rtc_r; [done|]. by apply pool_work.
Qed.

Lemma work_terminates wp : Acc (fun x y => work_step y x) wp.
Proof.
  remember (backlog wp) as k eqn:Hk. revert wp Hk. induction (lt_wf k) as [k _ IH].
  intros wp ->. constructor. intros wp' Hs. by apply (IH _ (work_step_backlog _ _ Hs)).
Qed.

(** C31: An open pool finishes its work: the workers cannot go on for ever,
    and when they stop having anything to do every posted job is done. *)
Theorem pool_drains g n wp :
  0 < g -> 0 <= n -> pool_reachable g n wp -> wp_stop wp = false ->
  Acc (fun x y => work_step y x) wp /\
  forall wp', rtc work_step wp wp' -> (forall wp'', ~ work_step wp' wp'') ->
    wp_done wp' ≡ₚ wp_posted wp.
Proof.
  intros Hg Hn Hr Hstop. split; [apply work_terminates|]. intros wp' Hrun Hq.
  destruct (work_run_frame _ _ _ _ Hrun Hr) as (Hr' & Hs' & Hp). rewrite Hstop in Hs'.
  pose proof (pool_reachable_inv _ _ _ Hr') as Hi.
  destruct (work_progress _ Hi Hs' (pool_size _ _ _ Hg Hn Hr') Hq) as [Hj Hrn].
  rewrite <- Hp, (pi_fifo _ Hi), Hj, app_nil_r, (pi_once _ Hi), Hrn. by rewrite app_nil_r.
Qed.

End WorkerPool.
Arguments worker Job : clear implicits.
Arguments WorkerPool Job : clear implicits.

(** ** A concrete pool *)

(** Two workers, three jobs: two are running, one is queued. *)
Definition example_pool : WorkerPool nat :=
  mkWorkerPool 2 [3%nat] false [Busy 1%nat; Busy 2%nat] [1; 2; 3]%nat [1; 2]%nat [].

Lemma example_pool_reachable : pool_reachable 2 0 example_pool.
Proof.
  eexists. split; [reflexivity|].
  eapply rtc_l; [apply (pool_add _ 1%nat); reflexivity|].
  eapply rtc_l; [apply (pool_add _ 2%nat); reflexivity|].
  eapply rtc_l; [apply pool_work, (work_take _ 0); reflexivity|].
  eapply rtc_l; [apply pool_work, (work_take _ 1); reflexivity|].
  eapply rtc_l; [apply (pool_add _ 3%nat); reflexivity|].
  apply rtc_refl.
Qed.

Lemma pool_runs_each_job_once_witness :
  wp_posted example_pool = wp_taken example_pool ++ wp_jobs example_pool /\
  (length (running example_pool) <= 2)%nat.
Proof.
  pose proof (pool_runs_each_job_once 2 0 example_pool example_pool_reachable) as (H1 & _ & H2 & _).
  split; [exact H1|exact H2].
Defined.

(** Whatever order the workers choose, the three jobs are done. *)
Lemma pool_drains_witness :
  Acc (fun x y => work_step y x) example_pool /\
  (forall wp', rtc work_step example_pool wp' -> (forall wp'', ~ work_step wp' wp'') ->
     wp_done wp' ≡ₚ [1; 2; 3]%nat).
Proof.
  apply (pool_drains 2 0 example_pool);
    [reflexivity|discriminate|apply example_pool_reachable|reflexivity].
Defined.
