(* ===== verification/Listener.v ===== *)
(** * The broadcast listeners ([bridge/ctrlplane/server/broadcast.go],
      [bridge/dataplane/server/broadcast.go], [bridge/ctrlplane/registry])

    A listener turns proxy updates into jobs: an update arms a timer, and
    when the timer fires a job runs, after which the timer is armed once
    more. Both servers have this loop; they differ in the first delay, and
    in that jobs of the control plane may arm the timer themselves
    ([retryProxiesJob]). The timer is the one of the dispatcher's model. *)

From Stdlib Require Import String.
From S2P Require Import Prelude Broker.

(** ** The registry and [fireExistProxies] *)

(** The proxy of the registry, by its UUID, and how often it was informed. *)
Record ProxyRegistry := mkProxyRegistry {
  cacheProxy : option string;
  informed : nat
}.

Definition RegisterProxy (newUUID : string) (pr : ProxyRegistry) : ProxyRegistry * string :=
  match cacheProxy pr with
  | None => (mkProxyRegistry (Some newUUID) (informed pr), newUUID)
  | Some p => (pr, p)
  end.

Definition GetConnectedProxy (pr : ProxyRegistry) : option string := cacheProxy pr.

(** A new proxy is informed: a routine that subscribes to its updates is
    started. *)
Definition informProxy (pr : ProxyRegistry) : ProxyRegistry :=
  mkProxyRegistry (cacheProxy pr) (S (informed pr)).

Definition fireExistProxies (newUUID : string) (pr : ProxyRegistry) : ProxyRegistry * list string :=
  match GetConnectedProxy pr with
  | Some p => (pr, [p])
  | None => let '(pr', p) := RegisterProxy newUUID pr in (informProxy pr', [p])
  end.

(** However often it is called, there is one proxy and one routine. *)
Lemma fireExistProxies_once u us :
  foldl (fun pr u => (fireExistProxies u pr).1) (mkProxyRegistry None 0) (u :: us)
    = mkProxyRegistry (Some u) 1.
Proof. simpl. by induction us. Qed.

(** ** [broadcastListener] *)

Definition resyncDelay : Z := 5 * Second.
Definition reconfirmDelay : Z := 10 * Second.

(** The local variables, the clock, and the times at which jobs started. *)
Record Listener := mkListener {
  l_now : Z;
  l_slidingTimer : Timer;
  l_reconfirm : bool;
  l_runs : list Z
}.

(** [firstDelay] is 20 seconds in the control plane and 10 in the data
    plane. *)
Definition listener_init (firstDelay : Z) : Listener :=
  mkListener 0 (NewTimer 0 firstDelay) true [].

(** [case <-proxyUpdateChan] *)
Definition on_update (l : Listener) : Listener :=
  mkListener (l_now l) (timer_Reset (l_now l) resyncDelay (l_slidingTimer l)) true (l_runs l).

(** [slidingTimerReset], called by a job. *)
Definition on_retry (l : Listener) : Listener :=
  mkListener (l_now l) (timer_Reset (l_now l) resyncDelay (l_slidingTimer l)) (l_reconfirm l) (l_runs l).

(** [case <-slidingTimer.C]: the job takes [duration], and may call
    [slidingTimerReset] after [retry]. *)
Definition on_fire (l : Listener) (duration : Z) (retry : option Z) : option Listener :=
  timer ← timer_receive (l_slidingTimer l);
  let start := l_now l in
  let timer1 :=
    match retry with
    | Some r => timer_Reset (start + r) resyncDelay (timer_fire (start + r) timer)
    | None => timer
    end in
  let timer2 := timer_fire (start + duration) timer1 in
  Some (mkListener (start + duration)
          (if l_reconfirm l then timer_Reset (start + duration) reconfirmDelay timer2 else timer2)
          false (l_runs l ++ [start])).

Definition listener_advance (l : Listener) (t : Z) : Listener :=
  mkListener t (timer_fire t (l_slidingTimer l)) (l_reconfirm l) (l_runs l).

Inductive listener_action :=
| LUpdate
| LRetry
| LJob
| LTime.

(** As in the dispatcher, the loop is scheduled in time: the clock does not
    pass a deadline, nor move while the channel is ready. *)
Inductive listener_step : Listener -> listener_action -> Listener -> Prop :=
| lstep_time l t :
    l_now l < t -> timer_C (l_slidingTimer l) = false ->
    (forall x, timer_deadline (l_slidingTimer l) = Some x -> t <= x) ->
    listener_step l LTime (listener_advance l t)
| lstep_update l : listener_step l LUpdate (on_update l)
| lstep_retry l : listener_step l LRetry (on_retry l)
| lstep_fire l duration retry l' :
    (forall r, retry = Some r -> 0 <= r <= duration) -> 0 <= duration ->
    on_fire l duration retry = Some l' -> listener_step l LJob l'.

(** Runs from the start; the actions are in reverse order. *)
Inductive listener_run (firstDelay : Z) : list listener_action -> Listener -> Prop :=
| lrun_init : listener_run firstDelay [] (listener_init firstDelay)
| lrun_step trace l a l' :
    listener_run firstDelay trace l -> listener_step l a l' ->
    listener_run firstDelay (a :: trace) l'.

(** ** Specification *)

(** The jobs still owed: two after an update, and at the start. *)
Fixpoint owed (trace : list listener_action) : nat :=
  match trace with
  | [] => 2
  | LUpdate :: _ => 2
  | LJob :: trace' => Nat.pred (owed trace')
  | _ :: trace' => owed trace'
  end.

(** Only time passed since the timer was last armed for an update. *)
Fixpoint recent (trace : list listener_action) : bool :=
  match trace with
  | LUpdate :: _ | LRetry :: _ => true
  | LTime :: trace' => recent trace'
  | _ => false
  end.

Definition delay_bound (firstDelay : Z) (trace : list listener_action) : Z :=
  if recent trace then resyncDelay else Z.max firstDelay reconfirmDelay.

(** The timer fires within [bound]. *)
Definition armed (bound : Z) (l : Listener) : Prop :=
  timer_C (l_slidingTimer l) = true \/
  exists x, timer_deadline (l_slidingTimer l) = Some x /\ l_now l < x <= l_now l + bound.

Record listener_inv (firstDelay : Z) (trace : list listener_action) (l : Listener) : Prop := {
  li_reconfirm : l_reconfirm l = true <-> owed trace = 2%nat;
  li_owed : (owed trace <= 2)%nat;
  li_armed : (0 < owed trace)%nat -> armed (delay_bound firstDelay trace) l;
  li_recent : recent trace = true -> armed resyncDelay l;
  li_deadline : forall x, timer_deadline (l_slidingTimer l) = Some x -> l_now l < x
}.

Lemma delays_positive : 0 < resyncDelay /\ resyncDelay <= reconfirmDelay.
Proof. unfold resyncDelay, reconfirmDelay, Second. lia. Qed.

Lemma armed_reset now d b t r runs :
  0 < d <= b -> armed b (mkListener now (timer_Reset now d t) r runs).
Proof. intros Hd. right. exists (now + d). simpl. split; [done|lia]. Qed.

Lemma armed_advance b l t :
  l_now l < t -> timer_C (l_slidingTimer l) = false ->
  (forall x, timer_deadline (l_slidingTimer l) = Some x -> t <= x) ->
  armed b l -> armed b (listener_advance l t).
Proof.
  intros Ht Hc Hx [Ha|(x & Hd & Hlt)]; [congruence|]. specialize (Hx x Hd).
  unfold armed, listener_advance, timer_fire. simpl. rewrite Hd.
  destruct (Z.leb_spec x t); [by left|]. right. exists x. rewrite Hd. split; [done|lia].
Qed.

Lemma fire_deadline now t x : timer_deadline (timer_fire now t) = Some x -> now < x.
Proof.
  unfold timer_fire. destruct (timer_deadline t) eqn:E; [|congruence].
  destruct (Z.leb_spec z now); simpl; [done|]. rewrite E. intros [= <-]. done.
Qed.

Lemma listener_update_inv firstDelay trace l :
  listener_inv firstDelay trace l -> listener_inv firstDelay (LUpdate :: trace) (on_update l).
Proof.
  intros [_ _ _ _ _]. pose proof delays_positive.
  split; simpl; [done|lia|intros _; by apply armed_reset|intros _; by apply armed_reset|].
  intros x [= <-]. lia.
Qed.

Lemma listener_retry_inv firstDelay trace l :
  listener_inv firstDelay trace l -> listener_inv firstDelay (LRetry :: trace) (on_retry l).
Proof.
  intros [Hr Ho _ _ _]. pose proof delays_positive.
  split; simpl; [done|done|intros _; by apply armed_reset|intros _; by apply armed_reset|].
  intros x [= <-]. lia.
Qed.

Lemma listener_time_inv firstDelay trace l t :
  l_now l < t -> timer_C (l_slidingTimer l) = false ->
  (forall x, timer_deadline (l_slidingTimer l) = Some x -> t <= x) ->
  listener_inv firstDelay trace l ->
  listener_inv firstDelay (LTime :: trace) (listener_advance l t).
Proof.
  intros Ht Hc Hx [Hr Ho Ha Hre Hd]. split; simpl; [done|done|..].
  - intros H. apply armed_advance; auto.
  - intros H. apply armed_advance; auto.
  - intros x. apply fire_deadline.
Qed.

(** A job that asks for a retry leaves the timer armed. *)
Lemma on_fire_armed l duration retry l' :
  (forall r, retry = Some r -> 0 <= r <= duration) ->
  on_fire l duration retry = Some l' -> l_reconfirm l = true \/ is_Some retry ->
  armed reconfirmDelay l'.
Proof.
  intros Hr Hf Hor. unfold on_fire in Hf. pose proof delays_positive.
  destruct (timer_receive (l_slidingTimer l)) as [t|]; [|done].
  injection Hf as <-. destruct (l_reconfirm l); [apply armed_reset; lia|].
  destruct Hor as [?|[r ->]]; [done|]. specialize (Hr r eq_refl).
  unfold armed, timer_fire. simpl. destruct (Z.leb_spec (l_now l + r + resyncDelay) (l_now l + duration)).
  - by left.
  - right. eexists. split; [done|]. lia.
Qed.

Lemma listener_fire_inv firstDelay trace l duration retry l' :
  (forall r, retry = Some r -> 0 <= r <= duration) -> 0 <= duration ->
  on_fire l duration retry = Some l' ->
  listener_inv firstDelay trace l -> listener_inv firstDelay (LJob :: trace) l'.
Proof.
  intros Hr Hd Hf [Hrc Ho Ha Hre Hdl]. pose proof delays_positive as Hp.
  pose proof (on_fire_armed _ _ _ _ Hr Hf) as Harm.
  unfold on_fire in Hf. destruct (timer_receive (l_slidingTimer l)) as [t|]; [|done].
  injection Hf as <-. split; simpl.
  - split; [done|lia].
  - lia.
  - intros Hw. destruct (Harm (or_introl (proj2 Hrc ltac:(lia)))) as [?|(x & Hx & Hlt)]; [by left|].
    right. exists x. split; [done|]. unfold delay_bound. simpl in *. lia.
  - done.
  - intros x. destruct (l_reconfirm l); [intros [= <-]; lia|]. apply fire_deadline.
Qed.

Lemma listener_run_inv firstDelay trace l :
  0 < firstDelay -> listener_run firstDelay trace l -> listener_inv firstDelay trace l.
Proof.
  intros Hf. induction 1 as [|trace l a l' _ IH Hs].
  - split; simpl; [done|lia| |done|].
    + intros _. right. exists (0 + firstDelay). split; [done|]. unfold delay_bound. simpl. lia.
    + intros x [= <-]. lia.
  - inversion Hs; subst.
    + by apply listener_time_inv.
    + by apply listener_update_inv.
    + by apply listener_retry_inv.
    + by eapply listener_fire_inv.
Qed.

Lemma ready_fires l :
  timer_C (l_slidingTimer l) = true -> exists l', listener_step l LJob l'.
Proof.
  intros Hc. destruct (on_fire l 0 None) as [l'|] eqn:E.
  - exists l'. eapply (lstep_fire _ 0 None); [done|lia|done].
  - unfold on_fire, timer_receive in E. rewrite Hc in E. done.
Qed.

(** C30: No update is lost: after an update (and at the start) two jobs are
    owed, and while one is owed the timer is armed, within five seconds if
    only time passed since the update; letting time pass runs the job. *)
Theorem listener_delivers firstDelay trace l :
  0 < firstDelay -> listener_run firstDelay trace l -> (0 < owed trace)%nat ->
  armed (delay_bound firstDelay trace) l /\
  exists trace' l', (trace' = trace \/ trace' = LTime :: trace) /\
    listener_run firstDelay (LJob :: trace') l'.
Proof.
  intros Hf Hrun Ho. destruct (listener_run_inv _ _ _ Hf Hrun) as [_ _ Ha _ _].
  specialize (Ha Ho). split; [done|]. destruct (timer_C (l_slidingTimer l)) eqn:Hc.
  - destruct (ready_fires l Hc) as [l' Hl']. exists trace, l'. split; [by left|]. by eapply lrun_step.
  - destruct Ha as [?|(x & Hx & Hlt)]; [congruence|].
    assert (listener_step l LTime (listener_advance l x)) as Hs.
    { apply lstep_time; [lia|done|]. intros y Hy. rewrite Hx in Hy. injection Hy as ->. lia. }
    destruct (ready_fires (listener_advance l x)) as [l' Hl'].
    { unfold listener_advance, timer_fire. simpl. rewrite Hx. by rewrite Z.leb_refl. }
    exists (LTime :: trace), l'. split; [by right|]. eapply lrun_step; [by eapply lrun_step|done].
Qed.

(** Updates every three seconds postpone the job for ever. *)
Fixpoint updates (n : nat) : list listener_action :=
  match n with
  | O => [LUpdate]
  | S n' => LUpdate :: LTime :: updates n'
  end.

Lemma starving firstDelay n :
  0 < firstDelay ->
  listener_run firstDelay (updates n)
    (mkListener (Z.of_nat n * (3 * Second))
       (mkTimer (Some (Z.of_nat n * (3 * Second) + resyncDelay)) false) true []).
Proof.
  intros Hf. induction n as [|n IH].
  - exact (lrun_step _ _ _ _ _ (lrun_init _) (lstep_update _)).
  - simpl updates. replace (Z.of_nat (S n) * (3 * Second)) with (Z.of_nat n * (3 * Second) + 3 * Second) by lia.
    eapply lrun_step; [eapply lrun_step; [exact IH|]|].
    + apply (lstep_time _ (Z.of_nat n * (3 * Second) + 3 * Second)); simpl.
      * unfold Second. lia.
      * done.
      * intros x [= <-]. unfold resyncDelay, Second. lia.
    + match goal with |- listener_step ?l _ ?l' => assert (l' = on_update l) as -> end.
      { unfold on_update, listener_advance, timer_fire. simpl.
        rewrite (proj2 (Z.leb_gt _ _)); [done|]. unfold resyncDelay, Second. lia. }
      apply lstep_update.
Qed.

(** The sliding timer has no upper bound: updates three seconds apart
    postpone the job for as long as they come. *)
Theorem listener_can_starve firstDelay n :
  0 < firstDelay ->
  exists l, listener_run firstDelay (updates n) l /\
    l_now l = Z.of_nat n * (3 * Second) /\ l_runs l = [].
Proof. intros Hf. eexists. split; [by apply starving|done]. Qed.

Lemma listener_delivers_witness :
  armed resyncDelay (mkListener 0 (mkTimer (Some (0 + resyncDelay)) false) true []) /\
  exists trace' l', (trace' = [LUpdate] \/ trace' = [LTime; LUpdate]) /\
    listener_run (20 * Second) (LJob :: trace') l'.
Proof.
  exact (listener_delivers (20 * Second) [LUpdate] _ eq_refl
           (lrun_step _ _ _ _ _ (lrun_init _) (lstep_update _)) (le_n_S 0 1 (le_0_n 1))).
Defined.

(** An hour of updates, and no job. *)
Lemma listener_can_starve_witness :
  exists l, listener_run (10 * Second) (updates 1200) l /\
    l_now l = 3600 * Second /\ l_runs l = [].
Proof. exact (listener_can_starve (10 * Second) 1200 eq_refl). Defined.
