(* ===== verification/ProxyInform.v ===== *)
(** * How updates reach a proxy ([bridge/ctrlplane/server/inform.go],
      [bridge/ctrlplane/server/broadcast.go], [bridge/ctrlplane/registry])

    The first time the timer of the broadcast listener fires, a proxy is
    registered and a goroutine is started that subscribes to its updates;
    the listener waits for the subscription. From then on every update is
    received by both: the listener arms its timer, the goroutine posts a job
    and waits for it.

    The pub-sub library is third-party code: [PubSub] is its interface. Its
    documentation says that commands are handled one after the other and that
    a published message is sent to each subscriber in turn; the channels of
    the broker have no buffer, so each send waits for the subscriber. The
    timer of the listener is [Listener]'s; here it may fire whenever it is
    armed. A job that finds the configuration not ready calls
    [retryProxiesJob], which is the [Reset] of that timer. [proxy.Quit] is never closed by the sources. *)

From Stdlib Require Import String.
From S2P Require Import Prelude GoStrings Constants MeshService ApiTypes Informers Kube Broker Listener.

(** ** The library *)

Class PubSub : Type := {
  ps_state : Type;
  ps_new : ps_state;
  (** the topics of a channel, and the channels a message is still to be
      sent to *)
  ps_subscribed : ps_state -> nat -> string -> bool;
  ps_pending : ps_state -> list nat;
  ps_Sub : nat -> list string -> ps_state -> ps_state;
  ps_Pub : string -> ps_state -> ps_state;
  ps_deliver : ps_state -> ps_state;

  ps_new_subscribed ch t : ps_subscribed ps_new ch t = false;
  ps_new_pending : ps_pending ps_new = [];
  ps_Sub_subscribed ch ts p ch' t :
    ps_subscribed (ps_Sub ch ts p) ch' t =
      bool_decide (ch' = ch /\ t ∈ ts) || ps_subscribed p ch' t;
  ps_Sub_pending ch ts p : ps_pending (ps_Sub ch ts p) = ps_pending p;
  ps_Pub_subscribed t p ch t' : ps_subscribed (ps_Pub t p) ch t' = ps_subscribed p ch t';
  ps_Pub_pending t p :
    ps_pending p = [] ->
    NoDup (ps_pending (ps_Pub t p)) /\
    forall ch, ch ∈ ps_pending (ps_Pub t p) <-> ps_subscribed p ch t = true;
  ps_deliver_subscribed p ch t : ps_subscribed (ps_deliver p) ch t = ps_subscribed p ch t;
  ps_deliver_pending p : ps_pending (ps_deliver p) = tail (ps_pending p)
}.

Section System.
Context `{!PubSub}.

(** ** The goroutines *)

Definition proxyUpdateTopic : string := Kind_String ProxyUpdate.

(** [broadcastListener]: in its [select], in [wg.Wait] of [informProxy],
    or waiting for a job. *)
Inductive listener_pc := LSelect | LInform | LJobWait.

(** [informTrafficPolicies]: not started, in [Sub], in its [select], or
    waiting for a job. *)
Inductive informer_pc := INone | ISub | ISelect | IJobWait.

#[global] Instance listener_pc_eq_dec : EqDecision listener_pc.
Proof. solve_decision. Defined.
#[global] Instance informer_pc_eq_dec : EqDecision informer_pc.
Proof. solve_decision. Defined.

Record Sys := mkSys {
  y_ps : ps_state;
  y_pubs : list string;           (* the [Pub] calls that wait, by topic *)
  y_listener : listener_pc;
  y_registry : ProxyRegistry;
  y_informer : informer_pc;
  y_armed : bool;
  y_reconfirm : bool;
  y_published : list string;      (* all topics published so far *)
  y_received : nat;               (* by the listener *)
  y_due : nat;                    (* to the proxy's goroutine *)
  y_jobs : nat                    (* posted by the proxy's goroutine *)
}.

Definition chL : nat := 0.
Definition chI : nat := 1.

(** The topics the proxy's goroutine subscribes to. *)
Definition proxy_topics (pr : ProxyRegistry) : list string :=
  match cacheProxy pr with
  | Some uuid => [proxyUpdateTopic; GetPubSubTopicForProxyUUID uuid]
  | None => []
  end.

Definition sys_init : Sys :=
  mkSys (ps_Sub chL [proxyUpdateTopic] ps_new) [] LSelect (mkProxyRegistry None 0) INone true true [] 0 0 0.

(** A call of [Pub]. *)
Definition publish_on (topic : string) (y : Sys) : Sys :=
  mkSys (y_ps y) (y_pubs y ++ [topic]) (y_listener y) (y_registry y) (y_informer y) (y_armed y)
    (y_reconfirm y) (y_published y ++ [topic]) (y_received y) (y_due y) (y_jobs y).

(** [case <-slidingTimer.C]: a job for the proxy, after a new proxy was
    informed. *)
Definition timer_fires (uuid : string) (y : Sys) : Sys :=
  mkSys (y_ps y) (y_pubs y)
    (if cacheProxy (y_registry y) then LJobWait else LInform)
    (fireExistProxies uuid (y_registry y)).1
    (if cacheProxy (y_registry y) then y_informer y else ISub) false
    (y_reconfirm y) (y_published y) (y_received y) (y_due y) (y_jobs y).

(** What the environment does: the broker publishes, and the timer
    fires. *)
Inductive env_step : Sys -> Sys -> Prop :=
| env_Pub y topic : env_step y (publish_on topic y)
| env_fire y uuid :
    y_listener y = LSelect -> y_armed y = true -> env_step y (timer_fires uuid y).

(** [retryProxiesJob]: the timer of the listener is armed. *)
Definition arm (y : Sys) : Sys :=
  mkSys (y_ps y) (y_pubs y) (y_listener y) (y_registry y) (y_informer y) true
    (y_reconfirm y) (y_published y) (y_received y) (y_due y) (y_jobs y).

(** What the library, the two goroutines and the jobs they wait for do. A
    job may ask for a retry while it runs; when the timer is armed already,
    that changes nothing here. *)
Inductive sys_step : Sys -> Sys -> Prop :=
| take_Pub y pre topic post :
    ps_pending (y_ps y) = [] -> y_pubs y = pre ++ topic :: post ->
    sys_step y (mkSys (ps_Pub topic (y_ps y)) (pre ++ post) (y_listener y) (y_registry y) (y_informer y)
      (y_armed y) (y_reconfirm y) (y_published y) (y_received y)
      (if ps_subscribed (y_ps y) chI topic then S (y_due y) else y_due y) (y_jobs y))
| take_Sub y :
    ps_pending (y_ps y) = [] -> y_informer y = ISub ->
    sys_step y (mkSys (ps_Sub chI (proxy_topics (y_registry y)) (y_ps y)) (y_pubs y) (y_listener y) (y_registry y) ISelect
      (y_armed y) (y_reconfirm y) (y_published y) (y_received y) (y_due y) (y_jobs y))
| receive_listener y rest :
    ps_pending (y_ps y) = chL :: rest -> y_listener y = LSelect ->
    sys_step y (mkSys (ps_deliver (y_ps y)) (y_pubs y) LSelect (y_registry y) (y_informer y) true true
      (y_published y) (S (y_received y)) (y_due y) (y_jobs y))
| receive_informer y rest :
    ps_pending (y_ps y) = chI :: rest -> y_informer y = ISelect ->
    sys_step y (mkSys (ps_deliver (y_ps y)) (y_pubs y) (y_listener y) (y_registry y) IJobWait (y_armed y)
      (y_reconfirm y) (y_published y) (y_received y) (y_due y) (S (y_jobs y)))
| informed_done y :
    y_listener y = LInform -> y_informer y <> ISub ->
    sys_step y (mkSys (y_ps y) (y_pubs y) LJobWait (y_registry y) (y_informer y) (y_armed y)
      (y_reconfirm y) (y_published y) (y_received y) (y_due y) (y_jobs y))
| listener_job_done y :
    y_listener y = LJobWait ->
    sys_step y (mkSys (y_ps y) (y_pubs y) LSelect (y_registry y) (y_informer y) (y_armed y || y_reconfirm y)
      false (y_published y) (y_received y) (y_due y) (y_jobs y))
| informer_job_done y :
    y_informer y = IJobWait ->
    sys_step y (mkSys (y_ps y) (y_pubs y) (y_listener y) (y_registry y) ISelect (y_armed y)
      (y_reconfirm y) (y_published y) (y_received y) (y_due y) (y_jobs y))
| job_retries y :
    y_listener y = LJobWait \/ y_informer y = IJobWait -> y_armed y = false ->
    sys_step y (arm y).

Definition any_step (x y : Sys) : Prop := env_step x y \/ sys_step x y.

(** ** The deadlock *)

(** The library waits for the listener, the listener for the subscription,
    and the subscription for the library. *)
Definition deadlocked (y : Sys) : Prop :=
  head (ps_pending (y_ps y)) = Some chL /\ y_listener y = LInform /\ y_informer y = ISub.

Lemma deadlocked_stays x y :
  any_step x y -> deadlocked x -> deadlocked y /\ y_received y = y_received x /\ y_jobs y = y_jobs x.
Proof.
  intros [Hs|Hs] (Hp & Hl & Hi); destruct Hs; simpl in *; unfold deadlocked; simpl; try congruence; try done.
  - match goal with H : ps_pending _ = [] |- _ => by rewrite H in Hp end.
  - match goal with H : ps_pending _ = [] |- _ => by rewrite H in Hp end.
Qed.

(** C37: When an update is published while the listener registers its proxy,
    the two goroutines and the library may wait for each other for ever: no
    update is received and no job is posted any more. *)
Theorem inform_can_deadlock uuid :
  exists x, rtc any_step sys_init x /\ cacheProxy (y_registry x) = Some uuid /\
    forall y, rtc any_step x y -> y_listener y = LInform /\ y_received y = 0%nat /\ y_jobs y = 0%nat.
Proof.
  assert (Hpend : ps_pending (ps_Sub chL [proxyUpdateTopic] ps_new) = [])
    by (by rewrite ps_Sub_pending, ps_new_pending).
  destruct (ps_Pub_pending proxyUpdateTopic _ Hpend) as [Hnd Hin].
  eexists. split_and!.
  - eapply rtc_l; [left; by apply (env_fire _ uuid)|].
    eapply rtc_l; [left; apply (env_Pub _ proxyUpdateTopic)|].
    eapply rtc_l; [right; by apply (take_Pub _ [] proxyUpdateTopic [])|]. apply rtc_refl.
  - done.
  - simpl. set (x := mkSys _ _ _ _ _ _ _ _ _ _ _).
    assert (Hd : deadlocked x).
    { unfold x, deadlocked. simpl. split_and!; [|done|done].
      assert (Honly : forall ch, ch ∈ ps_pending (ps_Pub proxyUpdateTopic (ps_Sub chL [proxyUpdateTopic] ps_new))
                <-> ch = chL).
      { intros ch. rewrite Hin, ps_Sub_subscribed, ps_new_subscribed, orb_false_r, bool_decide_eq_true. set_solver. }
      revert Honly. generalize (ps_pending (ps_Pub proxyUpdateTopic (ps_Sub chL [proxyUpdateTopic] ps_new))).
      intros [|c cs] Honly; [by pose proof (proj2 (Honly chL) eq_refl) as []%not_elem_of_nil|]. simpl.
      by rewrite (proj1 (Honly c) (list_elem_of_here _ _)). }
    assert (Hz : y_received x = 0%nat /\ y_jobs x = 0%nat) by done. clearbody x.
    intros y Hy. revert Hd Hz. induction Hy as [x|x y z Hs _ IH]; intros Hd Hz.
    + destruct Hd as (_ & ? & _). by destruct Hz.
    + destruct (deadlocked_stays _ _ Hs Hd) as (Hd' & E1 & E2). apply IH; [done|]. by rewrite E1, E2.
Qed.

(** ** The subscribed proxy *)

Definition subscribed_pc (pc : informer_pc) : bool :=
  match pc with ISelect | IJobWait => true | _ => false end.

Definition broadcasts (l : list string) : nat := length (filter (fun t => t = proxyUpdateTopic) l).

Definition waiting (ch : nat) (p : ps_state) : nat := if decide (ch ∈ ps_pending p) then 1 else 0.

Record sys_inv (y : Sys) : Prop := {
  si_listener : forall t, ps_subscribed (y_ps y) chL t = bool_decide (t = proxyUpdateTopic);
  si_informer : forall t, ps_subscribed (y_ps y) chI t =
    subscribed_pc (y_informer y) && bool_decide (t ∈ proxy_topics (y_registry y));
  si_only : forall ch t, ps_subscribed (y_ps y) ch t = true -> ch = chL \/ ch = chI;
  si_nodup : NoDup (ps_pending (y_ps y));
  si_pending : forall ch, ch ∈ ps_pending (y_ps y) ->
    ch = chL \/ (ch = chI /\ subscribed_pc (y_informer y) = true);
  si_sub : y_informer y = ISub -> y_listener y = LInform;
  si_inform : y_listener y = LInform -> y_informer y <> INone;
  si_none : y_informer y = INone -> cacheProxy (y_registry y) = None;
  si_proxy : cacheProxy (y_registry y) = None -> y_informer y = INone;
  si_received : broadcasts (y_published y) =
    (y_received y + broadcasts (y_pubs y) + waiting chL (y_ps y))%nat;
  si_due : y_due y = (y_jobs y + waiting chI (y_ps y))%nat
}.

Lemma broadcasts_app l1 l2 : broadcasts (l1 ++ l2) = (broadcasts l1 + broadcasts l2)%nat.
Proof. unfold broadcasts. by rewrite filter_app, length_app. Qed.

Lemma waiting_pending ch p q : ps_pending p = ps_pending q -> waiting ch p = waiting ch q.
Proof. unfold waiting. by intros ->. Qed.

Lemma waiting_idle ch p : ps_pending p = [] -> waiting ch p = 0%nat.
Proof. unfold waiting. intros ->. by rewrite decide_False by apply not_elem_of_nil. Qed.

Lemma waiting_Pub ch t p :
  ps_pending p = [] -> waiting ch (ps_Pub t p) = if ps_subscribed p ch t then 1%nat else 0%nat.
Proof.
  intros Hp. destruct (ps_Pub_pending t p Hp) as [_ Hin]. unfold waiting.
  destruct (ps_subscribed p ch t) eqn:E; [rewrite decide_True|rewrite decide_False]; try done; rewrite Hin; congruence.
Qed.

Lemma waiting_deliver ch c rest p :
  ps_pending p = c :: rest -> NoDup (ps_pending p) ->
  waiting ch p = ((if decide (ch = c) then 1 else 0) + waiting ch (ps_deliver p))%nat.
Proof.
  intros Hp Hnd. unfold waiting. rewrite ps_deliver_pending, Hp in *. simpl. apply NoDup_cons in Hnd as [Hc _].
  repeat case_decide; set_solver.
Qed.

Lemma broadcasts_single t : broadcasts [t] = if bool_decide (t = proxyUpdateTopic) then 1%nat else 0%nat.
Proof. unfold broadcasts. rewrite filter_cons, filter_nil. case_decide; case_bool_decide; done. Qed.

Lemma sys_inv_init : sys_inv sys_init.
Proof.
  split; simpl; try done; intros;
    rewrite ?ps_Sub_subscribed, ?ps_new_subscribed, ?ps_Sub_pending, ?ps_new_pending, ?orb_false_r in *; try done.
  - case_bool_decide; case_bool_decide; set_solver.
  - left. match goal with H : _ = true |- _ => apply bool_decide_eq_true in H end. naive_solver.
  - constructor.
  - by match goal with H : _ ∈ [] |- _ => apply not_elem_of_nil in H end.
  - unfold waiting. by rewrite ps_Sub_pending, ps_new_pending.
  - unfold waiting. by rewrite ps_Sub_pending, ps_new_pending.
Qed.

Lemma sys_inv_env x y : env_step x y -> sys_inv x -> sys_inv y.
Proof.
  intros Hs [HL HI HO HN HP HS Hinf Hnone Hpr HR HD]. destruct Hs as [y topic|y uuid Hl Ha].
  - split; simpl; try done. rewrite !broadcasts_app, HR. lia.
  - unfold timer_fires, fireExistProxies, GetConnectedProxy, RegisterProxy. destruct (cacheProxy (y_registry y)) as [u|] eqn:E.
    + split; simpl; try done; rewrite ?E; try done. intros Hi. apply HS in Hi. congruence.
    + split; simpl; try done.
      * intros t. rewrite HI, (Hpr eq_refl). done.
      * intros ch Hch. destruct (HP ch Hch) as [?|[_ Hc]]; [by left|]. by rewrite (Hpr eq_refl) in Hc.
Qed.

Lemma sys_inv_sys x y : sys_step x y -> sys_inv x -> sys_inv y.
Proof.
  intros Hs [HL HI HO HN HP HS Hinf Hnone Hpr HR HD].
  destruct Hs as [y pre topic post Hp Hq|y Hp Hi|y rest Hp Hl|y rest Hp Hi|y Hl Hi|y Hl|y Hi|y Hj Ha].
  - destruct (ps_Pub_pending topic _ Hp) as [Hnd Hin].
    split; simpl; try done; try (intros; rewrite ps_Pub_subscribed in *; eauto; fail).
    + intros ch Hch%Hin. destruct (HO _ _ Hch) as [-> | ->]; [by left|right]. rewrite HI in Hch.
      apply andb_true_iff in Hch as [? _]. done.
    + rewrite HR, Hq, !broadcasts_app, waiting_idle, waiting_Pub, HL by done.
      change (topic :: post) with ([topic] ++ post). rewrite broadcasts_app, broadcasts_single.
      case_bool_decide; lia.
    + rewrite waiting_Pub, HD, waiting_idle by done. destruct (ps_subscribed _ _ _); lia.
  - split; simpl; rewrite ?ps_Sub_pending; try done.
    + intros t. rewrite ps_Sub_subscribed, HL. by rewrite bool_decide_eq_false_2 by (intros [? _]; done).
    + intros t. rewrite ps_Sub_subscribed, HI, Hi. simpl. rewrite orb_false_r. apply bool_decide_ext. naive_solver.
    + intros ch t. rewrite ps_Sub_subscribed. intros [Hc%bool_decide_eq_true|?]%orb_true_iff; [naive_solver|eauto].
    + intros ch Hch. rewrite Hp in Hch. by apply not_elem_of_nil in Hch.
    + intros Hc. apply Hpr in Hc. congruence.
    + rewrite HR. f_equal. apply waiting_pending. by rewrite ps_Sub_pending.
    + rewrite HD. f_equal. apply waiting_pending. by rewrite ps_Sub_pending.
  - split; simpl; try done; try (intros; rewrite ps_deliver_subscribed in *; eauto; fail).
    + rewrite ps_deliver_pending, Hp in *. by apply NoDup_cons in HN as [_ ?].
    + intros ch. rewrite ps_deliver_pending, Hp in *. intros Hch. apply HP. by right.
    + intros Hi. apply HS in Hi. congruence.
    + rewrite HR, (waiting_deliver chL _ _ _ Hp HN), decide_True by done. lia.
    + rewrite HD, (waiting_deliver chI _ _ _ Hp HN), decide_False by done. lia.
  - split; simpl; try done; try (intros; rewrite ps_deliver_subscribed in *; eauto; fail).
    + intros t. rewrite ps_deliver_subscribed, HI, Hi. done.
    + rewrite ps_deliver_pending, Hp in *. by apply NoDup_cons in HN as [_ ?].
    + intros ch. rewrite ps_deliver_pending, Hp in *. intros Hch. destruct (HP ch); [by right|by left|naive_solver].
    + intros Hc. apply Hpr in Hc. congruence.
    + rewrite HR, (waiting_deliver chL _ _ _ Hp HN), decide_False by done. lia.
    + rewrite HD, (waiting_deliver chI _ _ _ Hp HN), decide_True by done. lia.
  - split; simpl; try done. 
  - split; simpl; try done. intros Hi. apply HS in Hi. congruence.
  - split; simpl; try done.
    + intros t. by rewrite HI, Hi.
    + intros ch Hch. destruct (HP ch Hch); naive_solver.
    + intros Hc. apply Hpr in Hc. congruence.
  - by split.
Qed.

Lemma sys_inv_reachable y : rtc any_step sys_init y -> sys_inv y.
Proof.
  intros Hr. assert (Hgen : forall x, rtc any_step x y -> sys_inv x -> sys_inv y).
  { induction 1 as [|? ? ? [?|?]]; eauto using sys_inv_env, sys_inv_sys. }
  apply (Hgen sys_init); auto using sys_inv_init.
Qed.

(** The work that is left. *)
Definition work (y : Sys) : nat :=
  8 * length (y_pubs y) + 2 * length (ps_pending (y_ps y)) +
  match y_listener y with LSelect => 0 | LJobWait => 1 | LInform => 2 end +
  match y_informer y with ISub | IJobWait => 1 | _ => 0 end +
  (if y_armed y then 0 else 1).

Lemma pending_two y : sys_inv y -> (length (ps_pending (y_ps y)) <= 2)%nat.
Proof.
  intros Hi. change 2%nat with (length [chL; chI]). apply submseteq_length, NoDup_submseteq; [apply Hi|].
  intros ch Hch. apply (si_pending _ Hi) in Hch. set_solver.
Qed.

Lemma work_decreases x y : sys_step x y -> sys_inv x -> (work y < work x)%nat.
Proof.
  intros Hs Hi. pose proof (pending_two _ (sys_inv_sys _ _ Hs Hi)) as H2. revert H2. unfold work.
  destruct Hs as [y pre topic post Hp Hq|y Hp Hin|y rest Hp Hl|y rest Hp Hin|y Hl Hin|y Hl|y Hin|y Hj Ha]; simpl.
  - rewrite Hp, Hq, !length_app. simpl. lia.
  - rewrite ps_Sub_pending, Hin. lia.
  - rewrite ps_deliver_pending, Hp, Hl. destruct (y_armed y); simpl; lia.
  - rewrite ps_deliver_pending, Hp, Hin. simpl. lia.
  - rewrite Hl. lia.
  - rewrite Hl. destruct (y_armed y), (y_reconfirm y); simpl; lia.
  - rewrite Hin. lia.
  - rewrite Ha. lia.
Qed.

Lemma work_bounds n x y : nsteps sys_step n x y -> sys_inv x -> (n + work y <= work x)%nat.
Proof.
  induction 1 as [|n x y z Hs _ IH]; intros Hi; [lia|].
  pose proof (work_decreases _ _ Hs Hi). specialize (IH (sys_inv_sys _ _ Hs Hi)). lia.
Qed.

(** The goroutine of a proxy that is subscribed stays so. *)
Lemma subscribed_stays x y : sys_step x y -> subscribed_pc (y_informer x) = true -> subscribed_pc (y_informer y) = true.
Proof. by destruct 1. Qed.

(** Everything was received, and both goroutines are in their [select]. *)
Definition delivered (y : Sys) : Prop :=
  y_pubs y = [] /\ ps_pending (y_ps y) = [] /\ y_listener y = LSelect /\ y_informer y = ISelect /\
  y_received y = broadcasts (y_published y) /\ y_jobs y = y_due y.

Lemma system_progress_work y :
  sys_inv y -> subscribed_pc (y_informer y) = true ->
  delivered y \/ exists z, sys_step y z /\ z <> arm y.
Proof.
  intros Hi Hs. destruct (y_listener y) eqn:Hl.
  2: { right. eexists. split; [apply informed_done; [done|]; intros E; by rewrite E in Hs|].
       unfold arm. intros [=]. congruence. }
  2: { right. eexists. split; [by apply listener_job_done|]. unfold arm. intros [=]. congruence. }
  destruct (y_informer y) eqn:Hin; try done.
  2: { right. eexists. split; [by apply informer_job_done|]. unfold arm. intros [=]. congruence. }
  destruct (ps_pending (y_ps y)) as [|ch rest] eqn:Hp.
  - destruct (y_pubs y) as [|topic pubs] eqn:Hq.
    + left. split_and!; try done.
      * rewrite (si_received _ Hi), Hq, waiting_idle by done. unfold broadcasts. simpl. lia.
      * rewrite (si_due _ Hi), waiting_idle by done. lia.
    + right. eexists. split; [by apply (take_Pub y [] topic pubs)|]. unfold arm. simpl.
      intros E%(f_equal y_pubs). simpl in E. rewrite Hq in E. apply (f_equal length) in E. simpl in E. lia.
  - right. destruct (si_pending _ Hi ch) as [-> |[-> _]]; [rewrite Hp; by left| |]; eexists; split.
    + by eapply receive_listener.
    + intros E%(f_equal y_received). simpl in E. lia.
    + by eapply receive_informer.
    + intros E%(f_equal y_jobs). simpl in E. lia.
Qed.

Lemma system_progress y :
  sys_inv y -> subscribed_pc (y_informer y) = true -> delivered y \/ exists z, sys_step y z.
Proof. intros Hi Hs. destruct (system_progress_work y Hi Hs) as [?|(z & ? & _)]; eauto. Qed.

(** C15: Once its goroutine is subscribed, every update reaches the proxy:
    whatever was published, the library and the two goroutines come to rest
    after a bounded number of steps, and when they do, no message waits, the
    listener received every broadcast, and a job was posted and done for
    every message on a topic of the proxy. *)
Theorem updates_reach_proxy y :
  rtc any_step sys_init y -> subscribed_pc (y_informer y) = true ->
  (forall n z, nsteps sys_step n y z -> (n <= work y)%nat) /\
  (forall z, rtc sys_step y z -> delivered z \/ exists z', sys_step z z').
Proof.
  intros Hr%sys_inv_reachable Hs. split.
  - intros n z Hn. pose proof (work_bounds _ _ _ Hn Hr). lia.
  - intros z Hz. revert Hr Hs.
    induction Hz as [|x y z Hxy _ IH]; eauto using system_progress, sys_inv_sys, subscribed_stays.
Qed.

End System.

(** ** A library in memory *)

Record mem_state := mkMemState { ms_subs : list (nat * string); ms_pending : list nat }.

(** Channels are sent to in the order of their subscriptions. *)
Definition mem_Pub (t : string) (p : mem_state) : mem_state :=
  mkMemState (ms_subs p) (remove_dups (map fst (filter (fun s => s.2 = t) (ms_subs p)))).

Definition mem_subscribed (p : mem_state) (ch : nat) (t : string) : bool := bool_decide ((ch, t) ∈ ms_subs p).

#[global] Program Instance mem_PubSub : PubSub := {|
  ps_state := mem_state;
  ps_new := mkMemState [] [];
  ps_subscribed := mem_subscribed;
  ps_pending := ms_pending;
  ps_Sub ch ts p := mkMemState (ms_subs p ++ map (pair ch) ts) (ms_pending p);
  ps_Pub := mem_Pub;
  ps_deliver p := mkMemState (ms_subs p) (tail (ms_pending p))
|}.
Next Obligation. intros ch t. done. Qed.
Next Obligation. done. Qed.
Next Obligation.
  intros ch ts p ch' t. unfold mem_subscribed. simpl.
  repeat case_bool_decide; try done; exfalso;
    match goal with H : _ ∈ _ ++ _ |- _ => rewrite elem_of_app in H | H : _ ∉ _ ++ _ |- _ => rewrite elem_of_app in H end;
    rewrite list_elem_of_fmap in *; naive_solver.
Qed.
Next Obligation. done. Qed.
Next Obligation. done. Qed.
Next Obligation.
  intros t p _. simpl. split; [apply NoDup_remove_dups|]. intros ch.
  rewrite elem_of_remove_dups, list_elem_of_fmap. unfold mem_subscribed. rewrite bool_decide_eq_true. split.
  - intros ([ch' t'] & -> & Hin). apply list_elem_of_filter in Hin as [<- ?]. done.
  - intros Hin. exists (ch, t). split; [done|]. by apply list_elem_of_filter.
Qed.
Next Obligation. done. Qed.
Next Obligation. done. Qed.

(** A broadcast after the proxy was informed. *)
Definition informed_run : Sys :=
  let y := sys_init in
  mkSys (ps_Sub chI (proxy_topics (mkProxyRegistry (Some "u1") 1)) (y_ps y)) [proxyUpdateTopic] LInform
    (mkProxyRegistry (Some "u1") 1) ISelect false true [proxyUpdateTopic] 0 0 0.

Lemma updates_reach_proxy_witness :
  (forall n z, nsteps sys_step n informed_run z -> (n <= 11)%nat) /\
  (forall z, rtc sys_step informed_run z -> delivered z \/ exists z', sys_step z z').
Proof.
  apply (updates_reach_proxy informed_run); [|reflexivity].
  eapply rtc_l; [left; by apply (env_fire _ "u1")|].
  eapply rtc_l; [right; by apply take_Sub|].
  eapply rtc_l; [left; apply (env_Pub _ proxyUpdateTopic)|]. apply rtc_refl.
Defined.
