(* ===== verification/Convergence.v ===== *)
(** * From a change of a resource to the file of the proxy

    The parts of the controller together: the handlers of the informers, the
    work queue and its processor, the dispatcher with its timers, the pub-sub
    library, the listener, the goroutine of the proxy, their jobs and the
    repo server. A change of endpoints, service imports or traffic policies
    changes the catalog and queues a message. The theorem: once the proxy is
    subscribed, whatever happened before, when no more changes come the parts
    come to rest, and the file of the proxy describes the current catalog.

    The dispatcher publishes only broadcasts and the processor only on the
    topics of proxies ([processEvent]); each waits while its own call of [Pub]
    waits. The work queue is third-party code: an item that was added stays
    until it is got. A job reads the catalog at one moment; when it finds the
    configuration not ready, it arms the timer of the listener.

    What the theorem assumes. The processor also publishes every message to
    the subscribers of its kind and waits for them; [kube_receives] says that
    they receive it ([KubeEvents] shows a history in which the ticker does
    not, and the processor stops). A change is reported with its object: a
    deletion that is only noticed later is reported with a tombstone, which
    the handlers drop ([Wiring.missed_deletions_dropped]). The hash tells the
    configurations of the history apart. *)

From Stdlib Require Import Ascii String.
From S2P Require Import Prelude GoStrings GoJson GoSort MapSet Constants MeshService ApiTypes.
From S2P Require Import Informers Kube Multicluster Provider Policy Catalog Configurator.
From S2P Require Import PipyConf PipyGen PipyNames PipyRoutes PipyJob RepoClient PipyJson PipySchema.
From S2P Require Import PipyPublish PipySystem Broker Wiring Listener ProxyInform.

Section Convergence.
Context {RO : RangeOrder} `{!SortSort} `{!MapSet WeightedCluster} `{!MapSet string} {PS : PubSub}.
Context {Server : Type} (serve : Server -> Request -> Server * (Response + string))
  (codebases : Server -> gmap string Codebase) (files : Server -> gmap string string)
  (laws : RepoLaws serve codebases files).
Context (ecnetProxyCodebase ecnetCodebaseRepo : string) (stamp : Z -> string).
Context (cfg : ConfiguratorClient) (trustDomain : string).

(** The catalogs of the history. *)
Context (mcs : list MeshCatalog)
  (Hok : Forall (fun mc => Forall mesh_service_ok (ListOutboundServices mc)) mcs).

(** The handlers of the process. *)
Context (synced : list InformerKey -> bool) (ecnetName : string) (collection : Collection)
  (Hwire : wire synced ecnetName = inr collection).

(** The subscribers of a Kubernetes event receive it. *)
Context (kube_receives : PubSubMessage -> Prop).

#[local] Notation cp_step := (cp_step serve ecnetProxyCodebase ecnetCodebaseRepo stamp cfg trustDomain).
#[local] Notation cp_inv := (cp_inv codebases files ecnetProxyCodebase stamp cfg trustDomain mcs).

(** ** The composed system *)

Record World := mkWorld {
  w_cp : ControlPlane (Server:=Server);
  w_queue : list PubSubMessage;
  w_counters : Counters;
  w_disp : Dispatcher;
  w_sys : Sys;
  w_irun : bool;   (* the job the proxy's goroutine waits for has run *)
  w_lrun : bool;   (* the job the listener waits for has run *)
  w_kube : option PubSubMessage   (* the processor's [Pub] of a Kubernetes event waits *)
}.

(** An item was added to the queue, which may hold it already. *)
Definition queue_added (msgs : list PubSubMessage) (q q' : list PubSubMessage) : Prop :=
  forall m, m ∈ q' <-> m ∈ q \/ m ∈ msgs.

(** The call of [Pub] by the dispatcher, or by the processor, waits. *)
Definition dispatcher_waits (y : Sys) : Prop := proxyUpdateTopic ∈ y_pubs y.
Definition processor_waits (y : Sys) : Prop := exists t, t ∈ y_pubs y /\ t <> proxyUpdateTopic.

(** The topic of the dispatcher's variable [event], which is zero at
    first. *)
Definition event_topic (d : Dispatcher) : string :=
  match d_event d with Some e => pue_topic e | None => "" end.

(** The environment: changes, other messages, the timer of the listener,
    and the timers of the dispatcher that expire after ten years without an
    event. *)
Inductive world_env : World -> World -> Prop :=
| env_change w key ev mc q' :
    routing_resource key -> typed_event key ev -> mc ∈ mcs ->
    queue_added (deliver collection key ev) (w_queue w) q' ->
    world_env w (mkWorld (mkControlPlane mc (cp_etag (w_cp w)) (cp_server (w_cp w))) q' (w_counters w)
      (w_disp w) (w_sys w) (w_irun w) (w_lrun w) (w_kube w))
| env_message w msg q' :
    queue_added [msg] (w_queue w) q' ->
    world_env w (mkWorld (w_cp w) q' (w_counters w) (w_disp w) (w_sys w) (w_irun w) (w_lrun w) (w_kube w))
| env_listener w uuid :
    y_listener (w_sys w) = LSelect -> y_armed (w_sys w) = true ->
    world_env w (mkWorld (w_cp w) (w_queue w) (w_counters w) (w_disp w) (timer_fires uuid (w_sys w))
      (w_irun w) false (w_kube w))
| env_idle_timer w d' :
    d_dispatchPending (w_disp w) = false -> ~ dispatcher_waits (w_sys w) ->
    dispatch_step (w_disp w) APublish d' ->
    world_env w (mkWorld (w_cp w) (w_queue w) (w_counters w) d'
      (publish_on (event_topic (w_disp w)) (w_sys w)) (w_irun w) (w_lrun w) (w_kube w)).

(** Time passes. *)
Inductive world_time : World -> World -> Prop :=
| time_passes w d' :
    dispatch_step (w_disp w) ATime d' ->
    world_time w (mkWorld (w_cp w) (w_queue w) (w_counters w) d' (w_sys w) (w_irun w) (w_lrun w) (w_kube w)).

(** A job of the current catalog asks for a retry when the configuration is
    not ready. *)
Definition after_job (w : World) : Sys :=
  match generate_conf cfg (cp_catalog (w_cp w)) trustDomain with
  | Ret (_, _, false) => arm (w_sys w)
  | _ => w_sys w
  end.

(** The parts work. *)
Inductive world_step : World -> World -> Prop :=
| process_broadcast w pre msg post c e d' :
    w_queue w = pre ++ msg :: post -> w_kube w = None -> ~ processor_waits (w_sys w) ->
    ~ dispatcher_waits (w_sys w) ->
    processEvent (w_counters w) msg = (c, [SendDispatcher e; PubKubeEvent msg (Kind_String (psm_Kind msg))]) ->
    dispatch_step (w_disp w) (AEvent (d_now (w_disp w)) e) d' ->
    world_step w (mkWorld (w_cp w) (pre ++ post) c d' (w_sys w) (w_irun w) (w_lrun w) (Some msg))
| process_proxy w pre msg post c m topic :
    w_queue w = pre ++ msg :: post -> w_kube w = None -> ~ processor_waits (w_sys w) ->
    processEvent (w_counters w) msg =
      (c, [PubProxyUpdate m topic; PubKubeEvent msg (Kind_String (psm_Kind msg))]) ->
    world_step w (mkWorld (w_cp w) (pre ++ post) c (w_disp w) (publish_on topic (w_sys w))
      (w_irun w) (w_lrun w) (Some msg))
| process_other w pre msg post c :
    w_queue w = pre ++ msg :: post -> w_kube w = None -> ~ processor_waits (w_sys w) ->
    processEvent (w_counters w) msg = (c, [PubKubeEvent msg (Kind_String (psm_Kind msg))]) ->
    world_step w (mkWorld (w_cp w) (pre ++ post) c (w_disp w) (w_sys w) (w_irun w) (w_lrun w) (Some msg))
| kube_received w msg :
    w_kube w = Some msg -> ~ processor_waits (w_sys w) -> kube_receives msg ->
    world_step w (mkWorld (w_cp w) (w_queue w) (w_counters w) (w_disp w) (w_sys w) (w_irun w) (w_lrun w) None)
| dispatcher_publishes w d' :
    d_dispatchPending (w_disp w) = true -> ~ dispatcher_waits (w_sys w) ->
    dispatch_step (w_disp w) APublish d' ->
    world_step w (mkWorld (w_cp w) (w_queue w) (w_counters w) d'
      (publish_on (event_topic (w_disp w)) (w_sys w)) (w_irun w) (w_lrun w) (w_kube w))
| goroutines w y' :
    sys_step (w_sys w) y' -> y' <> arm (w_sys w) ->
    (y_informer (w_sys w) = IJobWait -> y_informer y' = ISelect -> w_irun w = true) ->
    (y_listener (w_sys w) = LJobWait -> y_listener y' = LSelect -> w_lrun w = true) ->
    world_step w (mkWorld (w_cp w) (w_queue w) (w_counters w) (w_disp w) y'
      (if decide (y_informer (w_sys w) = ISelect /\ y_informer y' = IJobWait) then false else w_irun w)
      (if decide (y_listener (w_sys w) = LInform /\ y_listener y' = LJobWait) then false else w_lrun w)
      (w_kube w))
| informer_job w now cp' :
    y_informer (w_sys w) = IJobWait -> w_irun w = false -> cp_step (w_cp w) (ProxyJob now) = Ret cp' ->
    world_step w (mkWorld cp' (w_queue w) (w_counters w) (w_disp w) (after_job w) true (w_lrun w) (w_kube w))
| listener_job w now cp' :
    y_listener (w_sys w) = LJobWait -> w_lrun w = false -> cp_step (w_cp w) (ProxyJob now) = Ret cp' ->
    world_step w (mkWorld cp' (w_queue w) (w_counters w) (w_disp w) (after_job w) (w_irun w) true (w_kube w)).

Definition world_any (x y : World) : Prop := world_env x y \/ world_time x y \/ world_step x y.

Definition world_init (mc : MeshCatalog) (s : Server) : World :=
  mkWorld (mkControlPlane mc 0 s) [] (mkCounters 0 0 0) dispatcher_init sys_init true true None.

(** ** What is pending while the file is out of date *)

#[local] Notation conf_hash_of mc := (conf_hash stamp (conf_of cfg trustDomain mc)).

(** The last job read the current catalog, or one with the same
    configuration. *)
Definition up_to_date (w : World) : Prop := cp_etag (w_cp w) = conf_hash_of (cp_catalog (w_cp w)).

Definition routing_msg (m : PubSubMessage) : Prop :=
  exists e, getProxyUpdateEvent m = Some e /\ pue_topic e = proxyUpdateTopic.

Inductive pending (w : World) : Prop :=
| pend_queue m : m ∈ w_queue w -> routing_msg m -> pending w
| pend_dispatcher : d_dispatchPending (w_disp w) = true -> pending w
| pend_pub : proxyUpdateTopic ∈ y_pubs (w_sys w) -> pending w
| pend_send : chI ∈ ps_pending (y_ps (w_sys w)) -> pending w
| pend_informer : y_informer (w_sys w) = IJobWait -> w_irun w = false -> pending w
| pend_subscribe : subscribed_pc (y_informer (w_sys w)) = false -> pending w
| pend_inform : y_listener (w_sys w) = LInform -> pending w
| pend_listener : y_listener (w_sys w) = LJobWait -> w_lrun w = false -> pending w.

Record world_inv (w : World) : Prop := {
  wi_cp : cp_inv (w_cp w);
  wi_sys : sys_inv (w_sys w);
  wi_timers : timers_ok (w_disp w);
  wi_event : d_dispatchPending (w_disp w) = true -> event_topic (w_disp w) = proxyUpdateTopic;
  wi_pending : up_to_date w \/ pending w
}.

(** The three outcomes of an event. *)
Lemma processEvent_cases c msg :
  (exists e c', getProxyUpdateEvent msg = Some e /\ pue_topic e = proxyUpdateTopic /\
     processEvent c msg = (c', [SendDispatcher e; PubKubeEvent msg (Kind_String (psm_Kind msg))])) \/
  (exists e c', getProxyUpdateEvent msg = Some e /\ pue_topic e <> proxyUpdateTopic /\
     processEvent c msg = (c', [PubProxyUpdate (pue_msg e) (pue_topic e);
                                PubKubeEvent msg (Kind_String (psm_Kind msg))])) \/
  (getProxyUpdateEvent msg = None /\ processEvent c msg = (c, [PubKubeEvent msg (Kind_String (psm_Kind msg))])).
Proof.
  unfold processEvent. destruct (getProxyUpdateEvent msg) as [e|]; [|by right; right].
  destruct (String.eqb_spec (pue_topic e) (Kind_String ProxyUpdate)) as [E|E]; simpl.
  - left. eauto.
  - right. left. eauto.
Qed.

Lemma routing_announced key ev : routing_resource key -> routing_msg (announce key ev).
Proof. intros Hk. unfold routing_msg. destruct key; try done; destruct ev; simpl; eauto. Qed.

Lemma elem_of_removed {A} (m x : A) pre post :
  m ∈ pre ++ x :: post -> m <> x -> m ∈ pre ++ post.
Proof. set_solver. Qed.

(** The goroutine that is subscribed gets the broadcasts. *)
Lemma informer_broadcast y :
  sys_inv y -> subscribed_pc (y_informer y) = true -> ps_subscribed (y_ps y) chI proxyUpdateTopic = true.
Proof.
  intros Hi E. rewrite (si_informer _ Hi), E. simpl. apply bool_decide_eq_true. unfold proxy_topics.
  destruct (cacheProxy (y_registry y)) eqn:Ep; [set_solver|]. apply (si_proxy _ Hi) in Ep. by rewrite Ep in E.
Qed.

(** What a step of the goroutines leaves pending. *)
Lemma pending_sys w y' :
  world_inv w -> sys_step (w_sys w) y' ->
  (y_informer (w_sys w) = IJobWait -> y_informer y' = ISelect -> w_irun w = true) ->
  (y_listener (w_sys w) = LJobWait -> y_listener y' = LSelect -> w_lrun w = true) ->
  pending w ->
  pending (mkWorld (w_cp w) (w_queue w) (w_counters w) (w_disp w) y'
      (if decide (y_informer (w_sys w) = ISelect /\ y_informer y' = IJobWait) then false else w_irun w)
      (if decide (y_listener (w_sys w) = LInform /\ y_listener y' = LJobWait) then false else w_lrun w)
      (w_kube w)).
Proof.
  destruct w as [cp q c d sy ir lr kb]. intros [_ Hsys _ _ _] Hs Hi Hl Hp. simpl in *.
  destruct Hs as [y pre topic post Hps Hq|y Hps Hin|y rest Hps Hli|y rest Hps Hin|y Hli Hin|y Hli|y Hin|y Hjw Ha];
    destruct Hp as [m Hm Hr|Hd|Hpub|Hch|Hj Hf|Hsub|Hinf|Hj Hf]; simpl in *;
    try (by eapply pend_queue); try (by apply pend_dispatcher); try (by apply pend_pub);
    try (by apply pend_send); try (by apply pend_inform); try (by apply pend_subscribe);
    try (rewrite Hps in Hch; by apply not_elem_of_nil in Hch);
    try (apply pend_informer; simpl; [congruence|]; case_decide; [done|congruence]);
    try (apply pend_listener; simpl; [congruence|]; case_decide; [done|congruence]); try congruence.
  all: try (rewrite Hin in Hsub; done).
  - destruct (decide (topic = proxyUpdateTopic)) as [->|Hne];
      [|apply pend_pub; simpl; rewrite Hq in Hpub; set_solver].
    destruct (subscribed_pc (y_informer y)) eqn:E; [|by apply pend_subscribe].
    apply pend_send. simpl. apply ps_Pub_pending; [done|]. by apply informer_broadcast.
  - apply pend_inform. simpl. by apply (si_sub _ Hsys).
  - apply pend_send. simpl. rewrite ps_deliver_pending. rewrite Hps in *. simpl. set_solver.
  - apply pend_informer; simpl; [done|]. by rewrite decide_True.
  - apply pend_listener; simpl; [done|]. by rewrite decide_True.
  - by rewrite Hl in Hf.
  - by rewrite Hi in Hf.
Qed.

(** ** The invariant *)

Lemma publish_topics d a d' :
  dispatch_step d a d' -> timers_ok d ->
  (a = APublish -> d_dispatchPending d' = false) /\
  (a = ATime -> d_dispatchPending d' = d_dispatchPending d /\ event_topic d' = event_topic d) /\
  (forall t e, a = AEvent t e -> d_dispatchPending d' = true /\ event_topic d' = pue_topic e).
Proof.
  intros Hs Htm. unfold event_topic.
  destruct Hs as [d t Ht Hq|d e d' He|d d' Hc He|d d' Hc He].
  - split_and!; try done. 
  - rewrite on_event_ok in He by done. injection He as <-. split_and!; try done. intros t e' [= _ <-]. done.
  - rewrite (proj1 (on_publish_ok d Htm) Hc) in He. injection He as <-. split_and!; done.
  - rewrite (proj2 (on_publish_ok d Htm) Hc) in He. injection He as <-. split_and!; done.
Qed.

Lemma pending_mono w w' :
  (forall m, m ∈ w_queue w -> m ∈ w_queue w') -> d_dispatchPending (w_disp w') = d_dispatchPending (w_disp w) ->
  w_sys w' = w_sys w -> w_irun w' = w_irun w -> w_lrun w' = w_lrun w -> pending w -> pending w'.
Proof.
  intros E1 E2 E3 E4 E5 Hp.
  destruct Hp as [m Hm Hr|Hd|Hpub|Hch|Hj Hf|Hsub|Hinf|Hj Hf];
    [eapply pend_queue|eapply pend_dispatcher|eapply pend_pub|eapply pend_send|eapply pend_informer
    |eapply pend_subscribe|eapply pend_inform|eapply pend_listener]; rewrite ?E2, ?E3, ?E4, ?E5; eauto.
Qed.

Lemma pending_publish w d' topic kb :
  (d_dispatchPending (w_disp w) = true -> d_dispatchPending d' = true \/ topic = proxyUpdateTopic) ->
  pending w ->
  pending (mkWorld (w_cp w) (w_queue w) (w_counters w) d' (publish_on topic (w_sys w)) (w_irun w) (w_lrun w) kb).
Proof.
  intros Hd Hp. destruct Hp as [m Hm Hr|Hp|Hpub|Hch|Hj Hf|Hsub|Hinf|Hj Hf]; simpl.
  - by eapply pend_queue.
  - destruct (Hd Hp) as [?| ->]; [by apply pend_dispatcher|apply pend_pub; simpl; set_solver].
  - apply pend_pub. simpl. set_solver.
  - by apply pend_send.
  - by apply pend_informer.
  - by apply pend_subscribe.
  - by apply pend_inform.
  - by apply pend_listener.
Qed.

Lemma pending_processed w pre msg post c' kb :
  w_queue w = pre ++ msg :: post -> ~ routing_msg msg -> pending w ->
  pending (mkWorld (w_cp w) (pre ++ post) c' (w_disp w) (w_sys w) (w_irun w) (w_lrun w) kb).
Proof.
  intros Hq Hn Hp. destruct Hp as [m Hm Hr|Hp|Hpub|Hch|Hj Hf|Hsub|Hinf|Hj Hf]; simpl.
  - eapply pend_queue; [|exact Hr]. simpl. rewrite Hq in Hm. eapply elem_of_removed; [exact Hm|]. by intros ->.
  - by apply pend_dispatcher.
  - by apply pend_pub.
  - by apply pend_send.
  - by apply pend_informer.
  - by apply pend_subscribe.
  - by apply pend_inform.
  - by apply pend_listener.
Qed.

Lemma world_inv_env w w' : world_env w w' -> world_inv w -> world_inv w'.
Proof using laws Hok Hwire.
  intros Hs [Hc Hy Ht He Hp]. destruct Hs as [w key ev mc q' Hk Hev Hmc Hq|w msg q' Hq|w uuid Hl Ha|w d' Hd Hw Hs].
  - split; simpl; try done.
    + destruct Hc as [? ? ?]. by split.
    + right. apply (pend_queue _ (announce key ev)); [|by apply routing_announced]. simpl.
      apply Hq. right. rewrite (wire_deliver _ _ _ _ _ Hwire Hev). set_solver.
  - split; simpl; try done. destruct Hp as [?|Hp]; [by left|right].
    eapply pending_mono; [..|exact Hp]; try done. simpl. intros m Hm. apply Hq. by left.
  - split; simpl; try done; [by eapply sys_inv_env; [apply env_fire|]|]. right.
    destruct (cacheProxy (y_registry (w_sys w))) eqn:E; [apply pend_listener|apply pend_inform]; simpl;
      rewrite ?E; done.
  - destruct (publish_topics _ _ _ Hs Ht) as (Hpub & _ & _).
    split; simpl; try done.
    + by eapply sys_inv_env; [apply env_Pub|].
    + by eapply timers_ok_step.
    + by rewrite Hpub.
    + destruct Hp as [?|Hp]; [by left|right]. apply pending_publish; [congruence|done].
Qed.

Lemma world_inv_time w w' : world_time w w' -> world_inv w -> world_inv w'.
Proof.
  intros Hs [Hc Hy Ht He Hp]. destruct Hs as [w d' Hs].
  destruct (publish_topics _ _ _ Hs Ht) as (_ & Htime & _). destruct (Htime eq_refl) as [E1 E2].
  split; simpl; try done.
  - by eapply timers_ok_step.
  - by rewrite E1, E2.
  - destruct Hp as [?|Hp]; [by left|right]. by eapply pending_mono; [..|exact Hp].
Qed.

Lemma after_job_arms w : after_job w = w_sys w \/ after_job w = arm (w_sys w).
Proof. unfold after_job. repeat case_match; auto. Qed.

Lemma sys_inv_arm y : sys_inv y -> sys_inv (arm y).
Proof. by intros []; split. Qed.

Lemma sys_inv_after_job w : sys_inv (w_sys w) -> sys_inv (after_job w).
Proof. destruct (after_job_arms w) as [->| ->]; auto using sys_inv_arm. Qed.

Lemma job_up_to_date w now cp' y ir lr kb :
  cp_inv (w_cp w) -> cp_step (w_cp w) (ProxyJob now) = Ret cp' ->
  cp_inv cp' /\ up_to_date (mkWorld cp' (w_queue w) (w_counters w) (w_disp w) y ir lr kb).
Proof using laws Hok.
  intros Hc Hj. destruct (cp_job_step serve codebases files laws ecnetProxyCodebase ecnetCodebaseRepo stamp cfg
    trustDomain mcs Hok (w_cp w) now Hc) as (st' & Hj' & Hi & Hcat & Htag).
  rewrite Hj in Hj'. injection Hj' as <-. split; [done|]. unfold up_to_date. simpl. by rewrite Htag, Hcat.
Qed.

Lemma world_inv_step w w' : world_step w w' -> world_inv w -> world_inv w'.
Proof using laws Hok Hwire.
  intros Hs Hinv. pose proof Hinv as [Hc Hy Ht He Hp].
  destruct Hs as [w pre msg post c e d' Hq _ _ _ Hpe Hs|w pre msg post c m topic Hq _ _ Hpe|w pre msg post c Hq _ _ Hpe
    |w msg Hk _ _|w d' Hd _ Hs|w y' Hs _ Hi Hl|w now cp' Hi Hr Hj|w now cp' Hl Hr Hj].
  - destruct (publish_topics _ _ _ Hs Ht) as (_ & _ & Hev). destruct (Hev _ _ eq_refl) as [E1 E2].
    destruct (processEvent_cases (w_counters w) msg) as [(e' & c' & _ & Htop & E)|[(e' & c' & _ & _ & E)|[_ E]]];
      rewrite E in Hpe; simplify_eq.
    split; simpl; try done.
    + by eapply timers_ok_step.
    + by rewrite E2.
    + right. by apply pend_dispatcher.
  - destruct (processEvent_cases (w_counters w) msg) as [(e' & c' & _ & _ & E)|[(e' & c' & Hg & Htop & E)|[_ E]]];
      rewrite E in Hpe; simplify_eq.
    split; simpl; try done; [by eapply sys_inv_env; [apply env_Pub|]|].
    destruct Hp as [?|Hp]; [by left|right].
    eapply (pending_publish (mkWorld (w_cp w) (pre ++ post) c (w_disp w) (w_sys w) (w_irun w) (w_lrun w) (w_kube w)));
      [by left|]. eapply pending_processed; [done| |done]. intros (e & Hg' & ?). congruence.
  - destruct (processEvent_cases (w_counters w) msg) as [(e' & c' & _ & _ & E)|[(e' & c' & _ & _ & E)|[Hg E]]];
      rewrite E in Hpe; simplify_eq.
    split; simpl; try done. destruct Hp as [?|Hp]; [by left|right].
    eapply pending_processed; [done| |done]. intros (e & Hg' & ?). congruence.
  - split; simpl; try done. destruct Hp as [?|Hp]; [by left|right]. by eapply pending_mono; [..|exact Hp].
  - destruct (publish_topics _ _ _ Hs Ht) as (Hpub & _ & _).
    split; simpl; try done.
    + by eapply sys_inv_env; [apply env_Pub|].
    + by eapply timers_ok_step.
    + by rewrite Hpub.
    + destruct Hp as [?|Hp]; [by left|right]. apply pending_publish; [|done]. right. by apply He.
  - split; simpl; try done; [by eapply sys_inv_sys|]. destruct Hp as [?|Hp]; [by left|right].
    by apply pending_sys.
  - destruct (job_up_to_date w now cp' (after_job w) true (w_lrun w) (w_kube w) Hc Hj) as [Hc' Hu].
    split; simpl; try done; [by apply sys_inv_after_job|by left].
  - destruct (job_up_to_date w now cp' (after_job w) (w_irun w) true (w_kube w) Hc Hj) as [Hc' Hu].
    split; simpl; try done; [by apply sys_inv_after_job|by left].
Qed.

Lemma world_inv_reachable mc s w :
  mc ∈ mcs -> version_ok codebases ecnetProxyCodebase s ->
  rtc world_any (world_init mc s) w -> world_inv w.
Proof using laws Hok Hwire.
  intros Hmc Hv Hr. assert (Hinit : world_inv (world_init mc s)).
  { split; simpl; try done.
    - apply sys_inv_init.
    - apply (timers_ok_run []). constructor.
    - right. by apply pend_subscribe. }
  revert Hinit. induction Hr as [|x y z [Hs|[Hs|Hs]] _ IH]; intros Hi; auto.
  - eauto using world_inv_env.
  - eauto using world_inv_time.
  - eauto using world_inv_step.
Qed.

(** ** The effort that is left *)

Definition effort (w : World) : nat :=
  41 * length (w_queue w) + (if w_kube w then 1 else 0) +
  (if d_dispatchPending (w_disp w) then 20 else 0) + 2 * work (w_sys w) +
  (if decide (y_informer (w_sys w) = IJobWait /\ w_irun w = false) then 1 else 0) +
  (if decide (y_listener (w_sys w) = LJobWait /\ w_lrun w = false) then 1 else 0).

Lemma work_after_job w : (work (after_job w) <= work (w_sys w))%nat.
Proof. destruct (after_job_arms w) as [->| ->]; unfold work; simpl; destruct (y_armed (w_sys w)); lia. Qed.

Lemma work_publish topic y : work (publish_on topic y) = (8 + work y)%nat.
Proof. unfold work, publish_on. simpl. rewrite length_app. simpl. lia. Qed.

Lemma effort_goroutines w y' :
  sys_step (w_sys w) y' ->
  (y_informer (w_sys w) = IJobWait -> y_informer y' = ISelect -> w_irun w = true) ->
  (y_listener (w_sys w) = LJobWait -> y_listener y' = LSelect -> w_lrun w = true) ->
  ((if decide (y_informer y' = IJobWait /\
        (if decide (y_informer (w_sys w) = ISelect /\ y_informer y' = IJobWait) then false else w_irun w) = false)
    then 1 else 0) +
   (if decide (y_listener y' = LJobWait /\
        (if decide (y_listener (w_sys w) = LInform /\ y_listener y' = LJobWait) then false else w_lrun w) = false)
    then 1 else 0) <=
   1 + (if decide (y_informer (w_sys w) = IJobWait /\ w_irun w = false) then 1 else 0) +
   (if decide (y_listener (w_sys w) = LJobWait /\ w_lrun w = false) then 1 else 0))%nat.
Proof.
  intros Hs Hi Hl.
  destruct Hs; simpl in *; repeat case_decide; try lia; exfalso; naive_solver congruence.
Qed.

Lemma effort_decreases w w' : world_step w w' -> world_inv w -> (effort w' < effort w)%nat.
Proof.
  intros Hs [_ Hy Ht _ _]. unfold effort.
  destruct Hs as [w pre msg post c e d' Hq _ _ _ Hpe Hs|w pre msg post c m topic Hq _ _ Hpe|w pre msg post c Hq _ _ Hpe
    |w msg Hk _ _|w d' Hd _ Hs|w y' Hs _ Hi Hl|w now cp' Hi Hr Hj|w now cp' Hl Hr Hj]; simpl;
    rewrite ?Hq, ?length_app, ?work_publish; simpl.
  - destruct (d_dispatchPending d'), (d_dispatchPending (w_disp w)), (w_kube w); lia.
  - destruct (w_kube w); lia.
  - destruct (w_kube w); lia.
  - rewrite Hk. lia.
  - destruct (publish_topics _ _ _ Hs Ht) as (Hpub & _ & _). rewrite (Hpub eq_refl), Hd. lia.
  - pose proof (work_decreases _ _ Hs Hy). pose proof (effort_goroutines w y' Hs Hi Hl). lia.
  - pose proof (work_after_job w).
    destruct (after_job_arms w) as [E|E]; rewrite E in *; simpl; repeat case_decide; naive_solver lia.
  - pose proof (work_after_job w).
    destruct (after_job_arms w) as [E|E]; rewrite E in *; simpl; repeat case_decide; naive_solver lia.
Qed.

Lemma effort_time w w' : world_time w w' -> world_inv w -> effort w' = effort w.
Proof.
  intros Hs [_ _ Ht _ _]. destruct Hs as [w d' Hs].
  destruct (publish_topics _ _ _ Hs Ht) as (_ & Htime & _). destruct (Htime eq_refl) as [E _].
  unfold effort. simpl. by rewrite E.
Qed.

(** Runs without changes, with the number of steps of work. *)
Inductive working : nat -> World -> World -> Prop :=
| working_refl w : working 0 w w
| working_time n w w1 w2 : world_time w w1 -> working n w1 w2 -> working n w w2
| working_step n w w1 w2 : world_step w w1 -> working n w1 w2 -> working (S n) w w2.

Lemma working_effort n w w' : working n w w' -> world_inv w -> world_inv w' /\ (n + effort w' <= effort w)%nat.
Proof using laws Hok Hwire.
  induction 1 as [|n w w1 w2 Hs _ IH|n w w1 w2 Hs _ IH]; intros Hi; [split; [done|lia]|..].
  - rewrite <- (effort_time _ _ Hs Hi). apply IH. by eapply world_inv_time.
  - pose proof (effort_decreases _ _ Hs Hi). destruct IH as [? ?]; [by eapply world_inv_step|]. split; [done|lia].
Qed.

(** Work changes neither the catalog nor the subscription. *)
Lemma working_keeps n w w' :
  working n w w' -> world_inv w ->
  cp_catalog (w_cp w') = cp_catalog (w_cp w) /\
  (subscribed_pc (y_informer (w_sys w)) = true -> subscribed_pc (y_informer (w_sys w')) = true).
Proof using laws Hok Hwire.
  assert (Hjob : forall w now cp', world_inv w -> cp_step (w_cp w) (ProxyJob now) = Ret cp' ->
    cp_catalog cp' = cp_catalog (w_cp w)).
  { intros v now cp' Hi Hj. destruct (cp_job_step serve codebases files laws ecnetProxyCodebase ecnetCodebaseRepo
      stamp cfg trustDomain mcs Hok (w_cp v) now (wi_cp _ Hi)) as (st & Hj' & _ & Hcat & _). congruence. }
  induction 1 as [|n w w1 w2 Hs _ IH|n w w1 w2 Hs _ IH]; intros Hi; [done|..].
  - destruct IH as [E Hsub]; [by eapply world_inv_time|]. by destruct Hs.
  - destruct IH as [E Hsub]; [by eapply world_inv_step|]. rewrite E. revert Hsub.
    destruct Hs as [| | | | |w y' Hs| |]; simpl; try done; [by eauto using subscribed_stays|..];
      destruct (after_job_arms w) as [->| ->]; simpl; eauto.
Qed.

(** ** Progress *)

Definition at_rest (w : World) : Prop :=
  w_queue w = [] /\ w_kube w = None /\ d_dispatchPending (w_disp w) = false /\ delivered (w_sys w).

Definition goes_on (w : World) : Prop := exists w' w'', rtc world_time w w' /\ world_step w' w''.

Lemma goes_on_now w w' : world_step w w' -> goes_on w.
Proof. exists w, w'. split; [apply rtc_refl|done]. Qed.

Context (Hkube : forall m, kube_receives m).

(** A job that was posted can run. *)
Lemma job_runs w : world_inv w -> exists cp', cp_step (w_cp w) (ProxyJob 0) = Ret cp'.
Proof using laws Hok.
  intros Hi. destruct (cp_job_step serve codebases files laws ecnetProxyCodebase ecnetCodebaseRepo
      stamp cfg trustDomain mcs Hok (w_cp w) 0 (wi_cp _ Hi)) as (st & Hj & _). eauto.
Qed.

Lemma goroutines_progress w y' :
  world_inv w -> sys_step (w_sys w) y' -> y' <> arm (w_sys w) -> goes_on w.
Proof using laws Hok.
  intros Hi Hs Ha. destruct (job_runs w Hi) as [cp' Hj].
  destruct (decide (y_informer (w_sys w) = IJobWait /\ w_irun w = false)) as [[Ei Er]|Hn1];
    [by eapply goes_on_now, informer_job|].
  destruct (decide (y_listener (w_sys w) = LJobWait /\ w_lrun w = false)) as [[El Er]|Hn2];
    [by eapply goes_on_now, listener_job|].
  eapply goes_on_now, goroutines; [exact Hs|exact Ha|..]; intros E _.
  - destruct (w_irun w); [done|]. by destruct Hn1.
  - destruct (w_lrun w); [done|]. by destruct Hn2.
Qed.

Lemma processor_progress w msg post :
  world_inv w -> y_pubs (w_sys w) = [] -> w_kube w = None -> w_queue w = msg :: post -> goes_on w.
Proof.
  intros Hi Hp Hk Hq.
  assert (Hw1 : ~ processor_waits (w_sys w)) by (unfold processor_waits; rewrite Hp; set_solver).
  assert (Hw2 : ~ dispatcher_waits (w_sys w)) by (unfold dispatcher_waits; rewrite Hp; set_solver).
  destruct (processEvent_cases (w_counters w) msg) as [(e & c & _ & _ & E)|[(e & c & _ & _ & E)|[_ E]]].
  - eapply goes_on_now, (process_broadcast w []); [done..|exact E|].
    apply step_event. by apply on_event_ok, wi_timers.
  - by eapply goes_on_now, (process_proxy w []).
  - by eapply goes_on_now, (process_other w []).
Qed.

(** A timer of the dispatcher has fired, or fires when time passes. *)
Lemma dispatcher_fires d :
  timers_ok d -> (exists d', dispatch_step d APublish d') \/
  exists d' d'', dispatch_step d ATime d' /\ dispatch_step d' APublish d''.
Proof.
  assert (Hfire : forall d, timers_ok d ->
    timer_C (d_slidingTimer d) = true \/ timer_C (d_maxTimer d) = true -> exists d', dispatch_step d APublish d').
  { intros d0 Htm [Hc|Hc]; eexists.
    - by apply step_sliding; [|apply on_publish_ok].
    - by apply step_max; [|apply on_publish_ok]. }
  intros Htm. destruct (timer_C (d_slidingTimer d)) eqn:Cs; [left; eauto|].
  destruct (timer_C (d_maxTimer d)) eqn:Cm; [left; eauto|right].
  pose proof Htm as (_ & [(x & Hx & Hlx & _)|[_ ?]] & [(y & Hy & Hly & _)|[_ ?]]); try congruence.
  assert (Hstep : dispatch_step d ATime (advance d (Z.min x y))).
  { apply step_time; [lia|]. split_and!; try done; intros z Hz; simplify_eq; lia. }
  destruct (Hfire (advance d (Z.min x y))) as [d'' Hd'']; [by eapply timers_ok_step| |eauto].
  simpl. unfold timer_fire. rewrite Hx, Hy.
  destruct (Z.leb_spec x (Z.min x y)); [by left|]. destruct (Z.leb_spec y (Z.min x y)); [by right|lia].
Qed.

Lemma dispatcher_progress w :
  world_inv w -> y_pubs (w_sys w) = [] -> d_dispatchPending (w_disp w) = true -> goes_on w.
Proof.
  intros Hi Hp Hd.
  assert (Hw : ~ dispatcher_waits (w_sys w)) by (unfold dispatcher_waits; rewrite Hp; set_solver).
  destruct (dispatcher_fires (w_disp w) (wi_timers _ Hi)) as [[d' Hs]|(d' & d'' & Ht & Hs)].
  - by eapply goes_on_now, dispatcher_publishes.
  - eexists _, _. split; [apply rtc_once; by constructor|].
    apply dispatcher_publishes; simpl; [|done..].
    destruct (publish_topics _ _ _ Ht (wi_timers _ Hi)) as (_ & Htime & _). by destruct (Htime eq_refl) as [-> _].
Qed.

Lemma world_progress w :
  world_inv w -> subscribed_pc (y_informer (w_sys w)) = true -> at_rest w \/ goes_on w.
Proof using laws Hok Hwire Hkube.
  intros Hi Hs. destruct (system_progress_work _ (wi_sys _ Hi) Hs) as [Hdel|(y' & Hy & Ha)];
    [|right; by eapply goroutines_progress].
  pose proof Hdel as (Hp & _). destruct (w_kube w) as [m|] eqn:Hk.
  { right. eapply goes_on_now, kube_received; [done| |apply Hkube].
    unfold processor_waits. rewrite Hp. set_solver. }
  destruct (w_queue w) as [|msg post] eqn:Hq;
    [|right; by eapply processor_progress].
  destruct (d_dispatchPending (w_disp w)) eqn:Hd; [right; by apply dispatcher_progress|by left].
Qed.

(** At rest nothing is pending. *)
Lemma rest_up_to_date w : world_inv w -> at_rest w -> up_to_date w.
Proof.
  intros Hi (Hq & _ & Hd & Hp & Hps & Hl & Hin & _). destruct (wi_pending _ Hi) as [?|Hpend]; [done|].
  exfalso. destruct Hpend as [m Hm _| | | | |Hsub| |]; try congruence.
  - rewrite Hq in Hm. by apply not_elem_of_nil in Hm.
  - by rewrite Hp in *; match goal with H : _ ∈ [] |- _ => apply not_elem_of_nil in H end.
  - by rewrite Hps in *; match goal with H : _ ∈ [] |- _ => apply not_elem_of_nil in H end.
  - by rewrite Hin in Hsub.
Qed.

(** The file of an up-to-date proxy. *)
Context (Hcol : no_collisions stamp cfg trustDomain mcs).

Lemma up_to_date_file w :
  world_inv w -> up_to_date w ->
  exists text doc, files (cp_server (w_cp w)) !! config_path ecnetProxyCodebase = Some text /\
    json_Unmarshal text = Some doc /\ document_of_catalog (cp_catalog (w_cp w)) trustDomain doc.
Proof using Hok Hcol.
  intros [[_ Hcat Hst] _ _ _ _] Hu. unfold up_to_date in Hu. destruct Hcol as [Hzero Hinj].
  destruct Hst as (mc' & Hmc' & He & (t & Hf)); [by rewrite Hu; apply Hzero|].
  eexists _, _. split; [exact Hf|]. split; [apply json_Unmarshal_MarshalIndent|].
  rewrite Hu in He.
  erewrite document_TsVersion by (symmetry; exact (Hinj _ _ Hcat Hmc' He)).
  apply generate_conf_of. rewrite Forall_forall in Hok. by apply Hok.
Qed.

(** C2: Changes reach the proxy's file. Assume that every change is reported
    with its object (typed events, so no deletion that a watch missed), that
    the subscribers of Kubernetes events receive them ([Hkube]), that the
    services of every catalog of the history have names, ports and protocols
    as Kubernetes admits them, that the repo server follows its protocol,
    and that the hash tells the configurations of the history apart and is
    never 0. Then, whatever changes, messages, retries and timers there
    were, once the goroutine of the proxy is subscribed and neither changes
    nor firings of the listener's timer come any more, the processor, the
    dispatcher, the goroutines and their jobs do a bounded number of steps,
    they always go on (perhaps after time passed) until nothing is left to
    do, and then the file of the proxy is JSON text that describes the
    catalog of that time, host names included. *)
Theorem catalog_converges (mc : MeshCatalog) (s : Server) (w : World) :
  mc ∈ mcs -> version_ok codebases ecnetProxyCodebase s ->
  rtc world_any (world_init mc s) w -> subscribed_pc (y_informer (w_sys w)) = true ->
  forall n z, working n w z ->
    (n <= effort w)%nat /\ (at_rest z \/ goes_on z) /\
    cp_catalog (w_cp z) = cp_catalog (w_cp w) /\
    (at_rest z -> exists text doc,
       files (cp_server (w_cp z)) !! config_path ecnetProxyCodebase = Some text /\
       json_Unmarshal text = Some doc /\ document_of_catalog (cp_catalog (w_cp z)) trustDomain doc).
Proof using laws Hok Hwire Hcol Hkube.
  intros Hmc Hv Hr Hs n z Hw. pose proof (world_inv_reachable _ _ _ Hmc Hv Hr) as Hi.
  destruct (working_effort _ _ _ Hw Hi) as [Hz Hn]. destruct (working_keeps _ _ _ Hw Hi) as [Hcat Hsub].
  split_and!; [lia|by apply world_progress; [|apply Hsub]|done|].
  intros Hrest. apply up_to_date_file; [done|]. by apply rest_up_to_date.
Qed.

End Convergence.

(** ** A run *)

#[local] Existing Instance any_order.
#[local] Existing Instance insertion_sort_Sort.
#[local] Existing Instance gset_MapSet.

(** The proxy was informed before a service import was added. *)
Definition import_added : ResourceEvent := OnAdd (ObjServiceImport example_import).

Definition example_world : World :=
  mkWorld (mkControlPlane empty_catalog 0 (mkMemRepo ∅ ∅)) [announce InformerKeyServiceImport import_added]
    (mkCounters 0 0 0) dispatcher_init
    (mkSys (ps_Sub chI (proxy_topics (mkProxyRegistry (Some "u1") 1)) (y_ps sys_init)) [] LInform
       (mkProxyRegistry (Some "u1") 1) ISelect false true [] 0 0 0) true false None.

Lemma catalog_converges_witness :
  subscribed_pc (y_informer (w_sys example_world)) = true /\
  forall n z, working mem_serve "ecnet" "/ecnet/base" fmt_d example_config "cluster.local"
      (fun _ => True) n example_world z ->
    (n <= 47)%nat /\
    (at_rest z -> exists text doc,
       mem_files (cp_server (w_cp z)) !! config_path "ecnet" = Some text /\
       json_Unmarshal text = Some doc /\ document_of_catalog empty_catalog "cluster.local" doc).
Proof.
  split; [reflexivity|]. destruct wired as [c Hc]. intros n z Hw.
  destruct (catalog_converges mem_serve mem_codebases mem_files mem_laws "ecnet" "/ecnet/base" fmt_d
    example_config "cluster.local" (catalogs example_catalog history)) with
    (kube_receives := fun _ : PubSubMessage => True) (synced := all_synced) (ecnetName := "ecnet")
    (collection := c) (mc := example_catalog) (s := mkMemRepo ∅ ∅) (w := example_world) (n := n) (z := z) as (Hn & _ & Hcat & Hrest).
  - constructor; [exact example_services_ok|]. constructor; [|constructor].
    apply (bool_decide_unpack _). by vm_compute.
  - exact Hc.
  - done.
  - exact history_no_collisions.
  - apply list_elem_of_here.
  - intros cb Hcb. simpl in Hcb. by rewrite lookup_empty in Hcb.
  - eapply rtc_l; [left; by apply (env_listener _ _ _ "u1")|].
    eapply rtc_l; [right; right; apply goroutines;
      [by apply take_Sub|by intros E%(f_equal y_informer)|done|done]|].
    eapply rtc_l; [left; apply (env_change _ _ _ InformerKeyServiceImport import_added empty_catalog
      [announce InformerKeyServiceImport import_added]); [done|done| |]|].
    + apply list_elem_of_further, list_elem_of_here.
    + intros m. rewrite (wire_deliver _ _ _ _ _ Hc) by done. set_solver.
    + apply rtc_refl.
  - reflexivity.
  - exact Hw.
  - split; [exact Hn|]. rewrite Hcat in Hrest. exact Hrest.
Defined.
