(* ===== verification/Schemes.v ===== *)
(** * Schemes ([pkg/ecnet/apis/*/v1alpha1/register.go],
      [pkg/ecnet/gen/client/*/clientset/versioned/scheme],
      [pkg/ecnet/gen/client/*/clientset/versioned/fake/register.go])

    A scheme knows the Go types of the kinds of a group. Each client package
    makes one when it is loaded. Schemes and their builders are apimachinery
    code: [SchemeLib] has what the documentation says of them. *)

From Stdlib Require Import String.
From S2P Require Import Prelude GoStrings GoIO KubeAPI RestClient.

Class SchemeLib : Type := {
  Scheme : Type;
  NewScheme : Scheme;
  Recognizes : Scheme -> GroupVersion -> string -> bool;
  AddKnownTypes : GroupVersion -> list string -> Scheme -> Scheme;
  (** [metav1.AddToGroupVersion] registers the types of the API machinery. *)
  AddToGroupVersion : GroupVersion -> Scheme -> Scheme;
  meta_kinds : list string;
  (** A builder is a list of functions; [AddToScheme] applies them. *)
  builder_AddToScheme : list (Scheme -> option string * Scheme) -> Scheme -> option string * Scheme;

  NewScheme_empty gv k : Recognizes NewScheme gv k = false;
  AddKnownTypes_recognizes gv ks s gv' k :
    Recognizes (AddKnownTypes gv ks s) gv' k = bool_decide (gv' = gv /\ k ∈ ks) || Recognizes s gv' k;
  AddToGroupVersion_recognizes gv s gv' k :
    k ∉ meta_kinds -> Recognizes (AddToGroupVersion gv s) gv' k = Recognizes s gv' k;
  builder_applies fs s :
    (forall f s', f ∈ fs -> (f s').1 = None) ->
    builder_AddToScheme fs s = (None, foldl (fun s' f => (f s').2) s fs)
}.

Section Registers.
Context `{!SchemeLib}.

Definition GroupKind : Type := string * string.

(** ** The API packages *)

Definition config_Kind (kind : string) : GroupKind := (gv_Group config_SchemeGroupVersion, kind).
Definition flomesh_Kind (kind : string) : GroupKind := (gv_Group flomesh_SchemeGroupVersion, kind).

Definition config_addKnownTypes (scheme : Scheme) : option string * Scheme :=
  let scheme := AddKnownTypes config_SchemeGroupVersion ["EcnetConfig"; "EcnetConfigList"] scheme in
  (None, AddToGroupVersion config_SchemeGroupVersion scheme).

Definition flomesh_addKnownTypes (scheme : Scheme) : option string * Scheme :=
  let scheme := AddKnownTypes flomesh_SchemeGroupVersion
    ["ServiceImport"; "ServiceImportList"; "GlobalTrafficPolicy"; "GlobalTrafficPolicyList"] scheme in
  (None, AddToGroupVersion flomesh_SchemeGroupVersion scheme).

Definition config_AddToScheme : Scheme -> option string * Scheme := builder_AddToScheme [config_addKnownTypes].
Definition flomesh_AddToScheme : Scheme -> option string * Scheme := builder_AddToScheme [flomesh_addKnownTypes].

(** ** The client packages *)

(** [utilruntime.Must] panics with an error. *)
Definition Must (r : option string * Scheme) : outcome Scheme :=
  match r with (None, s) => Ret s | (Some _, _) => Panic end.

Definition v1_GroupVersion : GroupVersion := mkGroupVersion "" "v1".

(** [init] of the four packages. *)
Definition config_scheme_init : outcome Scheme :=
  Must (builder_AddToScheme [config_AddToScheme] (AddToGroupVersion v1_GroupVersion NewScheme)).
Definition multicluster_scheme_init : outcome Scheme :=
  Must (builder_AddToScheme [flomesh_AddToScheme] (AddToGroupVersion v1_GroupVersion NewScheme)).
Definition config_fake_init : outcome Scheme :=
  Must (builder_AddToScheme [config_AddToScheme] (AddToGroupVersion v1_GroupVersion NewScheme)).
Definition multicluster_fake_init : outcome Scheme :=
  Must (builder_AddToScheme [flomesh_AddToScheme] (AddToGroupVersion v1_GroupVersion NewScheme)).

(** ** What the schemes recognize *)

(** A scheme that recognizes the given kinds of one group, and otherwise only
    types of the API machinery. *)
Definition recognizes_group (s : Scheme) (gv : GroupVersion) (kinds : list string) : Prop :=
  (forall k, k ∈ kinds -> Recognizes s gv k = true) /\
  forall gv' k, k ∉ meta_kinds -> Recognizes s gv' k = true -> gv' = gv /\ k ∈ kinds.

Lemma builder_one f s : (forall s', (f s').1 = None) -> builder_AddToScheme [f] s = (None, (f s).2).
Proof. intros Hf. rewrite builder_applies; [done|]. intros g s' ->%list_elem_of_singleton. apply Hf. Qed.

(** Loading a package whose types are not named like those of the API
    machinery. *)
Lemma load_recognizes gv kinds add :
  (forall k, k ∈ kinds -> k ∉ meta_kinds) ->
  (forall s, add s = (None, AddToGroupVersion gv (AddKnownTypes gv kinds s))) ->
  exists s, Must (builder_AddToScheme [builder_AddToScheme [add]] (AddToGroupVersion v1_GroupVersion NewScheme)) = Ret s /\
    recognizes_group s gv kinds.
Proof.
  intros Hk Hadd. assert (Hone : forall s, builder_AddToScheme [add] s = (None, (add s).2))
    by (intros s; apply builder_one; intros s'; by rewrite Hadd).
  rewrite builder_one by (intros s'; by rewrite Hone). rewrite Hone, Hadd. simpl.
  eexists. split; [done|]. split.
  - intros k Hin. rewrite AddToGroupVersion_recognizes, AddKnownTypes_recognizes by auto.
    by rewrite bool_decide_eq_true_2.
  - intros gv' k Hm. rewrite AddToGroupVersion_recognizes, AddKnownTypes_recognizes, AddToGroupVersion_recognizes,
      NewScheme_empty, orb_false_r, bool_decide_eq_true by done. done.
Qed.

Definition config_kinds : list string := ["EcnetConfig"; "EcnetConfigList"].
Definition flomesh_kinds : list string :=
  ["ServiceImport"; "ServiceImportList"; "GlobalTrafficPolicy"; "GlobalTrafficPolicyList"].

(** The kinds of the program are not among those of the API machinery. *)
Definition own_kinds : Prop := forall k, k ∈ config_kinds ++ flomesh_kinds -> k ∉ meta_kinds.

(** The schemes of the client packages. *)
Lemma schemes_loaded :
  own_kinds ->
  (exists s, config_scheme_init = Ret s /\ recognizes_group s config_SchemeGroupVersion config_kinds) /\
  (exists s, multicluster_scheme_init = Ret s /\ recognizes_group s flomesh_SchemeGroupVersion flomesh_kinds) /\
  (exists s, config_fake_init = Ret s /\ recognizes_group s config_SchemeGroupVersion config_kinds) /\
  (exists s, multicluster_fake_init = Ret s /\ recognizes_group s flomesh_SchemeGroupVersion flomesh_kinds).
Proof.
  intros Hown.
  assert (H1 : exists s, config_scheme_init = Ret s /\ recognizes_group s config_SchemeGroupVersion config_kinds)
    by (apply load_recognizes; [intros k Hk; apply Hown; set_solver|done]).
  assert (H2 : exists s, multicluster_scheme_init = Ret s /\ recognizes_group s flomesh_SchemeGroupVersion flomesh_kinds)
    by (apply load_recognizes; [intros k Hk; apply Hown; set_solver|done]).
  done.
Qed.

End Registers.

(** ** A scheme in memory *)

Definition mem_scheme : Type := list (GroupVersion * string).

Definition mem_apply (r : option string * mem_scheme) (f : mem_scheme -> option string * mem_scheme)
  : option string * mem_scheme :=
  match r.1 with None => f r.2 | Some _ => r end.

#[global] Program Instance mem_SchemeLib : SchemeLib := {|
  Scheme := mem_scheme;
  NewScheme := [];
  Recognizes s gv k := bool_decide ((gv, k) ∈ s);
  AddKnownTypes gv ks s := map (pair gv) ks ++ s;
  AddToGroupVersion gv s := map (pair gv) ["WatchEvent"; "ListOptions"; "GetOptions"] ++ s;
  meta_kinds := ["WatchEvent"; "ListOptions"; "GetOptions"];
  builder_AddToScheme fs s := foldl mem_apply (None, s) fs
|}.
Next Obligation. done. Qed.
Next Obligation.
  intros gv ks s gv' k. simpl. rewrite <- bool_decide_or. apply bool_decide_ext.
  rewrite elem_of_app, list_elem_of_fmap. naive_solver.
Qed.
Next Obligation. intros gv s gv' k Hk. simpl. apply bool_decide_ext. set_solver. Qed.
Next Obligation.
  intros fs s Hf. simpl. revert s. induction fs as [|f fs IH]; intros s; [done|]. simpl.
  pose proof (Hf f s ltac:(by left)) as E. unfold mem_apply at 2. simpl. destruct (f s) as [e s'] eqn:Ef. simpl in E. subst e. simpl.
  apply IH. intros g s'' Hg. apply Hf. by right.
Qed.

Lemma mem_own_kinds : own_kinds (H := mem_SchemeLib).
Proof. intros k Hk Hm. revert Hk. unfold meta_kinds, mem_SchemeLib in Hm. set_solver. Qed.
