(* ===== verification/FakeClient.v ===== *)
(** * The generated fakes ([pkg/ecnet/gen/client/*/clientset/versioned/fake],
      [.../typed/*/v1alpha1/fake])

    Clients for tests. Each method sends an action to [testing.Fake], which
    has an object tracker react, and casts the object it gets back to the
    type of the resource. Fakes and trackers are client-go code:
    [TestingLib] and [TrackerLaws] say what its documentation says of them.

    The theorem is that the fakes keep the contract [client_spec] of the real
    clients ([RestClient]): code that is tested with a fake sees what it would
    see of a server. *)

From Stdlib Require Import String.
From S2P Require Import Prelude GoStrings GoIO KubeAPI RestClient InformerFactory Schemes.

Section Fakes.
Context {Obj : Type} (Name : Obj -> string) (Namespace : Obj -> string) (Labels : Obj -> gmap string string).

(** ** Objects and actions *)

(** A [runtime.Object]: an object, or a list of objects with its metadata,
    with the name of its Go type. *)
Inductive Object :=
| OItem (kind : string) (o : Obj)
| OList (kind : string) (meta : string) (items : list Obj).

(** The type assertions to a pointer to an object, and to a list. *)
Definition as_item (kind : string) (obj : Object) : outcome Obj :=
  match obj with
  | OItem k o => if String.eqb k kind then Ret o else Panic
  | OList _ _ _ => Panic
  end.

Definition as_list (kind : string) (obj : Object) : outcome (string * list Obj) :=
  match obj with
  | OList k meta items => if String.eqb k kind then Ret (meta, items) else Panic
  | OItem _ _ => Panic
  end.

Record GroupVersionKind := mkGVK { gvk_gv : GroupVersion; gvk_Kind : string }.

Inductive Action :=
| NewGetAction (resource : GroupVersionResource) (ns name : string)
| NewListAction (resource : GroupVersionResource) (kind : GroupVersionKind) (ns : string) (opts : ListOptions)
| NewCreateAction (resource : GroupVersionResource) (ns : string) (obj : Object)
| NewUpdateAction (resource : GroupVersionResource) (ns : string) (obj : Object)
| NewUpdateSubresourceAction (resource : GroupVersionResource) (subresource ns : string) (obj : Object)
| NewDeleteActionWithOptions (resource : GroupVersionResource) (ns name opts : string)
| NewDeleteCollectionAction (resource : GroupVersionResource) (ns : string) (opts : ListOptions)
| NewPatchSubresourceAction (resource : GroupVersionResource) (ns name pt data : string)
    (subresources : list string)
| NewWatchAction (resource : GroupVersionResource) (ns : string) (opts : ListOptions).

(** [GetResource] and [GetNamespace] of an action. *)
Definition GetResource (a : Action) : GroupVersionResource :=
  match a with
  | NewGetAction r _ _ | NewListAction r _ _ _ | NewCreateAction r _ _ | NewUpdateAction r _ _
  | NewUpdateSubresourceAction r _ _ _ | NewDeleteActionWithOptions r _ _ _ | NewDeleteCollectionAction r _ _
  | NewPatchSubresourceAction r _ _ _ _ _ | NewWatchAction r _ _ => r
  end.
Definition GetNamespace (a : Action) : string :=
  match a with
  | NewGetAction _ ns _ | NewListAction _ _ ns _ | NewCreateAction _ ns _ | NewUpdateAction _ ns _
  | NewUpdateSubresourceAction _ _ ns _ | NewDeleteActionWithOptions _ ns _ _ | NewDeleteCollectionAction _ ns _
  | NewPatchSubresourceAction _ ns _ _ _ _ | NewWatchAction _ ns _ => ns
  end.

Definition Selector : Type := gmap string string -> bool.

(** ** The library *)

Context `{!SchemeLib}.

(** [FakeState] is a fake with its reactors and what they work on. *)
Record TestingLib := mkTestingLib {
  FakeState : Type;
  Tracker : Type;
  Watcher : Type;
  NewObjectTracker : Scheme -> Tracker;
  tracker_Add : Object -> Tracker -> option ApiError * Tracker;
  tracker_Watch : GroupVersionResource -> string -> Tracker -> ApiError + Watcher;
  (** a fake with one reactor and one watch reactor, for all actions *)
  with_reactors : Tracker -> (Action -> Tracker -> bool * option Watcher * option ApiError) -> FakeState;
  Invokes : Action -> Object -> FakeState -> option Object * option ApiError * FakeState;
  InvokesWatch : Action -> FakeState -> option Watcher * option ApiError * FakeState;
  (** the label selector of the options, which may be nil *)
  ExtractFromListOptions : ListOptions -> option Selector
}.

Context (lib : TestingLib).
#[local] Notation Fake := (FakeState lib).

(** Zero values of the three types. *)
Context (zero : string -> Obj).

(** ** The typed fakes *)

Definition obj_result : Type := option Obj * option ApiError * Fake.
Definition list_result : Type := option (string * list Obj) * option ApiError * Fake.

Record FakeTyped := mkFakeTyped {
  fk_Get : string -> string -> Fake -> outcome obj_result;
  fk_List : ListOptions -> Fake -> outcome list_result;
  fk_Watch : ListOptions -> Fake -> option (Watcher lib) * option ApiError * Fake;
  fk_Create : Obj -> string -> Fake -> outcome obj_result;
  fk_Update : Obj -> string -> Fake -> outcome obj_result;
  fk_UpdateStatus : option (Obj -> string -> Fake -> outcome obj_result);
  fk_Delete : string -> string -> Fake -> option ApiError * Fake;
  fk_DeleteCollection : string -> ListOptions -> Fake -> option ApiError * Fake;
  fk_Patch : string -> string -> string -> string -> list string -> Fake -> outcome obj_result
}.

(** [if obj == nil { return nil, err }], and else the object cast to its
    type. *)
Definition returned (kind : string) (r : option Object * option ApiError * Fake) : outcome obj_result :=
  let '(obj, err, f) := r in
  match obj with
  | None => Ret (None, err, f)
  | Some obj => o ← as_item kind obj; Ret (Some o, err, f)
  end.

(** The rest of [List]: the items that the label selector matches. *)
Definition returned_list (kind : string) (opts : ListOptions) (r : option Object * option ApiError * Fake)
  : outcome list_result :=
  let '(obj, err, f) := r in
  match obj with
  | None => Ret (None, err, f)
  | Some obj =>
      let label := default (fun _ => true) (ExtractFromListOptions lib opts) in
      '(meta, all) ← as_list kind obj;
      Ret (Some (meta, foldl (fun items item => if label (Labels item) then items ++ [item] else items) [] all),
           err, f)
  end.

Definition dropped (r : option Object * option ApiError * Fake) : option ApiError * Fake :=
  let '(_, err, f) := r in (err, f).

Definition ecnetconfigsResource : GroupVersionResource := mkGVR (mkGroupVersion "config.flomesh.io" "v1alpha1") "ecnetconfigs".
Definition ecnetconfigsKind : GroupVersionKind := mkGVK (mkGroupVersion "config.flomesh.io" "v1alpha1") "EcnetConfig".
Definition serviceimportsResource : GroupVersionResource := mkGVR (mkGroupVersion "flomesh.io" "v1alpha1") "serviceimports".
Definition serviceimportsKind : GroupVersionKind := mkGVK (mkGroupVersion "flomesh.io" "v1alpha1") "ServiceImport".
Definition globaltrafficpoliciesResource : GroupVersionResource :=
  mkGVR (mkGroupVersion "flomesh.io" "v1alpha1") "globaltrafficpolicies".
Definition globaltrafficpoliciesKind : GroupVersionKind :=
  mkGVK (mkGroupVersion "flomesh.io" "v1alpha1") "GlobalTrafficPolicy".

Definition FakeEcnetConfigs (ns : string) : FakeTyped :=
  let T := "EcnetConfig" in let TList := "EcnetConfigList" in {|
  fk_Get name options f :=
    returned T (Invokes lib (NewGetAction ecnetconfigsResource ns name) (OItem T (zero T)) f);
  fk_List opts f :=
    returned_list TList opts
      (Invokes lib (NewListAction ecnetconfigsResource ecnetconfigsKind ns opts) (OList TList "" []) f);
  fk_Watch opts f := InvokesWatch lib (NewWatchAction ecnetconfigsResource ns opts) f;
  fk_Create ecnetConfig opts f :=
    returned T (Invokes lib (NewCreateAction ecnetconfigsResource ns (OItem T ecnetConfig)) (OItem T (zero T)) f);
  fk_Update ecnetConfig opts f :=
    returned T (Invokes lib (NewUpdateAction ecnetconfigsResource ns (OItem T ecnetConfig)) (OItem T (zero T)) f);
  fk_UpdateStatus := None;
  fk_Delete name opts f :=
    dropped (Invokes lib (NewDeleteActionWithOptions ecnetconfigsResource ns name opts) (OItem T (zero T)) f);
  fk_DeleteCollection opts listOpts f :=
    dropped (Invokes lib (NewDeleteCollectionAction ecnetconfigsResource ns listOpts) (OList TList "" []) f);
  fk_Patch name pt data opts subresources f :=
    returned T (Invokes lib (NewPatchSubresourceAction ecnetconfigsResource ns name pt data subresources)
      (OItem T (zero T)) f)
|}.

Definition FakeServiceImports (ns : string) : FakeTyped :=
  let T := "ServiceImport" in let TList := "ServiceImportList" in {|
  fk_Get name options f :=
    returned T (Invokes lib (NewGetAction serviceimportsResource ns name) (OItem T (zero T)) f);
  fk_List opts f :=
    returned_list TList opts
      (Invokes lib (NewListAction serviceimportsResource serviceimportsKind ns opts) (OList TList "" []) f);
  fk_Watch opts f := InvokesWatch lib (NewWatchAction serviceimportsResource ns opts) f;
  fk_Create serviceImport opts f :=
    returned T (Invokes lib (NewCreateAction serviceimportsResource ns (OItem T serviceImport)) (OItem T (zero T)) f);
  fk_Update serviceImport opts f :=
    returned T (Invokes lib (NewUpdateAction serviceimportsResource ns (OItem T serviceImport)) (OItem T (zero T)) f);
  fk_UpdateStatus := Some (fun serviceImport opts f =>
    returned T (Invokes lib (NewUpdateSubresourceAction serviceimportsResource "status" ns (OItem T serviceImport))
      (OItem T (zero T)) f));
  fk_Delete name opts f :=
    dropped (Invokes lib (NewDeleteActionWithOptions serviceimportsResource ns name opts) (OItem T (zero T)) f);
  fk_DeleteCollection opts listOpts f :=
    dropped (Invokes lib (NewDeleteCollectionAction serviceimportsResource ns listOpts) (OList TList "" []) f);
  fk_Patch name pt data opts subresources f :=
    returned T (Invokes lib (NewPatchSubresourceAction serviceimportsResource ns name pt data subresources)
      (OItem T (zero T)) f)
|}.

Definition FakeGlobalTrafficPolicies (ns : string) : FakeTyped :=
  let T := "GlobalTrafficPolicy" in let TList := "GlobalTrafficPolicyList" in {|
  fk_Get name options f :=
    returned T (Invokes lib (NewGetAction globaltrafficpoliciesResource ns name) (OItem T (zero T)) f);
  fk_List opts f :=
    returned_list TList opts
      (Invokes lib (NewListAction globaltrafficpoliciesResource globaltrafficpoliciesKind ns opts)
        (OList TList "" []) f);
  fk_Watch opts f := InvokesWatch lib (NewWatchAction globaltrafficpoliciesResource ns opts) f;
  fk_Create globalTrafficPolicy opts f :=
    returned T (Invokes lib (NewCreateAction globaltrafficpoliciesResource ns (OItem T globalTrafficPolicy))
      (OItem T (zero T)) f);
  fk_Update globalTrafficPolicy opts f :=
    returned T (Invokes lib (NewUpdateAction globaltrafficpoliciesResource ns (OItem T globalTrafficPolicy))
      (OItem T (zero T)) f);
  fk_UpdateStatus := Some (fun globalTrafficPolicy opts f =>
    returned T (Invokes lib (NewUpdateSubresourceAction globaltrafficpoliciesResource "status" ns
      (OItem T globalTrafficPolicy)) (OItem T (zero T)) f));
  fk_Delete name opts f :=
    dropped (Invokes lib (NewDeleteActionWithOptions globaltrafficpoliciesResource ns name opts)
      (OItem T (zero T)) f);
  fk_DeleteCollection opts listOpts f :=
    dropped (Invokes lib (NewDeleteCollectionAction globaltrafficpoliciesResource ns listOpts)
      (OList TList "" []) f);
  fk_Patch name pt data opts subresources f :=
    returned T (Invokes lib (NewPatchSubresourceAction globaltrafficpoliciesResource ns name pt data subresources)
      (OItem T (zero T)) f)
|}.

(** ** The client sets *)

Record FakeClientset := mkFakeClientset { fcs_Fake : Fake; fcs_tracker : Tracker lib }.

(** The watch reactor of both client sets. *)
Definition watch_reaction (action : Action) (o : Tracker lib) : bool * option (Watcher lib) * option ApiError :=
  match tracker_Watch lib (GetResource action) (GetNamespace action) o with
  | inl err => (false, None, Some err)
  | inr watch => (true, Some watch, None)
  end.

Definition add_object (o : Tracker lib) (obj : Object) : outcome (Tracker lib) :=
  match tracker_Add lib obj o with (None, o') => Ret o' | (Some _, _) => Panic end.

Definition config_NewSimpleClientset (objects : list Object) : outcome FakeClientset :=
  scheme ← config_fake_init;
  o ← for_range add_object (NewObjectTracker lib scheme) objects;
  Ret (mkFakeClientset (with_reactors lib o watch_reaction) o).

Definition multicluster_NewSimpleClientset (objects : list Object) : outcome FakeClientset :=
  scheme ← multicluster_fake_init;
  o ← for_range add_object (NewObjectTracker lib scheme) objects;
  Ret (mkFakeClientset (with_reactors lib o watch_reaction) o).

(** ** The tracker *)

(** The objects of a tracker, by resource, namespace and name, with their Go
    types. *)
Definition Store : Type := GroupVersionResource -> string -> string -> option (string * Obj).

Definition same (x y : Store) : Prop := forall g ns n, x g ns n = y g ns n.

Definition put (b : Store) (g : GroupVersionResource) (ns n : string) (v : option (string * Obj)) : Store :=
  fun g' ns' n' => if bool_decide (g' = g /\ ns' = ns /\ n' = n) then v else b g' ns' n'.

(** The object an action is about. *)
Definition action_object (a : Action) : option string :=
  match a with
  | NewGetAction _ _ n | NewDeleteActionWithOptions _ _ n _ | NewPatchSubresourceAction _ _ n _ _ _ => Some n
  | NewCreateAction _ _ (OItem _ o) | NewUpdateAction _ _ (OItem _ o)
  | NewUpdateSubresourceAction _ _ _ (OItem _ o) => Some (Name o)
  | _ => None
  end.

(** The empty namespace stands for all. *)
Definition in_namespace (ns ns' : string) : Prop := ns = "" \/ ns' = ns.

Definition list_kind (k : GroupVersionKind) : string := gvk_Kind k +:+ "List".

(** How a tracker reacts. It stores objects as they are, in the namespace of
    the action, under their names; it returns a list as an object of the
    list type that its scheme has for the kind. An error changes nothing. *)
Inductive track_effect (s : Scheme) (a : Action) (b : Store) : option Object * option ApiError -> Store -> Prop :=
| te_error e st : err_Reason e = OtherReason -> same st b -> track_effect s a b (None, Some e) st
| te_missing e n st :
    action_object a = Some n -> err_Reason e = NotFound -> b (GetResource a) (GetNamespace a) n = None ->
    same st b -> track_effect s a b (None, Some e) st
| te_exists e g ns k o st :
    a = NewCreateAction g ns (OItem k o) -> err_Reason e = AlreadyExists -> is_Some (b g ns (Name o)) ->
    same st b -> track_effect s a b (None, Some e) st
| te_get g ns n k o st :
    a = NewGetAction g ns n -> b g ns n = Some (k, o) -> same st b ->
    track_effect s a b (Some (OItem k o), None) st
| te_list g k ns opts meta items st :
    a = NewListAction g k ns opts -> Recognizes s (gvk_gv k) (list_kind k) = true ->
    (forall o, o ∈ items <-> exists ns' n k', in_namespace ns ns' /\ b g ns' n = Some (k', o)) ->
    same st b -> track_effect s a b (Some (OList (list_kind k) meta items), None) st
| te_unknown_list g k ns opts res st :
    a = NewListAction g k ns opts -> Recognizes s (gvk_gv k) (list_kind k) = false ->
    same st b -> track_effect s a b res st
| te_create g ns k o o' st :
    a = NewCreateAction g ns (OItem k o) -> b g ns (Name o) = None -> Name o' = Name o ->
    same st (put b g ns (Name o) (Some (k, o'))) -> track_effect s a b (Some (OItem k o'), None) st
| te_update g ns k o o' st :
    a = NewUpdateAction g ns (OItem k o) \/ (exists sub, a = NewUpdateSubresourceAction g sub ns (OItem k o)) ->
    is_Some (b g ns (Name o)) -> Name o' = Name o ->
    same st (put b g ns (Name o) (Some (k, o'))) -> track_effect s a b (Some (OItem k o'), None) st
| te_patch g ns n pt data subs k o o' st :
    a = NewPatchSubresourceAction g ns n pt data subs -> b g ns n = Some (k, o) -> Name o' = n ->
    same st (put b g ns n (Some (k, o'))) -> track_effect s a b (Some (OItem k o'), None) st
| te_delete g ns n opts st :
    a = NewDeleteActionWithOptions g ns n opts -> is_Some (b g ns n) ->
    same st (put b g ns n None) -> track_effect s a b (None, None) st
| te_delete_collection g ns opts obj st :
    a = NewDeleteCollectionAction g ns opts ->
    (forall g' ns' n, st g' ns' n = b g' ns' n \/ (st g' ns' n = None /\ g' = g /\ in_namespace ns ns')) ->
    track_effect s a b (obj, None) st.

(** [UnsafeGuessKindToResource] finds the resources of the three kinds. *)
Definition resource_of (kind : string) : option GroupVersionResource :=
  if String.eqb kind "EcnetConfig" then Some ecnetconfigsResource
  else if String.eqb kind "ServiceImport" then Some serviceimportsResource
  else if String.eqb kind "GlobalTrafficPolicy" then Some globaltrafficpoliciesResource
  else None.

Class TrackerLaws : Type := {
  tracked : Fake -> Store;
  fake_scheme : Fake -> Scheme;
  tracker_objects : Tracker lib -> Store;
  tracker_scheme : Tracker lib -> Scheme;
  invokes_does a d f :
    track_effect (fake_scheme f) a (tracked f) (Invokes lib a d f).1 (tracked (Invokes lib a d f).2);
  invokes_scheme a d f : fake_scheme (Invokes lib a d f).2 = fake_scheme f;
  watch_keeps a f :
    same (tracked (InvokesWatch lib a f).2) (tracked f) /\ fake_scheme (InvokesWatch lib a f).2 = fake_scheme f;
  new_tracker s : (forall g ns n, tracker_objects (NewObjectTracker lib s) g ns n = None) /\
    tracker_scheme (NewObjectTracker lib s) = s;
  (** an object of a kind the scheme has is added where there is none *)
  add_does k o g t :
    resource_of k = Some g -> Recognizes (tracker_scheme t) (gvr_gv g) k = true ->
    tracker_objects t g (Namespace o) (Name o) = None ->
    (tracker_Add lib (OItem k o) t).1 = None /\
    same (tracker_objects (tracker_Add lib (OItem k o) t).2)
      (put (tracker_objects t) g (Namespace o) (Name o) (Some (k, o))) /\
    tracker_scheme (tracker_Add lib (OItem k o) t).2 = tracker_scheme t;
  with_reactors_keeps t r :
    same (tracked (with_reactors lib t r)) (tracker_objects t) /\
    fake_scheme (with_reactors lib t r) = tracker_scheme t
}.

(** ** The contract *)

(** The methods, as those of the real clients. *)
Record FakeAnswer := mkFakeAnswer {
  fa_obj : option Obj;
  fa_list : option (string * list Obj);
  fa_err : option ApiError
}.

Definition of_obj (r : outcome obj_result) : outcome (FakeAnswer * Fake) :=
  '(o, e, f) ← r; Ret (mkFakeAnswer o None e, f).
Definition of_list (r : outcome list_result) : outcome (FakeAnswer * Fake) :=
  '(l, e, f) ← r; Ret (mkFakeAnswer None l e, f).

Definition fake_call (t : FakeTyped) (op : TypedOp Obj) (f : Fake) : option (outcome (FakeAnswer * Fake)) :=
  match op with
  | OpGet name options => Some (of_obj (fk_Get t name options f))
  | OpList opts => Some (of_list (fk_List t opts f))
  | OpWatch opts => let '(_, e, f') := fk_Watch t opts f in Some (Ret (mkFakeAnswer None None e, f'))
  | OpCreate o opts => Some (of_obj (fk_Create t o opts f))
  | OpUpdate o opts => Some (of_obj (fk_Update t o opts f))
  | OpUpdateStatus o opts => UpdateStatus ← fk_UpdateStatus t; Some (of_obj (UpdateStatus o opts f))
  | OpDelete name opts => let '(e, f') := fk_Delete t name opts f in Some (Ret (mkFakeAnswer None None e, f'))
  | OpDeleteCollection opts listOpts =>
      let '(e, f') := fk_DeleteCollection t opts listOpts f in Some (Ret (mkFakeAnswer None None e, f'))
  | OpPatch name pt data opts subs => Some (of_obj (fk_Patch t name pt data opts subs f))
  end.

Definition answer_result (a : FakeAnswer) : ApiError + option Obj :=
  match fa_err a with Some e => inl e | None => inr (fa_obj a) end.

(** The three fakes. *)
Inductive kind_of_fake (g : GroupVersionResource) (k : GroupVersionKind) (t : string -> FakeTyped) : Prop :=
| fake_config : g = ecnetconfigsResource -> k = ecnetconfigsKind -> t = FakeEcnetConfigs -> kind_of_fake g k t
| fake_import : g = serviceimportsResource -> k = serviceimportsKind -> t = FakeServiceImports -> kind_of_fake g k t
| fake_policy : g = globaltrafficpoliciesResource -> k = globaltrafficpoliciesKind ->
    t = FakeGlobalTrafficPolicies -> kind_of_fake g k t.

(** Each resource holds objects of its type. *)
Definition typed_store (b : Store) : Prop :=
  forall kind g ns n k o, resource_of kind = Some g -> b g ns n = Some (k, o) -> k = kind.

Definition objects_of (b : Store) (g : GroupVersionResource) (ns n : string) : option Obj := snd <$> b g ns n.

(** The fakes are instances of one template: the action of a method, and
    what the method makes of the answer. *)
Definition op_action (g : GroupVersionResource) (k : GroupVersionKind) (ns : string) (op : TypedOp Obj) : Action :=
  let T := gvk_Kind k in
  match op with
  | OpGet n _ => NewGetAction g ns n
  | OpList o => NewListAction g k ns o
  | OpWatch o => NewWatchAction g ns o
  | OpCreate x _ => NewCreateAction g ns (OItem T x)
  | OpUpdate x _ => NewUpdateAction g ns (OItem T x)
  | OpUpdateStatus x _ => NewUpdateSubresourceAction g "status" ns (OItem T x)
  | OpDelete n o => NewDeleteActionWithOptions g ns n o
  | OpDeleteCollection _ l => NewDeleteCollectionAction g ns l
  | OpPatch n pt d _ s => NewPatchSubresourceAction g ns n pt d s
  end.

Definition op_default (k : GroupVersionKind) (op : TypedOp Obj) : Object :=
  match op with
  | OpList _ | OpDeleteCollection _ _ => OList (list_kind k) "" []
  | _ => OItem (gvk_Kind k) (zero (gvk_Kind k))
  end.

Definition op_answer (k : GroupVersionKind) (op : TypedOp Obj) (r : option Object * option ApiError * Fake)
  : outcome (FakeAnswer * Fake) :=
  match op with
  | OpList opts => of_list (returned_list (list_kind k) opts r)
  | OpDelete _ _ | OpDeleteCollection _ _ => let '(e, f) := dropped r in Ret (mkFakeAnswer None None e, f)
  | _ => of_obj (returned (gvk_Kind k) r)
  end.

Lemma fake_call_eq g k t ns op f call :
  kind_of_fake g k t -> (forall opts, op <> OpWatch opts) -> fake_call (t ns) op f = Some call ->
  call = op_answer k op (Invokes lib (op_action g k ns op) (op_default k op) f).
Proof.
  intros [-> -> ->| -> -> ->| -> -> ->] Hw; destruct op as [| |opts| | | | | |]; simpl; intros Hc;
    try (by destruct (Hw opts)); try done; destruct (Invokes lib _ _ f) as [[? ?] ?]; by simplify_eq/=.
Qed.

Lemma fake_resource g k t : kind_of_fake g k t -> resource_of (gvk_Kind k) = Some g.
Proof. by intros [-> -> _| -> -> _| -> -> _]. Qed.

Lemma resource_of_inj k1 k2 g : resource_of k1 = Some g -> resource_of k2 = Some g -> k1 = k2.
Proof.
  unfold resource_of, ecnetconfigsResource, serviceimportsResource, globaltrafficpoliciesResource. intros H1 H2.
  destruct (String.eqb_spec k1 "EcnetConfig"), (String.eqb_spec k1 "ServiceImport"),
    (String.eqb_spec k1 "GlobalTrafficPolicy"), (String.eqb_spec k2 "EcnetConfig"),
    (String.eqb_spec k2 "ServiceImport"), (String.eqb_spec k2 "GlobalTrafficPolicy"); congruence.
Qed.

Lemma put_other b g ns n v g' ns' n' : (g', ns') <> (g, ns) -> put b g ns n v g' ns' n' = b g' ns' n'.
Proof. intros Hne. unfold put. rewrite bool_decide_eq_false_2; naive_solver. Qed.

Lemma put_objects b g ns n v m : objects_of (put b g ns n v) g ns m = upd (objects_of b g ns) n (snd <$> v) m.
Proof. unfold objects_of, put, upd. repeat case_bool_decide; naive_solver. Qed.

Lemma put_typed b g ns n k o :
  typed_store b -> resource_of k = Some g -> typed_store (put b g ns n (Some (k, o))).
Proof.
  intros Ht Hk kind g' ns' n' k' o' Hr. unfold put. case_bool_decide as E; [|by eauto].
  destruct E as (-> & -> & ->). intros [= <- <-]. by eapply resource_of_inj.
Qed.

Lemma remove_typed b st :
  typed_store b -> (forall g ns n, st g ns n = b g ns n \/ st g ns n = None) -> typed_store st.
Proof. intros Ht Hs kind g ns n k o Hr E. destruct (Hs g ns n) as [E'|E']; [|congruence]. rewrite E' in E. eauto. Qed.

Lemma same_typed b st : same st b -> typed_store b -> typed_store st.
Proof. intros Hs Ht. eapply remove_typed; eauto. Qed.

Lemma select_items (label : Selector) items acc :
  foldl (fun acc x => if label (Labels x) then acc ++ [x] else acc) acc items =
  acc ++ filter (fun x => label (Labels x) = true) items.
Proof.
  revert acc. induction items as [|x items IH]; intros acc; simpl; [by rewrite app_nil_r|].
  rewrite IH, filter_cons. destruct (label (Labels x)); [|done]. by rewrite <- app_assoc.
Qed.

Section Contract.
Context (g : GroupVersionResource) (k : GroupVersionKind) (t : string -> FakeTyped) (Hk : kind_of_fake g k t)
  (ns : string) (Hns : segment ns).

(** What an answer of the tracker means for a method. *)
Definition call_ok (op : TypedOp Obj) (b : Store) (r : outcome (FakeAnswer * Fake)) (f : Fake) (st : Store) : Prop :=
  exists ans, r = Ret (ans, f) /\ typed_store st /\
    client_spec Name op (answer_result ans) (objects_of b g ns) (objects_of st g ns) /\
    (forall g' ns' n, (g', ns') <> (g, ns) -> st g' ns' n = b g' ns' n) /\
    (forall opts, op = OpList opts -> fa_err ans = None -> exists meta items, fa_list ans = Some (meta, items) /\
       forall o, o ∈ items <-> (exists n, objects_of b g ns n = Some o) /\
         default (fun _ => true) (ExtractFromListOptions lib opts) (Labels o) = true).

(** The contract looks at the objects only. *)
Lemma client_spec_after op res (b a a' : string -> option Obj) :
  (forall n, a n = a' n) -> client_spec Name op res b a' -> client_spec Name op res b a.
Proof. intros E. destruct op, res; simpl; unfold same_objects; setoid_rewrite E; naive_solver. Qed.

Lemma same_kept op b r st ans f :
  r = Ret (ans, f) -> typed_store b -> same st b ->
  client_spec Name op (answer_result ans) (objects_of b g ns) (objects_of b g ns) ->
  (forall opts, op = OpList opts -> fa_err ans <> None) -> call_ok op b r f st.
Proof.
  intros Hr Ht Hs Hc Hl. exists ans. split_and!; [done|by eapply same_typed| |done|].
  - eapply client_spec_after; [|exact Hc]. intros n. unfold objects_of. by rewrite Hs.
  - intros opts -> He. by destruct (Hl opts eq_refl).
Qed.

Lemma put_kept op b r st ans f n v :
  r = Ret (ans, f) -> typed_store (put b g ns n v) -> same st (put b g ns n v) ->
  client_spec Name op (answer_result ans) (objects_of b g ns) (upd (objects_of b g ns) n (snd <$> v)) ->
  (forall opts, op <> OpList opts) -> call_ok op b r f st.
Proof.
  intros Hr Ht Hs Hc Hl. exists ans. split_and!; [done|by eapply same_typed| | |].
  - eapply client_spec_after; [|exact Hc]. intros m. rewrite <- put_objects. unfold objects_of. by rewrite Hs.
  - intros g' ns' m Hne. rewrite Hs. by apply put_other.
  - intros opts ->. by destruct (Hl opts).
Qed.

Lemma effect_ok op s b res f st :
  (forall opts, op <> OpWatch opts) -> Recognizes s (gvk_gv k) (list_kind k) = true -> typed_store b ->
  track_effect s (op_action g k ns op) b res st -> call_ok op b (op_answer k op (res, f)) f st.
Proof.
  intros Hw Hrec Ht He. pose proof (fake_resource _ _ _ Hk) as Hg.
  destruct He as [e st Hr Hs|e n st Ha Hr Hb Hs|e g' ns' k' o st Ha Hr Hb Hs|g' ns' n k' o st Ha Hb Hs
    |g' k' ns' opts meta items st Ha _ Hi Hs|g' k' ns' opts res st Ha Hn Hs|g' ns' k' o o' st Ha Hb Hn Hs
    |g' ns' k' o o' st Ha Hb Hn Hs|g' ns' n pt data subs k' o o' st Ha Hb Hn Hs|g' ns' n opts st Ha Hb Hs
    |g' ns' opts obj st Ha Hst].
  - eapply same_kept; [destruct op; try done; by destruct (Hw opts)|done|done| |done].
    simpl. split; [done|]. unfold IsNotFound, IsAlreadyExists. rewrite Hr. by destruct op.
  - eapply same_kept; [destruct op; try done; by destruct (Hw opts)|done|done| |done].
    simpl. split; [done|]. unfold IsNotFound, IsAlreadyExists, objects_of. rewrite Hr.
    destruct op; simplify_eq/=; rewrite ?Hb; done.
  - destruct op; simplify_eq/=. eapply same_kept; [done..| |done].
    simpl. split; [done|]. intros _. unfold objects_of. destruct Hb as [x ->]. by eexists.
  - destruct op; simplify_eq/=. rewrite (Ht _ _ _ _ _ _ Hg Hb), String.eqb_refl in *.
    eapply same_kept; [done..| |done]. simpl. unfold objects_of. rewrite Hb. split_and!; done.
  - destruct op; simplify_eq/=. rewrite String.eqb_refl. simpl.
    rewrite (select_items (default (fun _ => true) (ExtractFromListOptions lib opts))). simpl.
    eexists. split; [done|]. split_and!; [by eapply same_typed| |done|].
    + simpl. unfold objects_of. intros n _. by rewrite Hs.
    + intros opts' [= <-] _. eexists _, _. split; [done|]. intros o. rewrite list_elem_of_filter, Hi. unfold objects_of.
      split; [intros (? & ns' & n & kd & Hin & E)|intros ((n & E) & ?)].
      * split; [|done]. exists n. destruct Hin as [->| ->]; [by destruct Hns|]. by rewrite E.
      * split; [done|]. destruct (b g ns n) as [[kd o']|] eqn:E'; simplify_eq/=. exists ns, n, kd. split; [by right|done].
  - destruct op; simplify_eq/=. congruence.
  - destruct op; simplify_eq/=. rewrite String.eqb_refl. eapply put_kept; [done| |exact Hs| |done].
    + by apply put_typed.
    + simpl. eexists. rewrite Hn. split_and!; try done. unfold objects_of. by rewrite Hb.
  - destruct Ha as [Ha|[sub Ha]]; destruct op; simplify_eq/=; rewrite String.eqb_refl;
      (eapply put_kept; [done|by apply put_typed|exact Hs| |done]); simpl; eexists;
      (split_and!; [done|unfold objects_of; destruct Hb as [x ->]; by eexists|done|done]).
  - destruct op; simplify_eq/=. rewrite (Ht _ _ _ _ _ _ Hg Hb), String.eqb_refl in *.
    eapply put_kept; [done| |exact Hs| |done]; [by apply put_typed|]. simpl. eexists. split_and!; done.
  - destruct op; simplify_eq/=. eapply put_kept; [done| |exact Hs| |done].
    + eapply remove_typed; [exact Ht|]. intros g' ns' m. unfold put. case_bool_decide; auto.
    + simpl. split; [|done]. unfold objects_of. destruct Hb as [x ->]. by eexists.
  - destruct op; simplify_eq/=. eexists. split; [done|]. split_and!; [| | |done].
    + eapply remove_typed; [exact Ht|]. intros g' ns' m. destruct (Hst g' ns' m) as [?|(? & _)]; auto.
    + simpl. intros n _. unfold objects_of. destruct (Hst g ns n) as [->|(-> & _)]; auto.
    + intros g' ns' m Hne. destruct (Hst g' ns' m) as [?|(_ & -> & [->| ->])]; [done|by destruct Hns|done].
Qed.

Context `{!TrackerLaws}.

Lemma call_does op f r :
  Recognizes (fake_scheme f) (gvk_gv k) (list_kind k) = true -> typed_store (tracked f) ->
  fake_call (t ns) op f = Some r ->
  exists f', call_ok op (tracked f) r f' (tracked f') /\ fake_scheme f' = fake_scheme f.
Proof.
  intros Hrec Ht Hc. assert (Hop : (exists opts, op = OpWatch opts) \/ forall opts, op <> OpWatch opts)
    by (destruct op; eauto). destruct Hop as [[opts ->]|Hw].
  - destruct (watch_keeps (NewWatchAction g ns opts) f) as [Hs Hsch].
    assert (E : fk_Watch (t ns) opts f = InvokesWatch lib (NewWatchAction g ns opts) f)
      by (by destruct Hk as [-> _ ->| -> _ ->| -> _ ->]).
    simpl in Hc. rewrite E in Hc. destruct (InvokesWatch lib _ f) as [[w e] f'] eqn:Ew. simplify_eq/=.
    exists f'. split; [|done]. eapply same_kept; [done..| |done]. by destruct e; simpl.
  - rewrite (fake_call_eq g k t ns op f r) by done.
    pose proof (invokes_does (op_action g k ns op) (op_default k op) f) as He.
    pose proof (invokes_scheme (op_action g k ns op) (op_default k op) f) as Hsch.
    destruct (Invokes lib _ _ f) as [res f']. exists f'. split; [|done].
    by apply (effect_ok op (fake_scheme f)).
Qed.

End Contract.

(** ** The fake client sets *)

Context `{!TrackerLaws}.

(** The two client sets, with the kinds they have. *)
Inductive fake_group (gv : GroupVersion) (kinds : list string) (New : list Object -> outcome FakeClientset) : Prop :=
| group_config : gv = config_SchemeGroupVersion -> kinds = config_kinds -> New = config_NewSimpleClientset ->
    fake_group gv kinds New
| group_multicluster : gv = flomesh_SchemeGroupVersion -> kinds = flomesh_kinds ->
    New = multicluster_NewSimpleClientset -> fake_group gv kinds New.

Definition fake_inv (gv : GroupVersion) (kinds : list string) (f : Fake) : Prop :=
  typed_store (tracked f) /\ forall k, k ∈ kinds -> Recognizes (fake_scheme f) gv k = true.

(** Any calls of the clients of the client set. *)
Inductive fake_run (gv : GroupVersion) : Fake -> Fake -> Prop :=
| run_start f : fake_run gv f f
| run_call g k t ns op f f1 f2 ans :
    kind_of_fake g k t -> gvk_gv k = gv -> segment ns -> fake_call (t ns) op f = Some (Ret (ans, f1)) ->
    fake_run gv f1 f2 -> fake_run gv f f2.

Lemma list_kind_known gv kinds New g k t :
  fake_group gv kinds New -> kind_of_fake g k t -> gvk_gv k = gv -> list_kind k ∈ kinds.
Proof.
  intros [-> -> _| -> -> _] [_ -> _|_ -> _|_ -> _] E; try discriminate E; unfold list_kind; simpl; set_solver.
Qed.

Lemma fake_inv_run gv kinds New f f' :
  fake_group gv kinds New -> fake_run gv f f' -> fake_inv gv kinds f -> fake_inv gv kinds f'.
Proof.
  intros Hg. induction 1 as [|g k t ns op f f1 f2 ans Hk Hgv Hns Hc _ IH]; [done|]. intros [Ht Hrec]. apply IH.
  destruct (call_does g k t Hk ns Hns op f (Ret (ans, f1))) as (f' & (ans' & E & Ht' & _) & Hsch); [|done..|].
  - rewrite Hgv. apply Hrec. by eapply list_kind_known.
  - simplify_eq. split; [done|]. by rewrite Hsch.
Qed.

(** The objects a client set is made from, without two of the same kind,
    namespace and name. *)
Definition seeds (kinds : list string) (objects : list (string * Obj)) : Prop :=
  NoDup (map (fun x => (x.1, Namespace x.2, Name x.2)) objects) /\
  Forall (fun x => x.1 ∈ kinds /\ is_Some (resource_of x.1)) objects.

Definition seed (x : string * Obj) : Object := OItem x.1 x.2.

(** The tracker holds exactly these objects. *)
Definition holds (o : Tracker lib) (objects : list (string * Obj)) : Prop :=
  forall g ns n k x, tracker_objects o g ns n = Some (k, x) <->
    (k, x) ∈ objects /\ resource_of k = Some g /\ Namespace x = ns /\ Name x = n.

Lemma tracker_adds o pre k x g :
  holds o pre -> resource_of k = Some g -> Recognizes (tracker_scheme o) (gvr_gv g) k = true ->
  (k, Namespace x, Name x) ∉ map (fun y => (y.1, Namespace y.2, Name y.2)) pre ->
  exists o', add_object o (seed (k, x)) = Ret o' /\ tracker_scheme o' = tracker_scheme o /\ holds o' (pre ++ [(k, x)]).
Proof.
  intros Hst Hg Hrec Hnew.
  assert (Hfree : tracker_objects o g (Namespace x) (Name x) = None).
  { destruct (tracker_objects o g (Namespace x) (Name x)) as [[k' x']|] eqn:E; [|done]. exfalso.
    apply Hst in E as (Hin & Hg' & E1 & E2). apply Hnew.
    apply list_elem_of_fmap. exists (k', x'). split; [|done]. simpl. by rewrite E1, E2, (resource_of_inj _ _ _ Hg' Hg). }
  destruct (add_does k x g o Hg Hrec Hfree) as (E1 & E2 & E3). unfold add_object, seed. simpl.
  destruct (tracker_Add lib (OItem k x) o) as [e o2]. simpl in *. subst e. exists o2. split_and!; [done|done|].
  intros g' ns' n' k' x'. rewrite E2. unfold put. case_bool_decide as E.
  - destruct E as (-> & -> & ->). split; [intros [= <- <-]; set_solver|]. intros (Hin & Hg' & E4 & E5).
    apply elem_of_app in Hin as [Hin|Hin]; [|set_solver]. exfalso.
    assert (Hc : tracker_objects o g (Namespace x) (Name x) = Some (k', x')) by (by apply Hst). congruence.
  - rewrite (Hst g' ns' n' k' x'), elem_of_app, list_elem_of_singleton. naive_solver.
Qed.

Lemma add_objects gv kinds objects o :
  seeds kinds objects -> (forall k g, k ∈ kinds -> resource_of k = Some g -> gvr_gv g = gv) ->
  (forall k, k ∈ kinds -> Recognizes (tracker_scheme o) gv k = true) ->
  (forall g ns n, tracker_objects o g ns n = None) ->
  exists o', for_range add_object o (map seed objects) = Ret o' /\ tracker_scheme o' = tracker_scheme o /\
    holds o' objects.
Proof.
  intros [Hnd Hf] Hgv Hrec Hempty.
  assert (Hgen : forall pre post o1, objects = pre ++ post -> tracker_scheme o1 = tracker_scheme o -> holds o1 pre ->
    exists o', for_range add_object o1 (map seed post) = Ret o' /\ tracker_scheme o' = tracker_scheme o /\
      holds o' objects).
  { intros pre post. revert pre. induction post as [|[k x] post IH]; intros pre o1 Heq Hs Hst.
    - exists o1. by rewrite Heq, app_nil_r.
    - rewrite Heq, Forall_app, Forall_cons in Hf. destruct Hf as (_ & [Hk [g Hg]] & _).
      rewrite Heq, map_app in Hnd. apply NoDup_app in Hnd as (_ & Hnd & _).
      destruct (tracker_adds o1 pre k x g Hst Hg) as (o2 & E1 & E2 & E3).
      + rewrite Hs, (Hgv k g) by done. by apply Hrec.
      + intros Hin. apply (Hnd _ Hin). simpl. by left.
      + cbn [map for_range]. rewrite E1. apply (IH (pre ++ [(k, x)])); [by rewrite <- app_assoc|congruence|done]. }
  apply (Hgen [] objects o); [done|done|].
  intros g ns n k x. rewrite Hempty. split; [done|]. by intros ([]%not_elem_of_nil & _).
Qed.

Lemma holds_typed o objects : holds o objects -> typed_store (tracker_objects o).
Proof. intros Hh kind g ns n k x Hr (_ & Hr' & _)%Hh. by eapply resource_of_inj. Qed.

(** A client set that is made from objects of its group. *)
Lemma simple_clientset gv kinds New objects :
  own_kinds -> fake_group gv kinds New -> seeds kinds objects ->
  exists cs, New (map seed objects) = Ret cs /\ fake_inv gv kinds (fcs_Fake cs) /\
    forall k g x, (k, x) ∈ objects -> resource_of k = Some g ->
      tracked (fcs_Fake cs) g (Namespace x) (Name x) = Some (k, x).
Proof.
  intros Hown Hg Hseeds.
  assert (Hload : exists s, New (map seed objects) =
      (o ← for_range add_object (NewObjectTracker lib s) (map seed objects);
       Ret (mkFakeClientset (with_reactors lib o watch_reaction) o)) /\
    (forall k, k ∈ kinds -> Recognizes s gv k = true) /\
    forall k g, k ∈ kinds -> resource_of k = Some g -> gvr_gv g = gv).
  { destruct (schemes_loaded Hown) as (_ & _ & (s1 & E1 & H1 & _) & (s2 & E2 & H2 & _)).
    destruct Hg as [-> -> ->| -> -> ->]; [exists s1|exists s2];
      unfold config_NewSimpleClientset, multicluster_NewSimpleClientset; rewrite ?E1, ?E2; split_and!; try done;
      intros k g Hk; unfold config_kinds, flomesh_kinds in Hk; set_unfold;
      destruct_or!; subst; intros [= <-]; done. }
  destruct Hload as (s & Hnew & Hrec & Hgv). destruct (new_tracker s) as [Hempty Hs].
  destruct (add_objects gv kinds objects (NewObjectTracker lib s) Hseeds Hgv) as (o & E1 & E2 & E3);
    [by rewrite Hs|done|].
  destruct (with_reactors_keeps o watch_reaction) as [Hsame Hsch].
  rewrite Hnew, E1. cbn [mbind outcome_bind]. eexists. split; [done|]. split.
  - split; [|simpl; by rewrite Hsch, E2, Hs]. eapply same_typed; [exact Hsame|by eapply holds_typed].
  - intros k g x Hin Hr. simpl. rewrite Hsame. by apply E3.
Qed.


End Fakes.

Arguments tracked {_ _ _ _ _ _}.

(** ** A tracker in memory *)

Section Memory.
Context {Obj : Type} (Name : Obj -> string) (Namespace : Obj -> string) (Labels : Obj -> gmap string string).
Context `{!SchemeLib}.

#[local] Notation key := (GroupVersionResource * string * string)%type.

(** The scheme, and the objects with their keys; the first entry of a key
    counts. *)
Record mem_tracker := mkMemTracker { mt_scheme : Scheme; mt_objects : list (key * (string * Obj)) }.

Fixpoint mem_find (l : list (key * (string * Obj))) (x : key) : option (string * Obj) :=
  match l with
  | [] => None
  | (y, v) :: l => if bool_decide (x = y) then Some v else mem_find l x
  end.

Fixpoint mem_drop (l : list (key * (string * Obj))) (x : key) : list (key * (string * Obj)) :=
  match l with
  | [] => []
  | (y, v) :: l => if bool_decide (x = y) then mem_drop l x else (y, v) :: mem_drop l x
  end.

Definition mem_lookup (l : list (key * (string * Obj))) : Store (Obj:=Obj) := fun g ns n => mem_find l (g, ns, n).

Definition mem_put (g : GroupVersionResource) (ns n : string) (v : string * Obj) (t : mem_tracker) : mem_tracker :=
  mkMemTracker (mt_scheme t) ((g, ns, n, v) :: mt_objects t).
Definition mem_remove (x : key) (t : mem_tracker) : mem_tracker :=
  mkMemTracker (mt_scheme t) (mem_drop (mt_objects t) x).

Definition mem_items (g : GroupVersionResource) (ns : string) (l : list (key * (string * Obj))) : list Obj :=
  omap (fun e => if bool_decide (e.1.1.1 = g /\ (ns = "" \/ e.1.1.2 = ns)) then snd <$> mem_find l e.1 else None) l.

Definition mem_error (r : Reason) : option (Object (Obj:=Obj)) * option ApiError := (None, Some (mkApiError r "")).

Definition mem_Invokes (a : Action (Obj:=Obj)) (d : Object (Obj:=Obj)) (t : mem_tracker)
  : option (Object (Obj:=Obj)) * option ApiError * mem_tracker :=
  match a with
  | NewGetAction g ns n =>
      match mem_lookup (mt_objects t) g ns n with
      | Some (k, o) => (Some (OItem k o), None, t)
      | None => (mem_error NotFound, t)
      end
  | NewListAction g k ns _ => (Some (OList (list_kind k) "" (mem_items g ns (mt_objects t))), None, t)
  | NewCreateAction g ns (OItem k o) =>
      match mem_lookup (mt_objects t) g ns (Name o) with
      | Some _ => (mem_error AlreadyExists, t)
      | None => (Some (OItem k o), None, mem_put g ns (Name o) (k, o) t)
      end
  | NewUpdateAction g ns (OItem k o) | NewUpdateSubresourceAction g _ ns (OItem k o) =>
      match mem_lookup (mt_objects t) g ns (Name o) with
      | Some _ => (Some (OItem k o), None, mem_put g ns (Name o) (k, o) t)
      | None => (mem_error NotFound, t)
      end
  | NewDeleteActionWithOptions g ns n _ =>
      match mem_lookup (mt_objects t) g ns n with
      | Some _ => (None, None, mem_remove (g, ns, n) t)
      | None => (mem_error NotFound, t)
      end
  | NewDeleteCollectionAction _ _ _ => (Some d, None, t)
  | _ => (mem_error OtherReason, t)
  end.

Definition mem_Add (obj : Object (Obj:=Obj)) (t : mem_tracker) : option ApiError * mem_tracker :=
  match obj with
  | OItem k o =>
      match resource_of k with
      | Some g => (None, mem_put g (Namespace o) (Name o) (k, o) t)
      | None => (Some (mkApiError OtherReason ""), t)
      end
  | OList _ _ _ => (Some (mkApiError OtherReason ""), t)
  end.

Definition mem_lib : TestingLib (Obj:=Obj) := {|
  FakeState := mem_tracker;
  Tracker := mem_tracker;
  Watcher := unit;
  NewObjectTracker s := mkMemTracker s [];
  tracker_Add := mem_Add;
  tracker_Watch _ _ _ := inr tt;
  with_reactors t _ := t;
  Invokes := mem_Invokes;
  InvokesWatch _ t := (Some tt, None, t);
  ExtractFromListOptions _ := None
|}.

Lemma mem_put_lookup g ns n v t : same (mem_lookup (mt_objects (mem_put g ns n v t))) (put (mem_lookup (mt_objects t)) g ns n (Some v)).
Proof. intros g' ns' n'. unfold mem_lookup, put. simpl. repeat case_bool_decide; naive_solver. Qed.

Lemma mem_remove_lookup g ns n t :
  same (mem_lookup (mt_objects (mem_remove (g, ns, n) t))) (put (mem_lookup (mt_objects t)) g ns n None).
Proof.
  intros g' ns' n'. unfold mem_lookup, put. simpl.
  induction (mt_objects t) as [|[y v] l IH]; simpl; [by case_bool_decide|].
  destruct (decide ((g, ns, n) = y)) as [<-|E];
    [rewrite bool_decide_eq_true_2 by done|rewrite (bool_decide_eq_false_2 _ E)]; simpl; rewrite IH;
    repeat case_bool_decide; naive_solver.
Qed.

Lemma mem_find_elem l x v : mem_find l x = Some v -> exists w, (x, w) ∈ l.
Proof. induction l as [|[y w] l IH]; simpl; [done|]. case_bool_decide; set_solver. Qed.

Lemma mem_items_elem g ns l o :
  o ∈ mem_items g ns l <-> exists ns' n k, in_namespace ns ns' /\ mem_lookup l g ns' n = Some (k, o).
Proof.
  unfold mem_items, mem_lookup, in_namespace. rewrite list_elem_of_omap. split.
  - intros ([[[g' ns'] n] v] & _ & Hin). simpl in Hin. case_bool_decide as E; [|done]. destruct E as [-> Hns].
    destruct (mem_find l (g, ns', n)) as [[k o']|] eqn:Ef; simplify_eq/=. eauto 6.
  - intros (ns' & n & k & Hns & Hf). destruct (mem_find_elem _ _ _ Hf) as [w Hw]. exists (g, ns', n, w).
    split; [done|]. simpl. rewrite bool_decide_eq_true_2 by done. by rewrite Hf.
Qed.

#[global] Instance mem_TrackerLaws : TrackerLaws Name Namespace mem_lib.
Proof.
  refine {| tracked := fun f : FakeState mem_lib => mem_lookup (mt_objects f);
            fake_scheme := fun f : FakeState mem_lib => mt_scheme f;
            tracker_objects := fun t : Tracker mem_lib => mem_lookup (mt_objects t);
            tracker_scheme := fun t : Tracker mem_lib => mt_scheme t |}; try done.
  - intros a d f. simpl. unfold mem_Invokes, mem_error. destruct a as [g ns n|g k ns o|g ns [k o|]|g ns [k o|]|g s ns [k o|]|g ns n o|g ns o|g ns n p1 p2 p3|g ns o];
      try (by apply te_error).
    + destruct (mem_lookup _ _ _ _) as [[k o]|] eqn:E; [by eapply te_get|by eapply te_missing].
    + destruct (Recognizes (mt_scheme f) (gvk_gv k) (list_kind k)) eqn:E.
      * eapply te_list; try done. intros x. apply mem_items_elem.
      * by eapply te_unknown_list.
    + destruct (mem_lookup _ _ _ _) as [v|] eqn:E; [by eapply te_exists|]. eapply te_create; try done. apply mem_put_lookup.
    + destruct (mem_lookup _ _ _ _) as [v|] eqn:E; [|by eapply te_missing]. eapply te_update; eauto. apply mem_put_lookup.
    + destruct (mem_lookup _ _ _ _) as [v|] eqn:E; [|by eapply te_missing]. eapply te_update; eauto. apply mem_put_lookup.
    + destruct (mem_lookup _ _ _ _) as [v|] eqn:E; [|by eapply te_missing]. eapply te_delete; eauto. apply mem_remove_lookup.
    + eapply te_delete_collection; [done|]. by left.
  - intros a d f. simpl. unfold mem_Invokes. destruct a as [| | ? ? []| ? ? []| ? ? ? []| | | |]; try done; by repeat case_match.
  - intros k o g t Hr _ _. simpl. rewrite Hr. split_and!; [done| |done]. apply mem_put_lookup.
Defined.

End Memory.

(** Two service imports, and a third that is created. *)
Definition fake_imports : list (string * (string * string)) :=
  [("ServiceImport", ("bookinfo", "reviews")); ("ServiceImport", ("bookinfo", "ratings"))].

Definition sample_fake : TestingLib (Obj:=string * string) := mem_lib snd fst.

