(* ===== verification/CliTree.v ===== *)
(** * The tree of commands ([cmd/ecnet/cli]) and the flags of the daemons
      ([cmd/ecnet/ecnet-*])

    Which commands there are, with their flags, aliases and the number of
    arguments they take. Cobra builds and runs the tree; it panics when a
    flag is defined twice on the way to a command. What the commands do is in
    [CliNamespace], [CliEcnet], [CliInstall] and [CliVersion]. *)

From Stdlib Require Import String.
From S2P Require Import Prelude GoStrings GoIO Constants CliEcnet CliInstall.

Inductive FlagValue :=
| StringFlag (default : string) | BoolFlag (default : bool) | Uint16Flag (default : Z)
| DurationFlag (default : Z) | StringArrayFlag.

(** A flag; the shorthand may be empty. *)
Record Flag := mkFlag { fl_Name : string; fl_Shorthand : string; fl_Value : FlagValue }.

Inductive PositionalArgs := NoArgs | ExactArgs (n : nat) | MinimumNArgs (n : nat) | MaximumNArgs (n : nat) | AnyArgs.

Definition args_ok (a : PositionalArgs) (args : list string) : bool :=
  match a with
  | NoArgs => Nat.eqb (length args) 0
  | ExactArgs n => Nat.eqb (length args) n
  | MinimumNArgs n => Nat.leb n (length args)
  | MaximumNArgs n => Nat.leb (length args) n
  | AnyArgs => true
  end.

Inductive Command := mkCommand {
  cmd_Name : string;
  cmd_Aliases : list string;
  cmd_Args : PositionalArgs;
  cmd_PersistentFlags : list Flag;
  cmd_Flags : list Flag;
  cmd_Commands : list Command
}.

(** ** The commands *)

Definition newNamespaceAddCmd : Command :=
  mkCommand "add" [] (MinimumNArgs 1) []
    [mkFlag "ecnet-name" "" (StringFlag "ecnet"); mkFlag "disable-sidecar-injection" "" (BoolFlag false)] [].
Definition newNamespaceRemoveCmd : Command :=
  mkCommand "remove" [] (ExactArgs 1) [] [mkFlag "ecnet-name" "" (StringFlag "ecnet")] [].
Definition newNamespaceIgnoreCmd : Command := mkCommand "ignore" [] (MinimumNArgs 1) [] [] [].
Definition newNamespaceListCmd : Command :=
  mkCommand "list" [] (MaximumNArgs 1) [] [mkFlag "ecnet-name" "" (StringFlag "")] [].

Definition newNamespaceCmd : Command :=
  mkCommand "namespace" ["ns"] NoArgs [] []
    [newNamespaceAddCmd; newNamespaceRemoveCmd; newNamespaceIgnoreCmd; newNamespaceListCmd].

Definition newEcentList : Command :=
  mkCommand "list" [] (ExactArgs 0) [] [mkFlag "local-port" "p" (Uint16Flag ECNETHTTPServerPort)] [].
Definition newEcnetUpgradeCmd : Command :=
  mkCommand "upgrade" [] AnyArgs []
    [mkFlag "ecnet-name" "" (StringFlag defaultEcnetName); mkFlag "ecnet-chart-path" "" (StringFlag "");
     mkFlag "set" "" StringArrayFlag] [].

Definition newEcnetCmd (settings : EnvSettings) : Command :=
  mkCommand "ecnet" [] NoArgs [] []
    (newEcentList :: if negb (IsManaged settings) then [newEcnetUpgradeCmd] else []).

Definition newEnvCmd : Command := mkCommand "env" [] NoArgs [] [] [].

Definition newVersionCmd : Command :=
  mkCommand "version" [] NoArgs []
    [mkFlag "client-only" "" (BoolFlag false); mkFlag "version-only" "" (BoolFlag false)] [].

Definition newUninstallCniCmd : Command :=
  mkCommand "ecnet" [] (ExactArgs 0) []
    [mkFlag "ecnet-name" "" (StringFlag ""); mkFlag "force" "f" (BoolFlag false);
     mkFlag "delete-cluster-wide-resources" "a" (BoolFlag false); mkFlag "delete-namespace" "" (BoolFlag false);
     mkFlag "local-port" "p" (Uint16Flag ECNETHTTPServerPort)] [].

Definition newUninstallCmd : Command :=
  mkCommand "uninstall" ["delete"; "del"] NoArgs [] [] [newUninstallCniCmd].

Definition newInstallCmd : Command :=
  mkCommand "install" [] AnyArgs []
    [mkFlag "ecnet-chart-path" "" (StringFlag ""); mkFlag "ecnet-name" "" (StringFlag defaultEcnetName);
     mkFlag "enforce-single-ecnet" "" (BoolFlag defaultEnforceSingleEcnet);
     mkFlag "timeout" "" (DurationFlag (minutes 5)); mkFlag "set" "" StringArrayFlag;
     mkFlag "atomic" "" (BoolFlag false)] [].

(** The flags of the settings. *)
Definition AddFlags (s : EnvSettings) : list Flag :=
  [mkFlag "ecnet-namespace" "" (StringFlag (Namespace s)); mkFlag "verbose" "" (BoolFlag (Verbose s))].

(** [goflags] are the flags other packages register. *)
Definition newRootCmd (settings : EnvSettings) (goflags : list Flag) : Command :=
  mkCommand "ecnet" [] AnyArgs (goflags ++ AddFlags settings) []
    ([newEcnetCmd settings; newEnvCmd; newNamespaceCmd; newVersionCmd; newUninstallCmd] ++
     if negb (IsManaged settings) then [newInstallCmd] else []).

(** ** The daemons *)

Definition controller_FlagSet : list Flag :=
  [mkFlag "verbosity" "v" (StringFlag "info"); mkFlag "ecnet-name" "" (StringFlag "");
   mkFlag "ecnet-namespace" "" (StringFlag ""); mkFlag "ecnet-service-account" "" (StringFlag "");
   mkFlag "ecnet-config-name" "" (StringFlag "ecnet-config"); mkFlag "ecnet-version" "" (StringFlag "");
   mkFlag "trust-domain" "" (StringFlag "cluster.local")].
Definition bridge_FlagSet : list Flag :=
  [mkFlag "verbosity" "v" (StringFlag "info"); mkFlag "ecnet-name" "" (StringFlag "");
   mkFlag "ecnet-namespace" "" (StringFlag ""); mkFlag "ecnet-service-account" "" (StringFlag "");
   mkFlag "ecnet-config-name" "" (StringFlag "ecnet-config"); mkFlag "ecnet-version" "" (StringFlag "");
   mkFlag "trust-domain" "" (StringFlag "cluster.local"); mkFlag "kernel-tracing" "d" (BoolFlag false);
   mkFlag "bridge-eth" "" (StringFlag "cni0")].
Definition bootstrap_FlagSet : list Flag :=
  [mkFlag "ecnet-name" "" (StringFlag ""); mkFlag "verbosity" "v" (StringFlag "info");
   mkFlag "ecnet-namespace" "" (StringFlag ""); mkFlag "ecnet-config-name" "" (StringFlag "ecnet-config");
   mkFlag "ecnet-version" "" (StringFlag ""); mkFlag "trust-domain" "" (StringFlag "cluster.local")].
Definition preinstall_FlagSet : list Flag :=
  [mkFlag "verbosity" "v" (StringFlag "info"); mkFlag "enforce-single-ecnet" "" (BoolFlag true);
   mkFlag "namespace" "" (StringFlag "")].

(** ** Flags and names are unambiguous *)

(** The commands of a tree with the flags that apply to them: those of their
    own, and the persistent ones of the commands on the way. *)
Fixpoint with_flags (inherited : list Flag) (c : Command) : list (Command * list Flag) :=
  let persistent := inherited ++ cmd_PersistentFlags c in
  (c, persistent ++ cmd_Flags c) :: flat_map (with_flags persistent) (cmd_Commands c).

(** Cobra's own flag. *)
Definition helpFlag : Flag := mkFlag "help" "h" (BoolFlag false).

Definition shorthands (l : list Flag) : list string := filter (fun s => s <> "") (map fl_Shorthand l).

Definition distinct_flags (l : list Flag) : Prop :=
  NoDup (map fl_Name (l ++ [helpFlag])) /\ NoDup (shorthands (l ++ [helpFlag])).

#[global] Instance distinct_flags_dec l : Decision (distinct_flags l) := and_dec _ _.

(** The names by which the subcommands of a command are found. *)
Definition names (c : Command) : list string := cmd_Name c :: cmd_Aliases c.

Definition own_flags : list Flag :=
  [mkFlag "ecnet-namespace" "" (BoolFlag false); mkFlag "verbose" "" (BoolFlag false); helpFlag]
  ++ cmd_Flags newNamespaceAddCmd ++ cmd_Flags newUninstallCniCmd ++ cmd_Flags newInstallCmd ++ cmd_Flags newVersionCmd.

(** Flags of other packages that do not clash with those of the program. *)
Definition foreign (goflags : list Flag) : Prop :=
  NoDup (map fl_Name goflags) /\ NoDup (shorthands goflags) /\
  Forall (fun f => fl_Name f ∉ map fl_Name own_flags /\ fl_Shorthand f ∉ shorthands own_flags) goflags.

Lemma foreign_distinct goflags l :
  foreign goflags -> distinct_flags l -> Forall (fun f => fl_Name f ∈ map fl_Name own_flags) l ->
  Forall (fun s => s ∈ shorthands own_flags) (shorthands (l ++ [helpFlag])) -> distinct_flags (goflags ++ l).
Proof.
  intros (Hn & Hs & Hf) [Hln Hls] Hown Hshort. unfold distinct_flags, shorthands in *.
  rewrite <- app_assoc, !map_app, ?filter_app in *. rewrite Forall_forall in Hf. rewrite Forall_forall in Hown. rewrite Forall_forall in Hshort.
  split; apply NoDup_app; split_and!; try done.
  - intros x Hx Hx'. apply list_elem_of_fmap in Hx as (f & -> & Hin). destruct (Hf f Hin) as [Hc _]. apply Hc.
    rewrite <- map_app in Hx'. apply list_elem_of_fmap in Hx' as (f' & -> & Hin').
    apply elem_of_app in Hin' as [Hin'|Hin']; [by apply Hown|]. apply list_elem_of_singleton in Hin' as ->.
    vm_compute. set_solver.
  - intros x Hx Hx'. apply list_elem_of_filter in Hx as [_ Hx]. apply list_elem_of_fmap in Hx as (f & -> & Hin).
    destruct (Hf f Hin) as [_ Hc]. apply Hc. apply Hshort. by rewrite <- filter_app in *.
Qed.

(** Two commands that are found side by side have no name in common, and the
    flags that apply to a command are distinct. *)
Definition unambiguous (x : Command * list Flag) : Prop :=
  distinct_flags x.2 /\ NoDup (flat_map names (cmd_Commands x.1)).

(** The commands apply the persistent flags of the root and their own. *)
Lemma root_flags settings goflags :
  exists cs, with_flags [] (newRootCmd settings goflags) =
    map (fun c : Command => (c, goflags ++ AddFlags settings ++ cmd_Flags c)) cs /\
    Forall (fun c => distinct_flags (AddFlags settings ++ cmd_Flags c) /\
      Forall (fun f => fl_Name f ∈ map fl_Name own_flags) (AddFlags settings ++ cmd_Flags c) /\
      Forall (fun s => s ∈ shorthands own_flags) (shorthands ((AddFlags settings ++ cmd_Flags c) ++ [helpFlag])) /\
      NoDup (flat_map names (cmd_Commands c))) cs.
Proof.
  exists (newRootCmd settings goflags :: flat_map (fun c => c :: cmd_Commands c)
    (cmd_Commands (newRootCmd settings goflags))).
  unfold newRootCmd, newEcnetCmd. destruct (IsManaged settings); (split;
    [simpl; rewrite ?app_nil_r; rewrite <- ?app_assoc; reflexivity|]);
    repeat apply Forall_cons; try apply Forall_nil; split_and!; apply (bool_decide_unpack _); by vm_compute.
Qed.

(** Whatever the environment, and whatever flags other packages register as
    long as they clash with none of the program's: no flag or shorthand is
    defined twice for any command or daemon, and no name finds two
    commands. *)
Theorem cli_tree_unambiguous settings goflags :
  foreign goflags ->
  Forall unambiguous (with_flags [] (newRootCmd settings goflags)) /\
  Forall distinct_flags [controller_FlagSet; bridge_FlagSet; bootstrap_FlagSet; preinstall_FlagSet].
Proof.
  intros Hgo. split.
  - destruct (root_flags settings goflags) as (cs & -> & Hcs). rewrite Forall_forall in Hcs. rewrite Forall_forall.
    intros x (c & -> & Hc)%list_elem_of_fmap. destruct (Hcs c Hc) as (H1 & H2 & H3 & H4).
    split; [by apply foreign_distinct|done].
  - apply (bool_decide_unpack _). by vm_compute.
Qed.

(** The argument [args[0]] of [namespace remove] is there. *)
Lemma remove_has_argument args : args_ok (cmd_Args newNamespaceRemoveCmd) args = true -> exists ns, args = [ns].
Proof. destruct args as [|a [|b args]]; simpl; try done. eauto. Qed.
