(* ===== verification/KubeEvents.v ===== *)
(** * The other subscribers of the broker ([messaging], [ticker],
      [k8s/announcement_handlers.go], [catalog/catalog.go])

    After its proxy update, the processor publishes every message on the
    pub-sub instance of Kubernetes events. Two goroutines are subscribed to
    updates of the configuration: the watcher of the resync ticker ([Ticker]),
    which [NewMeshCatalog] starts, and the one that watches the log level. The
    library ([PubSub] of [ProxyInform]) sends a message to its subscribers one
    after the other, so a subscriber that does not receive holds it up, and
    with it the processor. *)

From Stdlib Require Import String.
From S2P Require Import Prelude GoStrings Constants MeshService ApiTypes Broker Health Ticker ProxyInform.

(** ** The log level *)

(** An event in the loop of [WatchAndUpdateLogLevel]: the error that is
    logged, if any. The global level stays as it is. *)
Definition WatchAndUpdateLogLevel_event (event : option PubSubMessage) (level : Level) : option string * Level :=
  match event with
  | None => (Some "Error casting to PubSubMessage", level)
  | Some msg =>
      match psm_OldObj msg, psm_NewObj msg with
      | Some (ObjEcnetConfig _), Some (ObjEcnetConfig _) => (None, level)
      | _, _ => (Some "Error casting to *EcnetConfig", level)
      end
  end.

(** The comment of the function says that it updates the level; it never
    does. *)
Lemma log_level_never_updated event level : (WatchAndUpdateLogLevel_event event level).2 = level.
Proof. by destruct event as [[? [[]|] [[]|]]|]. Qed.

(** ** The system *)

Section KubeEvents.
Context `{!PubSub} (ParseDuration : string -> option Z).

Definition configTopic : string := Kind_String EcnetConfigUpdated.

Definition chTicker : nat := 0.
Definition chLog : nat := 1.

Record KSys := mkKSys {
  k_ps : ps_state;
  k_pub : option PubSubMessage;        (* the processor is in [Pub] *)
  k_sending : option PubSubMessage;    (* the message the library sends *)
  k_ticker : ResyncTicker;
  k_level : Level;
  k_queue : list PubSubMessage;
  k_counters : Counters;
  k_processed : list PubSubMessage
}.

(** [NewMeshCatalog] starts the ticker, with a minimal interval of thirty
    seconds; both goroutines are subscribed. *)
Definition minResyncInterval : Z := 30 * Second.

Definition k_init (resyncInterval : Z) (level : Level) : KSys :=
  mkKSys (ps_Sub chLog [configTopic] (ps_Sub chTicker [configTopic] ps_new)) None None
    (Start (NewResyncTicker minResyncInterval) resyncInterval) level [] (mkCounters 0 0 0) [].

(** The environment queues a message. *)
Inductive k_env : KSys -> KSys -> Prop :=
| k_add y msg :
    k_env y (mkKSys (k_ps y) (k_pub y) (k_sending y) (k_ticker y) (k_level y) (k_queue y ++ [msg])
      (k_counters y) (k_processed y)).

(** What the goroutines do. A message for a proxy is received by its
    subscribers ([Convergence]). *)
Inductive k_step : KSys -> KSys -> Prop :=
| k_process y pre msg post :
    k_pub y = None -> k_queue y = pre ++ msg :: post ->
    k_step y (mkKSys (k_ps y) (Some msg) (k_sending y) (k_ticker y) (k_level y) (pre ++ post)
      (processEvent (k_counters y) msg).1 (k_processed y ++ [msg]))
| k_take y msg :
    k_pub y = Some msg -> ps_pending (k_ps y) = [] ->
    k_step y (mkKSys (ps_Pub (Kind_String (psm_Kind msg)) (k_ps y)) None (Some msg) (k_ticker y) (k_level y)
      (k_queue y) (k_counters y) (k_processed y))
| k_ticker_receives y rest msg t' :
    ps_pending (k_ps y) = chTicker :: rest -> k_sending y = Some msg ->
    ticker_step ParseDuration (k_ticker y) (LConfig (Some msg)) t' ->
    k_step y (mkKSys (ps_deliver (k_ps y)) (k_pub y) (k_sending y) t' (k_level y) (k_queue y)
      (k_counters y) (k_processed y))
| k_log_receives y rest msg :
    ps_pending (k_ps y) = chLog :: rest -> k_sending y = Some msg ->
    k_step y (mkKSys (ps_deliver (k_ps y)) (k_pub y) (k_sending y) (k_ticker y)
      (WatchAndUpdateLogLevel_event (Some msg) (k_level y)).2 (k_queue y) (k_counters y) (k_processed y))
| k_ticker_works y t' :
    ticker_step ParseDuration (k_ticker y) LInternal t' ->
    k_step y (mkKSys (k_ps y) (k_pub y) (k_sending y) t' (k_level y) (k_queue y) (k_counters y) (k_processed y))
| k_ticks y t' :
    ticker_step ParseDuration (k_ticker y) LTick t' ->
    k_step y (mkKSys (k_ps y) (k_pub y) (k_sending y) t' (k_level y) (k_queue y ++ [tick_message])
      (k_counters y) (k_processed y)).

Definition k_any (x y : KSys) : Prop := k_env x y \/ k_step x y.

(** ** The processor that stops *)

(** The watcher of the ticker is in the send of [stopTicker], and there is
    no routine to receive. *)
Definition ticker_blocked (t : ResyncTicker) : Prop := exists k, rt_watcher t = Sending k /\ rt_routines t = [].

Definition frozen (y : KSys) : Prop :=
  ticker_blocked (k_ticker y) /\ head (ps_pending (k_ps y)) = Some chTicker /\ is_Some (k_pub y).

Lemma blocked_no_step t l t' : ticker_blocked t -> ~ ticker_step ParseDuration t l t'.
Proof.
  intros (k & Hw & Hr) Hs. inversion Hs; subst; rewrite ?Hr in *; try congruence; by eapply nil_split.
Qed.

Lemma frozen_stays x y : k_any x y -> frozen x -> frozen y /\ k_processed y = k_processed x.
Proof.
  intros [[z msg]|Hs] (Hb & Hh & [m Hp]); [by repeat split|].
  destruct Hs as [z pre msg post Hn|z msg _ Hn|z rest msg t' _ _ Ht|z rest msg Hc|z t' Ht|z t' Ht];
    try congruence; try (by apply blocked_no_step in Ht).
  - by rewrite Hn in Hh.
  - by rewrite Hc in Hh.
Qed.

Lemma frozen_forever x y : rtc k_any x y -> frozen x -> k_processed y = k_processed x.
Proof.
  induction 1 as [|x y z Hs _ IH]; intros Hf; [done|].
  destruct (frozen_stays _ _ Hs Hf) as [Hf' <-]. by apply IH.
Qed.

(** Both goroutines are subscribed to updates of the configuration. *)
Definition both_subscribed (p : ps_state) : Prop :=
  forall ch t, ps_subscribed p ch t = bool_decide ((ch = chTicker \/ ch = chLog) /\ t = configTopic).

Lemma both_subscribed_init : both_subscribed (ps_Sub chLog [configTopic] (ps_Sub chTicker [configTopic] ps_new)).
Proof.
  intros ch t. rewrite !ps_Sub_subscribed, ps_new_subscribed, orb_false_r, <- bool_decide_or.
  apply bool_decide_ext. set_solver.
Qed.

(** An update of the configuration is sent to both, in some order. *)
Lemma config_pending p :
  both_subscribed p -> ps_pending p = [] ->
  ps_pending (ps_Pub configTopic p) = [chTicker; chLog] \/ ps_pending (ps_Pub configTopic p) = [chLog; chTicker].
Proof.
  intros Hs Hp. destruct (ps_Pub_pending configTopic p Hp) as [Hnd Hin].
  assert (Hel : forall ch, ch ∈ ps_pending (ps_Pub configTopic p) <-> ch = chTicker \/ ch = chLog).
  { intros ch. rewrite Hin, Hs, bool_decide_eq_true. naive_solver. }
  apply Permutation_length_2_inv, NoDup_Permutation; [|done|].
  - apply NoDup_cons. split; [by intros ?%list_elem_of_singleton|apply NoDup_singleton].
  - intros ch. rewrite Hel. set_solver.
Qed.

(** At rest, with both subscribed. *)
Definition settled (y : KSys) : Prop :=
  k_pub y = None /\ ps_pending (k_ps y) = [] /\ k_queue y = [] /\ both_subscribed (k_ps y).

(** A message that is queued at rest is processed and taken by the
    library. *)
Lemma message_taken y msg :
  settled y -> psm_Kind msg = EcnetConfigUpdated ->
  rtc k_any y (mkKSys (ps_Pub configTopic (k_ps y)) None (Some msg) (k_ticker y) (k_level y) []
    (processEvent (k_counters y) msg).1 (k_processed y ++ [msg])).
Proof.
  intros (Hpub & Hps & Hq & _) Hk.
  eapply rtc_l; [left; apply (k_add y msg)|]. eapply rtc_l; [right; apply (k_process _ [] msg []); simpl; [done|by rewrite Hq]|].
  simpl. eapply rtc_l; [right; by apply k_take|]. simpl. rewrite Hk. apply rtc_refl.
Qed.

(** Both receive it when the watcher of the ticker is in its [select]. *)
Lemma message_received y msg :
  settled y -> psm_Kind msg = EcnetConfigUpdated -> rt_watcher (k_ticker y) = Watching ->
  exists z, rtc k_any y z /\ settled z /\ k_ticker z = on_config ParseDuration (k_ticker y) (Some msg) /\
    k_processed z = k_processed y ++ [msg].
Proof.
  intros Hset Hk Hw. pose proof Hset as (_ & Hps & _ & Hsub).
  assert (Hsub' : both_subscribed (ps_deliver (ps_deliver (ps_Pub configTopic (k_ps y))))).
  { intros ch t. by rewrite !ps_deliver_subscribed, ps_Pub_subscribed. }
  pose proof (step_config ParseDuration (k_ticker y) (Some msg) Hw) as Ht.
  destruct (config_pending _ Hsub Hps) as [E|E]; eexists; (split; [etrans;
    [by apply message_taken|]|]).
  - eapply rtc_l; [right; eapply k_ticker_receives; [exact E|done|exact Ht]|].
    eapply rtc_l; [right; eapply k_log_receives; [simpl; rewrite ps_deliver_pending, E; done|done]|]. apply rtc_refl.
  - split_and!; try done. split_and!; simpl; try done. by rewrite !ps_deliver_pending, E.
  - eapply rtc_l; [right; eapply k_log_receives; [exact E|done]|].
    eapply rtc_l; [right; eapply k_ticker_receives; [simpl; rewrite ps_deliver_pending, E; done|done|exact Ht]|].
    apply rtc_refl.
  - split_and!; try done. split_and!; simpl; try done. by rewrite !ps_deliver_pending, E.
Qed.

(** While the watcher is blocked, the library comes to wait for it. *)
Lemma message_held y msg next :
  settled y -> psm_Kind msg = EcnetConfigUpdated -> ticker_blocked (k_ticker y) ->
  exists z, rtc k_any y z /\ frozen z /\ k_processed z = k_processed y ++ [msg; next].
Proof.
  intros Hset Hk Hb. pose proof Hset as (_ & Hps & _ & Hsub).
  assert (Hlast : forall x, k_pub x = None -> k_queue x = [] -> ticker_blocked (k_ticker x) ->
    head (ps_pending (k_ps x)) = Some chTicker -> k_processed x = k_processed y ++ [msg] ->
    exists z, rtc k_any x z /\ frozen z /\ k_processed z = k_processed y ++ [msg; next]).
  { intros x Hp Hq Hbx Hh Hpr. eexists. split.
    - eapply rtc_l; [left; apply (k_add x next)|].
      eapply rtc_l; [right; apply (k_process _ [] next []); simpl; [done|by rewrite Hq]|]. apply rtc_refl.
    - split; [by repeat split|]. simpl. by rewrite Hpr, <- app_assoc. }
  pose proof (message_taken y msg Hset Hk) as Htaken.
  destruct (config_pending _ Hsub Hps) as [E|E].
  - destruct (Hlast (mkKSys (ps_Pub configTopic (k_ps y)) None (Some msg) (k_ticker y) (k_level y) []
      (processEvent (k_counters y) msg).1 (k_processed y ++ [msg]))) as (z & Hz & Hf & Hp); try done; [by simpl; rewrite E|].
    exists z. split; [by etrans|done].
  - destruct (Hlast (mkKSys (ps_deliver (ps_Pub configTopic (k_ps y))) None (Some msg) (k_ticker y)
      (WatchAndUpdateLogLevel_event (Some msg) (k_level y)).2 []
      (processEvent (k_counters y) msg).1 (k_processed y ++ [msg]))) as (z & Hz & Hf & Hp); try done;
      [by simpl; rewrite ps_deliver_pending, E|].
    exists z. split; [|done]. etrans; [exact Htaken|]. eapply rtc_l; [right; by eapply k_log_receives|]. exact Hz.
Qed.

(** C40: Setting the resync interval to 0 while no ticker runs can stop the
    processor of the broker. The watcher of the ticker waits for ever in
    [stopTicker]; the next update of the configuration is never received by
    it; the message after that is the last one that is processed: whatever
    is queued later, no proxy is updated any more. *)
Theorem zero_interval_stops_processor level zero update next :
  psm_Kind zero = EcnetConfigUpdated -> new_interval ParseDuration (Some zero) = Some 0 ->
  psm_Kind update = EcnetConfigUpdated ->
  exists x, rtc k_any (k_init 0 level) x /\ k_processed x = [zero; update; next] /\
    forall y, rtc k_any x y -> k_processed y = [zero; update; next].
Proof.
  intros Hz Hint Hu.
  assert (Hinit : settled (k_init 0 level)).
  { split_and!; try done; [|apply both_subscribed_init]. simpl. by rewrite !ps_Sub_pending, ps_new_pending. }
  destruct (message_received _ _ Hinit Hz eq_refl) as (x1 & Hr1 & Hset1 & Ht1 & Hp1).
  destruct (message_held x1 update next Hset1 Hu) as (x2 & Hr2 & Hf & Hp2).
  { exists ThenWatch. rewrite Ht1. unfold on_config. rewrite Hint. done. }
  rewrite Hp1 in Hp2. simpl in Hp2. exists x2. split_and!; [by etrans|done|].
  intros y Hy. rewrite <- Hp2. by eapply frozen_forever.
Qed.

(** ** The processor that goes on *)

(** Intervals are at least the minimal one, and the watcher has not
    returned. *)
Definition routine_interval (r : routine) : Z := match r with Spawned d | Ticking d => d end.

Definition long (min : Z) (k : after_stop) : Prop :=
  match k with ThenStart d => min <= d | ThenWatch => True | ThenLaunch _ | ThenReturn => False end.

Record ticker_ok (t : ResyncTicker) : Prop := {
  to_min : rt_minTickInterval t = minResyncInterval;
  to_routines : Forall (fun r => minResyncInterval <= routine_interval r) (rt_routines t);
  to_watcher : match rt_watcher t with
               | Watching => True | Sending k | Sent k => long minResyncInterval k | Returned => False end
}.

Lemma ticker_ok_start resync : ticker_ok (Start (NewResyncTicker minResyncInterval) resync).
Proof.
  unfold Start, launch. simpl. destruct (Z.leb_spec minResyncInterval resync); split; simpl; try done; by repeat constructor.
Qed.

Lemma ticker_ok_step t l t' : ticker_step ParseDuration t l t' -> l <> LQuit -> ticker_ok t -> ticker_ok t'.
Proof.
  intros Hs Hl [Hm Hr Hw].
  destruct Hs as [t msg Ht|t Ht|t pre d post Ht Hd|t pre d post Ht Hd|t k pre d post Hk Ht|t k Hk|t pre d post Ht]; try done.
  - unfold on_config. destruct (new_interval ParseDuration msg) as [d|]; [|by split].
    destruct (Z.leb_spec (rt_minTickInterval t) d); [destruct (rt_running t)|destruct (Z.eqb d 0)]; split; simpl; try done.
    + by rewrite <- Hm.
    + apply Forall_app. split; [done|]. repeat constructor. simpl. by rewrite <- Hm.
  - rewrite Ht, Forall_app, Forall_cons in Hr. split; simpl; try done. rewrite Forall_app, Forall_cons. done.
  - rewrite Ht, Forall_app, Forall_cons in Hr. rewrite Hk in Hw. split; simpl; try done. rewrite Forall_app. naive_solver.
  - rewrite Hk in Hw. destruct k; simpl in Hw; try done; split; simpl; try done.
    apply Forall_app. split; [done|]. repeat constructor. done.
Qed.

Record k_inv (y : KSys) : Prop := {
  ki_subscribed : both_subscribed (k_ps y);
  ki_pending : forall ch, ch ∈ ps_pending (k_ps y) -> ch = chTicker \/ ch = chLog;
  ki_sending : ps_pending (k_ps y) <> [] -> is_Some (k_sending y);
  ki_ticker : ticker_ok (k_ticker y)
}.

Lemma k_inv_init resync level : k_inv (k_init resync level).
Proof.
  assert (E : ps_pending (k_ps (k_init resync level)) = []) by (simpl; by rewrite !ps_Sub_pending, ps_new_pending).
  split; [apply both_subscribed_init|rewrite E; by intros ? []%not_elem_of_nil|by rewrite E|apply ticker_ok_start].
Qed.

Lemma k_inv_deliver y t level :
  k_inv y -> ticker_ok t -> is_Some (k_sending y) ->
  k_inv (mkKSys (ps_deliver (k_ps y)) (k_pub y) (k_sending y) t level (k_queue y) (k_counters y) (k_processed y)).
Proof.
  intros [Hs Hp _ _] Ht Hm. split; simpl; try done.
  - intros ch tp. by rewrite ps_deliver_subscribed.
  - intros ch. rewrite ps_deliver_pending. intros Hin. apply Hp. destruct (ps_pending (k_ps y)); [done|by right].
Qed.

Lemma k_inv_step x y : k_any x y -> k_inv x -> k_inv y.
Proof.
  intros [[z msg]|Hst] Hinv; pose proof Hinv as [Hs Hp Hm Ht]; [by split|].
  destruct Hst as [z pre msg post Hn|z msg Hpub Hn|z rest msg t' Hc Hsend Htk|z rest msg Hc Hsend|z t' Htk|z t' Htk].
  - by split.
  - destruct (ps_Pub_pending (Kind_String (psm_Kind msg)) _ Hn) as [_ Hin]. split; simpl; try done.
    + intros ch tp. by rewrite ps_Pub_subscribed.
    + intros ch. rewrite Hin, Hs, bool_decide_eq_true. naive_solver.
  - apply k_inv_deliver; [done| |by eexists]. by eapply ticker_ok_step.
  - apply k_inv_deliver; [done|done|by eexists].
  - split; try done. by eapply ticker_ok_step.
  - split; try done. by eapply ticker_ok_step.
Qed.

Lemma k_inv_reachable resync level y : rtc k_any (k_init resync level) y -> k_inv y.
Proof.
  intros Hr. assert (Hgen : forall x, rtc k_any x y -> k_inv x -> k_inv y).
  { induction 1 as [|x z y' Hs _ IH]; eauto using k_inv_step. }
  eauto using k_inv_init.
Qed.

(** A watcher that is not blocked is in its [select] or can go on. *)
Lemma watcher_progress t :
  ticker_ok t -> rt_watcher t = Watching \/ ticker_blocked t \/ exists t', ticker_step ParseDuration t LInternal t'.
Proof.
  intros [Hm Hr Hw]. destruct (rt_watcher t) as [|k|k|] eqn:E; [by left| | |done]; right.
  - destruct (rt_routines t) as [|[d|d] l] eqn:Er; [left; by exists k|right|right]; eexists.
    + apply (step_begin _ t [] d l); [done|]. apply Forall_cons in Hr as [Hd _]. simpl in Hd.
      unfold minResyncInterval, Second in Hd. lia.
    + by apply (step_stop _ t k [] d l).
  - right. eexists. by apply step_stopped.
Qed.

(** The processor waits for ever only for a ticker that is blocked: in every
    reachable state with a message that is queued or being published,
    something can be done, unless the library waits for a watcher that waits
    for a routine that is not there. *)
Theorem kube_events_progress resync level y :
  rtc k_any (k_init resync level) y ->
  (k_queue y = [] /\ k_pub y = None /\ ps_pending (k_ps y) = []) \/ (exists z, k_step y z) \/
  (ticker_blocked (k_ticker y) /\ head (ps_pending (k_ps y)) = Some chTicker).
Proof.
  intros Hr%k_inv_reachable. destruct Hr as [Hs Hp Hm Ht].
  destruct (ps_pending (k_ps y)) as [|ch rest] eqn:E.
  - destruct (k_pub y) as [m|] eqn:Epub; [right; left; eexists; by apply k_take|].
    destruct (k_queue y) as [|m q] eqn:Eq; [by left|right; left; eexists; by apply (k_process y [] m q)].
  - right. destruct Hm as [msg Hmsg]; [done|]. destruct (Hp ch (list_elem_of_here _ _)) as [-> | ->].
    + destruct (watcher_progress _ Ht) as [Hw|[Hb|[t' Hw]]]; [left|by right|left]; eexists.
      * eapply k_ticker_receives; [done|done|by apply step_config].
      * by apply k_ticker_works.
    + left. eexists. by eapply k_log_receives.
Qed.

End KubeEvents.

(** The interval is set from none to [0s], and the log level is changed. *)
Definition zero_update : PubSubMessage :=
  mkPubSubMessage EcnetConfigUpdated (Some (ObjEcnetConfig (config_with_interval "")))
    (Some (ObjEcnetConfig (config_with_interval "0s"))).
Definition later_update : PubSubMessage :=
  mkPubSubMessage EcnetConfigUpdated (Some (ObjEcnetConfig (config_with_interval "0s")))
    (Some (ObjEcnetConfig (config_with_interval "0s"))).

Lemma zero_interval_stops_processor_witness :
  exists x, rtc (k_any example_durations) (k_init 0 InfoLevel) x /\
    k_processed x = [zero_update; later_update; tick_message] /\
    forall y, rtc (k_any example_durations) x y -> k_processed y = [zero_update; later_update; tick_message].
Proof.
  apply (zero_interval_stops_processor example_durations InfoLevel zero_update later_update tick_message);
    [reflexivity|vm_compute; reflexivity|reflexivity].
Defined.
