(* ===== verification/BridgeSystem.v ===== *)
(** * The bridge over time

    The catalog and the Kubernetes controller change, and jobs of the bridge
    run ([bridge/dataplane/server]). Whatever the history, once a job has run
    after the last change, the bridge answers for exactly the host names of
    the HTTP services of the last catalog a job saw that had any, and knows
    the addresses of the DNS service. *)

From Stdlib Require Import Ascii String.
From S2P Require Import Prelude GoStrings MapSet NetIP Constants MeshService ApiTypes.
From S2P Require Import Informers Kube Multicluster Provider Policy Catalog PipyRoutes PipySystem Dataplane.

Section BridgeSystem.
Context (resMap : BpfMap dnsQuery aRecord) (epMap : BpfMap (list Z) (list Z)).
Context (LoadPinnedMap : string -> option string) (PackDomainName : string -> list Z + string).
Context {RO : RangeOrder} `{!MapSet WeightedCluster} `{!MapSet string}.
Context (trustDomain : string) (config : EcnetConfig).

#[local] Notation Server := (Server resMap epMap).
#[local] Notation Run := (Run resMap epMap LoadPinnedMap PackDomainName).

(** What the job reads, and the state of the server. *)
Record Node := mkNode {
  nd_catalog : MeshCatalog;
  nd_controller : Controller;
  nd_server : Server
}.

Inductive node_action :=
| NodeChange (mc : MeshCatalog) (kc : Controller)
| NodeJob.

Definition node_step (n : Node) (a : node_action) : outcome Node :=
  match a with
  | NodeChange mc kc => Ret (mkNode mc kc (nd_server n))
  | NodeJob =>
      s ← Run (nd_controller n) config (GetOutboundMeshTrafficPolicy (nd_catalog n) trustDomain) (nd_server n);
      Ret (mkNode (nd_catalog n) (nd_controller n) s)
  end.

(** ** The host names of a catalog *)

Definition http_host (mc : MeshCatalog) (h : string) : Prop :=
  ContainsByte h ":" = false /\
  exists ms, ms ∈ ListOutboundServices mc /\ http_service ms = true /\
    h ∈ service_hosts trustDomain ms.

Definition has_http (mc : MeshCatalog) : Prop :=
  exists ms, ms ∈ ListOutboundServices mc /\ http_service ms = true.

Lemma has_http_existsb mc : existsb http_service (ListOutboundServices mc) = true <-> has_http mc.
Proof. apply existsb_elem. Qed.

(** The HTTP services of a port. *)
Lemma routed_elem mc ms :
  ms ∈ ListOutboundServices mc -> http_service ms = true ->
  ms ∈ List.filter (fun x => http_service x && Z.eqb (ms_Port x) (ms_Port ms)) (ListOutboundServices mc).
Proof.
  intros Hin Hhttp. apply list_elem_of_In, filter_In. rewrite Hhttp, Z.eqb_refl. split; [by apply list_elem_of_In|done].
Qed.

Lemma wanted_http mc h : wanted (GetOutboundMeshTrafficPolicy mc trustDomain) h <-> http_host mc h.
Proof.
  pose proof (outbound_policy_of mc trustDomain) as [_ _ Hr _]. unfold wanted, http_host. split.
  - intros (Hc & port & policies & p & Hl & Hp & Hh). split; [done|]. rewrite Hr in Hl. simpl in Hl.
    destruct (nonempty _); [|done]. injection Hl as <-. apply list_elem_of_fmap in Hp as (ms & -> & Hms).
    apply list_elem_of_In, filter_In in Hms as [Hin Hf]. apply andb_true_iff in Hf as [Hhttp _].
    exists ms. split_and!; [by apply list_elem_of_In|done|by apply elem_of_GetHostnamesForService].
  - intros (Hc & ms & Hin & Hhttp & Hh%elem_of_GetHostnamesForService). split; [done|].
    exists (ms_Port ms). rewrite Hr. simpl.
    pose proof (routed_elem mc ms Hin Hhttp) as Hms.
    destruct (List.filter _ _) as [|x l] eqn:E; [by apply not_elem_of_nil in Hms|].
    eexists _, (service_routes mc trustDomain ms). split_and!; [done| |done].
    apply list_elem_of_fmap. by exists ms.
Qed.

Lemma routes_empty mc :
  omtp_HTTPRouteConfigsPerPort (GetOutboundMeshTrafficPolicy mc trustDomain) = ∅ <-> ~ has_http mc.
Proof.
  pose proof (outbound_policy_of mc trustDomain) as [_ _ Hr _]. split.
  - intros E (ms & Hin & Hhttp). specialize (Hr (ms_Port ms)). rewrite E, lookup_empty in Hr. simpl in Hr.
    pose proof (routed_elem mc ms Hin Hhttp) as Hms.
    destruct (List.filter _ _); [by apply not_elem_of_nil in Hms|done].
  - intros Hno. apply map_empty. intros port. rewrite Hr. simpl.
    destruct (List.filter _ _) as [|ms l] eqn:E; [done|]. exfalso. apply Hno.
    assert (Hms : In ms (ms :: l)) by (by left). rewrite <- E in Hms.
    apply filter_In in Hms as [Hin [Hh _]%andb_true_iff]. exists ms. split; [by apply list_elem_of_In|done].
Qed.

(** ** What the job relies on *)

(** The host names can be written on the wire when they are fully qualified,
    and are refused otherwise. *)
Definition names_ok (mc : MeshCatalog) : Prop :=
  forall h, http_host mc h ->
    (exists packed, PackDomainName (h +:+ ".") = inl packed) /\ (exists err, PackDomainName h = inr err).

(** The DNS service is not there, or it has a cluster address and IPv4
    addresses. *)
Definition dns_server (kc : Controller) (ip : string) : Prop :=
  exists eps, ctl_GetEndpoints kc (dns_service config) = (Some eps, None) /\ dns_address (dns_service config) eps ip.

Definition dns_ok (kc : Controller) : Prop :=
  (exists e, (ctl_GetEndpoints kc (dns_service config)).2 = Some e) \/
  exists eps svc cip, ctl_GetEndpoints kc (dns_service config) = (Some eps, None) /\
    ctl_GetService kc (dns_service config) = Some svc /\ ip2ptr (svc_ClusterIP svc) = Ret (Some cip) /\
    forall ip, dns_address (dns_service config) eps ip -> exists b, ip2ptr ip = Ret (Some b).

Record server_inv (s : Server) : Prop := {
  sv_resolves : k_dnsResolveMap resMap epMap (srv_kernel resMap epMap s) = true;
  sv_endpoints : k_dnsEndpointMap resMap epMap (srv_kernel resMap epMap s) = true;
  sv_tracked : srv_dnsEndpoints resMap epMap s = ∅;
  sv_served : served resMap epMap PackDomainName s;
  sv_refused : forall h, is_Some (srv_dnsResolves resMap epMap s !! h) -> exists err, PackDomainName h = inr err
}.

(** A server whose start loaded the maps. *)
Lemma server_inv_new k :
  (InitLoadPinnedMap resMap epMap LoadPinnedMap k).2 = None ->
  server_inv (NewBridgeServer resMap epMap (InitLoadPinnedMap resMap epMap LoadPinnedMap k).1).
Proof.
  unfold InitLoadPinnedMap. destruct (LoadPinnedMap ECNetDNSResolveMap); [done|].
  destruct (LoadPinnedMap ECNetDNSEndpointMap); [done|]. intros _.
  split; simpl; try done; [intros h q [v Hv]|intros h [v Hv]]; simpl in Hv; by rewrite lookup_empty in Hv.
Qed.

Context (Hres : roomy resMap) (Hep : roomy epMap).

(** The DNS endpoints, whether the service is there or not. *)
Lemma endpoints_job kc s :
  dns_ok kc -> server_inv s ->
  exists s', syncDNSEndpoints resMap epMap LoadPinnedMap kc config s = Ret s' /\ server_inv s' /\
    srv_dnsResolves resMap epMap s' = srv_dnsResolves resMap epMap s /\
    k_bridgeIPInt resMap epMap (srv_kernel resMap epMap s') = k_bridgeIPInt resMap epMap (srv_kernel resMap epMap s) /\
    forall ip, dns_server kc ip -> exists b svc cip, ip2ptr ip = Ret (Some b) /\
      ctl_GetService kc (dns_service config) = Some svc /\ ip2ptr (svc_ClusterIP svc) = Ret (Some cip) /\
      ep_view resMap epMap s' !! b = Some cip.
Proof using Hep.
  intros Hdns Hinv. pose proof Hinv as [H1 H2 H3 H4 H5].
  destruct Hdns as [[e He]|(eps & svc & cip & Heps & Hsvc & Hcip & Hips)].
  - exists s. unfold syncDNSEndpoints. destruct (ctl_GetEndpoints kc (dns_service config)) as [eps oe] eqn:E.
    simpl in He. subst oe. split_and!; try done. intros ip (eps' & Hc & _). congruence.
  - destruct (endpoints_synced resMap epMap LoadPinnedMap PackDomainName kc config s svc eps cip Hep H2 H3 Hsvc Heps Hcip Hips)
      as (s' & Hrun & Hin & _ & Ht & Hr & (Hf1 & Hf2 & Hf3) & Hk).
    exists s'. split; [done|]. split; [split|split_and!; [done|done|]].
    + by rewrite Hf2.
    + by rewrite Hf3.
    + done.
    + intros h q Hh Hq. rewrite Hr in Hh. destruct (H4 h q Hh Hq) as (packed & Hp & Hv). exists packed.
      split; [done|]. unfold res_view, bridge_record in *. by rewrite Hk, Hf1.
    + intros h. rewrite Hr. apply H5.
    + intros ip (eps' & Heps' & Haddr). rewrite Heps in Heps'. injection Heps' as <-.
      destruct (Hips ip Haddr) as [b Hb]. exists b, svc, cip. split_and!; try done. by apply (Hin ip).
Qed.

Lemma resolves_job mc s :
  names_ok mc -> server_inv s ->
  exists s', syncDNSResolves resMap epMap LoadPinnedMap PackDomainName (GetOutboundMeshTrafficPolicy mc trustDomain) s = Ret s' /\
    server_inv s' /\ ep_view resMap epMap s' = ep_view resMap epMap s /\
    k_bridgeIPInt resMap epMap (srv_kernel resMap epMap s') = k_bridgeIPInt resMap epMap (srv_kernel resMap epMap s) /\
    (has_http mc -> forall h, is_Some (srv_dnsResolves resMap epMap s' !! h) <-> http_host mc h) /\
    (~ has_http mc -> s' = s).
Proof using Hres.
  intros Hnames Hinv. pose proof Hinv as [H1 H2 H3 H4 H5].
  destruct (decide (omtp_HTTPRouteConfigsPerPort (GetOutboundMeshTrafficPolicy mc trustDomain) = ∅)) as [E|E].
  - exists s. unfold syncDNSResolves. rewrite bool_decide_true by done. apply routes_empty in E. by split_and!.
  - destruct (resolves_synced resMap epMap LoadPinnedMap PackDomainName (GetOutboundMeshTrafficPolicy mc trustDomain) s Hres H1 H4 E)
      as (s' & Hrun & Hd & Hs & _ & He & Ht & (Hf1 & Hf2 & Hf3)).
    + intros h Hw%wanted_http. by apply Hnames.
    + done.
    + setoid_rewrite wanted_http in Hd. exists s'. split; [done|]. split; [split|].
      * by rewrite Hf2.
      * by rewrite Hf3.
      * congruence.
      * done.
      * intros h Hh%Hd. by apply Hnames.
      * split_and!; try done. intros Hno%routes_empty. done.
Qed.

(** ** Histories *)

#[local] Notation bridge_ip s := (k_bridgeIPInt resMap epMap (srv_kernel resMap epMap s)).

(** The last catalog with HTTP services that a job saw, if any. *)
Fixpoint last_http (cur : MeshCatalog) (seen : option MeshCatalog) (actions : list node_action)
  : option MeshCatalog :=
  match actions with
  | [] => seen
  | NodeChange mc _ :: actions' => last_http mc seen actions'
  | NodeJob :: actions' =>
      last_http cur (if existsb http_service (ListOutboundServices cur) then Some cur else seen) actions'
  end.

(** The names the server tracks: those of a catalog, or those of [s0]. *)
Definition tracks (seen : option MeshCatalog) (s0 s : Server) : Prop :=
  forall h, is_Some (srv_dnsResolves resMap epMap s !! h) <->
    match seen with
    | Some mc => http_host mc h
    | None => is_Some (srv_dnsResolves resMap epMap s0 !! h)
    end.

(** The DNS service, when it is there, is known. *)
Definition dns_programmed (n : Node) : Prop :=
  forall ip, dns_server (nd_controller n) ip -> exists b svc cip, ip2ptr ip = Ret (Some b) /\
    ctl_GetService (nd_controller n) (dns_service config) = Some svc /\
    ip2ptr (svc_ClusterIP svc) = Ret (Some cip) /\ ep_view resMap epMap (nd_server n) !! b = Some cip.

(** Both DNS queries for each tracked name are answered with [ip0]. *)
Definition answers (ip0 : Z) (s : Server) : Prop :=
  forall h q, is_Some (srv_dnsResolves resMap epMap s !! h) -> q ∈ qTypes ->
    exists packed, PackDomainName (h +:+ ".") = inl packed /\
      res_view resMap epMap s !! mkDnsQuery q ClassINET packed = Some (mkARecord (be32 ip0) 60).

Lemma server_inv_answers s : server_inv s -> answers (bridge_ip s) s.
Proof. intros Hi h q Hh Hq. exact (sv_served _ Hi h q Hh Hq). Qed.

(** A job, and what it leaves behind. *)
Lemma node_job n seen s0 :
  names_ok (nd_catalog n) -> dns_ok (nd_controller n) -> server_inv (nd_server n) ->
  tracks seen s0 (nd_server n) ->
  exists n', node_step n NodeJob = Ret n' /\ nd_catalog n' = nd_catalog n /\ nd_controller n' = nd_controller n /\
    server_inv (nd_server n') /\ bridge_ip (nd_server n') = bridge_ip (nd_server n) /\
    tracks (last_http (nd_catalog n) seen [NodeJob]) s0 (nd_server n') /\ dns_programmed n'.
Proof using Hres Hep.
  intros Hn Hd Hi Ht. destruct (endpoints_job _ _ Hd Hi) as (s1 & E1 & Hi1 & Hr1 & Hb1 & Hdns).
  destruct (resolves_job _ _ Hn Hi1) as (s2 & E2 & Hi2 & He & Hb2 & Hhttp & Hno).
  unfold node_step, Dataplane.Run. rewrite E1. cbn [mbind outcome_bind]. rewrite E2. cbn [mbind outcome_bind].
  eexists. split; [done|]. simpl. split_and!; [done|done|done|congruence| |].
  - destruct (existsb http_service _) eqn:E.
    + intros h. apply Hhttp. by apply has_http_existsb.
    + intros h. rewrite Hno, Hr1; [apply Ht|]. intros H%has_http_existsb. congruence.
  - intros ip Hip. simpl. rewrite He. by apply Hdns.
Qed.

(** The catalogs and controllers of a history are in order. *)
Definition change_ok (a : node_action) : Prop :=
  match a with NodeChange mc kc => names_ok mc /\ dns_ok kc | NodeJob => True end.

Lemma node_run n seen s0 actions :
  Forall change_ok actions -> names_ok (nd_catalog n) -> dns_ok (nd_controller n) -> server_inv (nd_server n) ->
  tracks seen s0 (nd_server n) ->
  exists n', for_range node_step n (actions ++ [NodeJob]) = Ret n' /\
    server_inv (nd_server n') /\ bridge_ip (nd_server n') = bridge_ip (nd_server n) /\
    tracks (last_http (nd_catalog n) seen (actions ++ [NodeJob])) s0 (nd_server n') /\ dns_programmed n'.
Proof using Hres Hep.
  intros Hall. revert n seen. induction Hall as [|[mc kc|] actions Ha _ IH]; intros n seen Hn Hd Hi Ht.
  - destruct (node_job n seen s0 Hn Hd Hi Ht) as (n1 & E & _ & _ & ? & ? & ? & ?). exists n1.
    cbn [app for_range]. rewrite E. done.
  - destruct Ha as [??]. by apply (IH (mkNode mc kc (nd_server n)) seen).
  - destruct (node_job n seen s0 Hn Hd Hi Ht) as (n1 & E & Hc & Hk & Hi1 & Hb & Ht1 & _).
    cbn [app for_range]. rewrite E. cbn [mbind outcome_bind last_http].
    destruct (IH n1 (last_http (nd_catalog n) seen [NodeJob])) as (n2 & ? & ? & ? & Ht2 & ?);
      [by rewrite Hc|by rewrite Hk|done|done|]. rewrite Hc in Ht2.
    exists n2. split_and!; try done. congruence.
Qed.

End BridgeSystem.

Section Histories.
Context (resMap : BpfMap dnsQuery aRecord) (epMap : BpfMap (list Z) (list Z)).
Context (LoadPinnedMap : string -> option string) (PackDomainName : string -> list Z + string).
Context {RO : RangeOrder} `{!MapSet WeightedCluster} `{!MapSet string}.
Context (trustDomain : string) (config : EcnetConfig).


End Histories.

(** ** A witness *)

#[local] Existing Instance any_order.
#[local] Existing Instance gset_MapSet.

Definition no_dns_controller : Controller :=
  mkController [] (fun _ => None) (fun _ => None) (fun _ => (None, Some "not found")).

(** The DNS service appears, and then the services. *)
Definition node_history : list node_action :=
  [NodeJob; NodeChange empty_catalog example_dns_controller; NodeJob; NodeChange example_catalog example_dns_controller].

Lemma example_names_ok mc :
  Forall (fun h => HasSuffix h "." = false)
    (ms ← ListOutboundServices mc; service_hosts "cluster.local" ms) ->
  names_ok example_pack "cluster.local" mc.
Proof.
  intros Hall h (_ & ms & Hms & _ & Hh). split; [apply example_pack_fqdn|].
  rewrite Forall_forall in Hall. unfold example_pack.
  rewrite (Hall h) by (apply list_elem_of_bind; by exists ms). eauto.
Qed.

Lemma example_dns_ok : dns_ok example_dns_config example_dns_controller.
Proof.
  right. exists example_dns_endpoints, example_dns_service, [10; 96; 0; 10]. split_and!; try reflexivity.
  intros ip (sub & Hsub & p & Hp & _ & a & Ha & _ & <- & _).
  apply list_elem_of_singleton in Hsub as ->. apply list_elem_of_singleton in Ha as ->. by eexists.
Qed.

Lemma example_bridge_inv :
  server_inv (gmap_bpf dnsQuery aRecord) (gmap_bpf (list Z) (list Z)) example_pack example_bridge.
Proof.
  split; try done; [apply example_bridge_served|]. intros h [v Hv]. simpl in Hv.
  apply lookup_singleton_Some in Hv as [<- _]. by eexists.
Qed.

